(** * A segregated-free-list allocator (mm.c): shallow embedding and properties

    The allocator manages one contiguous, growable byte region.  Every
    function of [mm.c] is transcribed as a Rocq function over an explicit
    [state] (the memory, the eleven list heads [seg], and the break of the
    backing region).  Pointers and [size_t] values are 64-bit words, kept
    as [Z] in [0, 2^64) with the wrap-around written out. *)

From Stdlib Require Import ZArith List Lia Bool.
Import ListNotations.
Open Scope Z_scope.

(** ** Machine words *)

Definition wrap (x : Z) : Z := x mod 2 ^ 64.

Definition NULL : Z := 0.

(** ** The state of the allocator *)

(** [mem] is byte addressed: it maps an address to the byte stored there.
    [seg] is the array [seg[11]] of list heads, [mem_brk] and
    [mem_max_addr] are the two bounds kept by the backing store. *)
Record state : Type := mkState {
  mem : Z -> Z;
  seg : Z -> Z;
  heap_listp : Z;
  free_list : Z;
  mem_brk : Z;
  mem_max_addr : Z
}.

Definition set_mem (st : state) (m : Z -> Z) : state :=
  mkState m (seg st) (heap_listp st) (free_list st) (mem_brk st) (mem_max_addr st).

Definition set_seg (st : state) (i v : Z) : state :=
  mkState (mem st) (fun j => if j =? i then v else seg st j)
          (heap_listp st) (free_list st) (mem_brk st) (mem_max_addr st).

Definition set_heap_listp (st : state) (p : Z) : state :=
  mkState (mem st) (seg st) p (free_list st) (mem_brk st) (mem_max_addr st).

Definition set_free_list (st : state) (p : Z) : state :=
  mkState (mem st) (seg st) (heap_listp st) p (mem_brk st) (mem_max_addr st).

Definition set_brk (st : state) (b : Z) : state :=
  mkState (mem st) (seg st) (heap_listp st) (free_list st) b (mem_max_addr st).

(** ** Constants and small helpers *)

Definition ALIGNMENT : Z := 16.
Definition WSIZE : Z := 8.
Definition DSIZE : Z := 16.
Definition CHUNKSIZE : Z := Z.shiftl 1 5.

Definition align (x : Z) : Z :=
  wrap (ALIGNMENT * (wrap (x + ALIGNMENT - 1) / ALIGNMENT)).

Definition MAX (x y : Z) : Z := if x >? y then x else y.
Definition MIN (x y : Z) : Z := if x <? y then x else y.

Definition PACK (size alloc : Z) : Z := Z.lor size alloc.

(** ** Word access: eight bytes, least significant first *)

Fixpoint load_bytes (m : Z -> Z) (p : Z) (n : nat) : Z :=
  match n with
  | O => 0
  | S k => m (wrap p) mod 256 + 256 * load_bytes m (p + 1) k
  end.

Definition store_word (m : Z -> Z) (p v : Z) : Z -> Z :=
  fun a => let off := wrap (a - p) in
           if off <? 8 then (v / 2 ^ (8 * off)) mod 256 else m a.

Definition GET (st : state) (p : Z) : Z := load_bytes (mem st) p 8.

(** In C [PUT] also returns the value written; no caller uses it. *)
Definition PUT (st : state) (p val : Z) : state :=
  set_mem st (store_word (mem st) p val).

Definition GET_SIZE (st : state) (p : Z) : Z := Z.land (GET st p) (Z.lnot 0xf).
Definition GET_ALLOC (st : state) (p : Z) : Z := Z.land (GET st p) 0x1.

Definition HDRP (bp : Z) : Z := wrap (bp - WSIZE).
Definition FTRP (st : state) (bp : Z) : Z :=
  wrap (wrap (bp + GET_SIZE st (HDRP bp)) - DSIZE).
Definition NEXT_BLKP (st : state) (bp : Z) : Z :=
  wrap (bp + GET_SIZE st (wrap (bp - WSIZE))).
Definition PREV_BLKP (st : state) (bp : Z) : Z :=
  wrap (bp - GET_SIZE st (wrap (bp - DSIZE))).
Definition NEXTF (st : state) (bp : Z) : Z := GET st (wrap (bp + WSIZE)).
Definition PREVF (st : state) (bp : Z) : Z := GET st bp.

(** ** Size classes *)

Definition iterate (size : Z) : Z :=
  if size <? 32 then 0
  else if (size >=? 32) && (size <? 64) then 1
  else if (size >=? 64) && (size <? 128) then 2
  else if (size >=? 128) && (size <? 256) then 3
  else if (size >=? 256) && (size <? 512) then 4
  else if (size >=? 512) && (size <? 1024) then 5
  else if (size >=? 1024) && (size <? 2048) then 6
  else if (size >=? 2048) && (size <? 4096) then 7
  else if (size >=? 4096) && (size <? 8192) then 8
  else if (size >=? 8192) && (size <? 16384) then 9
  else 10.

(** ** The free-list table *)

(** The tail of [delete], reached when [bp] heads no class. *)
Definition delete_splice (st : state) (bp : Z) : state :=
  if negb (PREVF st bp =? 0) && (NEXTF st bp =? 0) then
    PUT st (wrap (PREVF st bp + WSIZE)) 0
  else
    let st1 := PUT st (NEXTF st bp) (PREVF st bp) in
    PUT st1 (wrap (PREVF st1 bp + WSIZE)) (NEXTF st1 bp).

(** The loop [while (i != 11)] of [delete]; [k] counts the classes that
    remain to be looked at, so [k = 11 - i]. *)
Fixpoint delete_scan (k : nat) (i : Z) (st : state) (bp : Z) : state :=
  match k with
  | O => delete_splice st bp
  | S k' =>
      if bp =? seg st i then
        if (PREVF st bp =? 0) && negb (NEXTF st bp =? 0) then
          let st1 := PUT st (NEXTF st bp) 0 in
          set_seg st1 i (NEXTF st1 bp)
        else set_seg st i 0
      else delete_scan k' (i + 1) st bp
  end.

Definition delete (st : state) (bp : Z) : state := delete_scan 11 0 st bp.

Definition insert (st : state) (bp : Z) : state :=
  let size := GET_SIZE st (HDRP bp) in
  let find := iterate size in
  if negb (seg st find =? 0) then
    let st1 := PUT st (wrap (bp + WSIZE)) (seg st find) in
    let st2 := PUT st1 (seg st1 find) bp in
    let st3 := PUT st2 bp 0 in
    set_seg st3 find bp
  else
    let st1 := PUT st (wrap (bp + WSIZE)) 0 in
    let st2 := PUT st1 bp 0 in
    set_seg st2 find bp.

(** ** Boundary-tag coalescing *)

Definition coalesce (st : state) (bp : Z) : state * Z :=
  let prev_alloc :=
    negb (GET_ALLOC st (FTRP st (PREV_BLKP st bp)) =? 0)
    || (PREV_BLKP st bp =? bp) in
  let next_alloc := negb (GET_ALLOC st (HDRP (NEXT_BLKP st bp)) =? 0) in
  let size := GET_SIZE st (HDRP bp) in
  if prev_alloc && next_alloc then
    (insert st bp, bp)
  else if prev_alloc && negb next_alloc then
    let size := wrap (size + GET_SIZE st (HDRP (NEXT_BLKP st bp))) in
    let st1 := delete st (NEXT_BLKP st bp) in
    let st2 := PUT st1 (HDRP bp) (PACK size 0) in
    let st3 := PUT st2 (FTRP st2 bp) (PACK size 0) in
    (insert st3 bp, bp)
  else if negb prev_alloc && next_alloc then
    let size := wrap (size + GET_SIZE st (HDRP (PREV_BLKP st bp))) in
    let st1 := delete st (PREV_BLKP st bp) in
    let st2 := PUT st1 (HDRP (PREV_BLKP st1 bp)) (PACK size 0) in
    let st3 := PUT st2 (FTRP st2 bp) (PACK size 0) in
    let bp := PREV_BLKP st3 bp in
    (insert st3 bp, bp)
  else
    let size := wrap (size + wrap (GET_SIZE st (HDRP (PREV_BLKP st bp))
                                   + GET_SIZE st (FTRP st (NEXT_BLKP st bp)))) in
    let st1 := delete st (PREV_BLKP st bp) in
    let st2 := delete st1 (NEXT_BLKP st1 bp) in
    let st3 := PUT st2 (HDRP (PREV_BLKP st2 bp)) (PACK size 0) in
    let st4 := PUT st3 (FTRP st3 (NEXT_BLKP st3 bp)) (PACK size 0) in
    let bp := PREV_BLKP st4 bp in
    (insert st4 bp, bp).

(** ** The backing store *)

(** Modelled from the spec: [mem_sbrk] of memlib is not part of [mm.c].
    [growRegion(byteCount)] extends the region and returns the start of
    the new part (the old break), or the failure sentinel [(void * )-1];
    a failure leaves the prior state as it was. *)
Definition mem_sbrk (st : state) (incr : Z) : state * Z :=
  if mem_brk st + incr >? mem_max_addr st then (st, wrap (-1))
  else (set_brk st (mem_brk st + incr), mem_brk st).

Definition extend_heap (st : state) (words : Z) : state * Z :=
  let size := if negb (words mod 2 =? 0) then wrap (wrap (words + 1) * WSIZE)
              else wrap (words * WSIZE) in
  let '(st1, bp) := mem_sbrk st size in
  if bp =? wrap (-1) then (st1, NULL)
  else
    let st2 := PUT st1 (HDRP bp) (PACK size 0) in
    let st3 := PUT st2 (FTRP st2 bp) (PACK size 0) in
    let st4 := PUT st3 (HDRP (NEXT_BLKP st3 bp)) (PACK 0 1) in
    coalesce st4 bp.

(** The eleven assignments [seg[i] = 0] of [mm_init]. *)
Fixpoint clear_seg (k : nat) (i : Z) (st : state) : state :=
  match k with
  | O => st
  | S k' => clear_seg k' (i + 1) (set_seg st i 0)
  end.

Definition mm_init (st : state) : state * bool :=
  let st0 := clear_seg 11 0 st in
  let '(st1, p) := mem_sbrk st0 (wrap (2 * WSIZE)) in
  let st1 := set_heap_listp st1 p in
  if p =? wrap (-1) then (st1, false)
  else
    let st2 := PUT st1 (heap_listp st1) 0 in
    let st3 := PUT st2 (wrap (heap_listp st2 + wrap (1 * WSIZE))) (PACK DSIZE 1) in
    let st4 := PUT st3 (wrap (heap_listp st3 + wrap (2 * WSIZE))) (PACK DSIZE 1) in
    let st5 := PUT st4 (wrap (heap_listp st4 + wrap (3 * WSIZE))) (PACK 0 1) in
    let st6 := set_heap_listp st5 (wrap (heap_listp st5 + wrap (2 * WSIZE))) in
    let st7 := set_free_list st6 0 in
    let '(st8, r) := extend_heap st7 CHUNKSIZE in
    if r =? NULL then (st8, false) else (st8, true).

(** ** Fit search and placement *)

(** The inner loop of [find_fit].  The walk follows links stored in
    memory, so it takes fuel: [None] means the fuel ran out, [Some 0] that
    the list ended without a fit. *)
Fixpoint scan_list (fuel : nat) (st : state) (asize bp : Z) : option Z :=
  match fuel with
  | O => None
  | S f =>
      if bp =? 0 then Some 0
      else if asize <=? GET_SIZE st (HDRP bp) then Some bp
      else scan_list f st asize (NEXTF st bp)
  end.

(** The outer loop [for (i = find; i < 11; i++)]; [k = 11 - i]. *)
Fixpoint scan_classes (k : nat) (fuel : nat) (st : state) (asize i : Z)
  : option Z :=
  match k with
  | O => Some NULL
  | S k' =>
      match scan_list fuel st asize (seg st i) with
      | None => None
      | Some 0 => scan_classes k' fuel st asize (i + 1)
      | Some bp => Some bp
      end
  end.

Definition find_fit (fuel : nat) (st : state) (asize : Z) : option Z :=
  let find := iterate asize in
  scan_classes (Z.to_nat (11 - find)) fuel st asize find.

Definition place (st : state) (bp asize : Z) : state :=
  let csize := GET_SIZE st (HDRP bp) in
  if wrap (csize - asize) >=? wrap (2 * DSIZE) then
    let st1 := PUT st (HDRP bp) (PACK asize 1) in
    let st2 := PUT st1 (FTRP st1 bp) (PACK asize 1) in
    let st3 := delete st2 bp in
    let bp := NEXT_BLKP st3 bp in
    let st4 := PUT st3 (HDRP bp) (PACK (wrap (csize - asize)) 0) in
    let st5 := PUT st4 (FTRP st4 bp) (PACK (wrap (csize - asize)) 0) in
    fst (coalesce st5 bp)
  else
    let st1 := PUT st (HDRP bp) (PACK csize 1) in
    let st2 := PUT st1 (FTRP st1 bp) (PACK csize 1) in
    delete st2 bp.

(** ** The public operations *)

(** [mm_checkheap] prints only when [DEBUG] is defined, which it is not. *)
Definition mm_checkheap (st : state) (lineno : Z) : bool := true.

(** The adjusted block size computed at the start of [malloc]. *)
Definition adjust (size : Z) : Z :=
  if size <=? DSIZE then wrap (2 * DSIZE)
  else wrap (DSIZE * (wrap (wrap (size + DSIZE) + wrap (DSIZE - 1)) / DSIZE)).

Definition malloc (fuel : nat) (st : state) (size : Z) : option (state * Z) :=
  if size =? 0 then Some (st, NULL)
  else
    let asize := adjust size in
    match find_fit fuel st asize with
    | None => None
    | Some bp =>
        if negb (bp =? NULL) then Some (place st bp asize, bp)
        else
          let extendsize := MAX asize CHUNKSIZE in
          let '(st1, bp) := extend_heap st (extendsize / WSIZE) in
          if bp =? NULL then Some (st1, NULL)
          else Some (place st1 bp asize, bp)
    end.

Definition free (st : state) (ptr : Z) : state :=
  let size := GET_SIZE st (HDRP ptr) in
  let st1 := PUT st (HDRP ptr) (PACK size 0) in
  let st2 := PUT st1 (FTRP st1 ptr) (PACK size 0) in
  fst (coalesce st2 ptr).

(** [memcpy] and [memset] come from the C library (or the driver's
    [mm_memcpy], [mm_memset]); they move single bytes, lowest address
    first. *)
Fixpoint copy_bytes (n : nat) (m : Z -> Z) (dst src : Z) : Z -> Z :=
  match n with
  | O => m
  | S k =>
      copy_bytes k (fun a => if a =? wrap dst then m (wrap src) else m a)
                 (dst + 1) (src + 1)
  end.

Definition memcpy (st : state) (dst src n : Z) : state :=
  set_mem st (copy_bytes (Z.to_nat n) (mem st) dst src).

Fixpoint fill_bytes (n : nat) (m : Z -> Z) (dst c : Z) : Z -> Z :=
  match n with
  | O => m
  | S k => fill_bytes k (fun a => if a =? wrap dst then c mod 256 else m a)
                      (dst + 1) c
  end.

Definition memset (st : state) (dst c n : Z) : state :=
  set_mem st (fill_bytes (Z.to_nat n) (mem st) dst c).

Definition realloc (fuel : nat) (st : state) (oldptr size : Z)
  : option (state * Z) :=
  match malloc fuel st size with
  | None => None
  | Some (st1, update) =>
      if oldptr =? NULL then malloc fuel st1 size
      else if size =? 0 then Some (free st1 oldptr, NULL)
      else
        let update_size :=
          MIN (wrap (GET_SIZE st1 (HDRP oldptr) - WSIZE)) size in
        let st2 := memcpy st1 update oldptr update_size in
        Some (free st2 oldptr, update)
  end.

Definition calloc (fuel : nat) (st : state) (nmemb size : Z)
  : option (state * Z) :=
  let size := wrap (size * nmemb) in
  match malloc fuel st size with
  | None => None
  | Some (st1, ptr) =>
      if negb (ptr =? NULL) then Some (memset st1 ptr 0 size, ptr)
      else Some (st1, ptr)
  end.

(** ** A concrete backing store, for running the code *)

Definition fresh (start size : Z) : state :=
  mkState (fun _ => 0) (fun _ => 0) 0 0 start (start + size).

Definition booted : state := fst (mm_init (fresh 4096 65536)).

Definition seg_heads (st : state) : list Z :=
  map (fun i => seg st (Z.of_nat i)) (seq 0 11).

(** Walk the blocks from [bp] by their headers, listing [(bp, size, alloc)]
    until a header of size 0 (the epilogue) or the fuel ends. *)
Fixpoint walk (fuel : nat) (st : state) (bp : Z) : list (Z * Z * Z) :=
  match fuel with
  | O => []
  | S f =>
      let size := GET_SIZE st (HDRP bp) in
      if size =? 0 then []
      else (bp, size, GET_ALLOC st (HDRP bp)) :: walk f st (NEXT_BLKP st bp)
  end.

(** * Vocabulary of the specification *)

(** Two word accesses are [apart] when their eight-byte ranges do not
    meet (both lie below 2^64, so nothing wraps). *)
Definition apart (p q : Z) : Prop :=
  0 <= p /\ 0 <= q /\ p + 8 <= 2 ^ 64 /\ q + 8 <= 2 ^ 64
  /\ (p + 8 <= q \/ q + 8 <= p).

Definition boundaries : list Z :=
  [32; 64; 128; 256; 512; 1024; 2048; 4096; 8192; 16384].

(** The class of a size is the number of boundaries it has reached. *)
Definition classOf (size : Z) : Z :=
  Z.of_nat (length (filter (fun b => b <=? size) boundaries)).

Ltac split_cmp :=
  repeat (match goal with
          | |- context [?a >=? ?b] => rewrite (Z.geb_leb a b)
          | |- context [?a <? ?b] =>
              destruct (Z.ltb_spec a b); try (exfalso; lia)
          | |- context [?a <=? ?b] =>
              destruct (Z.leb_spec a b); try (exfalso; lia)
          end; cbn [andb negb]).

Definition after (r : option (state * Z)) (dflt : state) : state :=
  match r with Some (s, _) => s | None => dflt end.

(** The pointer returned by a run and the blocks found by the heap walk
    of the state it leaves. *)
Definition outcome (r : option (state * Z)) : option (Z * list (Z * Z * Z)) :=
  match r with
  | Some (s, p) => Some (p, walk 16 s (heap_listp s))
  | None => None
  end.

(** The heap after [mm_init] and one [malloc(16)]: a single allocated
    block of 32 bytes at 4112 (its payload is 16 bytes), then free space. *)
Definition one_block : state := after (malloc 10 booted 16) booted.

(** A block is its payload address, its size and its allocated flag. *)
Definition block : Type := (Z * Z * bool)%type.

Definition tag (s : Z) (a : bool) : Z := PACK s (if a then 1 else 0).

(** [chain p bl q]: the blocks [bl] lie one after the other from the
    payload address [p]; [q] is where the next block would start.  Sizes
    are multiples of 16 and at least 32. *)
Fixpoint chain (p : Z) (bl : list block) (q : Z) : Prop :=
  match bl with
  | [] => p = q
  | (b, s, _) :: bl' => b = p /\ 32 <= s /\ s mod 16 = 0 /\ chain (p + s) bl' q
  end.

(** Header and footer of a block carry its tag. *)
Definition tagged (st : state) (x : block) : Prop :=
  let '(b, s, a) := x in
  GET st (b - 8) = tag s a /\ GET st (b + s - 16) = tag s a.

(** No two neighbours are free; [pf] tells whether the block before the
    list is free. *)
Fixpoint naf (pf : bool) (bl : list block) : Prop :=
  match bl with
  | [] => True
  | (_, _, a) :: bl' => (pf = true -> a = true) /\ naf (negb a) bl'
  end.

(** Is the last block of [bl] free ([pf] when [bl] is empty)? *)
Fixpoint last_free (pf : bool) (bl : list block) : bool :=
  match bl with
  | [] => pf
  | (_, _, a) :: bl' => last_free (negb a) bl'
  end.

(** The layout invariant: the blocks tile the region between
    [heap_listp] and the break, every block is tagged, the word before
    the break is the epilogue header and the word two before the first
    block (the padding word) has size 0. *)
Definition layout (st : state) (bl : list block) : Prop :=
  16 <= heap_listp st
  /\ chain (heap_listp st) bl (mem_brk st)
  /\ mem_brk st <= mem_max_addr st < 2 ^ 64
  /\ Forall (tagged st) bl
  /\ GET st (mem_brk st - 8) = tag 0 true
  /\ GET_SIZE st (heap_listp st - 16) = 0.

(** [lseg st hd prev l tl]: starting at [hd], the nodes [l] are linked
    through their next words, each points back to the node before it
    ([prev] for the first), and the last next word holds [tl]. *)
Fixpoint lseg (st : state) (hd prev : Z) (l : list Z) (tl : Z) : Prop :=
  match l with
  | [] => hd = tl
  | x :: l' => hd = x /\ PREVF st x = prev /\ lseg st (NEXTF st x) x l' tl
  end.

(** The table: one list of block addresses per class. *)
Definition table : Type := Z -> list Z.

Definition lists (st : state) (fl : table) : Prop :=
  forall i, 0 <= i < 11 -> lseg st (seg st i) 0 (fl i) 0.

Definition registered (fl : table) (b : Z) : Prop :=
  exists i, 0 <= i < 11 /\ In b (fl i).

Definition push (fl : table) (c b : Z) : table :=
  fun j => if j =? c then b :: fl j else fl j.

Definition rm (fl : table) (b : Z) : table :=
  fun j => remove Z.eq_dec b (fl j).

(** [linked R fl]: the table holds every address once, holds exactly the
    addresses [b] with [R b s] for some size [s], and each in the class of
    its size. *)
Definition linked (R : Z -> Z -> Prop) (fl : table) : Prop :=
  (forall i, 0 <= i < 11 -> NoDup (fl i))
  /\ (forall i j b, 0 <= i < 11 -> 0 <= j < 11 ->
        In b (fl i) -> In b (fl j) -> i = j)
  /\ (forall b, registered fl b <-> exists s, R b s)
  /\ (forall i b s, 0 <= i < 11 -> In b (fl i) -> R b s -> iterate s = i).

(** The free blocks of a layout. *)
Definition is_free (bl : list block) (b s : Z) : Prop := In (b, s, false) bl.

(** Registered addresses keep their two link words clear of each other
    and inside the address space. *)
Definition spaced (S : Z -> Prop) : Prop :=
  (forall b, S b -> 16 <= b /\ b + 16 <= 2 ^ 64)
  /\ (forall b b', S b -> S b' -> b = b' \/ b + 16 <= b' \/ b' + 16 <= b).

(** The whole invariant. *)
Definition heap_inv (st : state) (bl : list block) (fl : table) : Prop :=
  layout st bl /\ lists st fl /\ linked (is_free bl) fl /\ naf false bl.

Definition heap_ok (st : state) : Prop := exists bl fl, heap_inv st bl fl.

Definition preserves (P : Z -> Prop) (st st' : state) : Prop :=
  forall q, P q -> GET st' q = GET st q.

Definition same_bounds (st st' : state) : Prop :=
  heap_listp st' = heap_listp st /\ mem_brk st' = mem_brk st
  /\ mem_max_addr st' = mem_max_addr st.

(** A word is [clear_of S] when it meets no link word of an address of [S]. *)
Definition clear_of (S : Z -> Prop) (q : Z) : Prop :=
  0 <= q /\ q + 8 <= 2 ^ 64 /\ forall b, S b -> q + 8 <= b \/ b + 16 <= q.

(** What [delete st bp] leaves behind, for a table [fl] that has [bp]. *)
Definition delete_post (st : state) (fl : table) (bp : Z) (st' : state)
  : Prop :=
  lists st' (rm fl bp)
  /\ preserves (clear_of (registered fl)) st st'
  /\ same_bounds st st'.

Definition addr_of (bl : list block) (b : Z) : Prop :=
  exists s a, In (b, s, a) bl.

(** [blocks st lo l hi]: the run [l] tiles [lo..hi] and is tagged. *)
Definition blocks (st : state) (lo : Z) (l : list block) (hi : Z) : Prop :=
  chain lo l hi /\ Forall (tagged st) l.

(** What frames the blocks: the bounds, the epilogue header and the
    padding word. *)
Definition outer (st : state) : Prop :=
  16 <= heap_listp st
  /\ heap_listp st <= mem_brk st
  /\ mem_brk st <= mem_max_addr st < 2 ^ 64
  /\ GET st (mem_brk st - 8) = tag 0 true
  /\ GET_SIZE st (heap_listp st - 16) = 0.

Definition first_free (l : list block) : bool :=
  match l with
  | (_, _, false) :: _ => true
  | _ => false
  end.

(** What [coalesce st bp] returns, for a pending block [bp] of size [s]
    between the blocks [l1] and [l2]. *)
Definition coalesce_post (st : state) (l1 l2 : list block) (bp s : Z)
           (r : state * Z) : Prop :=
  exists la lb s' fl',
    heap_inv (fst r) (la ++ (snd r, s', false) :: lb) fl'
    /\ same_bounds st (fst r)
    /\ registered fl' (snd r)
    /\ s <= s' /\ snd r <= bp /\ bp + s <= snd r + s'
    /\ (forall b sb, In (b, sb, true) (la ++ lb)
                     <-> In (b, sb, true) (l1 ++ l2)).

Definition grown (st : state) (size : Z) : state :=
  PUT (PUT (PUT (set_brk st (mem_brk st + size))
                (mem_brk st - 8) (tag size false))
           (mem_brk st + size - 16) (tag size false))
      (mem_brk st + size - 8) (tag 0 true).

Definition fits (st : state) (asize b : Z) : bool :=
  asize <=? GET_SIZE st (HDRP b).

(** The first block of a list that is large enough, [NULL] if none is. *)
Definition first_fit (st : state) (asize : Z) (l : list Z) : Z :=
  match find (fits st asize) l with
  | Some b => b
  | None => NULL
  end.

(** The lists of classes [i], [i+1], ... ([k] of them), one after the other. *)
Fixpoint scan_order (k : nat) (i : Z) (fl : table) : list Z :=
  match k with
  | O => []
  | S k' => fl i ++ scan_order k' (i + 1) fl
  end.

Definition enough (fuel : nat) (fl : table) : Prop :=
  forall i, 0 <= i < 11 -> (length (fl i) < fuel)%nat.

Definition malloc_post (st : state) (bl : list block) (n : Z)
           (st' : state) (p : Z) : Prop :=
  (p = NULL /\ st' = st)
  \/ (p <> NULL
      /\ exists bl' fl' sp,
           heap_inv st' bl' fl' /\ adjust n <= sp
           /\ heap_listp st' = heap_listp st
           /\ (forall b sb, In (b, sb, true) bl'
                            <-> In (b, sb, true) bl \/ (b = p /\ sb = sp))).

(** The number of bytes asked from the backing store when no fit exists. *)
Definition grow_size (n : Z) : Z := MAX (adjust n) CHUNKSIZE.

Definition empty_table : table := fun _ => [].

(** The state of [mm_init] just before it registers the first block:
    [H] is the break it found. *)
Definition init_frame (st : state) : state :=
  let H := mem_brk st in
  let st0 := clear_seg 11 0 st in
  let st1 := set_heap_listp (set_brk st0 (H + 16)) H in
  let st5 := PUT (PUT (PUT (PUT st1 H 0) (H + 8) (PACK DSIZE 1))
                      (H + 16) (PACK DSIZE 1)) (H + 24) (PACK 0 1) in
  set_free_list (set_heap_listp st5 (H + 16)) 0.

Definition enc (x : block) : Z * Z * Z :=
  let '(b, s, a) := x in (b, s, if a then 1 else 0).

(** Does the walk meet two free blocks in a row ([pf]: the block before
    the list was free)? *)
Fixpoint adj (pf : bool) (w : list (Z * Z * Z)) : bool :=
  match w with
  | [] => false
  | (_, _, a) :: tl => (pf && (a =? 0)) || adj (a =? 0) tl
  end.

Definition adjacent_free (w : list (Z * Z * Z)) : bool := adj false w.

(** No two neighbours of the heap walk are free, for a walk long enough
    to reach the epilogue. *)
Definition no_adjacent_free (st : state) : Prop :=
  exists k, forall fuel, (k <= fuel)%nat ->
    adjacent_free (walk fuel st (heap_listp st)) = false.

Definition allocated (st : state) (p : Z) : Prop :=
  exists bl fl s, heap_inv st bl fl /\ In (p, s, true) bl.

(** [pending st bp]: the heap is valid except that the free block [bp]
    (just freed, or just created by an extension or a split) is in no
    list yet and may have free neighbours. *)
Definition pending (st : state) (bp : Z) : Prop :=
  exists l1 l2 s fl,
    layout st (l1 ++ (bp, s, false) :: l2)
    /\ lists st fl
    /\ linked (is_free (l1 ++ (bp, s, true) :: l2)) fl
    /\ naf false (l1 ++ (bp, s, true) :: l2).

(** The list the code walks from a head [bp], through the next links,
    until it meets [0] (or the fuel ends). *)
Fixpoint list_of (fuel : nat) (st : state) (bp : Z) : list Z :=
  match fuel with
  | O => []
  | S f => if bp =? 0 then [] else bp :: list_of f st (NEXTF st bp)
  end.

(** The lists of the classes [i], [i+1], ... ([k] of them) as the code
    walks them, one after the other. *)
Fixpoint lists_from (fuel : nat) (st : state) (k : nat) (i : Z) : list Z :=
  match k with
  | O => []
  | S k' => list_of fuel st (seg st i) ++ lists_from fuel st k' (i + 1)
  end.

(** [b] is met exactly once when the eleven lists of [st] are walked. *)
Definition registered_once (st : state) (b : Z) : Prop :=
  exists k, forall fuel, (k <= fuel)%nat ->
    exists i, 0 <= i < 11
      /\ count_occ Z.eq_dec (list_of fuel st (seg st i)) b = 1%nat
      /\ forall j, 0 <= j < 11 -> j <> i ->
            count_occ Z.eq_dec (list_of fuel st (seg st j)) b = 0%nat.

(** The state [free] hands to [coalesce]: header and footer of [ptr]
    rewritten as free. *)
Definition freed (st : state) (ptr : Z) : state :=
  let size := GET_SIZE st (HDRP ptr) in
  let st1 := PUT st (HDRP ptr) (PACK size 0) in
  PUT st1 (FTRP st1 ptr) (PACK size 0).

(** [aligned] of the source: [align(ip) == ip]. *)
Definition aligned (p : Z) : bool := align p =? p.

Fixpoint total_size (w : list (Z * Z * Z)) : Z :=
  match w with
  | [] => 0
  | (_, s, _) :: tl => s + total_size tl
  end.

(** [fuse l] joins every run of free blocks of [l] into one free block. *)
Fixpoint fuse (l : list block) : list block :=
  match l with
  | [] => []
  | (b, s, true) :: tl => (b, s, true) :: fuse tl
  | (b, s, false) :: tl =>
      match fuse tl with
      | (_, s2, false) :: tl' => (b, s + s2, false) :: tl'
      | ftl => (b, s, false) :: ftl
      end
  end.

(** [live bl q]: the eight-byte word at [q] lies in the payload of an
    allocated block of [bl], between its header and its footer. *)
Definition live (bl : list block) (q : Z) : Prop :=
  exists b s, In (b, s, true) bl /\ b <= q /\ q + 8 <= b + s - 16.

(** [reachable st held]: the allocator can be in state [st] with the
    caller holding the pointers [held].  It starts with a successful
    [mm_init]; [malloc] and [calloc] add the pointer they return, if it
    is not [NULL]; [free] and [realloc] are applied to pointers that are
    held, and give them up. *)
Inductive reachable : state -> list Z -> Prop :=
| reach_init (st0 : state) :
    0 <= mem_brk st0 -> mem_max_addr st0 < 2 ^ 64 ->
    snd (mm_init st0) = true ->
    reachable (fst (mm_init st0)) []
| reach_malloc (st : state) (held : list Z) (fuel : nat) (n : Z)
               (st' : state) (p : Z) :
    reachable st held -> 0 <= n -> n + 31 < 2 ^ 64 ->
    malloc fuel st n = Some (st', p) ->
    reachable st' (if p =? NULL then held else p :: held)
| reach_calloc (st : state) (held : list Z) (fuel : nat) (nmemb size : Z)
               (st' : state) (p : Z) :
    reachable st held -> 0 <= nmemb -> 0 <= size ->
    size * nmemb + 31 < 2 ^ 64 ->
    calloc fuel st nmemb size = Some (st', p) ->
    reachable st' (if p =? NULL then held else p :: held)
| reach_free (st : state) (held : list Z) (p : Z) :
    reachable st held -> In p held ->
    reachable (free st p) (remove Z.eq_dec p held)
| reach_realloc (st : state) (held : list Z) (fuel : nat) (p n : Z)
                (st' : state) (u : Z) :
    reachable st held -> In p held -> 0 < n -> n + 31 < 2 ^ 64 ->
    realloc fuel st p n = Some (st', u) -> u <> NULL ->
    reachable st' (u :: remove Z.eq_dec p held)
| reach_realloc_zero (st : state) (held : list Z) (fuel : nat) (p : Z)
                     (st' : state) (u : Z) :
    reachable st held -> In p held ->
    realloc fuel st p 0 = Some (st', u) ->
    reachable st' (remove Z.eq_dec p held).

(** The invariant of a caller's view: the heap is valid and the pointers
    held are the allocated blocks, each once. *)
Definition held_ok (st : state) (held : list Z) : Prop :=
  exists bl fl,
    heap_inv st bl fl /\ NoDup held
    /\ (forall p, In p held <-> exists s, In (p, s, true) bl).

(** A heap with three free blocks of 32 bytes in one list, each between
    allocated blocks: six blocks of 32 bytes are placed in the fresh heap
    and the first, the third and the fifth are freed. *)
Definition six_blocks : state :=
  place (place (place (place (place (place booted 4112 32) 4144 32) 4176 32)
                      4208 32) 4240 32) 4272 32.

Definition three_free : state := free (free (free six_blocks 4112) 4176) 4240.

Definition three_free_table : table :=
  push (push (push
    (push (rm (push (rm (push (rm (push (rm (push (rm (push (rm
       (push empty_table 4 4112) 4112) 3 4144) 4144) 3 4176) 4176) 3 4208)
       4208) 3 4240) 4240) 2 4272) 4272) 2 4304)
    1 4112) 1 4176) 1 4240.

(** The heap after four requests, two of which wrap, and two releases:
    [malloc(2^64 - 15)] returns 4112, [malloc(16)] 4128,
    [malloc(2^64 - 15)] 4160 and [malloc(16)] 4176; then 4160 and 4112
    are freed. *)
Definition wrapped_run : state :=
  let st1 := after (malloc 10 booted (2 ^ 64 - 15)) booted in
  let st2 := after (malloc 10 st1 16) st1 in
  let st3 := after (malloc 10 st2 (2 ^ 64 - 15)) st2 in
  let st4 := after (malloc 10 st3 16) st3 in
  free (free st4 4160) 4112.

(** * Lemmas and theorems *)

(** ** Words: reading back what was written *)

Lemma wrap_small (x : Z) : 0 <= x < 2 ^ 64 -> wrap x = x.
Proof. intros H. unfold wrap. apply Z.mod_small. exact H. Qed.

Lemma wrap_range (x : Z) : 0 <= wrap x < 2 ^ 64.
Proof. unfold wrap. apply Z.mod_pos_bound. reflexivity. Qed.

Lemma wrap_wrap (x : Z) : wrap (wrap x) = wrap x.
Proof. apply wrap_small, wrap_range. Qed.

Lemma wrap_add_l (x y : Z) : wrap (wrap x + y) = wrap (x + y).
Proof. unfold wrap. apply Zplus_mod_idemp_l. Qed.

Lemma wrap_sub_l (x y : Z) : wrap (wrap x - y) = wrap (x - y).
Proof. unfold wrap. apply Zminus_mod_idemp_l. Qed.

Lemma load_bytes_range (m : Z -> Z) (n : nat) :
  forall p, 0 <= load_bytes m p n < 2 ^ (8 * Z.of_nat n).
Proof.
  induction n as [|n IH]; intros p.
  - simpl. lia.
  - cbn [load_bytes].
    replace (8 * Z.of_nat (S n)) with (8 + 8 * Z.of_nat n) by lia.
    rewrite Z.pow_add_r by lia.
    specialize (IH (p + 1)).
    assert (Hb : 0 <= m (wrap p) mod 256 < 256) by (apply Z.mod_pos_bound; lia).
    change (2 ^ 8) with 256. nia.
Qed.

Lemma GET_range (st : state) (p : Z) : 0 <= GET st p < 2 ^ 64.
Proof. unfold GET. apply (load_bytes_range (mem st) 8 p). Qed.

Lemma load_store_same (m : Z -> Z) (p v : Z) (n : nat) :
  forall k, 0 <= k -> k + Z.of_nat n <= 8 ->
  load_bytes (store_word m p v) (p + k) n
  = (v / 2 ^ (8 * k)) mod 2 ^ (8 * Z.of_nat n).
Proof.
  induction n as [|n IH]; intros k Hk Hn.
  - simpl. rewrite Z.mod_1_r. reflexivity.
  - cbn [load_bytes].
    replace (p + k + 1) with (p + (k + 1)) by lia.
    rewrite IH by lia.
    unfold store_word at 1.
    rewrite wrap_sub_l.
    replace (p + k - p) with k by lia.
    rewrite (wrap_small k) by lia.
    destruct (Z.ltb_spec k 8) as [_|Hge]; [|lia].
    replace (8 * Z.of_nat (S n)) with (8 + 8 * Z.of_nat n) by lia.
    rewrite Z.pow_add_r by lia.
    change (2 ^ 8) with 256.
    rewrite (Z.rem_mul_r _ 256) by lia.
    rewrite Z.mod_mod by lia.
    rewrite Z.div_div by lia.
    replace (8 * (k + 1)) with (8 * k + 8) by lia.
    rewrite (Z.pow_add_r 2 (8 * k) 8) by lia.
    reflexivity.
Qed.

Lemma load_store_far (m : Z -> Z) (p v : Z) (n : nat) :
  forall q,
  (forall i, 0 <= i < Z.of_nat n -> 8 <= wrap (q + i - p)) ->
  load_bytes (store_word m p v) q n = load_bytes m q n.
Proof.
  induction n as [|n IH]; intros q H.
  - reflexivity.
  - cbn [load_bytes]. rewrite IH.
    + unfold store_word at 1. rewrite wrap_sub_l.
      specialize (H 0). replace (q + 0 - p) with (q - p) in H by lia.
      destruct (Z.ltb_spec (wrap (q - p)) 8) as [Hlt|_]; [lia|reflexivity].
    + intros i Hi. replace (q + 1 + i - p) with (q + (i + 1) - p) by lia.
      apply H. lia.
Qed.

Lemma GET_PUT_same (st : state) (p v : Z) : GET (PUT st p v) p = wrap v.
Proof.
  unfold GET, PUT. cbn [mem set_mem].
  replace p with (p + 0) at 2 by lia.
  rewrite load_store_same by lia.
  rewrite Z.pow_0_r, Z.div_1_r. reflexivity.
Qed.

Lemma GET_PUT_far (st : state) (p q v : Z) :
  apart p q -> GET (PUT st p v) q = GET st q.
Proof.
  intros (Hp & Hq & Hp8 & Hq8 & Hd).
  unfold GET, PUT. cbn [mem set_mem].
  apply load_store_far. intros i Hi.
  change (Z.of_nat 8) with 8 in Hi.
  unfold wrap.
  destruct Hd as [Hd|Hd].
  - rewrite Z.mod_small; lia.
  - replace (q + i - p) with (q + i - p + 2 ^ 64 + (-1) * 2 ^ 64) by lia.
    rewrite Z.mod_add by lia. rewrite Z.mod_small; lia.
Qed.

Lemma GET_PUT_far_wrap (st : state) (p q v : Z) :
  8 <= wrap (q - p) <= 2 ^ 64 - 8 -> GET (PUT st p v) q = GET st q.
Proof.
  intros H. unfold GET, PUT. cbn [mem set_mem].
  apply load_store_far. intros i Hi.
  change (Z.of_nat 8) with 8 in Hi.
  replace (q + i - p) with ((q - p) + i) by lia.
  rewrite <- wrap_add_l. rewrite wrap_small; lia.
Qed.

(** ** Tags: a size and an allocated bit in one word *)

Lemma land_low_clear (x : Z) : Z.land x (Z.lnot 0xf) = x - x mod 16.
Proof.
  change (Z.lnot 0xf) with (Z.lnot (Z.ones 4)).
  rewrite <- Z.ldiff_land, Z.ldiff_ones_r by lia.
  rewrite Z.shiftl_mul_pow2, Z.shiftr_div_pow2 by lia.
  change (2 ^ 4) with 16. pose proof (Z.div_mod x 16). lia.
Qed.

Lemma land_one (x : Z) : Z.land x 0x1 = x mod 2.
Proof. change 0x1 with (Z.ones 1). rewrite Z.land_ones by lia. reflexivity. Qed.

Lemma PACK_add (s a : Z) : s mod 16 = 0 -> 0 <= a < 16 -> PACK s a = s + a.
Proof.
  intros Hs Ha. unfold PACK.
  assert (Hz : Z.land s a = 0).
  { replace a with (Z.land a (Z.ones 4)).
    - rewrite (Z.land_comm a), Z.land_assoc, Z.land_ones by lia.
      change (2 ^ 4) with 16. rewrite Hs. apply Z.land_0_l.
    - rewrite Z.land_ones by lia. apply Z.mod_small. change (2 ^ 4) with 16. lia. }
  rewrite <- Z.lxor_lor by exact Hz. symmetry. apply Z.add_nocarry_lxor, Hz.
Qed.

(** ** Size classes: the boundary table *)

Lemma iterate_classOf (size : Z) : iterate size = classOf size.
Proof.
  unfold iterate, classOf, boundaries. cbn [filter].
  split_cmp; reflexivity.
Qed.

Lemma iterate_range (size : Z) : 0 <= iterate size <= 10.
Proof.
  unfold iterate.
  repeat match goal with
  | |- context [if ?c then _ else _] => destruct c
  end; lia.
Qed.

(** C5: [iterate] is the class index in [0,10] fixed by the boundaries
    32, 64, ..., 16384: it counts the boundaries that are [<= size], so
    sizes below 32 fall in class 0 and sizes from 16384 on in class 10;
    the edges 31, 32, 8191 and 8192 land in classes 0, 1, 8 and 9. *)
Theorem iterate_boundaries :
  forall size : Z,
    iterate size = classOf size
    /\ 0 <= iterate size <= 10
    /\ (iterate size =? 0) = (size <? 32)
    /\ (iterate size =? 10) = (16384 <=? size)
    /\ iterate 31 = 0 /\ iterate 32 = 1
    /\ iterate 8191 = 8 /\ iterate 8192 = 9.
Proof.
  intros size. split; [apply iterate_classOf|].
  split; [apply iterate_range|].
  split.
  { unfold iterate. split_cmp; reflexivity. }
  split.
  { unfold iterate. split_cmp; reflexivity. }
  repeat split.
Qed.

(** ** Observing a run *)

Lemma run_eq (r : option (state * Z)) (p : Z) (dflt : state) :
  option_map snd r = Some p -> r = Some (after r dflt, p).
Proof.
  destruct r as [[s q]|]; cbn [option_map snd after]; intros E.
  - injection E as ->. reflexivity.
  - discriminate.
Qed.

(** ** resize *)

Lemma malloc_zero (fuel : nat) (st : state) : malloc fuel st 0 = Some (st, NULL).
Proof. reflexivity. Qed.

Lemma realloc_zero_releases (fuel : nat) (st : state) (p : Z) :
  p <> NULL -> realloc fuel st p 0 = Some (free st p, NULL).
Proof.
  intros Hp. unfold realloc. rewrite malloc_zero.
  destruct (Z.eqb_spec p NULL) as [E|_]; [contradiction|]. reflexivity.
Qed.

Lemma realloc_copy (fuel : nat) (st st1 : state) (p n u : Z) :
  p <> NULL -> n <> 0 -> malloc fuel st n = Some (st1, u) ->
  realloc fuel st p n
  = Some (free (memcpy st1 u p (MIN (wrap (GET_SIZE st1 (HDRP p) - WSIZE)) n)) p, u).
Proof.
  intros Hp Hn Hm. unfold realloc. rewrite Hm.
  destruct (Z.eqb_spec p NULL) as [E|_]; [contradiction|].
  destruct (Z.eqb_spec n 0) as [E|_]; [contradiction|]. reflexivity.
Qed.

(** C1: [realloc(NULL, n)] first runs [malloc(n)] for [update] and then
    returns a second [malloc(n)], so it is two allocations, not one: on
    the freshly initialised heap [malloc(16)] returns 4112 and leaves one
    allocated block, while [realloc(NULL, 16)] returns 4144 and leaves
    two. *)
Theorem realloc_null_allocates_twice :
  (forall fuel st n,
      realloc fuel st NULL n
      = match malloc fuel st n with
        | None => None
        | Some (st1, _) => malloc fuel st1 n
        end)
  /\ outcome (malloc 10 booted 16)
     = Some (4112, [(4112, 32, 1); (4144, 224, 0)])
  /\ outcome (realloc 10 booted NULL 16)
     = Some (4144, [(4112, 32, 1); (4144, 32, 1); (4176, 192, 0)]).
Proof.
  split.
  - intros fuel st n. unfold realloc.
    destruct (malloc fuel st n) as [[st1 u]|]; reflexivity.
  - split; vm_compute; reflexivity.
Qed.

(** C2: [realloc] copies [MIN(GET_SIZE(HDRP(oldptr)) - WSIZE, size)] bytes.
    Growing the 32-byte block at 4112 (payload capacity 32 - 16 = 16) to
    24 bytes copies 24 bytes, not min(16, 24) = 16: the eight bytes past
    the old payload are the old footer, and the word at offset 16 of the
    new block, zero before the copy, holds that footer [PACK(32,1) = 33]
    afterwards. *)
Theorem realloc_copies_past_payload :
  exists st1 u,
    malloc 10 one_block 24 = Some (st1, u)
    /\ realloc 10 one_block 4112 24
       = Some (free (memcpy st1 u 4112 24) 4112, u)
    /\ GET_SIZE st1 (HDRP 4112) - DSIZE = 16
    /\ MIN (GET_SIZE st1 (HDRP 4112) - DSIZE) 24 = 16
    /\ MIN (wrap (GET_SIZE st1 (HDRP 4112) - WSIZE)) 24 = 24
    /\ GET st1 (u + 16) = 0
    /\ GET (memcpy st1 u 4112 24) (u + 16) = PACK 32 1
    /\ GET (after (realloc 10 one_block 4112 24) one_block) (u + 16) = 33.
Proof.
  exists (after (malloc 10 one_block 24) one_block), 4144.
  assert (Hm : malloc 10 one_block 24
               = Some (after (malloc 10 one_block 24) one_block, 4144))
    by (apply run_eq; vm_compute; reflexivity).
  assert (Hc : MIN (wrap (GET_SIZE (after (malloc 10 one_block 24) one_block)
                                   (HDRP 4112) - WSIZE)) 24 = 24)
    by (vm_compute; reflexivity).
  split; [exact Hm|].
  split.
  { pose proof (realloc_copy 10 one_block _ 4112 24 4144
                               ltac:(discriminate) ltac:(discriminate) Hm) as Hr.
    rewrite Hc in Hr. exact Hr. }
  repeat split; vm_compute; reflexivity.
Qed.

(** ** zero-allocate *)

Lemma wrap_diff_zero (a d : Z) :
  0 <= a < 2 ^ 64 -> (wrap (a - d) = 0 <-> a = wrap d).
Proof.
  intros Ha. split; intros H.
  - rewrite <- (wrap_small a Ha).
    replace a with ((a - d) + d) at 1 by lia.
    rewrite <- wrap_add_l, H. reflexivity.
  - subst a. rewrite wrap_sub_l. replace (d - d) with 0 by lia. reflexivity.
Qed.

Lemma fill_bytes_spec (n : nat) :
  forall (m : Z -> Z) (dst c a : Z),
    Z.of_nat n <= 2 ^ 64 -> 0 <= a < 2 ^ 64 ->
    fill_bytes n m dst c a
    = if wrap (a - dst) <? Z.of_nat n then c mod 256 else m a.
Proof.
  induction n as [|n IH]; intros m dst c a Hn Ha.
  - cbn [fill_bytes]. pose proof (wrap_range (a - dst)).
    destruct (Z.ltb_spec (wrap (a - dst)) (Z.of_nat 0)); [lia|reflexivity].
  - cbn [fill_bytes]. rewrite IH by lia.
    pose proof (wrap_range (a - dst)) as Hd.
    pose proof (wrap_diff_zero a dst Ha) as Hz.
    replace (a - (dst + 1)) with ((a - dst) - 1) by lia.
    rewrite <- wrap_sub_l.
    destruct (Z.eq_dec (wrap (a - dst)) 0) as [E|E].
    + rewrite E. change (wrap (0 - 1)) with (2 ^ 64 - 1).
      destruct (Z.ltb_spec (2 ^ 64 - 1) (Z.of_nat n)); [lia|].
      destruct (Z.eqb_spec a (wrap dst)) as [_|N]; [|tauto].
      destruct (Z.ltb_spec 0 (Z.of_nat (S n))); [reflexivity|lia].
    + rewrite (wrap_small (wrap (a - dst) - 1)) by lia.
      destruct (Z.eqb_spec a (wrap dst)) as [Y|_]; [tauto|].
      destruct (Z.ltb_spec (wrap (a - dst) - 1) (Z.of_nat n));
        destruct (Z.ltb_spec (wrap (a - dst)) (Z.of_nat (S n)));
        try reflexivity; lia.
Qed.

(** ** release *)

Lemma GET_SIZE_spec (st : state) (p : Z) :
  0 <= GET_SIZE st p < 2 ^ 64 /\ GET_SIZE st p mod 16 = 0.
Proof.
  unfold GET_SIZE. rewrite land_low_clear.
  pose proof (GET_range st p) as Hg.
  pose proof (Z.mod_pos_bound (GET st p) 16 ltac:(lia)) as Hm.
  pose proof (Z.div_mod (GET st p) 16 ltac:(lia)) as Hd.
  split; [lia|].
  replace (GET st p - GET st p mod 16) with ((GET st p / 16) * 16) by lia.
  apply Z.mod_mul. lia.
Qed.

Lemma GET_SIZE_PUT_size (st : state) (p s : Z) :
  0 <= s < 2 ^ 64 -> s mod 16 = 0 -> GET_SIZE (PUT st p (PACK s 0)) p = s.
Proof.
  intros Hs Hm. unfold GET_SIZE. rewrite GET_PUT_same.
  unfold PACK. rewrite Z.lor_0_r, wrap_small by exact Hs.
  rewrite land_low_clear. lia.
Qed.

(** C10: [free] tests nothing about its argument.  For every state and
    every pointer, null included, it reads the size from the word at
    [ptr - 8], writes that size with a cleared allocated bit back to
    [ptr - 8] and to the footer address derived from it, and hands the
    pointer to [coalesce].  At [ptr = NULL] the header is the word at
    2^64 - 8, and a state holding 1 there is changed by [free(NULL)]. *)
Theorem free_unchecked :
  (forall (st : state) (ptr : Z),
     let size := GET_SIZE st (HDRP ptr) in
     let ftr := wrap (wrap (ptr + size) - DSIZE) in
     let st2 := PUT (PUT st (HDRP ptr) (PACK size 0)) ftr (PACK size 0) in
     HDRP ptr = wrap (ptr - 8)
     /\ free st ptr = fst (coalesce st2 ptr)
     /\ GET st2 (HDRP ptr) = size
     /\ GET st2 ftr = size
     /\ GET_ALLOC st2 (HDRP ptr) = 0)
  /\ HDRP NULL = 2 ^ 64 - 8
  /\ GET (PUT booted (HDRP NULL) 1) (HDRP NULL) = 1
  /\ GET (free (PUT booted (HDRP NULL) 1) NULL) (HDRP NULL) = 0.
Proof.
  split.
  - intros st ptr size ftr st2.
    destruct (GET_SIZE_spec st (HDRP ptr)) as [Hr Hm]. fold size in Hr, Hm.
    assert (Hp : PACK size 0 = size) by (unfold PACK; apply Z.lor_0_r).
    assert (Hf : FTRP (PUT st (HDRP ptr) (PACK size 0)) ptr = ftr).
    { unfold FTRP. rewrite GET_SIZE_PUT_size by assumption. reflexivity. }
    assert (Hh : GET st2 (HDRP ptr) = size).
    { unfold st2. rewrite GET_PUT_far_wrap.
      - rewrite GET_PUT_same, Hp. apply wrap_small, Hr.
      - unfold ftr, HDRP, WSIZE, DSIZE, wrap.
        rewrite <- Zminus_mod.
        replace (ptr - 8 - ((ptr + size) mod 2 ^ 64 - 16))
          with (ptr + 8 - (ptr + size) mod 2 ^ 64) by lia.
        rewrite Zminus_mod_idemp_r.
        replace (ptr + 8 - (ptr + size)) with (8 - size) by lia.
        destruct (Z.eq_dec size 0) as [E|E].
        + rewrite E. rewrite Z.mod_small; lia.
        + assert (16 <= size).
          { pose proof (Z.div_mod size 16 ltac:(lia)). lia. }
          assert (size <= 2 ^ 64 - 16).
          { pose proof (Z.div_mod size 16 ltac:(lia)).
            assert (size / 16 < 2 ^ 60) by (apply Z.div_lt_upper_bound; lia).
            lia. }
          replace (8 - size) with (8 - size + 2 ^ 64 + (-1) * 2 ^ 64) by lia.
          rewrite Z.mod_add by lia. rewrite Z.mod_small; lia. }
    split; [reflexivity|].
    split; [unfold free; fold size; rewrite Hf; reflexivity|].
    split; [exact Hh|].
    split.
    + unfold st2. rewrite GET_PUT_same, Hp. apply wrap_small, Hr.
    + unfold GET_ALLOC. rewrite Hh, land_one.
      rewrite <- (Z.mod_mod_divide size 16 2) in * by (exists 8; reflexivity).
      rewrite Z.mod_mod_divide by (exists 8; reflexivity).
      pose proof (Z.div_mod size 16 ltac:(lia)).
      replace size with ((size / 16 * 8) * 2) by lia. apply Z.mod_mul. lia.
  - repeat split; vm_compute; reflexivity.
Qed.

(** ** Arithmetic of tags and block addresses *)

Lemma tag_value (s : Z) (a : bool) :
  s mod 16 = 0 -> tag s a = s + (if a then 1 else 0).
Proof. intros H. unfold tag. apply PACK_add; [exact H|destruct a; lia]. Qed.

Lemma tag_range (s : Z) (a : bool) :
  0 <= s -> s + 16 <= 2 ^ 64 -> s mod 16 = 0 -> 0 <= tag s a < 2 ^ 64.
Proof. intros H1 H2 H3. rewrite tag_value by exact H3. destruct a; lia. Qed.

Lemma GET_SIZE_tag (st : state) (p s : Z) (a : bool) :
  GET st p = tag s a -> s mod 16 = 0 -> GET_SIZE st p = s.
Proof.
  intros H Hs. unfold GET_SIZE. rewrite H, tag_value, land_low_clear by exact Hs.
  destruct a.
  - rewrite Z.add_mod, Hs by lia. change ((0 + 1 mod 16) mod 16) with 1. lia.
  - rewrite Z.add_0_r, Hs. lia.
Qed.

Lemma GET_ALLOC_tag (st : state) (p s : Z) (a : bool) :
  GET st p = tag s a -> s mod 16 = 0 ->
  GET_ALLOC st p = if a then 1 else 0.
Proof.
  intros H Hs. unfold GET_ALLOC. rewrite H, tag_value, land_one by exact Hs.
  assert (E : s mod 2 = 0).
  { rewrite <- (Z.mod_mod_divide s 16 2) by (exists 8; reflexivity).
    rewrite Hs. reflexivity. }
  destruct a.
  - rewrite Z.add_mod, E by lia. reflexivity.
  - rewrite Z.add_0_r. exact E.
Qed.

Lemma HDRP_eq (bp : Z) : 8 <= bp < 2 ^ 64 -> HDRP bp = bp - 8.
Proof. intros H. unfold HDRP, WSIZE. apply wrap_small. lia. Qed.

Lemma FTRP_eq (st : state) (bp s : Z) :
  8 <= bp -> GET_SIZE st (bp - 8) = s -> 16 <= s -> bp + s < 2 ^ 64 ->
  FTRP st bp = bp + s - 16.
Proof.
  intros H1 H2 H3 H4. unfold FTRP, DSIZE. rewrite HDRP_eq, H2 by lia.
  rewrite (wrap_small (bp + s)) by lia. apply wrap_small. lia.
Qed.

Lemma NEXT_BLKP_eq (st : state) (bp s : Z) :
  8 <= bp -> GET_SIZE st (bp - 8) = s -> 0 <= s -> bp + s < 2 ^ 64 ->
  NEXT_BLKP st bp = bp + s.
Proof.
  intros H1 H2 H3 H4. unfold NEXT_BLKP, WSIZE.
  rewrite (wrap_small (bp - 8)), H2 by lia. apply wrap_small. lia.
Qed.

Lemma PREV_BLKP_eq (st : state) (bp s : Z) :
  16 <= bp < 2 ^ 64 -> GET_SIZE st (bp - 16) = s -> 0 <= s <= bp ->
  PREV_BLKP st bp = bp - s.
Proof.
  intros H1 H2 H3. unfold PREV_BLKP, DSIZE.
  rewrite (wrap_small (bp - 16)), H2 by lia. apply wrap_small. lia.
Qed.

Lemma NEXTF_eq (st : state) (b : Z) :
  0 <= b -> b + 8 < 2 ^ 64 -> NEXTF st b = GET st (b + 8).
Proof. intros H1 H2. unfold NEXTF, WSIZE. rewrite wrap_small by lia. reflexivity. Qed.

(** ** Geometry of a chain *)

Lemma chain_app (l1 l2 : list block) :
  forall p q, chain p (l1 ++ l2) q <-> exists m, chain p l1 m /\ chain m l2 q.
Proof.
  induction l1 as [|[[b s] a] l1 IH]; intros p q; cbn [chain app].
  - split.
    + intros H. exists p. split; [reflexivity|exact H].
    + intros (m & -> & H). exact H.
  - rewrite IH. split.
    + intros (Hb & Hs & Hm & m & H1 & H2). exists m. tauto.
    + intros (m & (Hb & Hs & Hm & H1) & H2). repeat split; try assumption.
      exists m. tauto.
Qed.

Lemma chain_le (l : list block) : forall p q, chain p l q -> p <= q.
Proof.
  induction l as [|[[b s] a] l IH]; intros p q; cbn [chain].
  - lia.
  - intros (_ & Hs & _ & H). apply IH in H. lia.
Qed.

Lemma chain_In (l : list block) :
  forall p q b s a, chain p l q -> In (b, s, a) l ->
    p <= b /\ b + s <= q /\ 32 <= s /\ s mod 16 = 0.
Proof.
  induction l as [|[[b0 s0] a0] l IH]; intros p q b s a; cbn [chain In].
  - tauto.
  - intros (Hb & Hs & Hm & H) [E|Hin].
    + injection E as -> -> ->. apply chain_le in H. lia.
    + destruct (IH _ _ _ _ _ H Hin) as (H1 & H2 & H3 & H4). lia.
Qed.

Lemma chain_order (l : list block) :
  forall p q x sx ax y sy ay,
    chain p l q -> In (x, sx, ax) l -> In (y, sy, ay) l ->
    (x, sx, ax) = (y, sy, ay) \/ x + sx <= y \/ y + sy <= x.
Proof.
  induction l as [|[[b0 s0] a0] l IH]; intros p q x sx ax y sy ay;
    cbn [chain In].
  - tauto.
  - intros (Hb & Hs & Hm & H) [E1|H1] [E2|H2].
    + left. congruence.
    + injection E1 as -> -> ->. right. left.
      pose proof (chain_In _ _ _ _ _ _ H H2). lia.
    + injection E2 as -> -> ->. right. right.
      pose proof (chain_In _ _ _ _ _ _ H H1). lia.
    + eapply IH; eassumption.
Qed.

Lemma chain_size_unique (l : list block) (p q b s s' : Z) (a a' : bool) :
  chain p l q -> In (b, s, a) l -> In (b, s', a') l -> s = s' /\ a = a'.
Proof.
  intros Hc H1 H2.
  destruct (chain_order _ _ _ _ _ _ _ _ _ Hc H1 H2) as [E|H].
  - injection E as -> ->. tauto.
  - pose proof (chain_In _ _ _ _ _ _ Hc H1).
    pose proof (chain_In _ _ _ _ _ _ Hc H2). lia.
Qed.

Lemma naf_app (l1 l2 : list block) :
  forall pf, naf pf (l1 ++ l2) <-> naf pf l1 /\ naf (last_free pf l1) l2.
Proof.
  induction l1 as [|[[b s] a] l1 IH]; intros pf; cbn [naf last_free app].
  - tauto.
  - rewrite IH. tauto.
Qed.

Lemma last_free_app (l1 l2 : list block) :
  forall pf, last_free pf (l1 ++ l2) = last_free (last_free pf l1) l2.
Proof.
  induction l1 as [|[[b s] a] l1 IH]; intros pf; cbn [last_free app].
  - reflexivity.
  - apply IH.
Qed.

Lemma naf_weaken (l : list block) : naf true l -> naf false l.
Proof. destruct l as [|[[b s] a] l]; cbn [naf]; [tauto|]. intros [_ H]. split; [discriminate|exact H]. Qed.

(** ** Frames: what a change of memory leaves alone *)

Lemma preserves_refl (P : Z -> Prop) (st : state) : preserves P st st.
Proof. intros q _. reflexivity. Qed.

Lemma preserves_trans (P : Z -> Prop) (st1 st2 st3 : state) :
  preserves P st1 st2 -> preserves P st2 st3 -> preserves P st1 st3.
Proof. intros H1 H2 q Hq. rewrite H2, H1 by exact Hq. reflexivity. Qed.

Lemma preserves_weaken (P Q : Z -> Prop) (st st' : state) :
  (forall q, Q q -> P q) -> preserves P st st' -> preserves Q st st'.
Proof. intros H Hp q Hq. apply Hp, H, Hq. Qed.

Lemma preserves_PUT (st : state) (a v : Z) :
  preserves (apart a) st (PUT st a v).
Proof. intros q Hq. apply GET_PUT_far, Hq. Qed.

Lemma preserves_set_seg (P : Z -> Prop) (st : state) (i v : Z) :
  preserves P st (set_seg st i v).
Proof. intros q _. reflexivity. Qed.

Lemma GET_set_seg (st : state) (i v q : Z) : GET (set_seg st i v) q = GET st q.
Proof. reflexivity. Qed.

Lemma same_bounds_refl (st : state) : same_bounds st st.
Proof. repeat split. Qed.

Lemma same_bounds_trans (st1 st2 st3 : state) :
  same_bounds st1 st2 -> same_bounds st2 st3 -> same_bounds st1 st3.
Proof. unfold same_bounds. intros (A & B & C) (D & E & F). repeat split; congruence. Qed.

Lemma layout_frame (P : Z -> Prop) (st st' : state) (bl : list block) :
  layout st bl -> same_bounds st st' -> preserves P st st' ->
  (forall b s a, In (b, s, a) bl -> P (b - 8) /\ P (b + s - 16)) ->
  P (mem_brk st - 8) -> P (heap_listp st - 16) ->
  layout st' bl.
Proof.
  intros (H1 & H2 & H3 & H4 & H5 & H6) (B1 & B2 & B3) Hp Hb He Hpad.
  unfold layout. rewrite B1, B2, B3.
  repeat split; try assumption; try lia.
  - rewrite Forall_forall in *. intros [[b s] a] Hin.
    specialize (H4 _ Hin). specialize (Hb _ _ _ Hin). cbn [tagged] in *.
    rewrite !Hp by tauto. exact H4.
  - rewrite Hp by exact He. exact H5.
  - unfold GET_SIZE in *. rewrite Hp by exact Hpad. exact H6.
Qed.

Lemma lseg_frame (P : Z -> Prop) (st st' : state) (l : list Z) :
  preserves P st st' ->
  forall hd prev tl,
    (forall x, In x l -> 0 <= x /\ x + 16 <= 2 ^ 64 /\ P x /\ P (x + 8)) ->
    lseg st hd prev l tl -> lseg st' hd prev l tl.
Proof.
  intros Hp. induction l as [|x l IH]; intros hd prev tl Hx; cbn [lseg].
  - tauto.
  - intros (E & Hprev & Hrest).
    destruct (Hx x (or_introl eq_refl)) as (X1 & X2 & X3 & X4).
    assert (En : NEXTF st' x = NEXTF st x).
    { rewrite !NEXTF_eq by lia. apply Hp, X4. }
    split; [exact E|]. split.
    + unfold PREVF in *. rewrite Hp by exact X3. exact Hprev.
    + rewrite En. apply IH; [|exact Hrest].
      intros y Hy. apply Hx. right. exact Hy.
Qed.

Lemma lseg_set_seg (st : state) (i v : Z) (l : list Z) :
  forall hd prev tl, lseg st hd prev l tl -> lseg (set_seg st i v) hd prev l tl.
Proof.
  induction l as [|x l IH]; intros hd prev tl; cbn [lseg].
  - tauto.
  - intros (E & Hp & Hr). split; [exact E|]. split; [exact Hp|].
    apply IH in Hr. exact Hr.
Qed.

Lemma lists_frame (P : Z -> Prop) (st st' : state) (fl : table) :
  lists st fl -> (forall i, 0 <= i < 11 -> seg st' i = seg st i) ->
  preserves P st st' ->
  (forall b, registered fl b -> 0 <= b /\ b + 16 <= 2 ^ 64 /\ P b /\ P (b + 8)) ->
  lists st' fl.
Proof.
  intros Hl Hs Hp Hb i Hi. rewrite Hs by exact Hi.
  eapply lseg_frame; [exact Hp| |apply Hl, Hi].
  intros x Hx. apply Hb. exists i. tauto.
Qed.

(** ** Lists: joining and splitting segments *)

Lemma last_cons (l : list Z) : forall x d, last (x :: l) d = last l x.
Proof.
  induction l as [|y l IH]; intros x d.
  - reflexivity.
  - change (last (x :: y :: l) d) with (last (y :: l) d).
    rewrite IH. symmetry. apply IH.
Qed.

Lemma lseg_app (st : state) (l1 l2 : list Z) :
  forall hd prev tl,
    lseg st hd prev (l1 ++ l2) tl
    <-> exists m, lseg st hd prev l1 m /\ lseg st m (last l1 prev) l2 tl.
Proof.
  induction l1 as [|x l1 IH]; intros hd prev tl.
  - cbn [app lseg last]. split.
    + intros H. exists hd. tauto.
    + intros (m & -> & H). exact H.
  - rewrite last_cons. cbn [app lseg]. rewrite IH. split.
    + intros (E & Hp & m & H1 & H2). exists m. tauto.
    + intros (m & (E & Hp & H1) & H2). repeat split; try assumption.
      exists m. tauto.
Qed.

Lemma NoDup_app_inv (l1 l2 : list Z) :
  NoDup (l1 ++ l2) ->
  NoDup l1 /\ NoDup l2 /\ forall x, In x l1 -> In x l2 -> False.
Proof.
  induction l1 as [|a l1 IH]; cbn [app].
  - intros H. repeat split; [constructor|exact H|contradiction].
  - intros H. apply NoDup_cons_iff in H. destruct H as [Ha H].
    destruct (IH H) as (I1 & I2 & I3).
    rewrite in_app_iff in Ha.
    repeat split; [constructor; tauto|exact I2|].
    intros x [->|Hx] Hx2; [tauto|eapply I3; eassumption].
Qed.

Lemma remove_notin (b : Z) (l : list Z) : ~ In b l -> remove Z.eq_dec b l = l.
Proof. apply notin_remove. Qed.

Lemma remove_mid (b : Z) (l1 l2 : list Z) :
  NoDup (l1 ++ b :: l2) -> remove Z.eq_dec b (l1 ++ b :: l2) = l1 ++ l2.
Proof.
  intros H. apply NoDup_remove_2 in H. rewrite in_app_iff in H.
  rewrite remove_app. cbn [remove].
  destruct (Z.eq_dec b b) as [_|N]; [|contradiction].
  rewrite !remove_notin by tauto. reflexivity.
Qed.

Lemma NoDup_rm (b : Z) (l : list Z) : NoDup l -> NoDup (remove Z.eq_dec b l).
Proof.
  induction 1 as [|x l Hx Hn IH]; cbn [remove].
  - constructor.
  - destruct (Z.eq_dec b x); [exact IH|].
    constructor; [|exact IH]. intros Hin. apply in_remove in Hin. tauto.
Qed.

Lemma in_rm (b x : Z) (l : list Z) :
  In x (remove Z.eq_dec b l) <-> In x l /\ x <> b.
Proof.
  split.
  - apply in_remove.
  - intros [H1 H2]. apply in_in_remove; assumption.
Qed.

(** ** Spacing of registered addresses *)

Lemma spaced_self (S : Z -> Prop) (x : Z) :
  spaced S -> S x ->
  x <> 0 /\ 0 <= x /\ x + 16 <= 2 ^ 64 /\ apart x (x + 8) /\ apart (x + 8) x.
Proof. intros [H _] Hx. specialize (H x Hx). unfold apart. lia. Qed.

Lemma spaced_pair (S : Z -> Prop) (x y : Z) :
  spaced S -> S x -> S y -> x <> y ->
  apart x y /\ apart x (y + 8) /\ apart (x + 8) y /\ apart (x + 8) (y + 8).
Proof.
  intros [H1 H2] Hx Hy Hn.
  pose proof (H1 x Hx). pose proof (H1 y Hy). pose proof (H2 x y Hx Hy).
  unfold apart. lia.
Qed.

Lemma clear_of_apart (S : Z -> Prop) (x q : Z) :
  spaced S -> S x -> clear_of S q -> apart x q /\ apart (x + 8) q.
Proof.
  intros [H1 _] Hx (Q1 & Q2 & Q3).
  pose proof (H1 x Hx). pose proof (Q3 x Hx). unfold apart. lia.
Qed.

Lemma lseg_PUT (S : Z -> Prop) (st : state) (a0 a v : Z) (l : list Z) :
  spaced S -> S a0 -> a = a0 \/ a = a0 + 8 ->
  (forall x, In x l -> S x /\ x <> a0) ->
  forall hd prev tl, lseg st hd prev l tl -> lseg (PUT st a v) hd prev l tl.
Proof.
  intros Hsp Ha Hor Hl hd prev tl.
  apply (lseg_frame (apart a)); [apply preserves_PUT|].
  intros x Hx. destruct (Hl x Hx) as [Sx Nx].
  destruct (spaced_self S x Hsp Sx) as (_ & X1 & X2 & _).
  destruct (spaced_pair S a0 x Hsp Ha Sx (not_eq_sym Nx)) as (P1 & P2 & P3 & P4).
  destruct Hor as [->| ->]; tauto.
Qed.

(** ** [delete] removes a registered block from its list *)

Section Delete.
Variables (st : state) (fl : table) (bp : Z).
Hypothesis Hl : lists st fl.
Hypothesis Hsp : spaced (registered fl).
Hypothesis Hnd : forall i, 0 <= i < 11 -> NoDup (fl i).
Hypothesis Hdj : forall i j b, 0 <= i < 11 -> 0 <= j < 11 ->
                               In b (fl i) -> In b (fl j) -> i = j.

Let reg_in (i x : Z) : 0 <= i < 11 -> In x (fl i) -> registered fl x.
Proof. intros Hi Hx. exists i. tauto. Qed.

Lemma rm_other (i j : Z) :
  0 <= i < 11 -> 0 <= j < 11 -> In bp (fl i) -> j <> i -> rm fl bp j = fl j.
Proof.
  intros Hi Hj Hin Hne. unfold rm. apply remove_notin.
  intros Hin'. apply Hne. eapply Hdj; eassumption.
Qed.

(** The block heads class [i]. *)
Lemma delete_head (i : Z) :
  0 <= i < 11 -> seg st i = bp -> registered fl bp ->
  forall st',
  st' = (if (PREVF st bp =? 0) && negb (NEXTF st bp =? 0) then
           let st1 := PUT st (NEXTF st bp) 0 in set_seg st1 i (NEXTF st1 bp)
         else set_seg st i 0) ->
  delete_post st fl bp st'
  /\ seg st' i = NEXTF st bp
  /\ (NEXTF st bp <> 0 -> PREVF st' (NEXTF st bp) = 0)
  /\ (forall j, j <> i -> seg st' j = seg st j).
Proof.
  intros Hi Hseg Hreg st' ->.
  destruct (spaced_self _ _ Hsp Hreg) as (B0 & B1 & B2 & B3 & B4).
  pose proof (Hl i Hi) as Hli. rewrite Hseg in Hli.
  destruct (fl i) as [|x r] eqn:Efl; cbn [lseg] in Hli; [congruence|].
  destruct Hli as (<- & Hprev & Hrest).
  assert (Hbin : In bp (fl i)) by (rewrite Efl; left; reflexivity).
  pose proof (Hnd i Hi) as Hn. rewrite Efl in Hn.
  apply NoDup_cons_iff in Hn. destruct Hn as [Hbr Hnr].
  rewrite Hprev. change (0 =? 0) with true. cbn [andb].
  destruct r as [|n r'].
  - (* the only block of its class *)
    cbn [lseg] in Hrest. rewrite Hrest. change (0 =? 0) with true.
    cbn [negb].
    split; [|split; [cbn [set_seg seg]; rewrite Z.eqb_refl; reflexivity|split; [congruence|]]].
    + split; [|split; [apply preserves_set_seg|repeat split]].
      intros j Hj. cbn [set_seg seg].
      destruct (Z.eqb_spec j i) as [->|Hne].
      * unfold rm. rewrite Efl. cbn [remove].
        destruct (Z.eq_dec bp bp); [|contradiction]. reflexivity.
      * rewrite (rm_other i j Hi Hj Hbin Hne).
        apply (lseg_frame (fun _ => True) st); [intros q _; reflexivity| |apply Hl, Hj].
        intros y Hy. destruct (spaced_self _ _ Hsp (reg_in j y Hj Hy)). tauto.
    + intros j Hne. cbn [set_seg seg].
      destruct (Z.eqb_spec j i); [contradiction|reflexivity].
  - (* a successor [n] becomes the head *)
    cbn [lseg] in Hrest. destruct Hrest as (En & Hpn & Hrest).
    assert (Hnin : In n (fl i)) by (rewrite Efl; right; left; reflexivity).
    pose proof (reg_in i n Hi Hnin) as Hregn.
    destruct (spaced_self _ _ Hsp Hregn) as (N0 & N1 & N2 & N3 & N4).
    assert (Hne : bp <> n) by (intros ->; apply Hbr; left; reflexivity).
    destruct (spaced_pair _ _ _ Hsp Hregn Hreg (not_eq_sym Hne))
      as (A1 & A2 & A3 & A4).
    rewrite En. destruct (Z.eqb_spec n 0) as [|_]; [contradiction|].
    cbn [negb].
    assert (E1 : NEXTF (PUT st n 0) bp = n).
    { rewrite NEXTF_eq by lia. rewrite GET_PUT_far by exact A2.
      rewrite <- NEXTF_eq by lia. exact En. }
    rewrite E1.
    apply NoDup_cons_iff in Hnr. destruct Hnr as [Hnr' Hnr].
    split; [|split; [cbn [set_seg seg]; rewrite Z.eqb_refl; reflexivity|split; [|]]].
    + split; [|split].
      * intros j Hj. cbn [set_seg seg].
        destruct (Z.eqb_spec j i) as [->|Hji].
        -- unfold rm. rewrite Efl. cbn [remove].
           destruct (Z.eq_dec bp bp); [|contradiction].
           destruct (Z.eq_dec bp n); [contradiction|].
           rewrite remove_notin by (intros Hx; apply Hbr; right; exact Hx).
           cbn [lseg]. split; [reflexivity|]. split.
           ++ unfold PREVF. apply GET_PUT_same.
           ++ assert (E2 : NEXTF (set_seg (PUT st n 0) i n) n = NEXTF st n).
              { rewrite !NEXTF_eq by lia. apply GET_PUT_far, N3. }
              rewrite E2.
              apply (lseg_frame (apart n) st);
                [intros q Hq; apply GET_PUT_far, Hq| |exact Hrest].
              intros y Hy.
              assert (Hyin : In y (fl i)) by (rewrite Efl; right; right; exact Hy).
              pose proof (reg_in i y Hi Hyin) as Hry.
              destruct (spaced_self _ _ Hsp Hry) as (_ & Y1 & Y2 & _).
              assert (Hny : n <> y) by (intros ->; apply Hnr'; exact Hy).
              destruct (spaced_pair _ _ _ Hsp Hregn Hry Hny). tauto.
        -- rewrite (rm_other i j Hi Hj Hbin Hji).
           apply (lseg_frame (apart n) st);
             [intros q Hq; apply GET_PUT_far, Hq| |apply Hl, Hj].
           intros y Hy.
           pose proof (reg_in j y Hj Hy) as Hry.
           destruct (spaced_self _ _ Hsp Hry) as (_ & Y1 & Y2 & _).
           assert (Hny : n <> y).
           { intros ->. apply Hji. eapply Hdj; eassumption. }
           destruct (spaced_pair _ _ _ Hsp Hregn Hry Hny). tauto.
      * intros q Hq. cbn [set_seg]. apply GET_PUT_far.
        apply (clear_of_apart _ _ _ Hsp Hregn Hq).
      * repeat split.
    + intros _. unfold PREVF. apply GET_PUT_same.
    + intros j Hji. cbn [set_seg seg].
      destruct (Z.eqb_spec j i); [contradiction|reflexivity].
Qed.

(** The block heads no class: it is spliced out through its links. *)
Lemma delete_interior :
  registered fl bp -> (forall j, 0 <= j < 11 -> seg st j <> bp) ->
  delete_post st fl bp (delete_splice st bp)
  /\ registered fl (PREVF st bp)
  /\ NEXTF (delete_splice st bp) (PREVF st bp) = NEXTF st bp
  /\ (NEXTF st bp <> 0 ->
      PREVF (delete_splice st bp) (NEXTF st bp) = PREVF st bp)
  /\ (forall j, seg (delete_splice st bp) j = seg st j).
Proof.
  intros Hreg Hnh.
  pose proof (proj1 Hsp bp Hreg) as Bb.
  destruct Hreg as (i & Hi & Hin).
  assert (Hreg : registered fl bp) by (exists i; tauto).
  destruct (in_split _ _ Hin) as (l1 & l2 & Efl).
  pose proof (Hl i Hi) as Hli. rewrite Efl in Hli.
  destruct l1 as [|x0 l10].
  { cbn [app lseg] in Hli. exfalso. apply (Hnh i Hi). tauto. }
  destruct (exists_last (l := x0 :: l10) ltac:(discriminate)) as (l1 & pr & E1).
  rewrite E1 in *. clear E1 x0 l10.
  apply lseg_app in Hli. destruct Hli as (m & Hl1 & Hl2).
  rewrite last_last in Hl2. cbn [lseg] in Hl2.
  destruct Hl2 as (-> & Hprev & Hl2).
  apply lseg_app in Hl1. destruct Hl1 as (m' & Hl1 & Hpr).
  cbn [lseg] in Hpr. destruct Hpr as (-> & Hpp & Hpn).
  pose proof (Hnd i Hi) as Hn. rewrite Efl in Hn.
  assert (Hprin : In pr (fl i)).
  { rewrite Efl, !in_app_iff. left. right. left. reflexivity. }
  pose proof (reg_in i pr Hi Hprin) as Hrpr.
  pose proof (proj1 Hsp pr Hrpr) as Bp.
  destruct (NoDup_app_inv _ _ Hn) as (D1 & D2 & D3).
  destruct (NoDup_app_inv _ _ D1) as (_ & _ & D4).
  assert (Hpb : pr <> bp).
  { intros ->. apply (D3 bp); [rewrite in_app_iff|]; cbn [In]; tauto. }
  pose proof (proj2 Hsp pr bp Hrpr Hreg) as Spb.
  (* the nodes before [pr] and those of other classes are never [pr] *)
  assert (Hl1ne : forall y, In y l1 -> registered fl y /\ y <> pr).
  { intros y Hy. split.
    - apply (reg_in i y Hi). rewrite Efl, !in_app_iff. tauto.
    - intros ->. apply (D4 pr Hy). left. reflexivity. }
  assert (Hothers : forall j y, 0 <= j < 11 -> j <> i -> In y (fl j) ->
                               registered fl y /\ forall z, In z (fl i) -> y <> z).
  { intros j y Hj Hji Hy. split; [apply (reg_in j y Hj Hy)|].
    intros z Hz ->. apply Hji. eapply Hdj; eassumption. }
  assert (Erm : rm fl bp i = (l1 ++ [pr]) ++ l2).
  { unfold rm. rewrite Efl. apply remove_mid. rewrite <- Efl. apply Hnd, Hi. }
  unfold delete_splice. rewrite Hprev.
  destruct (Z.eqb_spec pr 0) as [|_]; [lia|]. cbn [negb andb].
  assert (Ew : wrap (pr + WSIZE) = pr + 8) by (apply wrap_small; unfold WSIZE; lia).
  destruct l2 as [|n r].
  - (* [bp] is the last node *)
    cbn [lseg] in Hl2. rewrite Hl2. change (0 =? 0) with true. cbv iota.
    rewrite Ew.
    split; [|split; [exact Hrpr|split; [|split; [congruence|reflexivity]]]].
    + split; [|split; [|repeat split]].
      * intros j Hj. change (seg (PUT st (pr + 8) 0) j) with (seg st j).
        destruct (Z.eq_dec j i) as [->|Hji].
        -- rewrite Erm, app_nil_r. apply lseg_app. exists pr. split.
           ++ apply (lseg_PUT _ st pr _ _ _ Hsp Hrpr (or_intror eq_refl) Hl1ne).
              exact Hl1.
           ++ cbn [lseg]. split; [reflexivity|]. split.
              ** unfold PREVF. rewrite GET_PUT_far by (unfold apart; lia). exact Hpp.
              ** rewrite NEXTF_eq by lia. apply GET_PUT_same.
        -- rewrite (rm_other i j Hi Hj Hin Hji).
           apply (lseg_PUT _ st pr _ _ _ Hsp Hrpr (or_intror eq_refl)); [|apply Hl, Hj].
           intros y Hy. destruct (Hothers j y Hj Hji Hy) as [Ry Ny].
           split; [exact Ry|apply Ny, Hprin].
      * intros q Hq. apply GET_PUT_far.
        destruct (clear_of_apart _ _ _ Hsp Hrpr Hq). tauto.
    + rewrite NEXTF_eq by lia. apply GET_PUT_same.
  - (* [bp] lies between [pr] and [n] *)
    cbn [lseg] in Hl2. destruct Hl2 as (En & Hnp & Hr).
    assert (Hnin : In n (fl i)).
    { rewrite Efl, !in_app_iff. right. right. left. reflexivity. }
    pose proof (reg_in i n Hi Hnin) as Hrn.
    pose proof (proj1 Hsp n Hrn) as Bn.
    apply NoDup_cons_iff in D2. destruct D2 as [D2 D5].
    apply NoDup_cons_iff in D5. destruct D5 as [D5 _].
    assert (Hnb : n <> bp) by (intros ->; apply D2; left; reflexivity).
    assert (Hnpr : n <> pr).
    { intros ->. apply (D3 pr); [rewrite in_app_iff|]; cbn [In]; tauto. }
    pose proof (proj2 Hsp n bp Hrn Hreg) as Snb.
    pose proof (proj2 Hsp n pr Hrn Hrpr) as Snp.
    assert (Hrne : forall y, In y r -> registered fl y /\ y <> n /\ y <> pr).
    { intros y Hy. split; [|split].
      - apply (reg_in i y Hi). rewrite Efl, !in_app_iff. right. right. right. exact Hy.
      - intros ->. tauto.
      - intros ->. apply (D3 pr); [rewrite in_app_iff|]; cbn [In]; tauto. }
    assert (Hl1n : forall y, In y l1 -> y <> n).
    { intros y Hy ->. apply (D3 n); [rewrite in_app_iff|]; cbn [In]; tauto. }
    rewrite En. destruct (Z.eqb_spec n 0) as [|_]; [lia|]. cbv iota.
    assert (Ep1 : PREVF (PUT st n pr) bp = pr).
    { unfold PREVF. rewrite GET_PUT_far by (unfold apart; lia). exact Hprev. }
    assert (En1 : NEXTF (PUT st n pr) bp = n).
    { rewrite NEXTF_eq by lia. rewrite GET_PUT_far by (unfold apart; lia).
      rewrite <- NEXTF_eq by lia. exact En. }
    cbv zeta. rewrite Ep1, En1, Ew.
    split; [|split; [exact Hrpr|split; [|split; [|reflexivity]]]].
    + split; [|split; [|repeat split]].
      * intros j Hj.
        change (seg (PUT (PUT st n pr) (pr + 8) n) j) with (seg st j).
        destruct (Z.eq_dec j i) as [->|Hji].
        -- rewrite Erm, <- app_assoc. apply lseg_app. exists pr. split.
           ++ apply (lseg_PUT _ _ pr _ _ _ Hsp Hrpr (or_intror eq_refl) Hl1ne).
              apply (lseg_PUT _ _ n _ _ _ Hsp Hrn (or_introl eq_refl));
                [|exact Hl1].
              intros y Hy. split; [apply Hl1ne, Hy|apply Hl1n, Hy].
           ++ cbn [app lseg]. split; [reflexivity|]. split; [|split; [|split]].
              ** unfold PREVF. rewrite !GET_PUT_far by (unfold apart; lia).
                 exact Hpp.
              ** rewrite NEXTF_eq by lia. rewrite GET_PUT_same.
                 apply wrap_small. lia.
              ** unfold PREVF. rewrite GET_PUT_far by (unfold apart; lia).
                 rewrite GET_PUT_same. apply wrap_small. lia.
              ** assert (E : NEXTF (PUT (PUT st n pr) (pr + 8) n) n = NEXTF st n).
                 { rewrite !NEXTF_eq by lia.
                   rewrite !GET_PUT_far by (unfold apart; lia). reflexivity. }
                 rewrite E.
                 apply (lseg_PUT _ _ pr _ _ _ Hsp Hrpr (or_intror eq_refl));
                   [intros y Hy; destruct (Hrne y Hy); tauto|].
                 apply (lseg_PUT _ _ n _ _ _ Hsp Hrn (or_introl eq_refl));
                   [intros y Hy; destruct (Hrne y Hy); tauto|].
                 exact Hr.
        -- rewrite (rm_other i j Hi Hj Hin Hji).
           apply (lseg_PUT _ _ pr _ _ _ Hsp Hrpr (or_intror eq_refl));
             [intros y Hy; destruct (Hothers j y Hj Hji Hy) as [Ry Ny];
              split; [exact Ry|apply Ny, Hprin]|].
           apply (lseg_PUT _ _ n _ _ _ Hsp Hrn (or_introl eq_refl));
             [intros y Hy; destruct (Hothers j y Hj Hji Hy) as [Ry Ny];
              split; [exact Ry|apply Ny, Hnin]|].
           apply Hl, Hj.
      * intros q Hq.
        destruct (clear_of_apart _ _ _ Hsp Hrpr Hq).
        destruct (clear_of_apart _ _ _ Hsp Hrn Hq).
        rewrite !GET_PUT_far by assumption. reflexivity.
    + rewrite NEXTF_eq by lia. rewrite GET_PUT_same. apply wrap_small. lia.
    + intros _. unfold PREVF. rewrite GET_PUT_far by (unfold apart; lia).
      rewrite GET_PUT_same. apply wrap_small. lia.
Qed.

Lemma delete_scan_post (k : nat) :
  forall i, Z.of_nat k + i = 11 -> 0 <= i -> registered fl bp ->
    (forall j, 0 <= j < i -> seg st j <> bp) ->
    delete_post st fl bp (delete_scan k i st bp).
Proof.
  induction k as [|k IH]; intros i Hk Hi Hreg Hnh; cbn [delete_scan].
  - apply delete_interior; [exact Hreg|].
    intros j Hj. apply Hnh. lia.
  - destruct (Z.eqb_spec bp (seg st i)) as [E|N].
    + exact (proj1 (delete_head i ltac:(lia) (eq_sym E) Hreg _ eq_refl)).
    + apply IH; [lia|lia|exact Hreg|].
      intros j Hj. destruct (Z.eq_dec j i) as [->|]; [congruence|].
      apply Hnh. lia.
Qed.

Lemma delete_spec : registered fl bp -> delete_post st fl bp (delete st bp).
Proof.
  intros Hreg. unfold delete. apply delete_scan_post; try lia; try exact Hreg.
Qed.
End Delete.

(** ** Updating the table *)

Lemma registered_rm (fl : table) (b x : Z) :
  registered (rm fl b) x <-> registered fl x /\ x <> b.
Proof.
  unfold registered, rm. split.
  - intros (i & Hi & Hin). apply in_rm in Hin. split; [exists i|]; tauto.
  - intros [(i & Hi & Hin) Hne]. exists i. rewrite in_rm. tauto.
Qed.

Lemma registered_push (fl : table) (c b x : Z) :
  0 <= c < 11 -> (registered (push fl c b) x <-> registered fl x \/ x = b).
Proof.
  intros Hc. unfold registered, push. split.
  - intros (i & Hi & Hin). destruct (Z.eqb_spec i c) as [->|_].
    + destruct Hin as [->|Hin]; [tauto|]. left. exists c. tauto.
    + left. exists i. tauto.
  - intros [(i & Hi & Hin)| ->].
    + exists i. split; [exact Hi|].
      destruct (Z.eqb_spec i c); [right|]; exact Hin.
    + exists c. split; [exact Hc|]. rewrite Z.eqb_refl. left. reflexivity.
Qed.

Lemma linked_equiv (R R' : Z -> Z -> Prop) (fl : table) :
  (forall x s, R x s <-> R' x s) -> linked R fl -> linked R' fl.
Proof.
  intros He (H1 & H2 & H3 & H4). repeat split; try assumption.
  - intros Hr. apply H3 in Hr. destruct Hr as (s & Hs). exists s. apply He, Hs.
  - intros (s & Hs). apply H3. exists s. apply He, Hs.
  - intros i b s Hi Hin Hr. apply (H4 i b s Hi Hin). apply He, Hr.
Qed.

Lemma linked_rm (R : Z -> Z -> Prop) (fl : table) (b : Z) :
  linked R fl -> linked (fun x s => R x s /\ x <> b) (rm fl b).
Proof.
  intros (H1 & H2 & H3 & H4). split; [|split; [|split]].
  - intros i Hi. apply NoDup_rm, H1, Hi.
  - intros i j x Hi Hj Hx Hx'. unfold rm in *. apply in_rm in Hx, Hx'.
    apply (H2 i j x); tauto.
  - intros x. rewrite registered_rm, H3. split.
    + intros [(s & Hs) Hne]. exists s. tauto.
    + intros (s & Hs & Hne). split; [exists s|]; tauto.
  - intros i x s Hi Hx [Hr _]. unfold rm in Hx. apply in_rm in Hx.
    apply (H4 i x s); tauto.
Qed.

Lemma linked_push (R : Z -> Z -> Prop) (fl : table) (b s : Z) :
  linked R fl -> ~ registered fl b ->
  linked (fun x s' => R x s' \/ (x = b /\ s' = s)) (push fl (iterate s) b).
Proof.
  intros (H1 & H2 & H3 & H4) Hnr.
  pose proof (iterate_range s) as Hc.
  assert (Hc' : 0 <= iterate s < 11) by lia.
  assert (Hnb : forall i, 0 <= i < 11 -> ~ In b (fl i)).
  { intros i Hi Hin. apply Hnr. exists i. tauto. }
  split; [|split; [|split]].
  - intros i Hi. unfold push. destruct (Z.eqb_spec i (iterate s)) as [->|_].
    + constructor; [apply Hnb, Hi|apply H1, Hi].
    + apply H1, Hi.
  - intros i j x Hi Hj. unfold push.
    destruct (Z.eqb_spec i (iterate s)) as [->|Ni];
      destruct (Z.eqb_spec j (iterate s)) as [->|Nj]; cbn [In].
    + reflexivity.
    + intros [->|Hx] Hx'; [exfalso; apply (Hnb j); assumption|].
      apply (H2 _ _ x); assumption.
    + intros Hx [->|Hx']; [exfalso; apply (Hnb i); assumption|].
      apply (H2 _ _ x); assumption.
    + apply H2; assumption.
  - intros x. rewrite (registered_push fl _ b x Hc'), H3. split.
    + intros [(s' & Hs)| ->]; [exists s'; tauto|exists s; tauto].
    + intros (s' & [Hs|[-> _]]); [left; exists s'; exact Hs|right; reflexivity].
  - intros i x s' Hi Hx Hr. unfold push in Hx.
    destruct Hr as [Hr|[-> ->]].
    + destruct (Z.eqb_spec i (iterate s)) as [->|_].
      * destruct Hx as [->|Hx].
        -- exfalso. apply Hnr, H3. exists s'. exact Hr.
        -- apply (H4 _ x s'); assumption.
      * apply (H4 _ x s'); assumption.
    + destruct (Z.eqb_spec i (iterate s)) as [->|_]; [reflexivity|].
      exfalso. eapply Hnb; eassumption.
Qed.

(** ** [insert] pushes a block on the list of its class *)

Section Insert.
Variables (st : state) (fl : table) (bp s : Z).
Let S : Z -> Prop := fun x => registered fl x \/ x = bp.
Hypothesis Hl : lists st fl.
Hypothesis Hsp : spaced S.
Hypothesis Hnd : forall i, 0 <= i < 11 -> NoDup (fl i).
Hypothesis Hdj : forall i j b, 0 <= i < 11 -> 0 <= j < 11 ->
                               In b (fl i) -> In b (fl j) -> i = j.
Hypothesis Hnr : ~ registered fl bp.
Hypothesis Hs : GET_SIZE st (HDRP bp) = s.

Lemma insert_spec :
  lists (insert st bp) (push fl (iterate s) bp)
  /\ preserves (clear_of S) st (insert st bp)
  /\ same_bounds st (insert st bp).
Proof.
  pose proof (iterate_range s) as Hc0.
  assert (Hc : 0 <= iterate s < 11) by lia.
  assert (Sbp : S bp) by (right; reflexivity).
  pose proof (proj1 Hsp bp Sbp) as Bb.
  assert (Ew : wrap (bp + WSIZE) = bp + 8)
    by (apply wrap_small; unfold WSIZE; lia).
  assert (Hreg : forall j y, 0 <= j < 11 -> In y (fl j) -> S y /\ y <> bp).
  { intros j y Hj Hy.
    assert (registered fl y) by (exists j; tauto).
    split; [left; assumption|]. intros ->. contradiction. }
  unfold insert. rewrite Hs, Ew.
  pose proof (Hl _ Hc) as Hlc.
  destruct (fl (iterate s)) as [|h r] eqn:Efl.
  - (* the class is empty *)
    cbn [lseg] in Hlc. rewrite Hlc. change (0 =? 0) with true. cbv iota zeta.
    cbn [negb]. cbv iota.
    split; [|split; [|repeat split]].
    + intros j Hj. cbn [set_seg seg]. unfold push.
      destruct (Z.eqb_spec j (iterate s)) as [->|Hne].
      * rewrite Efl. cbn [lseg]. split; [reflexivity|]. split.
        -- unfold PREVF. rewrite ?GET_set_seg. apply GET_PUT_same.
        -- rewrite NEXTF_eq by lia. rewrite ?GET_set_seg.
           rewrite GET_PUT_far by (unfold apart; lia). apply GET_PUT_same.
      * apply lseg_set_seg.
        apply (lseg_PUT _ _ bp _ _ _ Hsp Sbp (or_introl eq_refl));
          [intros y Hy; apply (Hreg j y Hj Hy)|].
        apply (lseg_PUT _ _ bp _ _ _ Hsp Sbp (or_intror eq_refl));
          [intros y Hy; apply (Hreg j y Hj Hy)|].
        apply Hl, Hj.
    + intros q Hq. destruct (clear_of_apart _ _ _ Hsp Sbp Hq).
      rewrite ?GET_set_seg. rewrite !GET_PUT_far by assumption. reflexivity.
  - (* the class has a head [h] *)
    cbn [lseg] in Hlc. destruct Hlc as (Eh & Hph & Hr).
    assert (Hhin : In h (fl (iterate s))) by (rewrite Efl; left; reflexivity).
    destruct (Hreg _ h Hc Hhin) as [Sh Hhb].
    pose proof (proj1 Hsp h Sh) as Bh.
    pose proof (proj2 Hsp h bp Sh Sbp) as Shb.
    rewrite Eh. destruct (Z.eqb_spec h 0) as [|_]; [lia|].
    cbn [negb]. cbv iota zeta.
    change (seg (PUT st (bp + 8) h) (iterate s)) with (seg st (iterate s)).
    rewrite Eh.
    pose proof (Hnd _ Hc) as Hn. rewrite Efl in Hn.
    apply NoDup_cons_iff in Hn. destruct Hn as [Hhr _].
    split; [|split; [|repeat split]].
    + intros j Hj. cbn [set_seg seg]. unfold push.
      destruct (Z.eqb_spec j (iterate s)) as [->|Hne].
      * rewrite Efl. cbn [lseg]. split; [reflexivity|].
        split; [|split; [|split]].
        -- unfold PREVF. rewrite ?GET_set_seg. apply GET_PUT_same.
        -- rewrite NEXTF_eq by lia. rewrite ?GET_set_seg.
           rewrite !GET_PUT_far by (unfold apart; lia).
           rewrite GET_PUT_same. apply wrap_small. lia.
        -- unfold PREVF. rewrite ?GET_set_seg.
           rewrite GET_PUT_far by (unfold apart; lia).
           rewrite GET_PUT_same. apply wrap_small. lia.
        -- match goal with |- lseg ?s' (NEXTF ?s' h) _ _ _ =>
             assert (E : NEXTF s' h = NEXTF st h)
           end.
           { rewrite !NEXTF_eq by lia. rewrite ?GET_set_seg.
             rewrite !GET_PUT_far by (unfold apart; lia). reflexivity. }
           rewrite E. apply lseg_set_seg.
           assert (Hrr : forall y, In y r -> S y /\ y <> bp /\ y <> h).
           { intros y Hy.
             assert (In y (fl (iterate s))) by (rewrite Efl; right; exact Hy).
             destruct (Hreg _ y Hc H). repeat split; try assumption.
             intros ->. contradiction. }
           apply (lseg_PUT _ _ bp _ _ _ Hsp Sbp (or_introl eq_refl));
             [intros y Hy; destruct (Hrr y Hy); tauto|].
           apply (lseg_PUT _ _ h _ _ _ Hsp Sh (or_introl eq_refl));
             [intros y Hy; destruct (Hrr y Hy); tauto|].
           apply (lseg_PUT _ _ bp _ _ _ Hsp Sbp (or_intror eq_refl));
             [intros y Hy; destruct (Hrr y Hy); tauto|].
           exact Hr.
      * assert (Hjj : forall y, In y (fl j) -> S y /\ y <> bp /\ y <> h).
        { intros y Hy. destruct (Hreg j y Hj Hy). repeat split; try assumption.
          intros ->. apply Hne. eapply Hdj; eassumption. }
        apply lseg_set_seg.
        apply (lseg_PUT _ _ bp _ _ _ Hsp Sbp (or_introl eq_refl));
          [intros y Hy; destruct (Hjj y Hy); tauto|].
        apply (lseg_PUT _ _ h _ _ _ Hsp Sh (or_introl eq_refl));
          [intros y Hy; destruct (Hjj y Hy); tauto|].
        apply (lseg_PUT _ _ bp _ _ _ Hsp Sbp (or_intror eq_refl));
          [intros y Hy; destruct (Hjj y Hy); tauto|].
        apply Hl, Hj.
    + intros q Hq. destruct (clear_of_apart _ _ _ Hsp Sbp Hq).
      destruct (clear_of_apart _ _ _ Hsp Sh Hq).
      rewrite ?GET_set_seg. rewrite !GET_PUT_far by assumption. reflexivity.
Qed.
End Insert.

(** ** Geometry: link words and tag words never meet *)

Lemma spaced_mono (S S' : Z -> Prop) :
  (forall x, S' x -> S x) -> spaced S -> spaced S'.
Proof.
  intros Hs [H1 H2]. split.
  - intros b Hb. apply H1, Hs, Hb.
  - intros b b' Hb Hb'. apply H2; apply Hs; assumption.
Qed.

Lemma clear_of_mono (S S' : Z -> Prop) (q : Z) :
  (forall x, S' x -> S x) -> clear_of S q -> clear_of S' q.
Proof.
  intros Hs (H1 & H2 & H3). repeat split; try assumption.
  intros b Hb. apply H3, Hs, Hb.
Qed.

Section Geometry.
Variables (bl : list block) (lo hi : Z).
Hypothesis Hc : chain lo bl hi.
Hypothesis Hlo : 16 <= lo.
Hypothesis Hhi : hi < 2 ^ 64.

Lemma addr_spaced : spaced (addr_of bl).
Proof.
  split.
  - intros b (s & a & Hin). pose proof (chain_In _ _ _ _ _ _ Hc Hin). lia.
  - intros b b' (s & a & Hin) (s' & a' & Hin').
    pose proof (chain_In _ _ _ _ _ _ Hc Hin).
    pose proof (chain_In _ _ _ _ _ _ Hc Hin').
    destruct (chain_order _ _ _ _ _ _ _ _ _ Hc Hin Hin') as [E|H'].
    + left. congruence.
    + lia.
Qed.

(** A word of block [y] that is its header, or lies past its two link
    words, meets no link word of any block. *)
Lemma inner_clear (y sy : Z) (ay : bool) (q : Z) :
  In (y, sy, ay) bl ->
  q = y - 8 \/ (y + 16 <= q /\ q <= y + sy - 16) ->
  clear_of (addr_of bl) q.
Proof.
  intros Hin Hq.
  pose proof (chain_In _ _ _ _ _ _ Hc Hin) as By.
  split; [lia|]. split; [lia|].
  intros b (s & a & Hb).
  pose proof (chain_In _ _ _ _ _ _ Hc Hb) as Bb.
  destruct (chain_order _ _ _ _ _ _ _ _ _ Hc Hin Hb) as [E|H'].
  - injection E as <- <- <-. lia.
  - lia.
Qed.

Lemma epilogue_clear : clear_of (addr_of bl) (hi - 8).
Proof.
  pose proof (chain_le _ _ _ Hc).
  split; [lia|]. split; [lia|].
  intros b (s & a & Hb). pose proof (chain_In _ _ _ _ _ _ Hc Hb). lia.
Qed.

Lemma padding_clear : clear_of (addr_of bl) (lo - 16).
Proof.
  pose proof (chain_le _ _ _ Hc).
  split; [lia|]. split; [lia|].
  intros b (s & a & Hb). pose proof (chain_In _ _ _ _ _ _ Hc Hb). lia.
Qed.

Lemma tags_links_frame (st st' : state) (l : list block) :
  Forall (tagged st) l -> (forall y, In y l -> In y bl) ->
  preserves (clear_of (addr_of bl)) st st' ->
  Forall (tagged st') l.
Proof.
  intros Ht Hsub Hp. rewrite Forall_forall in *.
  intros [[y sy] ay] Hy. specialize (Ht _ Hy). cbn [tagged] in *.
  pose proof (Hsub _ Hy) as Hin.
  pose proof (chain_In _ _ _ _ _ _ Hc Hin) as By.
  rewrite !Hp; [exact Ht| |].
  - apply (inner_clear y sy ay); [exact Hin|lia].
  - apply (inner_clear y sy ay); [exact Hin|lia].
Qed.
End Geometry.

(** Tags of a run of blocks survive a write outside the run. *)
Lemma tags_PUT (st : state) (l : list block) (lo hi a v : Z) :
  chain lo l hi -> Forall (tagged st) l ->
  8 <= lo -> hi <= 2 ^ 64 -> 0 <= a -> a + 8 <= 2 ^ 64 ->
  a + 16 <= lo \/ hi - 8 <= a ->
  Forall (tagged (PUT st a v)) l.
Proof.
  intros Hc Ht Hlo Hhi Ha Ha' Hpos. rewrite Forall_forall in *.
  intros [[y sy] ay] Hy. specialize (Ht _ Hy). cbn [tagged] in *.
  pose proof (chain_In _ _ _ _ _ _ Hc Hy) as By.
  rewrite !GET_PUT_far by (unfold apart; lia). exact Ht.
Qed.

Lemma list_end_cases (l : list block) :
  l = [] \/ exists l' x, l = l' ++ [x].
Proof.
  destruct l as [|x l]; [left; reflexivity|right].
  destruct (exists_last (l := x :: l) ltac:(discriminate)) as (l' & y & E).
  exists l', y. exact E.
Qed.

Lemma is_free_app (l1 l2 : list block) (x s : Z) :
  is_free (l1 ++ l2) x s <-> is_free l1 x s \/ is_free l2 x s.
Proof. unfold is_free. apply in_app_iff. Qed.

Lemma is_free_cons (b sb : Z) (a : bool) (l : list block) (x s : Z) :
  is_free ((b, sb, a) :: l) x s
  <-> (b = x /\ sb = s /\ a = false) \/ is_free l x s.
Proof.
  unfold is_free. cbn [In]. split.
  - intros [E|H]; [injection E as -> -> ->; tauto|tauto].
  - intros [(-> & -> & ->)|H]; tauto.
Qed.

Lemma is_free_nil (x s : Z) : is_free [] x s <-> False.
Proof. unfold is_free. cbn [In]. tauto. Qed.

Lemma is_free_bounds (l : list block) (lo hi x s : Z) :
  chain lo l hi -> is_free l x s -> lo <= x /\ x + s <= hi /\ 32 <= s.
Proof.
  intros Hc Hf. pose proof (chain_In _ _ _ _ _ _ Hc Hf). tauto.
Qed.

Lemma addr_of_app (l1 l2 : list block) (x : Z) :
  addr_of (l1 ++ l2) x <-> addr_of l1 x \/ addr_of l2 x.
Proof.
  unfold addr_of. split.
  - intros (s & a & H). apply in_app_iff in H.
    destruct H; [left|right]; exists s, a; assumption.
  - intros [(s & a & H)|(s & a & H)]; exists s, a; apply in_app_iff; tauto.
Qed.

Lemma is_free_addr (l : list block) (x s : Z) : is_free l x s -> addr_of l x.
Proof. intros H. exists s, false. exact H. Qed.

(** ** Runs of blocks *)

Lemma layout_blocks (st : state) (bl : list block) :
  layout st bl <-> outer st /\ blocks st (heap_listp st) bl (mem_brk st).
Proof.
  unfold layout, outer, blocks. split.
  - intros (H1 & H2 & H3 & H4 & H5 & H6). pose proof (chain_le _ _ _ H2). tauto.
  - tauto.
Qed.

Lemma blocks_app (st : state) (l1 l2 : list block) (lo hi : Z) :
  blocks st lo (l1 ++ l2) hi
  <-> exists m, blocks st lo l1 m /\ blocks st m l2 hi.
Proof.
  unfold blocks. rewrite chain_app, Forall_app. split.
  - intros ((m & H1 & H2) & H3 & H4). exists m. tauto.
  - intros (m & (H1 & H2) & H3 & H4). split; [exists m|]; tauto.
Qed.

Lemma blocks_nil (st : state) (lo hi : Z) : blocks st lo [] hi <-> lo = hi.
Proof. unfold blocks. cbn [chain]. split; [tauto|]. intros H. split; [exact H|constructor]. Qed.

Lemma blocks_cons (st : state) (b s : Z) (a : bool) (l : list block) (lo hi : Z) :
  blocks st lo ((b, s, a) :: l) hi
  <-> b = lo /\ 32 <= s /\ s mod 16 = 0
      /\ GET st (lo - 8) = tag s a /\ GET st (lo + s - 16) = tag s a
      /\ blocks st (lo + s) l hi.
Proof.
  unfold blocks. cbn [chain]. rewrite Forall_cons_iff. cbn [tagged]. split.
  - intros ((-> & H1 & H2 & H3) & (H4 & H5) & H6). tauto.
  - intros (-> & H1 & H2 & H3 & H4 & H5 & H6). tauto.
Qed.

Lemma blocks_le (st : state) (l : list block) (lo hi : Z) :
  blocks st lo l hi -> lo <= hi.
Proof. intros [H _]. eapply chain_le, H. Qed.

Lemma blocks_PUT (st : state) (l : list block) (lo hi a v : Z) :
  blocks st lo l hi ->
  8 <= lo -> hi <= 2 ^ 64 -> 0 <= a -> a + 8 <= 2 ^ 64 ->
  a + 16 <= lo \/ hi - 8 <= a ->
  blocks (PUT st a v) lo l hi.
Proof.
  intros [Hc Ht] H1 H2 H3 H4 H5. split; [exact Hc|].
  eapply tags_PUT; eassumption.
Qed.

Lemma blocks_set_seg (st : state) (l : list block) (lo hi i v : Z) :
  blocks st lo l hi -> blocks (set_seg st i v) lo l hi.
Proof. intros H. exact H. Qed.

Lemma outer_PUT (st : state) (a v : Z) :
  outer st -> heap_listp st - 8 <= a -> a + 16 <= mem_brk st ->
  outer (PUT st a v).
Proof.
  intros (H1 & H2 & H3 & H4 & H5) Ha Hb. unfold outer.
  change (heap_listp (PUT st a v)) with (heap_listp st).
  change (mem_brk (PUT st a v)) with (mem_brk st).
  change (mem_max_addr (PUT st a v)) with (mem_max_addr st).
  repeat split; try assumption; try lia.
  - rewrite GET_PUT_far by (unfold apart; lia). exact H4.
  - unfold GET_SIZE in *. rewrite GET_PUT_far by (unfold apart; lia). exact H5.
Qed.

(** Frames for operations that only touch link words of blocks of a
    reference chain [ref]. *)
Section LinkFrames.
Variables (st st' : state) (ref : list block) (S : Z -> Prop).
Hypothesis Hout : outer st.
Hypothesis Href : chain (heap_listp st) ref (mem_brk st).
Hypothesis HS : forall x, S x -> addr_of ref x.
Hypothesis Hp : preserves (clear_of S) st st'.
Hypothesis Hb : same_bounds st st'.

Let Hp' : preserves (clear_of (addr_of ref)) st st'.
Proof.
  eapply preserves_weaken; [|exact Hp].
  intros q Hq. eapply clear_of_mono; [exact HS|exact Hq].
Qed.

Lemma outer_links : outer st'.
Proof.
  destruct Hout as (H1 & H2 & H3 & H4 & H5).
  destruct Hb as (B1 & B2 & B3).
  unfold outer. rewrite B1, B2, B3.
  repeat split; try assumption; try lia.
  - rewrite Hp'; [exact H4|]. eapply epilogue_clear; [exact Href|lia|lia].
  - unfold GET_SIZE in *. rewrite Hp'; [exact H5|].
    eapply padding_clear; [exact Href|lia|lia].
Qed.

Lemma blocks_links (l : list block) (lo hi : Z) :
  blocks st lo l hi -> (forall y, In y l -> In y ref) -> blocks st' lo l hi.
Proof.
  destruct Hout as (H1 & H2 & H3 & H4 & H5).
  intros [Hc Ht] Hsub. split; [exact Hc|].
  eapply (tags_links_frame ref); try eassumption; lia.
Qed.

Lemma word_links (y sy : Z) (ay : bool) (q : Z) :
  In (y, sy, ay) ref ->
  q = y - 8 \/ (y + 16 <= q /\ q <= y + sy - 16) ->
  GET st' q = GET st q.
Proof.
  destruct Hout as (H1 & H2 & H3 & H4 & H5).
  intros Hin Hq. apply Hp'.
  eapply (inner_clear ref); try eassumption; lia.
Qed.
End LinkFrames.

(** Writing a tag-like word leaves every list alone. *)
Lemma lists_PUT (st : state) (fl : table) (ref : list block) (lo hi a v : Z) :
  lists st fl -> chain lo ref hi -> 16 <= lo -> hi < 2 ^ 64 ->
  (forall x, registered fl x -> addr_of ref x) ->
  clear_of (addr_of ref) a ->
  lists (PUT st a v) fl.
Proof.
  intros Hl Hc H1 H2 Hreg (Q1 & Q2 & Q3).
  apply (lists_frame (apart a) st); [exact Hl|reflexivity|apply preserves_PUT|].
  intros b Hb. apply Hreg in Hb.
  pose proof (Q3 b Hb) as Hq.
  destruct Hb as (s & al & Hin).
  pose proof (chain_In _ _ _ _ _ _ Hc Hin).
  unfold apart. lia.
Qed.

(** One [delete], with everything it leaves in place. *)
Lemma delete_step (st : state) (fl : table) (R : Z -> Z -> Prop)
      (ref : list block) (x : Z) :
  outer st -> chain (heap_listp st) ref (mem_brk st) ->
  lists st fl -> linked R fl ->
  (forall y, registered fl y -> addr_of ref y) ->
  registered fl x ->
  lists (delete st x) (rm fl x)
  /\ linked (fun y s => R y s /\ y <> x) (rm fl x)
  /\ same_bounds st (delete st x)
  /\ outer (delete st x)
  /\ (forall y, registered (rm fl x) y -> addr_of ref y)
  /\ (forall l lo hi, blocks st lo l hi -> (forall y, In y l -> In y ref) ->
                      blocks (delete st x) lo l hi)
  /\ (forall y sy ay q, In (y, sy, ay) ref ->
         q = y - 8 \/ (y + 16 <= q /\ q <= y + sy - 16) ->
         GET (delete st x) q = GET st q).
Proof.
  intros Hout Hch Hl Hlk Hreg Hx.
  pose proof Hout as (O1 & O2 & O3 & O4 & O5).
  assert (Hsp : spaced (registered fl)).
  { eapply spaced_mono; [exact Hreg|].
    eapply addr_spaced; [exact Hch|lia|lia]. }
  destruct (delete_spec st fl x Hl Hsp (proj1 Hlk) (proj1 (proj2 Hlk)) Hx)
    as (D1 & D2 & D3).
  split; [exact D1|]. split; [apply linked_rm, Hlk|]. split; [exact D3|].
  split; [exact (outer_links st _ ref _ Hout Hch Hreg D2 D3)|].
  split; [intros y Hy; apply registered_rm in Hy; apply Hreg; tauto|].
  split.
  - intros l lo hi Hb Hsub.
    exact (blocks_links st _ ref _ Hout Hch Hreg D2 l lo hi Hb Hsub).
  - intros y sy ay q Hin Hq.
    exact (word_links st _ ref _ Hout Hch Hreg D2 y sy ay q Hin Hq).
Qed.

(** Reading the neighbours of a block. *)
Lemma blocks_last (st : state) (l : list block) (pb ps : Z) (pa : bool) (lo hi : Z) :
  blocks st lo (l ++ [(pb, ps, pa)]) hi ->
  blocks st lo l pb /\ pb + ps = hi /\ 32 <= ps /\ ps mod 16 = 0
  /\ GET st (pb - 8) = tag ps pa /\ GET st (hi - 16) = tag ps pa.
Proof.
  intros H. apply blocks_app in H. destruct H as (m & H1 & H2).
  apply blocks_cons in H2. destruct H2 as (-> & A & B & C & D & E).
  apply blocks_nil in E. subst hi.
  split; [exact H1|]. repeat split; try assumption; try reflexivity.
Qed.

Lemma words_size (st : state) (p s : Z) (a : bool) :
  GET st p = tag s a -> s mod 16 = 0 ->
  GET_SIZE st p = s /\ GET_ALLOC st p = (if a then 1 else 0).
Proof.
  intros H Hs. split; [eapply GET_SIZE_tag|eapply GET_ALLOC_tag]; eassumption.
Qed.

Lemma tag_PUT_read (st : state) (p s : Z) (a : bool) :
  0 <= s -> s + 16 <= 2 ^ 64 -> s mod 16 = 0 ->
  GET (PUT st p (tag s a)) p = tag s a.
Proof.
  intros H1 H2 H3. rewrite GET_PUT_same. apply wrap_small.
  apply tag_range; assumption.
Qed.

(** ** Registering a free block whose neighbours are allocated *)

Lemma insert_hole (st : state) (la lb : list block) (bq sq : Z)
      (fl : table) (R : Z -> Z -> Prop) :
  outer st ->
  blocks st (heap_listp st) la bq ->
  blocks st bq [(bq, sq, false)] (bq + sq) ->
  blocks st (bq + sq) lb (mem_brk st) ->
  lists st fl -> linked R fl ->
  (forall x s', R x s' <-> is_free la x s' \/ is_free lb x s') ->
  naf false la -> last_free false la = false -> naf true lb ->
  heap_inv (insert st bq) (la ++ (bq, sq, false) :: lb)
           (push fl (iterate sq) bq)
  /\ same_bounds st (insert st bq)
  /\ registered (push fl (iterate sq) bq) bq.
Proof.
  intros Hout Ha Hq Hb Hl Hlk HR Hna Hlf Hnb.
  set (new := la ++ (bq, sq, false) :: lb).
  assert (Hnew : blocks st (heap_listp st) new (mem_brk st)).
  { unfold new. apply blocks_app. exists bq. split; [exact Ha|].
    change ((bq, sq, false) :: lb) with ([(bq, sq, false)] ++ lb).
    apply blocks_app. exists (bq + sq). tauto. }
  destruct Hnew as [Hch Htg].
  destruct Hout as (O1 & O2 & O3 & O4 & O5).
  assert (Hout : outer st) by (unfold outer; tauto).
  apply blocks_cons in Hq. destruct Hq as (_ & Q1 & Q2 & Q3 & Q4 & _).
  destruct Ha as [Hca Hta]. destruct Hb as [Hcb Htb].
  pose proof (chain_le _ _ _ Hca) as La.
  pose proof (chain_le _ _ _ Hcb) as Lb.
  assert (Hreg : forall x, registered fl x -> addr_of new x).
  { intros x Hx. destruct Hlk as (_ & _ & K & _). apply K in Hx.
    destruct Hx as (s' & Hs). apply HR in Hs. unfold new.
    exists s', false. rewrite in_app_iff. cbn [In]. unfold is_free in Hs. tauto. }
  assert (Hnr : ~ registered fl bq).
  { intros Hx. destruct Hlk as (_ & _ & K & _). apply K in Hx.
    destruct Hx as (s' & Hs). apply HR in Hs. destruct Hs as [Hs|Hs].
    - pose proof (is_free_bounds _ _ _ _ _ Hca Hs). lia.
    - pose proof (is_free_bounds _ _ _ _ _ Hcb Hs). lia. }
  assert (HS : forall x, registered fl x \/ x = bq -> addr_of new x).
  { intros x [Hx| ->]; [apply Hreg, Hx|].
    exists sq, false. unfold new. rewrite in_app_iff. cbn [In]. tauto. }
  assert (Hsp : spaced (fun x => registered fl x \/ x = bq)).
  { eapply spaced_mono; [exact HS|].
    eapply addr_spaced; [exact Hch|lia|lia]. }
  assert (Hsz : GET_SIZE st (HDRP bq) = sq).
  { rewrite HDRP_eq by lia. eapply GET_SIZE_tag; eassumption. }
  destruct (insert_spec st fl bq sq Hl Hsp
              (proj1 Hlk) (proj1 (proj2 Hlk)) Hnr Hsz) as (I1 & I2 & I3).
  split; [|split; [exact I3|]].
  - split; [|split; [exact I1|split]].
    + apply layout_blocks. split.
      * exact (outer_links st _ new _ Hout Hch HS I2 I3).
      * destruct I3 as (B1 & B2 & B3). rewrite B1, B2.
        apply (blocks_links st _ new _ Hout Hch HS I2);
          [split; assumption|tauto].
    + eapply linked_equiv; [|apply (linked_push R fl bq sq Hlk Hnr)].
      intros x s'. cbv beta. rewrite HR. unfold new.
      rewrite is_free_app, is_free_cons. intuition congruence.
    + unfold new. apply naf_app. split; [exact Hna|].
      rewrite Hlf. cbn [naf negb]. split; [discriminate|exact Hnb].
  - apply registered_push; [pose proof (iterate_range sq); lia|tauto].
Qed.

(** Rewriting the header and the footer of the span [bq .. bq + sq]; the
    run [lb] starts at [e], at or after the end of the span. *)
Lemma retag_upto (st : state) (la lb : list block) (bq sq e : Z) (a : bool) :
  outer st ->
  blocks st (heap_listp st) la bq ->
  blocks st e lb (mem_brk st) ->
  32 <= sq -> sq mod 16 = 0 -> bq + sq <= e ->
  let st' := PUT (PUT st (bq - 8) (tag sq a)) (bq + sq - 16) (tag sq a) in
  outer st'
  /\ blocks st' (heap_listp st) la bq
  /\ blocks st' bq [(bq, sq, a)] (bq + sq)
  /\ blocks st' e lb (mem_brk st).
Proof.
  intros Hout Ha Hb Hs Hm He st'.
  pose proof (blocks_le _ _ _ _ Ha) as La.
  pose proof (blocks_le _ _ _ _ Hb) as Lb.
  pose proof Hout as (O1 & O2 & O3 & O4 & O5).
  split; [|split; [|split]].
  - unfold st'. apply outer_PUT; [apply outer_PUT| |]; cbn; try assumption; lia.
  - unfold st'. apply blocks_PUT; try lia. apply blocks_PUT; try lia. exact Ha.
  - apply blocks_cons. repeat split; try assumption; try lia.
    + unfold st'. rewrite GET_PUT_far by (unfold apart; lia).
      apply tag_PUT_read; lia.
    + unfold st'. apply tag_PUT_read; lia.
    + constructor.
  - unfold st'. apply blocks_PUT; try lia. apply blocks_PUT; try lia. exact Hb.
Qed.

Lemma retag (st : state) (la lb : list block) (bq sq : Z) (a : bool) :
  outer st ->
  blocks st (heap_listp st) la bq ->
  blocks st (bq + sq) lb (mem_brk st) ->
  32 <= sq -> sq mod 16 = 0 ->
  let st' := PUT (PUT st (bq - 8) (tag sq a)) (bq + sq - 16) (tag sq a) in
  outer st'
  /\ blocks st' (heap_listp st) la bq
  /\ blocks st' bq [(bq, sq, a)] (bq + sq)
  /\ blocks st' (bq + sq) lb (mem_brk st).
Proof.
  intros Hout Ha Hb Hs Hm.
  apply (retag_upto st la lb bq sq (bq + sq) a); try assumption. lia.
Qed.

(** ** Coalescing *)

Lemma last_free_snoc (l : list block) (b s : Z) (a : bool) (pf : bool) :
  last_free pf (l ++ [(b, s, a)]) = negb a.
Proof. rewrite last_free_app. reflexivity. Qed.

Section Coalesce.
Variables (st : state) (l1 l2 : list block) (bp s : Z) (fl : table).
Hypothesis Hlay : layout st (l1 ++ (bp, s, false) :: l2).
Hypothesis Hlists : lists st fl.
Hypothesis Hlk : linked (is_free (l1 ++ (bp, s, true) :: l2)) fl.
Hypothesis Hnaf : naf false (l1 ++ (bp, s, true) :: l2).

Let old : list block := l1 ++ (bp, s, false) :: l2.
Let hl : Z := heap_listp st.
Let brk : Z := mem_brk st.

Lemma co_outer : outer st.
Proof. apply layout_blocks in Hlay. tauto. Qed.

Lemma co_parts :
  blocks st hl l1 bp
  /\ 32 <= s /\ s mod 16 = 0
  /\ GET st (bp - 8) = tag s false /\ GET st (bp + s - 16) = tag s false
  /\ blocks st (bp + s) l2 brk
  /\ chain hl old brk
  /\ 16 <= hl /\ hl <= bp /\ bp + s <= brk /\ brk < 2 ^ 64.
Proof.
  pose proof Hlay as H. apply layout_blocks in H. destruct H as [Ho Hb].
  pose proof (proj1 Hb) as Hch.
  apply blocks_app in Hb. destruct Hb as (m & H1 & H2).
  apply blocks_cons in H2. destruct H2 as (-> & A & B & C & D & E).
  pose proof (blocks_le _ _ _ _ H1). pose proof (blocks_le _ _ _ _ E).
  destruct Ho as (O1 & O2 & O3 & O4 & O5).
  unfold hl, brk, old. repeat split; try tauto; try lia;
    try apply H1; try apply E.
Qed.

Lemma co_registered (x : Z) :
  registered fl x <-> exists s', is_free l1 x s' \/ is_free l2 x s'.
Proof.
  destruct Hlk as (_ & _ & K & _). rewrite K.
  split; intros (s' & H); exists s'; revert H;
    rewrite is_free_app, is_free_cons; intuition congruence.
Qed.

Lemma co_reg_old (x : Z) : registered fl x -> addr_of old x.
Proof.
  intros H. apply co_registered in H. destruct H as (s' & H).
  exists s', false. unfold old. rewrite in_app_iff. cbn [In].
  unfold is_free in H. tauto.
Qed.

Lemma co_spaced : spaced (registered fl).
Proof.
  destruct co_parts as (_ & _ & _ & _ & _ & _ & Hch & ? & ? & ? & ?).
  eapply spaced_mono; [apply co_reg_old|].
  eapply addr_spaced; [exact Hch|assumption|assumption].
Qed.

Lemma co_naf : naf false l1 /\ naf false l2.
Proof.
  apply naf_app in Hnaf. cbn [naf negb] in Hnaf. tauto.
Qed.

(** The two tests of [coalesce]. *)
Lemma prev_alloc_eval :
  negb (GET_ALLOC st (FTRP st (PREV_BLKP st bp)) =? 0)
  || (PREV_BLKP st bp =? bp)
  = negb (last_free false l1).
Proof.
  destruct co_parts as (B1 & S1 & S2 & T1 & T2 & B2 & Hch & A1 & A2 & A3 & A4).
  destruct (list_end_cases l1) as [E|(l1' & [[pb ps] pa] & E)].
  - rewrite E in B1 |- *. apply blocks_nil in B1.
    destruct co_outer as (_ & _ & _ & _ & Hpad).
    fold hl in Hpad. rewrite B1 in Hpad.
    rewrite (PREV_BLKP_eq st bp 0) by (assumption || lia).
    rewrite Z.sub_0_r, Z.eqb_refl. apply orb_true_r.
  - rewrite E in B1 |- *. apply blocks_last in B1.
    destruct B1 as (B1 & P1 & P2 & P3 & P4 & P5).
    pose proof (blocks_le _ _ _ _ B1).
    destruct (words_size _ _ _ _ P5 P3) as [Z1 Z2].
    destruct (words_size _ _ _ _ P4 P3) as [Z3 Z4].
    rewrite (PREV_BLKP_eq st bp ps) by (assumption || lia).
    replace (bp - ps) with pb by lia.
    rewrite (FTRP_eq st pb ps) by (assumption || lia).
    replace (pb + ps - 16) with (bp - 16) by lia.
    rewrite Z2, last_free_snoc.
    destruct (Z.eqb_spec pb bp) as [|_]; [lia|].
    destruct pa; reflexivity.
Qed.

Lemma next_word :
  NEXT_BLKP st bp = bp + s /\ HDRP (bp + s) = bp + s - 8
  /\ exists ns na,
       GET st (bp + s - 8) = tag ns na /\ ns mod 16 = 0
       /\ first_free l2 = negb na.
Proof.
  destruct co_parts as (B1 & S1 & S2 & T1 & T2 & B2 & Hch & A1 & A2 & A3 & A4).
  destruct (words_size _ _ _ _ T1 S2) as [Z1 Z2].
  split; [apply NEXT_BLKP_eq; assumption || lia|].
  split; [apply HDRP_eq; lia|].
  pose proof co_outer as Ho. clear T1 T2 Hch B1.
  destruct l2 as [|[[nb ns] na] l2'].
  - apply blocks_nil in B2. exists 0, true.
    destruct Ho as (_ & _ & _ & He & _). fold brk in He.
    rewrite B2. repeat split. exact He.
  - apply blocks_cons in B2. destruct B2 as (-> & N1 & N2 & N3 & N4 & N5).
    exists ns, na. repeat split; try assumption.
Qed.

Lemma next_alloc_eval :
  negb (GET_ALLOC st (HDRP (NEXT_BLKP st bp)) =? 0) = negb (first_free l2).
Proof.
  destruct next_word as (E1 & E2 & ns & na & W & M & F).
  rewrite E1, E2. destruct (words_size _ _ _ _ W M) as [_ Z2].
  rewrite Z2, F. destruct na; reflexivity.
Qed.

(** Case 1: both neighbours allocated (or absent). *)
Lemma coalesce_none_eq :
  last_free false l1 = false -> first_free l2 = false ->
  coalesce st bp = (insert st bp, bp)
  /\ heap_inv (insert st bp) (l1 ++ (bp, s, false) :: l2)
              (push fl (iterate s) bp)
  /\ same_bounds st (insert st bp)
  /\ registered (push fl (iterate s) bp) bp.
Proof.
  intros Hp Hn. unfold coalesce. cbv zeta.
  rewrite prev_alloc_eval, next_alloc_eval, Hp, Hn. cbn [negb andb].
  destruct co_parts as (B1 & S1 & S2 & T1 & T2 & B2 & Hch & A1 & A2 & A3 & A4).
  destruct co_naf as [N1 N2].
  assert (N3 : naf true l2).
  { clear B2 Hch. destruct l2 as [|[[nb ns] na] l2']; cbn [naf]; [exact I|].
    cbn [first_free] in Hn. destruct na; [|discriminate].
    cbn [naf negb] in N2. tauto. }
  split; [reflexivity|].
  apply (insert_hole st l1 l2 bp s fl
           (is_free (l1 ++ (bp, s, true) :: l2)) co_outer B1);
    try assumption.
  - apply blocks_cons. repeat split; try assumption. constructor.
  - intros x s'. rewrite is_free_app, is_free_cons. intuition congruence.
Qed.

Lemma coalesce_none :
  last_free false l1 = false -> first_free l2 = false ->
  coalesce_post st l1 l2 bp s (coalesce st bp).
Proof.
  intros Hp Hn.
  destruct (coalesce_none_eq Hp Hn) as (E & I1 & I2 & I3).
  destruct co_parts as (_ & S1 & _).
  rewrite E.
  exists l1, l2, s, (push fl (iterate s) bp). cbn [fst snd].
  split; [exact I1|]. split; [exact I2|]. split; [exact I3|].
  repeat (split; [lia|]). tauto.
Qed.

Lemma first_free_true :
  first_free l2 = true ->
  exists ns l2', l2 = (bp + s, ns, false) :: l2'.
Proof.
  intros Hn.
  destruct co_parts as (_ & _ & _ & _ & _ & B2 & _).
  clear Hlay Hlk Hnaf old. revert Hn B2.
  destruct l2 as [|[[nb ns] na] l2']; cbn [first_free]; [discriminate|].
  destruct na; [discriminate|]. intros _ B2.
  apply blocks_cons in B2. destruct B2 as (-> & _). exists ns, l2'. reflexivity.
Qed.

Lemma last_free_true :
  last_free false l1 = true ->
  exists l1' pb ps, l1 = l1' ++ [(pb, ps, false)] /\ pb + ps = bp.
Proof.
  intros Hp.
  destruct co_parts as (B1 & _).
  destruct (list_end_cases l1) as [E|(l1' & [[pb ps] pa] & E)].
  - rewrite E in Hp. discriminate.
  - rewrite E in Hp, B1. rewrite last_free_snoc in Hp.
    destruct pa; [discriminate|].
    apply blocks_last in B1. exists l1', pb, ps. tauto.
Qed.

(** Case 2: only the successor is free. *)
Lemma coalesce_next :
  last_free false l1 = false -> first_free l2 = true ->
  coalesce_post st l1 l2 bp s (coalesce st bp).
Proof.
  intros Hp Hn. unfold coalesce. cbv zeta.
  rewrite prev_alloc_eval, next_alloc_eval, Hp, Hn. cbn [negb andb].
  destruct co_parts as (B1 & S1 & S2 & T1 & T2 & B2 & Hch & A1 & A2 & A3 & A4).
  destruct co_naf as [N1 N2].
  pose proof co_outer as Hout. pose proof co_spaced as Hsp.
  pose proof co_reg_old as Hro. pose proof co_registered as Hreg.
  destruct next_word as (E1 & E2 & _).
  destruct (first_free_true Hn) as (ns & l2' & El2).
  rewrite El2 in B2, N2, Hreg.
  apply blocks_cons in B2. destruct B2 as (_ & M1 & M2 & M3 & M4 & B2).
  pose proof (blocks_le _ _ _ _ B2) as Le.
  destruct (words_size _ _ _ _ T1 S2) as [Z1 _].
  destruct (words_size _ _ _ _ M3 M2) as [Z2 _].
  rewrite E1, E2, (HDRP_eq bp), Z1, Z2 by lia.
  rewrite (wrap_small (s + ns)) by lia.
  change (PACK (s + ns) 0) with (tag (s + ns) false).
  (* unlink the successor *)
  assert (Hrn : registered fl (bp + s)).
  { apply Hreg. exists ns. right. apply is_free_cons. tauto. }
  destruct (delete_spec st fl (bp + s) Hlists Hsp (proj1 Hlk)
              (proj1 (proj2 Hlk)) Hrn) as (D1 & D2 & D3).
  set (st1 := delete st (bp + s)) in *.
  pose proof D3 as (X1 & X2 & X3).
  fold hl in X1. fold brk in X2.
  assert (Hin_old : forall y, In y l1 \/ In y l2' -> In y old).
  { intros y Hy. unfold old. rewrite El2, in_app_iff. cbn [In]. tauto. }
  pose proof (outer_links st st1 old _ Hout Hch Hro D2 D3) as Hout1.
  pose proof (blocks_links st st1 old _ Hout Hch Hro D2 l1 _ _ B1
                (fun y H => Hin_old y (or_introl H))) as B1'.
  pose proof (blocks_links st st1 old _ Hout Hch Hro D2 l2' _ _ B2
                (fun y H => Hin_old y (or_intror H))) as B2'.
  (* retag the merged span *)
  assert (Zm : (s + ns) mod 16 = 0).
  { rewrite Z.add_mod, S2, M2 by lia. reflexivity. }
  rewrite (FTRP_eq _ bp (s + ns));
    [|lia|eapply GET_SIZE_tag; [apply tag_PUT_read; lia|exact Zm]|lia|lia].
  rewrite <- X1 in B1'. rewrite <- X2 in B2'.
  replace (bp + s + ns) with (bp + (s + ns)) in B2' by lia.
  destruct (retag st1 l1 l2' bp (s + ns) false Hout1 B1' B2' ltac:(lia) Zm)
    as (R1 & R2 & R3 & R4).
  set (st3 := PUT (PUT st1 (bp - 8) (tag (s + ns) false))
                  (bp + (s + ns) - 16) (tag (s + ns) false)) in *.
  assert (Hl3 : lists st3 (rm fl (bp + s))).
  { assert (Hr' : forall x, registered (rm fl (bp + s)) x -> addr_of old x).
    { intros x Hx. apply registered_rm in Hx. apply Hro. tauto. }
    unfold st3. apply (lists_PUT _ _ old hl brk); try assumption.
    - apply (lists_PUT _ _ old hl brk); try assumption.
      eapply (inner_clear old); [exact Hch|lia|lia| |left; reflexivity].
      unfold old. rewrite in_app_iff. right. left. reflexivity.
    - eapply (inner_clear old _ _ Hch ltac:(lia) ltac:(lia) (bp + s) ns false).
      + unfold old. rewrite El2, in_app_iff. right. right. left. reflexivity.
      + right. lia. }
  (* register the merged block *)
  destruct (insert_hole st3 l1 l2' bp (s + ns) (rm fl (bp + s)) _
              R1 R2 R3 R4 Hl3 (linked_rm _ _ (bp + s) Hlk))
    as (I1 & I2 & I3); try assumption.
  - intros x s'. cbv beta. rewrite El2, is_free_app, !is_free_cons.
    split.
    + intros [[H|[H|[H|H]]] Hne]; try tauto.
      * destruct H as (_ & _ & H). discriminate.
      * exfalso. apply Hne. symmetry. tauto.
    + intros [H|H].
      * pose proof (is_free_bounds _ _ _ _ _ (proj1 B1) H). split; [tauto|lia].
      * pose proof (is_free_bounds _ _ _ _ _ (proj1 B2) H). split; [tauto|lia].
  - cbn [naf negb] in N2. tauto.
  - exists l1, l2', (s + ns), (push (rm fl (bp + s)) (iterate (s + ns)) bp).
    cbn [fst snd].
    split; [exact I1|]. split.
    { eapply same_bounds_trans; [exact D3|exact I2]. }
    split; [exact I3|].
    repeat (split; [lia|]).
    intros b sb. rewrite El2, !in_app_iff. cbn [In].
    split; [tauto|]. intros [H|[H|H]]; try tauto. discriminate.
Qed.

Lemma naf_true_of (l : list block) :
  first_free l = false -> naf false l -> naf true l.
Proof.
  destruct l as [|[[nb ns] na] l']; cbn [naf first_free]; [tauto|].
  destruct na; [|discriminate]. cbn [negb]. tauto.
Qed.

(** Case 3: only the predecessor is free. *)
Lemma coalesce_prev :
  last_free false l1 = true -> first_free l2 = false ->
  coalesce_post st l1 l2 bp s (coalesce st bp).
Proof.
  intros Hp Hn. unfold coalesce. cbv zeta.
  rewrite prev_alloc_eval, next_alloc_eval, Hp, Hn. cbn [negb andb].
  destruct co_parts as (B1 & S1 & S2 & T1 & T2 & B2 & Hch & A1 & A2 & A3 & A4).
  destruct co_naf as [N1 N2].
  pose proof co_outer as Hout.
  pose proof co_reg_old as Hro. pose proof co_registered as Hreg.
  destruct (last_free_true Hp) as (l1' & pb & ps & El1 & Epb).
  rewrite El1 in B1, N1, Hreg.
  apply blocks_last in B1. destruct B1 as (B1 & _ & P2 & P3 & P4 & P5).
  pose proof (blocks_le _ _ _ _ B1) as Le1.
  pose proof (blocks_le _ _ _ _ B2) as Le2.
  destruct (words_size _ _ _ _ T1 S2) as [Z1 _].
  destruct (words_size _ _ _ _ P4 P3) as [Z2 _].
  destruct (words_size _ _ _ _ P5 P3) as [Z3 _].
  assert (Epv : forall st', GET st' (bp - 16) = GET st (bp - 16) ->
                            PREV_BLKP st' bp = pb).
  { intros st' E. rewrite (PREV_BLKP_eq st' bp ps); [lia|lia| |lia].
    unfold GET_SIZE in *. rewrite E. exact Z3. }
  rewrite (Epv st eq_refl), (HDRP_eq bp), (HDRP_eq pb), Z1, Z2 by lia.
  rewrite (wrap_small (s + ps)) by lia.
  change (PACK (s + ps) 0) with (tag (s + ps) false).
  assert (Hin_pb : In (pb, ps, false) old).
  { unfold old. rewrite El1, !in_app_iff. cbn [In]. tauto. }
  assert (Hin_bp : In (bp, s, false) old).
  { unfold old. rewrite in_app_iff. cbn [In]. tauto. }
  (* unlink the predecessor *)
  assert (Hrp : registered fl pb).
  { apply Hreg. exists ps. left. apply is_free_app. right.
    apply is_free_cons. tauto. }
  destruct (delete_step st fl _ old pb Hout Hch Hlists Hlk Hro Hrp)
    as (D1 & D2 & D3 & D4 & D5 & D6 & D7).
  set (st1 := delete st pb) in *.
  pose proof D3 as (X1 & X2 & X3). fold hl in X1. fold brk in X2.
  assert (B1' : blocks st1 (heap_listp st1) l1' pb).
  { rewrite X1. apply D6; [exact B1|].
    intros y Hy. unfold old. rewrite El1, !in_app_iff. tauto. }
  assert (B2' : blocks st1 (pb + (s + ps)) l2 (mem_brk st1)).
  { rewrite X2. replace (pb + (s + ps)) with (bp + s) by lia.
    apply D6; [exact B2|].
    intros y Hy. unfold old. rewrite in_app_iff. cbn [In]. tauto. }
  assert (W1 : GET st1 (bp - 16) = GET st (bp - 16)).
  { apply (D7 pb ps false); [exact Hin_pb|right; lia]. }
  assert (W2 : GET st1 (bp - 8) = GET st (bp - 8)).
  { apply (D7 bp s false); [exact Hin_bp|left; reflexivity]. }
  rewrite (Epv st1 W1), (HDRP_eq pb) by lia.
  (* retag the merged span *)
  assert (Zm : (s + ps) mod 16 = 0).
  { rewrite Z.add_mod, S2, P3 by lia. reflexivity. }
  rewrite (FTRP_eq _ bp s); [|lia| |lia|lia].
  2:{ eapply GET_SIZE_tag; [|exact S2].
      rewrite GET_PUT_far by (unfold apart; lia). rewrite W2. exact T1. }
  replace (bp + s - 16) with (pb + (s + ps) - 16) by lia.
  destruct (retag st1 l1' l2 pb (s + ps) false D4 B1' B2' ltac:(lia) Zm)
    as (R1 & R2 & R3 & R4).
  set (st3 := PUT (PUT st1 (pb - 8) (tag (s + ps) false))
                  (pb + (s + ps) - 16) (tag (s + ps) false)) in *.
  rewrite (Epv st3).
  2:{ unfold st3. rewrite !GET_PUT_far by (unfold apart; lia). exact W1. }
  assert (Hl3 : lists st3 (rm fl pb)).
  { unfold st3. apply (lists_PUT _ _ old hl brk); try assumption.
    - apply (lists_PUT _ _ old hl brk); try assumption.
      eapply (inner_clear old); [exact Hch|lia|lia|exact Hin_pb|left; reflexivity].
    - eapply (inner_clear old _ _ Hch ltac:(lia) ltac:(lia) bp s false);
        [exact Hin_bp|right; lia]. }
  (* register the merged block *)
  apply naf_app in N1. destruct N1 as [N1 N1'].
  cbn [naf] in N1'.
  assert (Hlf : last_free false l1' = false).
  { destruct (last_free false l1'); [|reflexivity].
    destruct N1' as [N1' _]. specialize (N1' eq_refl). discriminate. }
  destruct (insert_hole st3 l1' l2 pb (s + ps) (rm fl pb) _
              R1 R2 R3 R4 Hl3 D2) as (I1 & I2 & I3); try assumption.
  - intros x s'. cbv beta. rewrite El1, !is_free_app, !is_free_cons, is_free_nil.
    split.
    + intros [[[H|[H|H]]|[H|H]] Hne]; try tauto.
      * exfalso. apply Hne. symmetry. tauto.
      * destruct H as (_ & _ & H). discriminate.
    + intros [H|H].
      * pose proof (is_free_bounds _ _ _ _ _ (proj1 B1) H). split; [tauto|lia].
      * pose proof (is_free_bounds _ _ _ _ _ (proj1 B2) H). split; [tauto|lia].
  - apply naf_true_of; assumption.
  - exists l1', l2, (s + ps), (push (rm fl pb) (iterate (s + ps)) pb).
    cbn [fst snd].
    split; [exact I1|]. split.
    { eapply same_bounds_trans; [exact D3|exact I2]. }
    split; [exact I3|].
    repeat (split; [lia|]).
    intros b sb. rewrite El1, !in_app_iff. cbn [In].
    split; [tauto|]. intros [[H|[H|H]]|H]; try tauto. discriminate.
Qed.

(** Case 4: both neighbours are free. *)
Lemma coalesce_both :
  last_free false l1 = true -> first_free l2 = true ->
  coalesce_post st l1 l2 bp s (coalesce st bp).
Proof.
  intros Hp Hn. unfold coalesce. cbv zeta.
  rewrite prev_alloc_eval, next_alloc_eval, Hp, Hn. cbn [negb andb].
  destruct co_parts as (B1 & S1 & S2 & T1 & T2 & B2 & Hch & A1 & A2 & A3 & A4).
  destruct co_naf as [N1 N2].
  pose proof co_outer as Hout.
  pose proof co_reg_old as Hro. pose proof co_registered as Hreg.
  destruct next_word as (E1 & E2 & _).
  destruct (last_free_true Hp) as (l1' & pb & ps & El1 & Epb).
  destruct (first_free_true Hn) as (ns & l2' & El2).
  rewrite El1 in B1, N1, Hreg. rewrite El2 in B2, N2, Hreg.
  apply blocks_last in B1. destruct B1 as (B1 & _ & P2 & P3 & P4 & P5).
  apply blocks_cons in B2. destruct B2 as (_ & M1 & M2 & M3 & M4 & B2).
  pose proof (blocks_le _ _ _ _ B1) as Le1.
  pose proof (blocks_le _ _ _ _ B2) as Le2.
  destruct (words_size _ _ _ _ T1 S2) as [Z1 _].
  destruct (words_size _ _ _ _ P4 P3) as [Z2 _].
  destruct (words_size _ _ _ _ P5 P3) as [Z3 _].
  destruct (words_size _ _ _ _ M3 M2) as [Z4 _].
  destruct (words_size _ _ _ _ M4 M2) as [Z5 _].
  assert (Epv : forall st', GET st' (bp - 16) = GET st (bp - 16) ->
                            PREV_BLKP st' bp = pb).
  { intros st' E. rewrite (PREV_BLKP_eq st' bp ps); [lia|lia| |lia].
    unfold GET_SIZE in *. rewrite E. exact Z3. }
  assert (Enx : forall st', GET st' (bp - 8) = GET st (bp - 8) ->
                            NEXT_BLKP st' bp = bp + s).
  { intros st' E. apply NEXT_BLKP_eq; try lia.
    unfold GET_SIZE in *. rewrite E. exact Z1. }
  rewrite (Epv st eq_refl), E1, (HDRP_eq bp), (HDRP_eq pb), Z1, Z2 by lia.
  rewrite (FTRP_eq st (bp + s) ns) by (assumption || lia).
  rewrite Z5.
  rewrite (wrap_small (ps + ns)), (wrap_small (s + (ps + ns))) by lia.
  change (PACK (s + (ps + ns)) 0) with (tag (s + (ps + ns)) false).
  assert (Hin_pb : In (pb, ps, false) old).
  { unfold old. rewrite El1, !in_app_iff. cbn [In]. tauto. }
  assert (Hin_bp : In (bp, s, false) old).
  { unfold old. rewrite in_app_iff. cbn [In]. tauto. }
  assert (Hin_nb : In (bp + s, ns, false) old).
  { unfold old. rewrite El2, in_app_iff. cbn [In]. tauto. }
  (* unlink the predecessor *)
  assert (Hrp : registered fl pb).
  { apply Hreg. exists ps. left. apply is_free_app. right.
    apply is_free_cons. tauto. }
  destruct (delete_step st fl _ old pb Hout Hch Hlists Hlk Hro Hrp)
    as (D1 & D2 & D3 & D4 & D5 & D6 & D7).
  set (st1 := delete st pb) in *.
  pose proof D3 as (X1 & X2 & X3). fold hl in X1. fold brk in X2.
  assert (W1 : GET st1 (bp - 16) = GET st (bp - 16)).
  { apply (D7 pb ps false); [exact Hin_pb|right; lia]. }
  assert (W2 : GET st1 (bp - 8) = GET st (bp - 8)).
  { apply (D7 bp s false); [exact Hin_bp|left; reflexivity]. }
  assert (W3 : GET st1 (bp + s - 8) = GET st (bp + s - 8)).
  { apply (D7 (bp + s) ns false); [exact Hin_nb|left; reflexivity]. }
  rewrite (Enx st1 W2).
  (* unlink the successor *)
  assert (Hrn : registered (rm fl pb) (bp + s)).
  { apply registered_rm. split; [|lia].
    apply Hreg. exists ns. right. apply is_free_cons. tauto. }
  assert (Hch1 : chain (heap_listp st1) old (mem_brk st1))
    by (rewrite X1, X2; exact Hch).
  destruct (delete_step st1 (rm fl pb) _ old (bp + s) D4 Hch1 D1 D2 D5 Hrn)
    as (F1 & F2 & F3 & F4 & F5 & F6 & F7).
  set (st2 := delete st1 (bp + s)) in *.
  pose proof F3 as (Y1 & Y2 & Y3).
  assert (B1' : blocks st2 (heap_listp st2) l1' pb).
  { rewrite Y1, X1. apply F6; [apply D6; [exact B1|]|];
      intros y Hy; unfold old; rewrite El1, !in_app_iff; tauto. }
  assert (B2' : blocks st2 (pb + (s + (ps + ns))) l2' (mem_brk st2)).
  { rewrite Y2, X2. replace (pb + (s + (ps + ns))) with (bp + s + ns) by lia.
    apply F6; [apply D6; [exact B2|]|];
      intros y Hy; unfold old; rewrite El2, in_app_iff; cbn [In]; tauto. }
  assert (V1 : GET st2 (bp - 16) = GET st (bp - 16)).
  { rewrite <- W1. apply (F7 pb ps false); [exact Hin_pb|right; lia]. }
  assert (V2 : GET st2 (bp - 8) = GET st (bp - 8)).
  { rewrite <- W2. apply (F7 bp s false); [exact Hin_bp|left; reflexivity]. }
  assert (V3 : GET st2 (bp + s - 8) = GET st (bp + s - 8)).
  { rewrite <- W3. apply (F7 (bp + s) ns false); [exact Hin_nb|left; reflexivity]. }
  rewrite (Epv st2 V1), (HDRP_eq pb) by lia.
  (* retag the merged span *)
  assert (Zm : (s + (ps + ns)) mod 16 = 0).
  { rewrite Z.add_mod, (Z.add_mod ps), S2, P3, M2 by lia. reflexivity. }
  rewrite (Enx (PUT st2 (pb - 8) _)).
  2:{ rewrite GET_PUT_far by (unfold apart; lia). exact V2. }
  rewrite (FTRP_eq _ (bp + s) ns); [|lia| |lia|lia].
  2:{ eapply GET_SIZE_tag; [|exact M2].
      rewrite GET_PUT_far by (unfold apart; lia).
      replace (bp + s - 8) with (bp + s - 8) by lia. rewrite V3. exact M3. }
  replace (bp + s + ns - 16) with (pb + (s + (ps + ns)) - 16) by lia.
  destruct (retag st2 l1' l2' pb (s + (ps + ns)) false F4 B1' B2'
              ltac:(lia) Zm) as (R1 & R2 & R3 & R4).
  set (st4 := PUT (PUT st2 (pb - 8) (tag (s + (ps + ns)) false))
                  (pb + (s + (ps + ns)) - 16)
                  (tag (s + (ps + ns)) false)) in *.
  rewrite (Epv st4).
  2:{ unfold st4. rewrite !GET_PUT_far by (unfold apart; lia). exact V1. }
  assert (Hl4 : lists st4 (rm (rm fl pb) (bp + s))).
  { unfold st4. apply (lists_PUT _ _ old hl brk); try assumption.
    - apply (lists_PUT _ _ old hl brk); try assumption.
      eapply (inner_clear old); [exact Hch|lia|lia|exact Hin_pb|left; reflexivity].
    - eapply (inner_clear old _ _ Hch ltac:(lia) ltac:(lia) (bp + s) ns false);
        [exact Hin_nb|right; lia]. }
  (* register the merged block *)
  apply naf_app in N1. destruct N1 as [N1 N1'].
  cbn [naf] in N1'.
  assert (Hlf : last_free false l1' = false).
  { destruct (last_free false l1'); [|reflexivity].
    destruct N1' as [N1' _]. specialize (N1' eq_refl). discriminate. }
  destruct (insert_hole st4 l1' l2' pb (s + (ps + ns)) (rm (rm fl pb) (bp + s)) _
              R1 R2 R3 R4 Hl4 F2) as (I1 & I2 & I3); try assumption.
  - intros x s'. cbv beta.
    rewrite El1, El2, !is_free_app, !is_free_cons, is_free_nil.
    split.
    + intros [[[[H|[H|H]]|[H|[H|H]]] Hne] Hne']; try tauto.
      * exfalso. apply Hne. symmetry. tauto.
      * destruct H as (_ & _ & H). discriminate.
      * exfalso. apply Hne'. symmetry. tauto.
    + intros [H|H].
      * pose proof (is_free_bounds _ _ _ _ _ (proj1 B1) H).
        split; [split; [tauto|lia]|lia].
      * pose proof (is_free_bounds _ _ _ _ _ (proj1 B2) H).
        split; [split; [tauto|lia]|lia].
  - cbn [naf negb] in N2. tauto.
  - exists l1', l2', (s + (ps + ns)),
      (push (rm (rm fl pb) (bp + s)) (iterate (s + (ps + ns))) pb).
    cbn [fst snd].
    split; [exact I1|]. split.
    { eapply same_bounds_trans; [exact D3|].
      eapply same_bounds_trans; [exact F3|exact I2]. }
    split; [exact I3|].
    repeat (split; [lia|]).
    intros b sb. rewrite El1, El2, !in_app_iff. cbn [In].
    split; [tauto|]. intros [[H|[H|H]]|[H|H]]; try tauto; discriminate.
Qed.

(** [coalesce] restores the invariant around a free, unregistered block. *)
Lemma coalesce_spec : coalesce_post st l1 l2 bp s (coalesce st bp).
Proof.
  destruct (last_free false l1) eqn:Hp; destruct (first_free l2) eqn:Hn.
  - apply coalesce_both; assumption.
  - apply coalesce_prev; assumption.
  - apply coalesce_next; assumption.
  - apply coalesce_none; assumption.
Qed.
End Coalesce.

(** ** release keeps the invariant *)

Lemma heap_inv_parts (st : state) (l1 l2 : list block) (p s : Z) (a : bool)
      (fl : table) :
  heap_inv st (l1 ++ (p, s, a) :: l2) fl ->
  outer st
  /\ blocks st (heap_listp st) l1 p
  /\ 32 <= s /\ s mod 16 = 0
  /\ GET st (p - 8) = tag s a /\ GET st (p + s - 16) = tag s a
  /\ blocks st (p + s) l2 (mem_brk st)
  /\ chain (heap_listp st) (l1 ++ (p, s, a) :: l2) (mem_brk st)
  /\ 16 <= heap_listp st /\ heap_listp st <= p /\ p + s <= mem_brk st
  /\ mem_brk st < 2 ^ 64
  /\ (forall x, registered fl x -> addr_of (l1 ++ (p, s, a) :: l2) x).
Proof.
  intros (Hlay & Hl & Hlk & Hn).
  apply layout_blocks in Hlay. destruct Hlay as [Ho Hb].
  pose proof (proj1 Hb) as Hch.
  apply blocks_app in Hb. destruct Hb as (m & H1 & H2).
  apply blocks_cons in H2. destruct H2 as (-> & A & B & C & D & E).
  pose proof (blocks_le _ _ _ _ H1). pose proof (blocks_le _ _ _ _ E).
  pose proof Ho as (O1 & O2 & O3 & O4 & O5).
  split; [exact Ho|]. split; [exact H1|].
  repeat (split; [assumption || lia|]).
  intros x Hx. destruct Hlk as (_ & _ & K & _). apply K in Hx.
  destruct Hx as (s' & Hs). exists s', false. exact Hs.
Qed.

Lemma free_eval (st : state) (p s : Z) :
  16 <= p -> 32 <= s -> s mod 16 = 0 -> p + s < 2 ^ 64 ->
  GET_SIZE st (p - 8) = s ->
  free st p
  = fst (coalesce (PUT (PUT st (p - 8) (tag s false)) (p + s - 16) (tag s false)) p).
Proof.
  intros H1 H2 H3 H4 H5. unfold free. rewrite (HDRP_eq p), H5 by lia.
  change (PACK s 0) with (tag s false).
  rewrite (FTRP_eq _ p s); [reflexivity|lia| |lia|lia].
  eapply GET_SIZE_tag; [apply tag_PUT_read; lia|exact H3].
Qed.

Lemma naf_flag (l1 l2 : list block) (p s s' : Z) :
  naf false (l1 ++ (p, s, false) :: l2) -> naf false (l1 ++ (p, s', true) :: l2).
Proof.
  rewrite !naf_app. cbn [naf negb]. intros (H1 & H2 & H3).
  split; [exact H1|]. split; [reflexivity|]. apply naf_weaken, H3.
Qed.

Lemma free_spec (st : state) (bl : list block) (fl : table) (p s : Z) :
  heap_inv st bl fl -> In (p, s, true) bl ->
  exists bl' fl',
    heap_inv (free st p) bl' fl'
    /\ same_bounds st (free st p)
    /\ (forall b sb, In (b, sb, true) bl' <-> In (b, sb, true) bl /\ b <> p).
Proof.
  intros Hinv Hin.
  destruct (in_split _ _ Hin) as (l1 & l2 & ->).
  destruct (heap_inv_parts _ _ _ _ _ _ _ Hinv)
    as (Ho & B1 & S1 & S2 & T1 & T2 & B2 & Hch & A1 & A2 & A3 & A4 & Hreg).
  destruct Hinv as (Hlay & Hl & Hlk & Hn).
  destruct (words_size _ _ _ _ T1 S2) as [Z1 _].
  rewrite (free_eval st p s) by (assumption || lia).
  destruct (retag st l1 l2 p s false Ho B1 B2 S1 S2) as (R1 & R2 & R3 & R4).
  set (st2 := PUT (PUT st (p - 8) (tag s false)) (p + s - 16) (tag s false)) in *.
  assert (Hlay2 : layout st2 (l1 ++ (p, s, false) :: l2)).
  { apply layout_blocks. split; [exact R1|].
    apply blocks_app. exists p. split; [exact R2|].
    change ((p, s, false) :: l2) with ([(p, s, false)] ++ l2).
    apply blocks_app. exists (p + s). tauto. }
  assert (Hl2 : lists st2 fl).
  { unfold st2.
    apply (lists_PUT _ _ _ _ _ _ _ (lists_PUT _ _ _ _ _ _ _ Hl Hch A1 A4 Hreg
             (inner_clear _ _ _ Hch A1 A4 p s true _ Hin (or_introl eq_refl)))
             Hch A1 A4 Hreg).
    apply (inner_clear _ _ _ Hch A1 A4 p s true _ Hin). right. lia. }
  destruct (coalesce_spec st2 l1 l2 p s fl Hlay2 Hl2 Hlk Hn)
    as (la & lb & s' & fl' & I1 & I2 & I3 & I4 & I5 & I6 & I7).
  exists (la ++ (snd (coalesce st2 p), s', false) :: lb), fl'.
  split; [exact I1|]. split; [exact I2|].
  intros b sb. specialize (I7 b sb). revert I7.
  rewrite !in_app_iff. cbn [In]. intros I7. split.
  - intros [H|[H|H]]; try discriminate.
    + assert (Hx : In (b, sb, true) l1 \/ In (b, sb, true) l2) by tauto.
      destruct Hx as [Hx|Hx].
      * pose proof (chain_In _ _ _ _ _ _ (proj1 B1) Hx). split; [tauto|lia].
      * pose proof (chain_In _ _ _ _ _ _ (proj1 B2) Hx). split; [tauto|lia].
    + assert (Hx : In (b, sb, true) l1 \/ In (b, sb, true) l2) by tauto.
      destruct Hx as [Hx|Hx].
      * pose proof (chain_In _ _ _ _ _ _ (proj1 B1) Hx). split; [tauto|lia].
      * pose proof (chain_In _ _ _ _ _ _ (proj1 B2) Hx). split; [tauto|lia].
  - intros [[H|[H|H]] Hne].
    + assert (Hx : In (b, sb, true) la \/ In (b, sb, true) lb) by tauto. tauto.
    + exfalso. apply Hne. congruence.
    + assert (Hx : In (b, sb, true) la \/ In (b, sb, true) lb) by tauto. tauto.
Qed.

(** ** Placement *)

Section Place.
Variables (st : state) (l1 l2 : list block) (bp cs : Z) (fl : table)
          (asize : Z).
Hypothesis Hinv : heap_inv st (l1 ++ (bp, cs, false) :: l2) fl.
Hypothesis Hsz : 32 <= asize <= cs.
Hypothesis Hmod : asize mod 16 = 0.

Let old : list block := l1 ++ (bp, cs, false) :: l2.

Lemma place_registered : registered fl bp.
Proof.
  destruct Hinv as (_ & _ & (_ & _ & K & _) & _). apply K. exists cs.
  unfold is_free. rewrite in_app_iff. right. left. reflexivity.
Qed.

Lemma place_linked_rest :
  linked (fun x s' => is_free l1 x s' \/ is_free l2 x s') (rm fl bp).
Proof.
  destruct (heap_inv_parts _ _ _ _ _ _ _ Hinv)
    as (Ho & B1 & S1 & S2 & T1 & T2 & B2 & Hch & A1 & A2 & A3 & A4 & Hreg).
  destruct Hinv as (_ & _ & Hlk & _).
  eapply linked_equiv; [|apply (linked_rm _ _ bp Hlk)].
  intros x s'. cbv beta. rewrite is_free_app, is_free_cons. split.
  - intros [[H|[H|H]] Hne]; try tauto. exfalso. apply Hne. symmetry. tauto.
  - intros [H|H].
    + pose proof (is_free_bounds _ _ _ _ _ (proj1 B1) H). split; [tauto|lia].
    + pose proof (is_free_bounds _ _ _ _ _ (proj1 B2) H). split; [tauto|lia].
Qed.

(** The block is large enough to split. *)
Lemma place_split :
  32 <= cs - asize ->
  (let st3 := delete (PUT (PUT st (bp - 8) (tag asize true))
                          (bp + asize - 16) (tag asize true)) bp in
   let st5 := PUT (PUT st3 (bp + asize - 8) (tag (cs - asize) false))
                  (bp + cs - 16) (tag (cs - asize) false) in
   place st bp asize = fst (coalesce st5 (bp + asize))
   /\ GET st3 (bp - 8) = tag asize true
   /\ GET st3 (bp + asize - 16) = tag asize true
   /\ GET st5 (bp + asize - 8) = tag (cs - asize) false
   /\ GET st5 (bp + cs - 16) = tag (cs - asize) false)
  /\ heap_inv (place st bp asize)
              (l1 ++ (bp, asize, true) :: (bp + asize, cs - asize, false) :: l2)
              (push (rm fl bp) (iterate (cs - asize)) (bp + asize))
  /\ same_bounds st (place st bp asize).
Proof.
  intros Hrem.
  destruct (heap_inv_parts _ _ _ _ _ _ _ Hinv)
    as (Ho & B1 & S1 & S2 & T1 & T2 & B2 & Hch & A1 & A2 & A3 & A4 & Hreg).
  pose proof place_registered as Hrb. pose proof place_linked_rest as Hlr.
  destruct Hinv as (Hlay & Hl & Hlk & Hn).
  destruct (words_size _ _ _ _ T1 S2) as [Z1 _].
  assert (Hin : In (bp, cs, false) old).
  { unfold old. rewrite in_app_iff. right. left. reflexivity. }
  assert (Zr : (cs - asize) mod 16 = 0).
  { rewrite Zminus_mod, S2, Hmod. reflexivity. }
  unfold place. rewrite (HDRP_eq bp), Z1 by lia.
  rewrite (wrap_small (cs - asize)) by lia.
  change (wrap (2 * DSIZE)) with 32.
  destruct (Z.geb_spec (cs - asize) 32) as [_|]; [|lia].
  change (PACK asize 1) with (tag asize true).
  change (PACK (cs - asize) 0) with (tag (cs - asize) false).
  cbv zeta.
  rewrite (FTRP_eq _ bp asize); [|lia| |lia|lia].
  2:{ eapply GET_SIZE_tag; [apply tag_PUT_read; lia|exact Hmod]. }
  (* the allocated part *)
  destruct (retag_upto st l1 l2 bp asize (bp + cs) true Ho B1 B2
              ltac:(lia) Hmod ltac:(lia)) as (R1 & R2 & R3 & R4).
  set (st2 := PUT (PUT st (bp - 8) (tag asize true))
                  (bp + asize - 16) (tag asize true)) in *.
  assert (Hl2 : lists st2 fl).
  { unfold st2.
    apply (lists_PUT _ _ _ _ _ _ _ (lists_PUT _ _ _ _ _ _ _ Hl Hch A1 A4 Hreg
             (inner_clear _ _ _ Hch A1 A4 bp cs false _ Hin (or_introl eq_refl)))
             Hch A1 A4 Hreg).
    apply (inner_clear _ _ _ Hch A1 A4 bp cs false _ Hin). right. lia. }
  (* unlink the block *)
  destruct (delete_step st2 fl _ old bp R1 Hch Hl2 Hlk Hreg Hrb)
    as (D1 & D2 & D3 & D4 & D5 & D6 & D7).
  set (st3 := delete st2 bp) in *.
  pose proof D3 as (X1 & X2 & X3).
  assert (W1 : GET st3 (bp - 8) = tag asize true).
  { rewrite (D7 bp cs false); [|exact Hin|left; reflexivity].
    apply blocks_cons in R3. tauto. }
  assert (W2 : GET st3 (bp + asize - 16) = tag asize true).
  { rewrite (D7 bp cs false); [|exact Hin|right; lia].
    apply blocks_cons in R3. tauto. }
  rewrite (NEXT_BLKP_eq st3 bp asize); [|lia| |lia|lia].
  2:{ eapply GET_SIZE_tag; eassumption. }
  rewrite (HDRP_eq (bp + asize)) by lia.
  rewrite (FTRP_eq _ (bp + asize) (cs - asize)); [|lia| |lia|lia].
  2:{ eapply GET_SIZE_tag; [|exact Zr].
      replace (bp + asize - 8) with (bp + asize - 8) by lia.
      apply tag_PUT_read; lia. }
  replace (bp + asize + (cs - asize) - 16) with (bp + cs - 16) by lia.
  (* the remainder *)
  assert (B1' : blocks st3 (heap_listp st3) (l1 ++ [(bp, asize, true)]) (bp + asize)).
  { apply blocks_app. exists bp. split.
    - rewrite X1. apply D6; [exact R2|].
      intros y Hy. unfold old. rewrite in_app_iff. tauto.
    - apply blocks_cons. repeat split; try assumption; try lia. constructor. }
  assert (B2' : blocks st3 (bp + asize + (cs - asize)) l2 (mem_brk st3)).
  { rewrite X2. replace (bp + asize + (cs - asize)) with (bp + cs) by lia.
    apply D6; [exact R4|].
    intros y Hy. unfold old. rewrite in_app_iff. cbn [In]. tauto. }
  destruct (retag st3 _ l2 (bp + asize) (cs - asize) false D4 B1' B2'
              Hrem Zr) as (Q1 & Q2 & Q3 & Q4).
  replace (bp + asize + (cs - asize) - 16) with (bp + cs - 16) in * by lia.
  set (st5 := PUT (PUT st3 (bp + asize - 8) (tag (cs - asize) false))
                  (bp + cs - 16) (tag (cs - asize) false)) in *.
  assert (Hl5 : lists st5 (rm fl bp)).
  { unfold st5.
    apply (lists_PUT _ _ old (heap_listp st) (mem_brk st)); try assumption.
    - apply (lists_PUT _ _ old (heap_listp st) (mem_brk st)); try assumption.
      apply (inner_clear _ _ _ Hch A1 A4 bp cs false _ Hin). right. lia.
    - apply (inner_clear _ _ _ Hch A1 A4 bp cs false _ Hin). right. lia. }
  assert (Hlay5 : layout st5 ((l1 ++ [(bp, asize, true)])
                                ++ (bp + asize, cs - asize, false) :: l2)).
  { apply layout_blocks. split; [exact Q1|].
    apply blocks_app. exists (bp + asize). split; [exact Q2|].
    change ((bp + asize, cs - asize, false) :: l2)
      with ([(bp + asize, cs - asize, false)] ++ l2).
    apply blocks_app. exists (bp + asize + (cs - asize)). tauto. }
  assert (Hlk5 : linked (is_free ((l1 ++ [(bp, asize, true)])
                                    ++ (bp + asize, cs - asize, true) :: l2))
                        (rm fl bp)).
  { eapply linked_equiv; [|exact Hlr].
    intros x s'. cbv beta.
    rewrite !is_free_app, !is_free_cons, is_free_nil. intuition congruence. }
  apply naf_app in Hn. cbn [naf negb] in Hn. destruct Hn as (N1 & N2 & N3).
  assert (Hlf : last_free false l1 = false).
  { destruct (last_free false l1); [|reflexivity].
    specialize (N2 eq_refl). discriminate. }
  assert (Hn5 : naf false ((l1 ++ [(bp, asize, true)])
                             ++ (bp + asize, cs - asize, true) :: l2)).
  { rewrite !naf_app. cbn [naf negb].
    repeat split; try assumption; try reflexivity. apply naf_weaken, N3. }
  assert (Hff : first_free l2 = false).
  { clear -N3. destruct l2 as [|[[nb ns] na] l2']; [reflexivity|].
    cbn [naf first_free] in *. destruct na; [reflexivity|].
    destruct N3 as [N3 _]. specialize (N3 eq_refl). discriminate. }
  destruct (coalesce_none_eq st5 _ l2 (bp + asize) (cs - asize) (rm fl bp)
              Hlay5 Hl5 Hlk5 Hn5 (last_free_snoc _ _ _ _ _) Hff)
    as (E & I1 & I2 & I3).
  split; [|rewrite E; cbn [fst]; split].
  - cbv zeta. split; [reflexivity|]. split; [exact W1|]. split; [exact W2|].
    apply blocks_cons in Q3.
    replace (bp + asize + (cs - asize) - 16) with (bp + cs - 16) in Q3 by lia.
    tauto.
  - rewrite <- app_assoc in I1. exact I1.
  - eapply same_bounds_trans; [|exact I2].
    eapply same_bounds_trans; [|apply same_bounds_refl].
    exact D3.
Qed.

(** The remainder would be too small: the whole block is allocated. *)
Lemma place_whole :
  cs - asize < 32 ->
  place st bp asize
  = delete (PUT (PUT st (bp - 8) (tag cs true)) (bp + cs - 16) (tag cs true)) bp
  /\ heap_inv (place st bp asize) (l1 ++ (bp, cs, true) :: l2) (rm fl bp)
  /\ same_bounds st (place st bp asize).
Proof.
  intros Hrem.
  destruct (heap_inv_parts _ _ _ _ _ _ _ Hinv)
    as (Ho & B1 & S1 & S2 & T1 & T2 & B2 & Hch & A1 & A2 & A3 & A4 & Hreg).
  pose proof place_registered as Hrb. pose proof place_linked_rest as Hlr.
  destruct Hinv as (Hlay & Hl & Hlk & Hn).
  destruct (words_size _ _ _ _ T1 S2) as [Z1 _].
  assert (Hin : In (bp, cs, false) old).
  { unfold old. rewrite in_app_iff. right. left. reflexivity. }
  unfold place. rewrite (HDRP_eq bp), Z1 by lia.
  rewrite (wrap_small (cs - asize)) by lia.
  change (wrap (2 * DSIZE)) with 32.
  destruct (Z.geb_spec (cs - asize) 32) as [|_]; [lia|].
  change (PACK cs 1) with (tag cs true). cbv zeta.
  rewrite (FTRP_eq _ bp cs); [|lia| |lia|lia].
  2:{ eapply GET_SIZE_tag; [apply tag_PUT_read; lia|exact S2]. }
  destruct (retag st l1 l2 bp cs true Ho B1 B2 S1 S2) as (R1 & R2 & R3 & R4).
  set (st2 := PUT (PUT st (bp - 8) (tag cs true)) (bp + cs - 16) (tag cs true)) in *.
  assert (Hl2 : lists st2 fl).
  { unfold st2.
    apply (lists_PUT _ _ _ _ _ _ _ (lists_PUT _ _ _ _ _ _ _ Hl Hch A1 A4 Hreg
             (inner_clear _ _ _ Hch A1 A4 bp cs false _ Hin (or_introl eq_refl)))
             Hch A1 A4 Hreg).
    apply (inner_clear _ _ _ Hch A1 A4 bp cs false _ Hin). right. lia. }
  set (new := l1 ++ (bp, cs, true) :: l2).
  assert (Hb2 : blocks st2 (heap_listp st2) new (mem_brk st2)).
  { unfold new. apply blocks_app. exists bp. split; [exact R2|].
    change ((bp, cs, true) :: l2) with ([(bp, cs, true)] ++ l2).
    apply blocks_app. exists (bp + cs). tauto. }
  assert (Hreg' : forall x, registered fl x -> addr_of new x).
  { intros x Hx. destruct (Hreg x Hx) as (s' & a' & Hs).
    apply in_app_iff in Hs. cbn [In] in Hs. unfold new, addr_of.
    destruct Hs as [Hs|[Hs|Hs]].
    - exists s', a'. rewrite in_app_iff. tauto.
    - injection Hs as <- <- <-. exists cs, true. rewrite in_app_iff.
      right. left. reflexivity.
    - exists s', a'. rewrite in_app_iff. cbn [In]. tauto. }
  destruct (delete_step st2 fl _ new bp R1 (proj1 Hb2) Hl2 Hlk Hreg' Hrb)
    as (D1 & D2 & D3 & D4 & D5 & D6 & D7).
  split; [reflexivity|]. split; [|exact D3].
  split; [|split; [exact D1|split]].
  - apply layout_blocks. split; [exact D4|].
    destruct D3 as (X1 & X2 & X3). rewrite X1, X2.
    apply D6; [exact Hb2|tauto].
  - eapply linked_equiv; [|exact Hlr].
    intros x s'. cbv beta. unfold new.
    rewrite is_free_app, is_free_cons. intuition congruence.
  - apply (naf_flag _ _ _ _ _ Hn).
Qed.
End Place.

(** ** Growing the heap *)

Lemma lseg_same_mem (st st' : state) (l : list Z) :
  mem st' = mem st ->
  forall hd prev tl, lseg st hd prev l tl -> lseg st' hd prev l tl.
Proof.
  intros Hm. induction l as [|x l IH]; intros hd prev tl; cbn [lseg].
  - tauto.
  - unfold PREVF, NEXTF, GET in *. rewrite Hm. intros (E & Hp & Hr).
    split; [exact E|]. split; [exact Hp|]. apply IH. exact Hr.
Qed.

Lemma lists_set_brk (st : state) (fl : table) (b : Z) :
  lists st fl -> lists (set_brk st b) fl.
Proof.
  intros Hl i Hi. apply (lseg_same_mem st); [reflexivity|]. apply Hl, Hi.
Qed.

Lemma beyond_clear (bl : list block) (lo hi a : Z) :
  chain lo bl hi -> 0 <= a -> hi - 8 <= a -> a + 8 <= 2 ^ 64 ->
  clear_of (addr_of bl) a.
Proof.
  intros Hc H1 H2 H3. split; [lia|]. split; [lia|].
  intros b (s & al & Hb). pose proof (chain_In _ _ _ _ _ _ Hc Hb). lia.
Qed.

Lemma extend_heap_eval (st : state) (words : Z) :
  4 <= words -> words mod 2 = 0 -> words * 8 < 2 ^ 64 ->
  16 <= mem_brk st -> mem_max_addr st < 2 ^ 64 ->
  extend_heap st words
  = if mem_brk st + words * 8 >? mem_max_addr st then (st, NULL)
    else coalesce (grown st (words * 8)) (mem_brk st).
Proof.
  intros H1 H2 H3 H4 H5. unfold extend_heap, mem_sbrk.
  rewrite H2. change (0 =? 0) with true. cbn [negb]. cbv iota.
  unfold WSIZE. rewrite (wrap_small (words * 8)) by lia.
  destruct (Z.gtb_spec (mem_brk st + words * 8) (mem_max_addr st)) as [Hf|Hs].
  - change (wrap (-1) =? wrap (-1)) with true. reflexivity.
  - change (wrap (-1)) with (2 ^ 64 - 1).
    destruct (Z.eqb_spec (mem_brk st) (2 ^ 64 - 1)) as [|_]; [lia|].
    cbv zeta. unfold grown.
    change (PACK (words * 8) 0) with (tag (words * 8) false).
    change (PACK 0 1) with (tag 0 true).
    assert (Zm : (words * 8) mod 16 = 0).
    { pose proof (Z.div_mod words 2 ltac:(lia)) as D. rewrite H2 in D.
      replace (words * 8) with ((words / 2) * 16) by lia. apply Z.mod_mul. lia. }
    rewrite (HDRP_eq (mem_brk st)) by lia.
    rewrite (FTRP_eq _ (mem_brk st) (words * 8)); [|lia| |lia|lia].
    2:{ eapply GET_SIZE_tag; [apply tag_PUT_read; lia|exact Zm]. }
    rewrite (NEXT_BLKP_eq _ (mem_brk st) (words * 8)); [|lia| |lia|lia].
    2:{ eapply GET_SIZE_tag; [|exact Zm].
        rewrite GET_PUT_far by (unfold apart; lia). apply tag_PUT_read; lia. }
    rewrite (HDRP_eq (mem_brk st + words * 8)) by lia.
    reflexivity.
Qed.

Lemma grown_parts (st : state) (bl : list block) (fl : table) (size : Z) :
  heap_inv st bl fl -> 32 <= size -> size mod 16 = 0 ->
  mem_brk st + size <= mem_max_addr st ->
  layout (grown st size) (bl ++ (mem_brk st, size, false) :: [])
  /\ lists (grown st size) fl
  /\ linked (is_free (bl ++ (mem_brk st, size, true) :: [])) fl
  /\ naf false (bl ++ (mem_brk st, size, true) :: []).
Proof.
  intros (Hlay & Hl & Hlk & Hn) H1 Zm Hs.
  pose proof Hlay as Hlay'. apply layout_blocks in Hlay'.
  destruct Hlay' as [Ho [Hch Htg]].
  pose proof Ho as (O1 & O2 & O3 & O4 & O5).
  set (brk := mem_brk st) in *.
  assert (Hreg : forall x, registered fl x -> addr_of bl x).
  { intros x Hx. destruct Hlk as (_ & _ & K & _). apply K in Hx.
    destruct Hx as (s' & Hs'). exists s', false. exact Hs'. }
  assert (Hlay4 : layout (grown st size) (bl ++ (brk, size, false) :: [])).
  { apply layout_blocks. unfold grown. fold brk. split.
    - unfold outer. cbn [heap_listp mem_brk mem_max_addr PUT set_mem set_brk].
      repeat split; try lia.
      + apply tag_PUT_read; [lia|lia|reflexivity].
      + unfold GET_SIZE in *.
        rewrite !GET_PUT_far by (unfold apart; lia). exact O5.
    - apply blocks_app. exists brk. split.
      + split; [exact Hch|].
        eapply tags_PUT; [exact Hch| |lia|lia|lia|lia|lia].
        eapply tags_PUT; [exact Hch| |lia|lia|lia|lia|lia].
        eapply tags_PUT; [exact Hch| |lia|lia|lia|lia|lia].
        exact Htg.
      + apply blocks_cons. repeat split; try lia.
        * rewrite !GET_PUT_far by (unfold apart; lia). apply tag_PUT_read; lia.
        * rewrite GET_PUT_far by (unfold apart; lia). apply tag_PUT_read; lia.
        * constructor. }
  assert (Hl4 : lists (grown st size) fl).
  { unfold grown. fold brk.
    apply (lists_PUT _ _ bl (heap_listp st) brk); try assumption; try lia.
    - apply (lists_PUT _ _ bl (heap_listp st) brk); try assumption; try lia.
      + apply (lists_PUT _ _ bl (heap_listp st) brk); try assumption; try lia.
        * apply lists_set_brk, Hl.
        * apply (beyond_clear _ _ _ _ Hch); lia.
      + apply (beyond_clear _ _ _ _ Hch); lia.
    - apply (beyond_clear _ _ _ _ Hch); lia. }
  assert (Hlk4 : linked (is_free (bl ++ (brk, size, true) :: [])) fl).
  { eapply linked_equiv; [|exact Hlk].
    intros x s'. rewrite is_free_app, is_free_cons, is_free_nil.
    intuition congruence. }
  assert (Hn4 : naf false (bl ++ (brk, size, true) :: [])).
  { apply naf_app. cbn [naf]. tauto. }
  tauto.
Qed.

Lemma extend_heap_spec (st : state) (bl : list block) (fl : table) (words : Z) :
  heap_inv st bl fl ->
  4 <= words -> words mod 2 = 0 -> words * 8 < 2 ^ 64 ->
  (mem_brk st + words * 8 > mem_max_addr st ->
   extend_heap st words = (st, NULL))
  /\ (mem_brk st + words * 8 <= mem_max_addr st ->
      exists la lb s' fl',
        heap_inv (fst (extend_heap st words))
                 (la ++ (snd (extend_heap st words), s', false) :: lb) fl'
        /\ words * 8 <= s'
        /\ snd (extend_heap st words) <> NULL
        /\ registered fl' (snd (extend_heap st words))
        /\ mem_brk (fst (extend_heap st words)) = mem_brk st + words * 8
        /\ heap_listp (fst (extend_heap st words)) = heap_listp st
        /\ (forall b sb, In (b, sb, true) (la ++ lb) <-> In (b, sb, true) bl)).
Proof.
  intros (Hlay & Hl & Hlk & Hn) H1 H2 H3.
  pose proof Hlay as Hlay'. apply layout_blocks in Hlay'.
  destruct Hlay' as [Ho [Hch Htg]].
  pose proof Ho as (O1 & O2 & O3 & O4 & O5).
  rewrite (extend_heap_eval st words) by lia.
  split.
  - intros Hf. destruct (Z.gtb_spec (mem_brk st + words * 8) (mem_max_addr st));
      [reflexivity|lia].
  - intros Hs. destruct (Z.gtb_spec (mem_brk st + words * 8) (mem_max_addr st));
      [lia|].
    set (size := words * 8) in *. set (brk := mem_brk st) in *.
    assert (Zm : size mod 16 = 0).
    { pose proof (Z.div_mod words 2 ltac:(lia)) as D. rewrite H2 in D.
      unfold size. replace (words * 8) with ((words / 2) * 16) by lia.
      apply Z.mod_mul. lia. }
    destruct (grown_parts st bl fl size (conj Hlay (conj Hl (conj Hlk Hn)))
                ltac:(unfold size; lia) Zm ltac:(lia))
      as (Hlay4 & Hl4 & Hlk4 & Hn4).
    destruct (coalesce_spec _ bl [] brk size fl Hlay4 Hl4 Hlk4 Hn4)
      as (la & lb & s' & fl' & I1 & I2 & I3 & I4 & I5 & I6 & I7).
    exists la, lb, s', fl'.
    split; [exact I1|]. split; [exact I4|].
    split; [|split; [exact I3|split; [|split]]].
    + destruct I1 as (L & _). apply layout_blocks in L.
      destruct L as [(Q1 & _) [C _]].
      assert (Hin : In (snd (coalesce (grown st size) brk), s', false)
                       (la ++ (snd (coalesce (grown st size) brk), s', false) :: lb)).
      { rewrite in_app_iff. right. left. reflexivity. }
      pose proof (chain_In _ _ _ _ _ _ C Hin). unfold NULL. lia.
    + destruct I2 as (_ & E & _). rewrite E. reflexivity.
    + destruct I2 as (E & _). rewrite E. reflexivity.
    + intros b sb. rewrite I7, app_nil_r. tauto.
Qed.

(** ** Fit search *)

Lemma find_app_first (f : Z -> bool) (l1 l2 : list Z) :
  find f (l1 ++ l2)
  = match find f l1 with Some x => Some x | None => find f l2 end.
Proof.
  induction l1 as [|x l1 IH]; cbn [find app]; [reflexivity|].
  destruct (f x); [reflexivity|exact IH].
Qed.

Lemma scan_list_spec (st : state) (asize : Z) (l : list Z) :
  forall fuel hd prev,
    lseg st hd prev l 0 -> (forall x, In x l -> x <> 0) ->
    (length l < fuel)%nat ->
    scan_list fuel st asize hd = Some (first_fit st asize l).
Proof.
  induction l as [|x l IH]; intros fuel hd prev Hl Hnz Hf.
  - cbn [lseg] in Hl. subst hd.
    destruct fuel as [|f]; [cbn in Hf; lia|]. reflexivity.
  - cbn [lseg] in Hl. destruct Hl as (-> & _ & Hl).
    destruct fuel as [|f]; [cbn in Hf; lia|].
    cbn [scan_list].
    destruct (Z.eqb_spec x 0) as [E|_]; [exfalso; apply (Hnz x); [left; reflexivity|exact E]|].
    unfold first_fit. cbn [find]. unfold fits at 1.
    destruct (asize <=? GET_SIZE st (HDRP x)); [reflexivity|].
    apply (IH f _ x Hl).
    + intros y Hy. apply Hnz. right. exact Hy.
    + cbn [length] in Hf. lia.
Qed.

Lemma first_fit_cases (st : state) (asize : Z) (l : list Z) :
  (first_fit st asize l = NULL /\ find (fits st asize) l = None
   \/ (In (first_fit st asize l) l /\ fits st asize (first_fit st asize l) = true
       /\ find (fits st asize) l = Some (first_fit st asize l)))
  \/ In 0 l.
Proof.
  unfold first_fit. destruct (find (fits st asize) l) as [b|] eqn:E.
  - left. right. apply find_some in E. tauto.
  - left. left. tauto.
Qed.

Lemma scan_classes_spec (st : state) (fl : table) (asize : Z) (fuel : nat) :
  lists st fl -> (forall x, registered fl x -> x <> 0) -> enough fuel fl ->
  forall k i, 0 <= i -> i + Z.of_nat k <= 11 ->
    scan_classes k fuel st asize i
    = Some (first_fit st asize (scan_order k i fl)).
Proof.
  intros Hl Hnz Hen. induction k as [|k IH]; intros i Hi Hk.
  - reflexivity.
  - cbn [scan_classes scan_order].
    assert (Hnzi : forall x, In x (fl i) -> x <> 0).
    { intros x Hx. apply Hnz. exists i. split; [lia|exact Hx]. }
    rewrite (scan_list_spec st asize (fl i) fuel _ 0 (Hl i ltac:(lia)) Hnzi
               (Hen i ltac:(lia))).
    rewrite IH by lia.
    unfold first_fit. rewrite find_app_first.
    destruct (find (fits st asize) (fl i)) as [b|] eqn:E.
    + apply find_some in E. destruct E as [Hb _].
      pose proof (Hnzi b Hb). destruct b; [contradiction|reflexivity|reflexivity].
    + reflexivity.
Qed.

Lemma scan_order_in (fl : table) (x : Z) :
  forall k i, In x (scan_order k i fl) ->
    exists j, i <= j < i + Z.of_nat k /\ In x (fl j).
Proof.
  induction k as [|k IH]; intros i; cbn [scan_order].
  - contradiction.
  - rewrite in_app_iff. intros [H|H].
    + exists i. split; [lia|exact H].
    + destruct (IH _ H) as (j & Hj & Hx). exists j. split; [lia|exact Hx].
Qed.

Lemma find_fit_spec (st : state) (fl : table) (asize : Z) (fuel : nat) :
  lists st fl -> (forall x, registered fl x -> x <> 0) -> enough fuel fl ->
  let c := iterate asize in
  let order := scan_order (Z.to_nat (11 - c)) c fl in
  find_fit fuel st asize = Some (first_fit st asize order)
  /\ (first_fit st asize order <> NULL ->
      registered fl (first_fit st asize order)
      /\ asize <= GET_SIZE st (HDRP (first_fit st asize order))).
Proof.
  intros Hl Hnz Hen c order.
  pose proof (iterate_range asize) as Hc. fold c in Hc.
  split.
  - unfold find_fit. fold c. apply scan_classes_spec; try assumption; lia.
  - intros Hne. unfold first_fit in *.
    destruct (find (fits st asize) order) as [b|] eqn:E; [|contradiction].
    apply find_some in E. destruct E as [Hin Hfit].
    unfold order in Hin. apply scan_order_in in Hin.
    destruct Hin as (j & Hj & Hx).
    split; [exists j; split; [lia|exact Hx]|].
    unfold fits in Hfit. lia.
Qed.

(** A block returned by the search is large enough, whatever the state. *)
Lemma scan_list_fits (st : state) (asize : Z) :
  forall fuel hd bp,
    scan_list fuel st asize hd = Some bp -> bp <> 0 ->
    asize <= GET_SIZE st (HDRP bp).
Proof.
  induction fuel as [|f IH]; intros hd bp; cbn [scan_list]; [discriminate|].
  destruct (Z.eqb_spec hd 0) as [_|_].
  - intros E Hne. injection E as <-. contradiction.
  - destruct (Z.leb_spec asize (GET_SIZE st (HDRP hd))) as [Hle|_].
    + intros E _. injection E as <-. exact Hle.
    + apply IH.
Qed.

Lemma find_fit_fits (fuel : nat) (st : state) (asize bp : Z) :
  find_fit fuel st asize = Some bp -> bp <> NULL ->
  asize <= GET_SIZE st (HDRP bp).
Proof.
  unfold find_fit. cbv zeta.
  generalize (Z.to_nat (11 - iterate asize)) as k.
  generalize (iterate asize) as i. intros i k. revert i.
  induction k as [|k IH]; intros i; cbn [scan_classes].
  - intros E Hne. injection E as <-. contradiction.
  - destruct (scan_list fuel st asize (seg st i)) as [r|] eqn:E; [|discriminate].
    destruct r as [|r|r].
    + apply IH.
    + intros E' Hne. injection E' as <-.
      eapply scan_list_fits; [exact E|discriminate].
    + intros E' Hne. injection E' as <-.
      eapply scan_list_fits; [exact E|discriminate].
Qed.

(** The lists of a valid heap are never longer than the block list. *)
Lemma heap_inv_enough (st : state) (bl : list block) (fl : table) :
  heap_inv st bl fl -> enough (S (length bl)) fl.
Proof.
  intros (_ & _ & (K1 & _ & K3 & _) & _) i Hi.
  assert (Hincl : incl (fl i) (map (fun x : block => fst (fst x)) bl)).
  { intros x Hx. assert (Hr : registered fl x) by (exists i; tauto).
    apply K3 in Hr. destruct Hr as (s & Hs).
    apply in_map_iff. exists (x, s, false). split; [reflexivity|exact Hs]. }
  pose proof (NoDup_incl_length (K1 i Hi) Hincl) as Hlen.
  rewrite length_map in Hlen. lia.
Qed.

Lemma heap_inv_nonnull (st : state) (bl : list block) (fl : table) (x : Z) :
  heap_inv st bl fl -> registered fl x -> x <> 0.
Proof.
  intros (Hlay & _ & (_ & _ & K3 & _) & _) Hr.
  apply K3 in Hr. destruct Hr as (s & Hs).
  destruct Hlay as (H1 & Hc & _).
  pose proof (chain_In _ _ _ _ _ _ Hc Hs). lia.
Qed.

(** ** allocate *)

Lemma adjust_small (n : Z) :
  0 < n -> n + 31 < 2 ^ 64 ->
  adjust n = (if n <=? 16 then 32 else 16 * ((n + 31) / 16))
  /\ 32 <= adjust n /\ adjust n mod 16 = 0
  /\ n + 16 <= adjust n /\ adjust n < 2 ^ 64.
Proof.
  intros H1 H2. unfold adjust, DSIZE.
  change (wrap (2 * 16)) with 32. change (wrap (16 - 1)) with 15.
  rewrite (wrap_small (n + 16)), (wrap_small (n + 16 + 15)) by lia.
  replace (n + 16 + 15) with (n + 31) by lia.
  pose proof (Z.div_mod (n + 31) 16 ltac:(lia)) as D.
  pose proof (Z.mod_pos_bound (n + 31) 16 ltac:(lia)) as B.
  rewrite (wrap_small (16 * ((n + 31) / 16))) by lia.
  destruct (Z.leb_spec n 16) as [Hle|Hgt].
  - repeat split; try lia.
  - repeat split; try lia.
    rewrite Z.mul_comm. apply Z.mod_mul. lia.
Qed.

Lemma place_any (st : state) (l1 l2 : list block) (bp cs : Z) (fl : table)
      (asize : Z) :
  heap_inv st (l1 ++ (bp, cs, false) :: l2) fl ->
  32 <= asize <= cs -> asize mod 16 = 0 ->
  exists bl' fl' sp,
    heap_inv (place st bp asize) bl' fl'
    /\ asize <= sp
    /\ same_bounds st (place st bp asize)
    /\ (forall b sb, In (b, sb, true) bl'
                     <-> In (b, sb, true) (l1 ++ l2) \/ (b = bp /\ sb = sp)).
Proof.
  intros Hinv Hsz Hmod.
  destruct (Z_lt_le_dec (cs - asize) 32) as [Hw|Hs].
  - destruct (place_whole st l1 l2 bp cs fl asize Hinv Hsz Hw)
      as (_ & I1 & I2).
    exists (l1 ++ (bp, cs, true) :: l2), (rm fl bp), cs.
    split; [exact I1|]. split; [lia|]. split; [exact I2|].
    intros b sb. rewrite !in_app_iff. cbn [In]. split.
    + intros [H|[H|H]]; try tauto. injection H as -> ->. tauto.
    + intros [[H|H]|[-> ->]]; tauto.
  - destruct (place_split st l1 l2 bp cs fl asize Hinv Hsz Hmod Hs)
      as (_ & I1 & I2).
    eexists _, _, asize.
    split; [exact I1|]. split; [lia|]. split; [exact I2|].
    intros b sb. rewrite !in_app_iff. cbn [In]. split.
    + intros [H|[H|[H|H]]]; try tauto; try discriminate.
      injection H as -> ->. tauto.
    + intros [[H|H]|[-> ->]]; tauto.
Qed.

Lemma malloc_spec (st : state) (bl : list block) (fl : table) (n : Z)
        (fuel : nat) :
  heap_inv st bl fl -> 0 < n -> n + 31 < 2 ^ 64 -> enough fuel fl ->
  exists st' p,
    malloc fuel st n = Some (st', p) /\ malloc_post st bl n st' p.
Proof.
  intros Hinv Hn Hov Hen.
  destruct (adjust_small n Hn Hov) as (_ & A1 & A2 & A3 & A4).
  pose proof Hinv as (Hlay & Hl & Hlk & Hnaf).
  destruct (find_fit_spec st fl (adjust n) fuel Hl
              (fun x => heap_inv_nonnull st bl fl x Hinv) Hen) as [Ef Hfit].
  cbv zeta in Ef, Hfit.
  set (r := first_fit st (adjust n)
              (scan_order (Z.to_nat (11 - iterate (adjust n)))
                          (iterate (adjust n)) fl)) in *.
  unfold malloc. destruct (Z.eqb_spec n 0) as [|_]; [lia|].
  rewrite Ef.
  destruct (Z.eqb_spec r NULL) as [Er|Hr]; cbn [negb].
  - (* no fit: grow the heap *)
    change CHUNKSIZE with 32. unfold MAX, WSIZE.
    replace (if adjust n >? 32 then adjust n else 32) with (adjust n)
      by (destruct (Z.gtb_spec (adjust n) 32); lia).
    set (words := adjust n / 8).
    assert (Hw : words * 8 = adjust n).
    { pose proof (Z.div_mod (adjust n) 16 ltac:(lia)) as D. rewrite A2 in D.
      unfold words. rewrite D at 1.
      replace (16 * (adjust n / 16) + 0) with ((adjust n / 16 * 2) * 8) by lia.
      rewrite Z.div_mul by lia. lia. }
    assert (Hw2 : words mod 2 = 0).
    { pose proof (Z.div_mod (adjust n) 16 ltac:(lia)) as D. rewrite A2 in D.
      assert (words = (adjust n / 16) * 2) by lia.
      rewrite H. apply Z.mod_mul. lia. }
    destruct (extend_heap_spec st bl fl words Hinv ltac:(lia) Hw2 ltac:(lia))
      as [Hfail Hok].
    destruct (Z_gt_le_dec (mem_brk st + words * 8) (mem_max_addr st)) as [Hg|Hle].
    + rewrite (Hfail Hg). change (NULL =? NULL) with true. cbv iota.
      exists st, NULL. split; [reflexivity|]. left. tauto.
    + destruct (Hok Hle) as (la & lb & s' & fl1 & I1 & I2 & I3 & I4 & I5 & I6 & I7).
      destruct (extend_heap st words) as [st1 bp] eqn:E. cbn [fst snd] in *.
      destruct (Z.eqb_spec bp NULL) as [|_]; [contradiction|].
      destruct (place_any st1 la lb bp s' fl1 (adjust n) I1 ltac:(lia) A2)
        as (bl' & fl' & sp & P1 & P2 & P3 & P4).
      exists (place st1 bp (adjust n)), bp. split; [reflexivity|].
      right. split; [exact I3|]. exists bl', fl', sp.
      split; [exact P1|]. split; [exact P2|]. split.
      * destruct P3 as (X & _). rewrite X. exact I6.
      * intros b sb. rewrite P4, I7. tauto.
  - (* a fit was found *)
    destruct (Hfit Hr) as [Hreg Hsz].
    destruct Hlk as (_ & _ & K & _). apply K in Hreg.
    destruct Hreg as (cs & Hcs).
    destruct (in_split _ _ Hcs) as (l1 & l2 & El).
    rewrite El in Hinv.
    destruct (heap_inv_parts _ _ _ _ _ _ _ Hinv)
      as (Ho & B1 & S1 & S2 & T1 & T2 & B2 & Hch & C1 & C2 & C3 & C4 & _).
    rewrite (HDRP_eq r) in Hsz by lia.
    rewrite (GET_SIZE_tag _ _ _ _ T1 S2) in Hsz.
    destruct (place_any st l1 l2 r cs fl (adjust n) Hinv ltac:(lia) A2)
      as (bl' & fl' & sp & P1 & P2 & P3 & P4).
    exists (place st r (adjust n)), r. split; [reflexivity|].
    right. split; [exact Hr|]. exists bl', fl', sp.
    split; [exact P1|]. split; [exact P2|]. split; [apply P3|].
    intros b sb. rewrite P4, El, !in_app_iff. cbn [In].
    split; [tauto|]. intros [[H|[H|H]]|H]; try tauto. discriminate.
Qed.

(** ** When allocate returns null *)

Lemma adjust_multiple (n : Z) : 0 <= adjust n < 2 ^ 64 /\ adjust n mod 16 = 0.
Proof.
  unfold adjust, DSIZE. change (wrap (2 * 16)) with 32.
  destruct (n <=? 16); [split; [lia|reflexivity]|].
  split; [apply wrap_range|].
  unfold wrap at 1.
  rewrite Z.mod_mod_divide by (exists (2 ^ 60); reflexivity).
  rewrite Z.mul_comm. apply Z.mod_mul. lia.
Qed.

Lemma grow_words (n : Z) :
  let words := grow_size n / WSIZE in
  4 <= words /\ words mod 2 = 0 /\ words * 8 = grow_size n
  /\ words * 8 < 2 ^ 64.
Proof.
  destruct (adjust_multiple n) as [R M].
  unfold grow_size, MAX, WSIZE. change CHUNKSIZE with 32.
  assert (H : exists g, (if adjust n >? 32 then adjust n else 32) = g
                        /\ 32 <= g < 2 ^ 64 /\ g mod 16 = 0).
  { destruct (Z.gtb_spec (adjust n) 32).
    - exists (adjust n). repeat split; lia || exact M.
    - exists 32. repeat split; try lia. }
  destruct H as (g & -> & G1 & G2). cbv zeta.
  pose proof (Z.div_mod g 16 ltac:(lia)) as D. rewrite G2 in D.
  assert (E : g / 8 = (g / 16) * 2).
  { rewrite D at 1.
    replace (16 * (g / 16) + 0) with ((g / 16 * 2) * 8) by lia.
    apply Z.div_mul. lia. }
  rewrite E. repeat split; try lia. apply Z.mod_mul. lia.
Qed.

Lemma heap_inv_bounds (st : state) (bl : list block) (fl : table) :
  heap_inv st bl fl ->
  16 <= heap_listp st <= mem_brk st /\ mem_brk st <= mem_max_addr st < 2 ^ 64.
Proof.
  intros ((H1 & H2 & H3 & _) & _). pose proof (chain_le _ _ _ H2). lia.
Qed.

Lemma malloc_total (fuel : nat) (st : state) (bl : list block) (fl : table)
      (n : Z) :
  heap_inv st bl fl -> enough fuel fl ->
  exists st' p, malloc fuel st n = Some (st', p).
Proof.
  intros Hinv Hen. pose proof Hinv as (_ & Hl & _).
  destruct (find_fit_spec st fl (adjust n) fuel Hl
              (fun x => heap_inv_nonnull st bl fl x Hinv) Hen) as [Ef _].
  cbv zeta in Ef. unfold malloc.
  destruct (n =? 0); [eexists _, _; reflexivity|].
  rewrite Ef.
  destruct (negb (_ =? NULL)); [eexists _, _; reflexivity|].
  destruct (extend_heap st _) as [st1 bp].
  destruct (bp =? NULL); eexists _, _; reflexivity.
Qed.

Lemma malloc_null_cases (fuel : nat) (st st' : state) (bl : list block)
      (fl : table) (n p : Z) :
  heap_inv st bl fl -> malloc fuel st n = Some (st', p) ->
  (p = NULL <->
   n = 0 \/ (find_fit fuel st (adjust n) = Some NULL
             /\ snd (mem_sbrk st (grow_size n)) = wrap (-1)))
  /\ (p = NULL -> st' = st).
Proof.
  intros Hinv. unfold malloc.
  destruct (Z.eqb_spec n 0) as [->|Hn].
  - intros E. injection E as <- <-. tauto.
  - destruct (find_fit fuel st (adjust n)) as [r|] eqn:Ef; [|discriminate].
    destruct (Z.eqb_spec r NULL) as [->|Hr]; cbn [negb].
    + fold (grow_size n).
      destruct (grow_words n) as (W1 & W2 & W3 & W4). cbv zeta in W1, W2, W3, W4.
      destruct (heap_inv_bounds _ _ _ Hinv) as [B1 B2].
      destruct (extend_heap_spec st bl fl _ Hinv W1 W2 W4) as [Hfail Hok].
      unfold mem_sbrk.
      replace (mem_brk st + grow_size n)
        with (mem_brk st + grow_size n / WSIZE * 8) by lia.
      destruct (Z.gtb_spec (mem_brk st + grow_size n / WSIZE * 8) (mem_max_addr st))
        as [Hg|Hle].
      * rewrite (Hfail ltac:(lia)). change (NULL =? NULL) with true. cbv iota.
        intros E. injection E as <- <-. cbn [snd]. tauto.
      * destruct (Hok Hle) as (la & lb & s' & fl1 & _ & _ & I3 & _).
        destruct (extend_heap st (grow_size n / WSIZE)) as [st1 bp].
        cbn [snd] in *. destruct (Z.eqb_spec bp NULL) as [|_]; [contradiction|].
        intros E. injection E as <- <-.
        change (wrap (-1)) with (2 ^ 64 - 1).
        split; [|contradiction]. split; [contradiction|].
        intros [H|[_ H]]; [contradiction|lia].
    + intros E. injection E as <- <-.
      split; [|contradiction]. split; [contradiction|].
      intros [H|[H _]]; [contradiction|]. injection H as H. contradiction.
Qed.

(** ** Initialisation *)

Lemma clear_seg_seg (k : nat) :
  forall i st j,
    seg (clear_seg k i st) j
    = if (i <=? j) && (j <? i + Z.of_nat k) then 0 else seg st j.
Proof.
  induction k as [|k IH]; intros i st j; cbn [clear_seg].
  - destruct (Z.leb_spec i j), (Z.ltb_spec j (i + Z.of_nat 0));
      cbn [andb]; try reflexivity; lia.
  - rewrite IH. cbn [set_seg seg].
    destruct (Z.leb_spec (i + 1) j), (Z.ltb_spec j (i + 1 + Z.of_nat k)),
      (Z.leb_spec i j), (Z.ltb_spec j (i + Z.of_nat (S k))),
      (Z.eqb_spec j i); cbn [andb]; try reflexivity; lia.
Qed.

Lemma clear_seg_fields (k : nat) :
  forall i st,
    mem (clear_seg k i st) = mem st
    /\ mem_brk (clear_seg k i st) = mem_brk st
    /\ mem_max_addr (clear_seg k i st) = mem_max_addr st.
Proof.
  induction k as [|k IH]; intros i st; cbn [clear_seg].
  - repeat split.
  - destruct (IH (i + 1) (set_seg st i 0)) as (A & B & C).
    rewrite A, B, C. repeat split.
Qed.

Lemma mm_init_eval (st : state) :
  0 <= mem_brk st -> mem_brk st + 272 <= mem_max_addr st ->
  mem_max_addr st < 2 ^ 64 ->
  mm_init st
  = (fst (coalesce (grown (init_frame st) 256) (mem_brk st + 16)),
     negb (snd (coalesce (grown (init_frame st) 256) (mem_brk st + 16)) =? NULL)).
Proof.
  intros H0 H1 H2. unfold mm_init, mem_sbrk.
  destruct (clear_seg_fields 11 0 st) as (_ & B & C).
  rewrite B, C. unfold WSIZE.
  change (wrap (2 * 8)) with 16. change (wrap (1 * 8)) with 8.
  change (wrap (3 * 8)) with 24.
  destruct (Z.gtb_spec (mem_brk st + 16) (mem_max_addr st)) as [|_]; [lia|].
  cbn [heap_listp set_heap_listp PUT set_mem].
  change (wrap (-1)) with (2 ^ 64 - 1).
  destruct (Z.eqb_spec (mem_brk st) (2 ^ 64 - 1)) as [|_]; [lia|].
  rewrite (wrap_small (mem_brk st + 8)), (wrap_small (mem_brk st + 16)),
    (wrap_small (mem_brk st + 24)) by lia.
  change CHUNKSIZE with 32.
  match goal with
  | |- (let '(_, _) := extend_heap ?s 32 in _) = _ =>
      change s with (init_frame st);
      rewrite (extend_heap_eval (init_frame st) 32)
  end; try lia; try reflexivity.
  - unfold init_frame at 1 2. cbn [mem_brk mem_max_addr set_free_list set_heap_listp PUT set_mem set_brk].
    rewrite C.
    destruct (Z.gtb_spec (mem_brk st + 16 + 32 * 8) (mem_max_addr st)) as [|_]; [lia|].
    change (32 * 8) with 256.
    replace (mem_brk (init_frame st)) with (mem_brk st + 16) by reflexivity.
    destruct (coalesce (grown (init_frame st) 256) (mem_brk st + 16)) as [s r].
    cbn [fst snd]. destruct (r =? NULL); reflexivity.
  - unfold init_frame. cbn [mem_brk set_free_list set_heap_listp PUT set_mem set_brk]. lia.
  - unfold init_frame. cbn [mem_max_addr set_free_list set_heap_listp PUT set_mem set_brk].
    rewrite C. lia.
Qed.

Lemma mm_init_spec (st : state) :
  0 <= mem_brk st -> mem_brk st + 272 <= mem_max_addr st ->
  mem_max_addr st < 2 ^ 64 ->
  snd (mm_init st) = true
  /\ heap_inv (fst (mm_init st)) [(mem_brk st + 16, 256, false)]
              (push empty_table (iterate 256) (mem_brk st + 16)).
Proof.
  intros H0 H1 H2. rewrite (mm_init_eval st H0 H1 H2). cbn [fst snd].
  set (H := mem_brk st) in *.
  set (g := grown (init_frame st) 256).
  destruct (clear_seg_fields 11 0 st) as (A & B & C).
  assert (Gh : heap_listp g = H + 16) by reflexivity.
  assert (Gb : mem_brk g = H + 272).
  { unfold g, grown, init_frame. cbn [mem_brk set_free_list set_heap_listp PUT set_mem set_brk].
    fold H. lia. }
  assert (Gm : mem_max_addr g = mem_max_addr st).
  { unfold g, grown, init_frame. cbn [mem_max_addr set_free_list set_heap_listp PUT set_mem set_brk].
    exact C. }
  assert (Gbrk : mem_brk (init_frame st) = H + 16) by reflexivity.
  assert (W1 : GET g (H + 8) = tag 256 false).
  { unfold g, grown. rewrite Gbrk.
    replace (H + 16 - 8) with (H + 8) by lia.
    repeat (rewrite GET_PUT_far by (unfold apart; lia)).
    apply tag_PUT_read; [lia|lia|reflexivity]. }
  assert (W2 : GET g (H + 256) = tag 256 false).
  { unfold g, grown. rewrite Gbrk.
    replace (H + 16 + 256 - 16) with (H + 256) by lia.
    repeat (rewrite GET_PUT_far by (unfold apart; lia)).
    apply tag_PUT_read; [lia|lia|reflexivity]. }
  assert (W3 : GET g (H + 264) = tag 0 true).
  { unfold g, grown. rewrite Gbrk.
    replace (H + 16 + 256 - 8) with (H + 264) by lia.
    apply tag_PUT_read; [lia|lia|reflexivity]. }
  assert (W4 : GET g H = 0).
  { unfold g, grown. rewrite Gbrk.
    repeat (rewrite GET_PUT_far by (unfold apart; lia)).
    unfold init_frame. fold H.
    change (GET (set_brk (set_free_list (set_heap_listp ?s _) _) _) ?q)
      with (GET s q).
    repeat (rewrite GET_PUT_far by (unfold apart; lia)).
    apply GET_PUT_same. }
  assert (Hlay : layout g ([] ++ (H + 16, 256, false) :: [])).
  { apply layout_blocks. split.
    - unfold outer. rewrite Gh, Gb, Gm.
      replace (H + 272 - 8) with (H + 264) by lia.
      replace (H + 16 - 16) with H by lia.
      repeat split; try lia; try assumption.
      unfold GET_SIZE. rewrite W4. reflexivity.
    - rewrite Gh, Gb. cbn [app]. apply blocks_cons.
      replace (H + 16 - 8) with (H + 8) by lia.
      replace (H + 16 + 256 - 16) with (H + 256) by lia.
      repeat split; try lia; try assumption. constructor. }
  assert (Hl : lists g empty_table).
  { intros i Hi. unfold empty_table. cbn [lseg].
    change (seg g i) with (seg (clear_seg 11 0 st) i).
    rewrite clear_seg_seg.
    destruct (Z.leb_spec 0 i), (Z.ltb_spec i (0 + Z.of_nat 11));
      cbn [andb]; try reflexivity; lia. }
  assert (Hlk : linked (is_free ([] ++ (H + 16, 256, true) :: [])) empty_table).
  { unfold empty_table. split; [|split; [|split]].
    - intros i _. constructor.
    - intros i j b _ _ [].
    - intros b. split.
      + intros (i & _ & []).
      + intros (s & [E|[]]). discriminate.
    - intros i b s _ []. }
  assert (Hn : naf false ([] ++ (H + 16, 256, true) :: [])).
  { cbn [app naf]. tauto. }
  destruct (coalesce_none_eq g [] [] (H + 16) 256 empty_table Hlay Hl Hlk Hn
              eq_refl eq_refl) as (E & I1 & I2 & I3).
  rewrite E. cbn [fst snd]. split.
  - destruct (Z.eqb_spec (H + 16) NULL) as [Ez|_]; [unfold NULL in Ez; lia|].
    reflexivity.
  - exact I1.
Qed.

(** ** The heap walk *)

Lemma walk_blocks (st : state) (hi : Z) :
  hi < 2 ^ 64 -> GET st (hi - 8) = tag 0 true ->
  forall l fuel lo,
    blocks st lo l hi -> 8 <= lo -> (length l < fuel)%nat ->
    walk fuel st lo = map enc l.
Proof.
  intros Hhi He. induction l as [|[[b s] a] l IH]; intros fuel lo Hb Hlo Hf.
  - apply blocks_nil in Hb. subst hi.
    destruct fuel as [|f]; [cbn in Hf; lia|]. cbn [walk map].
    rewrite HDRP_eq by lia.
    rewrite (GET_SIZE_tag _ _ _ _ He eq_refl). reflexivity.
  - apply blocks_cons in Hb. destruct Hb as (-> & S1 & S2 & T1 & T2 & Hb).
    pose proof (blocks_le _ _ _ _ Hb).
    destruct fuel as [|f]; [cbn in Hf; lia|]. cbn [walk map enc].
    rewrite HDRP_eq by lia.
    destruct (words_size _ _ _ _ T1 S2) as [Z1 Z2]. rewrite Z1, Z2.
    destruct (Z.eqb_spec s 0) as [|_]; [lia|].
    rewrite (NEXT_BLKP_eq st lo s) by (assumption || lia).
    rewrite (IH f (lo + s) Hb) by (cbn [length] in Hf; lia).
    reflexivity.
Qed.

Lemma naf_adj (l : list block) :
  forall pf, naf pf l -> adj pf (map enc l) = false.
Proof.
  induction l as [|[[b s] a] l IH]; intros pf; cbn [naf map enc adj].
  - reflexivity.
  - intros [H1 H2]. destruct a; cbn [negb] in *.
    + change (1 =? 0) with false. rewrite andb_false_r. cbn [orb].
      apply IH, H2.
    + change (0 =? 0) with true. destruct pf.
      * specialize (H1 eq_refl). discriminate.
      * cbn [andb orb]. apply IH, H2.
Qed.

Lemma heap_inv_walk (st : state) (bl : list block) (fl : table) (fuel : nat) :
  heap_inv st bl fl -> (length bl < fuel)%nat ->
  walk fuel st (heap_listp st) = map enc bl
  /\ adjacent_free (map enc bl) = false.
Proof.
  intros (Hlay & _ & _ & Hn) Hf.
  apply layout_blocks in Hlay. destruct Hlay as [(O1 & O2 & O3 & O4 & O5) Hb].
  split.
  - apply (walk_blocks st (mem_brk st)); try assumption; lia.
  - apply naf_adj, Hn.
Qed.

Lemma heap_inv_no_adjacent (st : state) (bl : list block) (fl : table) :
  heap_inv st bl fl -> no_adjacent_free st.
Proof.
  intros Hinv. exists (S (length bl)). intros fuel Hf.
  destruct (heap_inv_walk st bl fl fuel Hinv ltac:(lia)) as [-> H]. exact H.
Qed.

(** ** Which branch of [delete] runs *)

Lemma delete_scan_splice (st : state) (bp : Z) (k : nat) :
  forall i, (forall j, i <= j < i + Z.of_nat k -> seg st j <> bp) ->
    delete_scan k i st bp = delete_splice st bp.
Proof.
  induction k as [|k IH]; intros i Hn; cbn [delete_scan]; [reflexivity|].
  destruct (Z.eqb_spec bp (seg st i)) as [E|_].
  - exfalso. apply (Hn i); [lia|congruence].
  - apply IH. intros j Hj. apply Hn. lia.
Qed.

Lemma delete_scan_head (st : state) (bp i : Z) (k : nat) :
  forall i0, i0 <= i < i0 + Z.of_nat k ->
    (forall j, i0 <= j < i -> seg st j <> bp) -> seg st i = bp ->
    delete_scan k i0 st bp
    = if (PREVF st bp =? 0) && negb (NEXTF st bp =? 0) then
        let st1 := PUT st (NEXTF st bp) 0 in set_seg st1 i (NEXTF st1 bp)
      else set_seg st i 0.
Proof.
  induction k as [|k IH]; intros i0 Hi Hn Hs; [lia|]. cbn [delete_scan].
  destruct (Z.eqb_spec bp (seg st i0)) as [E|N].
  - destruct (Z.eq_dec i0 i) as [->|Hne]; [reflexivity|].
    exfalso. apply (Hn i0); [lia|congruence].
  - destruct (Z.eq_dec i0 i) as [->|Hne]; [congruence|].
    apply IH; [lia| |exact Hs]. intros j Hj. apply Hn. lia.
Qed.

Lemma heap_inv_table (st : state) (bl : list block) (fl : table) :
  heap_inv st bl fl ->
  lists st fl /\ spaced (registered fl)
  /\ (forall i, 0 <= i < 11 -> NoDup (fl i))
  /\ (forall i j b, 0 <= i < 11 -> 0 <= j < 11 ->
                    In b (fl i) -> In b (fl j) -> i = j).
Proof.
  intros Hinv. pose proof Hinv as (Hlay & Hl & Hlk & _).
  destruct (heap_inv_bounds _ _ _ Hinv) as [B1 B2].
  split; [exact Hl|]. split; [|split; [apply Hlk|apply Hlk]].
  destruct Hlay as (_ & Hc & _).
  eapply spaced_mono; [|eapply addr_spaced; [exact Hc|lia|lia]].
  intros x Hx. destruct Hlk as (_ & _ & K & _). apply K in Hx.
  destruct Hx as (s & Hs). exists s, false. exact Hs.
Qed.

Lemma head_unique (st : state) (bl : list block) (fl : table) (bp i j : Z) :
  heap_inv st bl fl -> registered fl bp ->
  0 <= i < 11 -> 0 <= j < 11 -> seg st i = bp -> seg st j = bp -> i = j.
Proof.
  intros Hinv Hr Hi Hj Ei Ej.
  destruct (heap_inv_table _ _ _ Hinv) as (Hl & Hsp & _ & Hdj).
  pose proof (heap_inv_nonnull _ _ _ _ Hinv Hr) as Hnz.
  assert (Hh : forall k, 0 <= k < 11 -> seg st k = bp -> In bp (fl k)).
  { intros k Hk Ek. pose proof (Hl k Hk) as Hlk. rewrite Ek in Hlk.
    destruct (fl k) as [|x r]; cbn [lseg] in Hlk; [contradiction|].
    destruct Hlk as (-> & _). left. reflexivity. }
  apply (Hdj i j bp); auto.
Qed.

(** ** Main results on the invariant, the table, placement and the fit search *)

Lemma lseg_list_of (st : state) :
  forall (l : list Z) (hd prev : Z) (fuel : nat),
    lseg st hd prev l 0 -> (forall x, In x l -> x <> 0) ->
    (length l < fuel)%nat -> list_of fuel st hd = l.
Proof.
  induction l as [|x l IH]; intros hd prev fuel Hl Hnz Hf;
    (destruct fuel as [|f]; [cbn [length] in Hf; lia|]); cbn [list_of].
  - cbn [lseg] in Hl. subst hd. reflexivity.
  - destruct Hl as (-> & _ & Hl).
    destruct (Z.eqb_spec x 0) as [E|_]; [exfalso; apply (Hnz x); [left; reflexivity|exact E]|].
    f_equal. apply (IH _ x); [exact Hl| |cbn [length] in Hf; lia].
    intros y Hy. apply Hnz. right. exact Hy.
Qed.

Lemma lists_list_of (st : state) (fl : table) (fuel : nat) (i : Z) :
  lists st fl -> (forall x, registered fl x -> x <> 0) ->
  0 <= i < 11 -> (length (fl i) < fuel)%nat ->
  list_of fuel st (seg st i) = fl i.
Proof.
  intros Hl Hnz Hi Hen. apply (lseg_list_of st (fl i) _ 0).
  - apply Hl, Hi.
  - intros x Hx. apply Hnz. exists i. tauto.
  - exact Hen.
Qed.

Lemma scan_order_lists_from (st : state) (fl : table) (fuel : nat) :
  lists st fl -> (forall x, registered fl x -> x <> 0) -> enough fuel fl ->
  forall k i, 0 <= i -> i + Z.of_nat k <= 11 ->
    lists_from fuel st k i = scan_order k i fl.
Proof.
  intros Hl Hnz Hen. induction k as [|k IH]; intros i H0 H1.
  - reflexivity.
  - cbn [lists_from scan_order].
    rewrite (lists_list_of st fl fuel i Hl Hnz) by (lia || (apply Hen; lia)).
    rewrite IH by lia. reflexivity.
Qed.

Lemma linked_once (R : Z -> Z -> Prop) (fl : table) (b : Z) :
  linked R fl -> registered fl b ->
  exists i, 0 <= i < 11
    /\ count_occ Z.eq_dec (fl i) b = 1%nat
    /\ forall j, 0 <= j < 11 -> j <> i -> count_occ Z.eq_dec (fl j) b = 0%nat.
Proof.
  intros (K1 & K2 & _) (i & Hi & Hin). exists i. split; [exact Hi|]. split.
  - pose proof (proj1 (NoDup_count_occ Z.eq_dec (fl i)) (K1 i Hi) b) as Hle.
    pose proof (proj1 (count_occ_In Z.eq_dec (fl i) b) Hin) as Hge. lia.
  - intros j Hj Hne. apply count_occ_not_In. intros Hin'.
    apply Hne. apply (K2 j i b); assumption.
Qed.

Lemma booted_inv :
  heap_inv booted [(4112, 256, false)] (push empty_table 4 4112).
Proof.
  exact (proj2 (mm_init_spec (fresh 4096 65536) ltac:(cbn; lia) ltac:(cbn; lia)
                             ltac:(cbn; lia))).
Qed.

Lemma booted_ok : heap_ok booted.
Proof. exists [(4112, 256, false)], (push empty_table 4 4112). exact booted_inv. Qed.

Lemma booted_enough : enough 10 (push empty_table 4 4112).
Proof.
  intros i _. unfold push, empty_table.
  destruct (i =? 4); cbn [length]; lia.
Qed.

Lemma booted_registered : registered (push empty_table 4 4112) 4112.
Proof. exists 4. split; [lia|]. left. reflexivity. Qed.

Lemma one_block_allocated : allocated one_block 4112.
Proof.
  destruct (malloc_spec booted _ _ 16 10 booted_inv ltac:(lia) ltac:(lia)
              booted_enough) as (st' & p & E & Hpost).
  assert (Ep : option_map snd (malloc 10 booted 16) = Some 4112)
    by (vm_compute; reflexivity).
  rewrite E in Ep. cbn [option_map snd] in Ep. injection Ep as ->.
  unfold one_block. rewrite E. cbn [after].
  destruct Hpost as [[Hn _]|(_ & bl' & fl' & sp & I1 & _ & _ & I4)];
    [unfold NULL in Hn; lia|].
  exists bl', fl', sp. split; [exact I1|]. apply I4. right.
  split; reflexivity.
Qed.

Lemma free_freed (st : state) (p : Z) :
  free st p = fst (coalesce (freed st p) p).
Proof. reflexivity. Qed.

Lemma freed_pending (st : state) (p : Z) :
  allocated st p -> pending (freed st p) p.
Proof.
  intros (bl & fl & s & Hinv & Hin).
  destruct (in_split _ _ Hin) as (l1 & l2 & ->).
  destruct (heap_inv_parts _ _ _ _ _ _ _ Hinv)
    as (Ho & B1 & S1 & S2 & T1 & T2 & B2 & Hch & A1 & A2 & A3 & A4 & Hreg).
  destruct Hinv as (Hlay & Hl & Hlk & Hn).
  destruct (words_size _ _ _ _ T1 S2) as [Z1 _].
  assert (E : freed st p
              = PUT (PUT st (p - 8) (tag s false)) (p + s - 16) (tag s false)).
  { unfold freed. rewrite (HDRP_eq p), Z1 by lia.
    change (PACK s 0) with (tag s false).
    rewrite (FTRP_eq _ p s); [reflexivity|lia| |lia|lia].
    eapply GET_SIZE_tag; [apply tag_PUT_read; lia|exact S2]. }
  rewrite E.
  destruct (retag st l1 l2 p s false Ho B1 B2 S1 S2) as (R1 & R2 & R3 & R4).
  exists l1, l2, s, fl. split; [|split; [|split; [exact Hlk|exact Hn]]].
  - apply layout_blocks. split; [exact R1|].
    apply blocks_app. exists p. split; [exact R2|].
    change ((p, s, false) :: l2) with ([(p, s, false)] ++ l2).
    apply blocks_app. exists (p + s). tauto.
  - apply (lists_PUT _ _ _ _ _ _ _ (lists_PUT _ _ _ _ _ _ _ Hl Hch A1 A4 Hreg
             (inner_clear _ _ _ Hch A1 A4 p s true _ Hin (or_introl eq_refl)))
             Hch A1 A4 Hreg).
    apply (inner_clear _ _ _ Hch A1 A4 p s true _ Hin). right. lia.
Qed.

Lemma grown_pending (st : state) (words : Z) :
  heap_ok st -> 4 <= words -> words mod 2 = 0 ->
  mem_brk st + words * 8 <= mem_max_addr st ->
  extend_heap st words = coalesce (grown st (words * 8)) (mem_brk st)
  /\ pending (grown st (words * 8)) (mem_brk st).
Proof.
  intros (bl & fl & Hinv) H1 H2 H3.
  destruct (heap_inv_bounds _ _ _ Hinv) as [B1 B2].
  split.
  - rewrite (extend_heap_eval st words) by lia.
    destruct (Z.gtb_spec (mem_brk st + words * 8) (mem_max_addr st));
      [lia|reflexivity].
  - assert (Zm : (words * 8) mod 16 = 0).
    { pose proof (Z.div_mod words 2 ltac:(lia)) as D. rewrite H2 in D.
      replace (words * 8) with ((words / 2) * 16) by lia.
      apply Z.mod_mul. lia. }
    destruct (grown_parts st bl fl (words * 8) Hinv ltac:(lia) Zm H3)
      as (P1 & P2 & P3 & P4).
    exists bl, [], (words * 8), fl. tauto.
Qed.

Lemma coalesce_pending (st : state) (bp : Z) :
  pending st bp ->
  exists bl fl,
    heap_inv (fst (coalesce st bp)) bl fl
    /\ registered fl (snd (coalesce st bp))
    /\ (exists s, In (snd (coalesce st bp), s, false) bl)
    /\ snd (coalesce st bp) <= bp.
Proof.
  intros (l1 & l2 & s & fl & P1 & P2 & P3 & P4).
  destruct (coalesce_spec st l1 l2 bp s fl P1 P2 P3 P4)
    as (la & lb & s' & fl' & I1 & I2 & I3 & I4 & I5 & I6 & I7).
  exists (la ++ (snd (coalesce st bp), s', false) :: lb), fl'.
  split; [exact I1|]. split; [exact I3|]. split; [|exact I5].
  exists s'. rewrite in_app_iff. right. left. reflexivity.
Qed.

Lemma heap_inv_once (st : state) (bl : list block) (fl : table) (b : Z) :
  heap_inv st bl fl -> registered fl b -> registered_once st b.
Proof.
  intros Hinv Hr. pose proof Hinv as (_ & Hl & Hlk & _).
  destruct (linked_once _ fl b Hlk Hr) as (i & Hi & H1 & H2).
  exists (S (length bl)). intros fuel Hf.
  assert (Hen : enough fuel fl).
  { intros j Hj. pose proof (heap_inv_enough st bl fl Hinv j Hj). lia. }
  assert (Hw : forall j, 0 <= j < 11 -> list_of fuel st (seg st j) = fl j).
  { intros j Hj. apply lists_list_of; try assumption; [|apply Hen, Hj].
    intros x Hx. apply (heap_inv_nonnull st bl fl x Hinv Hx). }
  exists i. split; [exact Hi|]. split.
  - rewrite Hw by exact Hi. exact H1.
  - intros j Hj Hne. rewrite Hw by exact Hj. apply H2; assumption.
Qed.

(** C3, amended: the heap invariant, and with it the absence of two
    adjacent free blocks in the heap walk, is kept by [free] of an
    allocated block and by [malloc] of a byte count [n] with
    [n + 31 < 2^64] (which returns, given enough fuel for the fit
    search); a request that wraps is outside the statement.  A freshly freed block and a
    freshly extended block are pending blocks, and [coalesce] of a
    pending block leaves a valid heap in which the block it returns is
    free, starts at or before the pending one, and sits in the lists
    exactly once. *)
Theorem no_adjacent_free_kept :
  (forall (st : state) (p : Z), allocated st p ->
     heap_ok (free st p) /\ no_adjacent_free (free st p))
  /\ (forall (st : state) (n : Z),
        heap_ok st -> 0 <= n -> n + 31 < 2 ^ 64 ->
        exists fuel0, forall fuel, (fuel0 <= fuel)%nat ->
          exists st' p, malloc fuel st n = Some (st', p)
                        /\ heap_ok st' /\ no_adjacent_free st')
  /\ (forall (st : state) (p : Z), allocated st p ->
        free st p = fst (coalesce (freed st p) p) /\ pending (freed st p) p)
  /\ (forall (st : state) (words : Z),
        heap_ok st -> 4 <= words -> words mod 2 = 0 ->
        mem_brk st + words * 8 <= mem_max_addr st ->
        extend_heap st words = coalesce (grown st (words * 8)) (mem_brk st)
        /\ pending (grown st (words * 8)) (mem_brk st))
  /\ (forall (st : state) (bp : Z), pending st bp ->
        heap_ok (fst (coalesce st bp))
        /\ no_adjacent_free (fst (coalesce st bp))
        /\ registered_once (fst (coalesce st bp)) (snd (coalesce st bp))
        /\ snd (coalesce st bp) <= bp).
Proof.
  split; [|split; [|split; [|split]]].
  - intros st p (bl & fl & s & Hinv & Hin).
    destruct (free_spec st bl fl p s Hinv Hin) as (bl' & fl' & I & _).
    split; [exists bl', fl'; exact I|].
    apply (heap_inv_no_adjacent _ bl' fl' I).
  - intros st n (bl & fl & Hinv) Hn Hov.
    exists (S (length bl)). intros fuel Hf.
    assert (Hen : enough fuel fl).
    { intros i Hi. pose proof (heap_inv_enough st bl fl Hinv i Hi). lia. }
    destruct (Z.eq_dec n 0) as [->|Hnz].
    + exists st, NULL. split; [reflexivity|].
      split; [exists bl, fl; exact Hinv|].
      apply (heap_inv_no_adjacent _ bl fl Hinv).
    + destruct (malloc_spec st bl fl n fuel Hinv ltac:(lia) Hov Hen)
        as (st' & p & E & Hpost).
      exists st', p. split; [exact E|].
      destruct Hpost as [[_ ->]|(_ & bl' & fl' & sp & I & _)].
      * split; [exists bl, fl; exact Hinv|].
        apply (heap_inv_no_adjacent _ bl fl Hinv).
      * split; [exists bl', fl'; exact I|].
        apply (heap_inv_no_adjacent _ bl' fl' I).
  - intros st p Ha. split; [apply free_freed|apply freed_pending, Ha].
  - intros st words. apply grown_pending.
  - intros st bp Hp.
    destruct (coalesce_pending st bp Hp) as (bl & fl & I & R & _ & L).
    split; [exists bl, fl; exact I|].
    split; [apply (heap_inv_no_adjacent _ bl fl I)|].
    split; [apply (heap_inv_once _ bl fl _ I R)|exact L].
Qed.

Lemma no_adjacent_free_kept_witness :
  (heap_ok (free one_block 4112) /\ no_adjacent_free (free one_block 4112))
  /\ (exists fuel0, forall fuel, (fuel0 <= fuel)%nat ->
        exists st' p, malloc fuel booted 16 = Some (st', p)
                      /\ heap_ok st' /\ no_adjacent_free st')
  /\ (extend_heap booted 4
      = coalesce (grown booted (4 * 8)) (mem_brk booted)
      /\ pending (grown booted (4 * 8)) (mem_brk booted))
  /\ registered_once (fst (coalesce (freed one_block 4112) 4112))
                     (snd (coalesce (freed one_block 4112) 4112)).
Proof.
  split; [|split; [|split]].
  - exact (proj1 no_adjacent_free_kept one_block 4112 one_block_allocated).
  - exact (proj1 (proj2 no_adjacent_free_kept) booted 16 booted_ok
                 ltac:(lia) ltac:(lia)).
  - exact (proj1 (proj2 (proj2 (proj2 no_adjacent_free_kept))) booted 4
                 booted_ok ltac:(lia) ltac:(reflexivity)
                 ltac:(vm_compute; discriminate)).
  - exact (proj1 (proj2 (proj2
             (proj2 (proj2 (proj2 (proj2 no_adjacent_free_kept)))
                    (freed one_block 4112) 4112
                    (proj2 (proj1 (proj2 (proj2 no_adjacent_free_kept))
                                  one_block 4112 one_block_allocated)))))).
Defined.

(** C7: placing an adjusted size [asize] (at least 32, a multiple of 16)
    in a registered free block of size [cs >= asize] of a valid heap.
    If [cs - asize >= 32] the block is split: header and footer of an
    allocated block of size [asize] are written, the block is unlinked,
    the remainder gets header and footer of a free block of size
    [cs - asize] and is handed to [coalesce]; the heap is valid again with
    the two blocks in place of the one.  Otherwise the whole block of size
    [cs] gets allocated header and footer and is unlinked, and the heap is
    valid with that one block allocated: nothing is split off. *)
Theorem place_split_rule :
  forall (st : state) (l1 l2 : list block) (bp cs : Z) (fl : table)
         (asize : Z),
    heap_inv st (l1 ++ (bp, cs, false) :: l2) fl ->
    32 <= asize <= cs -> asize mod 16 = 0 ->
    (32 <= cs - asize ->
     (let st3 := delete (PUT (PUT st (bp - 8) (tag asize true))
                             (bp + asize - 16) (tag asize true)) bp in
      let st5 := PUT (PUT st3 (bp + asize - 8) (tag (cs - asize) false))
                     (bp + cs - 16) (tag (cs - asize) false) in
      place st bp asize = fst (coalesce st5 (bp + asize))
      /\ GET st3 (bp - 8) = tag asize true
      /\ GET st3 (bp + asize - 16) = tag asize true
      /\ GET st5 (bp + asize - 8) = tag (cs - asize) false
      /\ GET st5 (bp + cs - 16) = tag (cs - asize) false)
     /\ heap_inv (place st bp asize)
                 (l1 ++ (bp, asize, true)
                     :: (bp + asize, cs - asize, false) :: l2)
                 (push (rm fl bp) (iterate (cs - asize)) (bp + asize)))
    /\ (cs - asize < 32 ->
        place st bp asize
        = delete (PUT (PUT st (bp - 8) (tag cs true))
                      (bp + cs - 16) (tag cs true)) bp
        /\ heap_inv (place st bp asize) (l1 ++ (bp, cs, true) :: l2)
                    (rm fl bp)).
Proof.
  intros st l1 l2 bp cs fl asize Hinv Hsz Hmod. split.
  - intros Hs.
    destruct (place_split st l1 l2 bp cs fl asize Hinv Hsz Hmod Hs)
      as (A & B & _).
    split; [exact A|exact B].
  - intros Hw.
    destruct (place_whole st l1 l2 bp cs fl asize Hinv Hsz Hw) as (A & B & _).
    split; [exact A|exact B].
Qed.

Lemma place_split_rule_witness :
  heap_inv (place booted 4112 32)
           ([] ++ (4112, 32, true) :: (4112 + 32, 256 - 32, false) :: [])
           (push (rm (push empty_table 4 4112) 4112) (iterate (256 - 32))
                 (4112 + 32))
  /\ heap_inv (place booted 4112 240) ([] ++ (4112, 256, true) :: [])
              (rm (push empty_table 4 4112) 4112).
Proof.
  split.
  - exact (proj2 (proj1 (place_split_rule booted [] [] 4112 256 _ 32
                           booted_inv ltac:(lia) ltac:(reflexivity))
                        ltac:(lia))).
  - exact (proj2 (proj2 (place_split_rule booted [] [] 4112 256 _ 240
                           booted_inv ltac:(lia) ltac:(reflexivity))
                        ltac:(lia))).
Defined.

Lemma insert_walk (st : state) (fl : table) (bp s : Z) (fuel : nat) :
  lists st fl -> spaced (fun x => registered fl x \/ x = bp) ->
  (forall i, 0 <= i < 11 -> NoDup (fl i)) ->
  (forall i j b, 0 <= i < 11 -> 0 <= j < 11 ->
                 In b (fl i) -> In b (fl j) -> i = j) ->
  ~ registered fl bp -> GET_SIZE st (HDRP bp) = s -> enough fuel fl ->
  list_of (S fuel) (insert st bp) (seg (insert st bp) (iterate s))
  = bp :: list_of fuel st (seg st (iterate s))
  /\ (forall j, 0 <= j < 11 -> j <> iterate s ->
        list_of fuel (insert st bp) (seg (insert st bp) j)
        = list_of fuel st (seg st j)).
Proof.
  intros Hl Hsp Hnd Hdj Hnr Hs Hen.
  pose proof (proj1 (insert_spec st fl bp s Hl Hsp Hnd Hdj Hnr Hs)) as Hl'.
  pose proof (iterate_range s) as Hc.
  assert (Hnz : forall x, registered fl x -> x <> 0).
  { intros x Hx. destruct Hsp as [Hb _].
    specialize (Hb x (or_introl Hx)). lia. }
  assert (Hnz' : forall x, registered (push fl (iterate s) bp) x -> x <> 0).
  { intros x (j & Hj & Hin). destruct Hsp as [Hb _]. unfold push in Hin.
    assert (Hx : registered fl x \/ x = bp).
    { destruct (j =? iterate s).
      - destruct Hin as [<-|Hin]; [right; reflexivity|left; exists j; tauto].
      - left. exists j. tauto. }
    specialize (Hb x Hx). lia. }
  split.
  - rewrite (lists_list_of st fl fuel (iterate s) Hl Hnz)
      by (lia || (apply Hen; lia)).
    rewrite (lists_list_of (insert st bp) (push fl (iterate s) bp) (S fuel)
               (iterate s) Hl' Hnz' ltac:(lia)).
    + unfold push. rewrite Z.eqb_refl. reflexivity.
    + unfold push. rewrite Z.eqb_refl. cbn [length].
      pose proof (Hen (iterate s) ltac:(lia)). lia.
  - intros j Hj Hne.
    rewrite (lists_list_of st fl fuel j Hl Hnz Hj (Hen j Hj)).
    assert (Hfl : push fl (iterate s) bp j = fl j).
    { unfold push.
      destruct (Z.eqb_spec j (iterate s)); [contradiction|reflexivity]. }
    rewrite <- Hfl.
    apply (lists_list_of (insert st bp) (push fl (iterate s) bp) fuel j
             Hl' Hnz' Hj).
    rewrite Hfl. apply Hen, Hj.
Qed.

(** C6, as the code has it: for a byte count [n] with [0 < n] and
    [n + 31 < 2^64] the adjusted size is [align(n + DSIZE)], never less
    than 32.  In a valid heap the fit search, given enough fuel for the
    longest list, returns the first block of size [>= asize] met when the
    lists of the classes [iterate asize], ..., 10 are walked one after
    the other, each from its head through the next links, and [NULL] when
    there is none.  [insert] makes a block the head of the list of its
    class and leaves the other lists as they are, so each list is walked
    most recently inserted first.  In any state, a block returned by the
    search has size [>= asize]. *)
Theorem fit_search_first_fit :
  (forall n, 0 < n -> n + 31 < 2 ^ 64 ->
     adjust n = Z.max 32 (align (n + DSIZE)) /\ 32 <= adjust n)
  /\ (forall (st : state) (asize : Z),
        heap_ok st ->
        exists fuel0, forall fuel, (fuel0 <= fuel)%nat ->
          find_fit fuel st asize
          = Some (first_fit st asize
                    (lists_from fuel st (Z.to_nat (11 - iterate asize))
                                (iterate asize))))
  /\ (forall (st : state) (fl : table) (bp s : Z) (fuel : nat),
        lists st fl -> spaced (fun x => registered fl x \/ x = bp) ->
        (forall i, 0 <= i < 11 -> NoDup (fl i)) ->
        (forall i j b, 0 <= i < 11 -> 0 <= j < 11 ->
                       In b (fl i) -> In b (fl j) -> i = j) ->
        ~ registered fl bp -> GET_SIZE st (HDRP bp) = s -> enough fuel fl ->
        list_of (S fuel) (insert st bp) (seg (insert st bp) (iterate s))
        = bp :: list_of fuel st (seg st (iterate s))
        /\ (forall j, 0 <= j < 11 -> j <> iterate s ->
              list_of fuel (insert st bp) (seg (insert st bp) j)
              = list_of fuel st (seg st j)))
  /\ (forall (fuel : nat) (st : state) (asize bp : Z),
        find_fit fuel st asize = Some bp -> bp <> NULL ->
        asize <= GET_SIZE st (HDRP bp)).
Proof.
  split; [|split; [|split]].
  - intros n H1 H2. destruct (adjust_small n H1 H2) as (E & A & _).
    split; [|exact A]. rewrite E. unfold align, ALIGNMENT, DSIZE.
    replace (n + 16 + 16 - 1) with (n + 31) by lia.
    rewrite (wrap_small (n + 31)) by lia.
    pose proof (Z.div_mod (n + 31) 16 ltac:(lia)) as D.
    pose proof (Z.mod_pos_bound (n + 31) 16 ltac:(lia)) as B.
    rewrite (wrap_small (16 * ((n + 31) / 16))) by lia.
    destruct (Z.leb_spec n 16); lia.
  - intros st asize (bl & fl & Hinv).
    exists (S (length bl)). intros fuel Hf.
    pose proof Hinv as (_ & Hl & _).
    pose proof (fun x => heap_inv_nonnull st bl fl x Hinv) as Hnz.
    assert (Hen : enough fuel fl).
    { intros i Hi. pose proof (heap_inv_enough st bl fl Hinv i Hi). lia. }
    pose proof (iterate_range asize) as Hc.
    rewrite (scan_order_lists_from st fl fuel Hl Hnz Hen) by lia.
    apply (find_fit_spec st fl asize fuel Hl Hnz Hen).
  - intros st fl bp s fuel. apply insert_walk.
  - intros fuel st asize bp. apply find_fit_fits.
Qed.

Lemma fit_search_first_fit_witness :
  (adjust 100 = Z.max 32 (align (100 + DSIZE)) /\ 32 <= adjust 100)
  /\ (exists fuel0, forall fuel, (fuel0 <= fuel)%nat ->
        find_fit fuel booted 112
        = Some (first_fit booted 112
                  (lists_from fuel booted (Z.to_nat (11 - iterate 112))
                              (iterate 112))))
  /\ 112 <= GET_SIZE booted (HDRP 4112).
Proof.
  split; [|split].
  - exact (proj1 fit_search_first_fit 100 ltac:(lia) ltac:(lia)).
  - exact (proj1 (proj2 fit_search_first_fit) booted 112 booted_ok).
  - exact (proj2 (proj2 (proj2 fit_search_first_fit)) 2%nat booted 112 4112
                 ltac:(vm_compute; reflexivity) ltac:(discriminate)).
Defined.

(** C6 as stated fails for the largest byte counts: [size + 31] wraps
    around 2^64, so [malloc(2^64 - 15)] works with the adjusted size 16,
    below the minimum 32, and carves a 16-byte block out of the heap. *)
Lemma adjust_wraps_below_minimum :
  0 < 2 ^ 64 - 15 < 2 ^ 64
  /\ adjust (2 ^ 64 - 15) = 16
  /\ ~ 32 <= adjust (2 ^ 64 - 15)
  /\ adjust (2 ^ 64 - 15) <> Z.max 32 (align (2 ^ 64 - 15 + DSIZE))
  /\ outcome (malloc 10 booted (2 ^ 64 - 15))
     = Some (4112, [(4112, 16, 1); (4128, 240, 0)]).
Proof.
  split; [lia|]. split; [reflexivity|]. split; [vm_compute; intros H; apply H; reflexivity|].
  split; [vm_compute; discriminate|]. vm_compute. reflexivity.
Qed.

(** C4: in a valid heap, with enough fuel for the fit search, [malloc]
    returns; it returns [NULL] exactly when the request is for 0 bytes or
    when the fit search found nothing and the backing store refused to
    grow; and when it returns [NULL] the state is the one it started
    from: no head, no tag word and no bound has changed.  The store
    refuses exactly when the new break would pass its limit. *)
Theorem malloc_null_exactly :
  forall (st : state) (n : Z),
    heap_ok st ->
    (exists fuel0, forall fuel, (fuel0 <= fuel)%nat ->
       exists st' p, malloc fuel st n = Some (st', p))
    /\ (forall fuel st' p,
          malloc fuel st n = Some (st', p) ->
          (p = NULL <->
           n = 0 \/ (find_fit fuel st (adjust n) = Some NULL
                     /\ snd (mem_sbrk st (grow_size n)) = wrap (-1)))
          /\ (p = NULL -> st' = st))
    /\ (snd (mem_sbrk st (grow_size n)) = wrap (-1)
        <-> mem_brk st + grow_size n > mem_max_addr st).
Proof.
  intros st n (bl & fl & Hinv). split; [|split].
  - exists (S (length bl)). intros fuel Hf.
    apply (malloc_total fuel st bl fl n Hinv).
    intros i Hi. pose proof (heap_inv_enough st bl fl Hinv i Hi). lia.
  - intros fuel st' p E. apply (malloc_null_cases fuel st st' bl fl n p Hinv E).
  - destruct (heap_inv_bounds _ _ _ Hinv) as [B1 B2].
    destruct (grow_words n) as (W1 & _ & W3 & _). cbv zeta in W1, W3.
    unfold mem_sbrk.
    destruct (Z.gtb_spec (mem_brk st + grow_size n) (mem_max_addr st));
      cbn [fst snd]; change (wrap (-1)) with (2 ^ 64 - 1); lia.
Qed.

Lemma malloc_null_exactly_witness :
  (exists fuel0, forall fuel, (fuel0 <= fuel)%nat ->
     exists st' p, malloc fuel booted 16 = Some (st', p))
  /\ (snd (mem_sbrk booted (grow_size 16)) = wrap (-1)
      <-> mem_brk booted + grow_size 16 > mem_max_addr booted).
Proof.
  split.
  - exact (proj1 (malloc_null_exactly booted 16 booted_ok)).
  - exact (proj2 (proj2 (malloc_null_exactly booted 16 booted_ok))).
Defined.

(** ** Rounding and alignment *)

Lemma align_fits (x : Z) :
  0 <= x < 2 ^ 64 -> x <= 2 ^ 64 - 16 ->
  x <= align x < x + 16 /\ align x mod 16 = 0
  /\ (x mod 16 = 0 -> align x = x).
Proof.
  intros Hx Hle. unfold align, ALIGNMENT.
  replace (x + 16 - 1) with (x + 15) by lia.
  rewrite (wrap_small (x + 15)) by lia.
  pose proof (Z.div_mod (x + 15) 16 ltac:(lia)) as D.
  pose proof (Z.mod_pos_bound (x + 15) 16 ltac:(lia)) as B.
  rewrite (wrap_small (16 * ((x + 15) / 16))) by lia.
  split; [lia|]. split.
  - rewrite Z.mul_comm. apply Z.mod_mul. lia.
  - intros Hm.
    pose proof (Z.div_mod x 16 ltac:(lia)) as Dx. rewrite Hm in Dx.
    assert (E : (x + 15) / 16 = x / 16).
    { replace (x + 15) with (x / 16 * 16 + 15) by lia.
      rewrite Z.div_add_l by lia. change (15 / 16) with 0. lia. }
    rewrite E. lia.
Qed.

Lemma align_wraps (x : Z) :
  0 <= x < 2 ^ 64 -> 2 ^ 64 - 16 < x -> align x = 0.
Proof.
  intros Hx Hgt. unfold align, ALIGNMENT.
  replace (x + 16 - 1) with (x + 15) by lia. unfold wrap at 2.
  replace (x + 15) with (x + 15 - 2 ^ 64 + 1 * 2 ^ 64) by lia.
  rewrite Z.mod_add by lia. rewrite Z.mod_small by lia.
  rewrite Z.div_small by lia. reflexivity.
Qed.

(** X1: [align] rounds up to the next multiple of 16 and fixes the
    multiples of 16, as long as the result fits in 64 bits; for the
    fifteen values above 2^64 - 16 the sum wraps and [align] returns 0. *)
Theorem align_rounds_up :
  forall x : Z, 0 <= x < 2 ^ 64 ->
    (x <= 2 ^ 64 - 16 ->
       x <= align x < x + 16 /\ align x mod 16 = 0
       /\ (x mod 16 = 0 -> align x = x))
    /\ (2 ^ 64 - 16 < x -> align x = 0).
Proof.
  intros x Hx. split; [apply align_fits, Hx|apply align_wraps, Hx].
Qed.

Lemma align_rounds_up_witness : 17 <= align 17 < 17 + 16 /\ align 17 mod 16 = 0.
Proof.
  destruct (proj1 (align_rounds_up 17 ltac:(lia)) ltac:(lia)) as (A & B & _).
  split; [exact A|exact B].
Defined.

Lemma aligned_spec (p : Z) :
  0 <= p < 2 ^ 64 -> (aligned p = true <-> p mod 16 = 0).
Proof.
  intros Hp. unfold aligned. rewrite Z.eqb_eq.
  destruct (Z_le_gt_dec p (2 ^ 64 - 16)) as [Hle|Hgt].
  - destruct (align_fits p Hp Hle) as (A & B & C).
    split; [intros E; rewrite <- E; exact B|exact C].
  - rewrite (align_wraps p Hp ltac:(lia)). split; [lia|].
    intros Hm. exfalso.
    pose proof (Z.div_mod p 16 ltac:(lia)) as D. rewrite Hm in D.
    assert (p / 16 < 2 ^ 60) by (apply Z.div_lt_upper_bound; lia). lia.
Qed.

(** X2: [aligned] holds exactly of the multiples of 16, wrap-around
    included: the largest values, where [align] wraps to 0, are no
    multiples of 16 and fail the test as they should. *)
Theorem aligned_multiple_of_16 :
  forall p : Z, 0 <= p < 2 ^ 64 ->
    (aligned p = true <-> p mod 16 = 0)
    /\ (2 ^ 64 - 16 < p -> aligned p = false).
Proof.
  intros p Hp. split; [apply aligned_spec, Hp|].
  intros Hgt. unfold aligned. rewrite (align_wraps p Hp Hgt).
  apply Z.eqb_neq. lia.
Qed.

Lemma aligned_multiple_of_16_witness : aligned 4112 = true <-> 4112 mod 16 = 0.
Proof. exact (proj1 (aligned_multiple_of_16 4112 ltac:(lia))). Defined.

(** ** Tag words: what is written is what is read *)

(** X3: a word written by [PUT] with [PACK size alloc] reads back through
    [GET_SIZE] and [GET_ALLOC] as [size] and [alloc], for a size that is a
    multiple of 16 and an allocated bit 0 or 1; a size that is no multiple
    of 16 loses its low four bits; and a word eight bytes or more away
    (around the address space) is left as it was. *)
Theorem tag_round_trip :
  forall (st : state) (p size alloc : Z),
    0 <= size < 2 ^ 64 -> alloc = 0 \/ alloc = 1 ->
    (size mod 16 = 0 ->
       GET_SIZE (PUT st p (PACK size alloc)) p = size
       /\ GET_ALLOC (PUT st p (PACK size alloc)) p = alloc)
    /\ GET_SIZE (PUT st p (PACK size 0)) p = size - size mod 16
    /\ (forall q v, 8 <= wrap (q - p) <= 2 ^ 64 - 8 ->
          GET (PUT st p v) q = GET st q).
Proof.
  intros st p size alloc Hs Ha. split; [|split].
  - intros Hm.
    assert (Hle : size + 16 <= 2 ^ 64).
    { pose proof (Z.div_mod size 16 ltac:(lia)) as D. rewrite Hm in D.
      assert (size / 16 < 2 ^ 60) by (apply Z.div_lt_upper_bound; lia). lia. }
    destruct Ha as [-> | ->].
    + change (PACK size 0) with (tag size false).
      pose proof (tag_PUT_read st p size false ltac:(lia) Hle Hm) as E.
      split; [apply (GET_SIZE_tag _ _ _ _ E Hm)|apply (GET_ALLOC_tag _ _ _ _ E Hm)].
    + change (PACK size 1) with (tag size true).
      pose proof (tag_PUT_read st p size true ltac:(lia) Hle Hm) as E.
      split; [apply (GET_SIZE_tag _ _ _ _ E Hm)|apply (GET_ALLOC_tag _ _ _ _ E Hm)].
  - unfold GET_SIZE. rewrite GET_PUT_same. unfold PACK.
    rewrite Z.lor_0_r, wrap_small by exact Hs. apply land_low_clear.
  - intros q v Hq. apply GET_PUT_far_wrap, Hq.
Qed.

Lemma tag_round_trip_witness :
  GET_SIZE (PUT booted 4104 (PACK 48 1)) 4104 = 48
  /\ GET_ALLOC (PUT booted 4104 (PACK 48 1)) 4104 = 1.
Proof.
  exact (proj1 (tag_round_trip booted 4104 48 1 ltac:(lia) ltac:(right; reflexivity))
               ltac:(reflexivity)).
Defined.

(** ** The layout is fixed by the allocated blocks *)

Lemma chain_nonempty_lt (l : list block) (p q : Z) (x : block) :
  chain p (x :: l) q -> p < q.
Proof.
  destruct x as [[b s] a]. cbn [chain]. intros (_ & Hs & _ & H).
  apply chain_le in H. lia.
Qed.

Lemma chain_head_addr (l : list block) (p q b s : Z) (a : bool) (x : block) :
  chain p (x :: l) q -> In (b, s, a) (x :: l) -> b = p -> x = (b, s, a).
Proof.
  destruct x as [[b0 s0] a0]. intros Hc Hin Hb.
  pose proof Hc as (Hb0 & Hs0 & _ & Ht). cbn [In] in Hin.
  destruct Hin as [E|Hin]; [exact E|].
  pose proof (chain_In _ _ _ _ _ _ Ht Hin). lia.
Qed.

Lemma layout_unique (hi : Z) :
  forall (bl bl' : list block) (lo : Z) (pf : bool),
    chain lo bl hi -> chain lo bl' hi -> naf pf bl -> naf pf bl' ->
    (forall b s, In (b, s, true) bl <-> In (b, s, true) bl') ->
    bl = bl'.
Proof.
  induction bl as [|[[b s] a] t IH]; intros bl' lo pf Hc Hc' Hn Hn' Hal.
  - destruct bl' as [|x t']; [reflexivity|].
    cbn [chain] in Hc. subst hi. apply chain_nonempty_lt in Hc'. lia.
  - destruct bl' as [|[[b' s'] a'] t'].
    { cbn [chain] in Hc'. subst hi. apply chain_nonempty_lt in Hc. lia. }
    pose proof Hc as (Eb & Hs & Hm & Ht).
    pose proof Hc' as (Eb' & Hs' & Hm' & Ht').
    subst b b'.
    destruct Hn as [Hp Hnt]. destruct Hn' as [Hp' Hnt'].
    assert (Htail : forall sz fl0,
               s = sz -> s' = sz -> a = fl0 -> a' = fl0 ->
               (lo, s, a) :: t = (lo, s', a') :: t').
    { intros sz fl0 -> -> -> ->. f_equal.
      apply (IH t' (lo + sz) (negb fl0)); try assumption.
      intros x sx. split; intros Hin.
      - assert (H1 : In (x, sx, true) ((lo, sz, fl0) :: t')).
        { apply Hal. right. exact Hin. }
        destruct H1 as [E|H1]; [|exact H1].
        injection E as <- <- <-.
        pose proof (chain_In _ _ _ _ _ _ Ht Hin). lia.
      - assert (H1 : In (x, sx, true) ((lo, sz, fl0) :: t)).
        { apply Hal. right. exact Hin. }
        destruct H1 as [E|H1]; [|exact H1].
        injection E as <- <- <-.
        pose proof (chain_In _ _ _ _ _ _ Ht' Hin). lia. }
    destruct a, a'.
    + assert (H1 : In (lo, s, true) ((lo, s', true) :: t'))
        by (apply Hal; left; reflexivity).
      pose proof (chain_head_addr _ _ _ _ _ _ _ Hc' H1 eq_refl) as E.
      injection E as ->. apply (Htail s true); reflexivity.
    + assert (H1 : In (lo, s, true) ((lo, s', false) :: t'))
        by (apply Hal; left; reflexivity).
      pose proof (chain_head_addr _ _ _ _ _ _ _ Hc' H1 eq_refl) as E.
      discriminate.
    + assert (H1 : In (lo, s', true) ((lo, s, false) :: t))
        by (apply Hal; left; reflexivity).
      pose proof (chain_head_addr _ _ _ _ _ _ _ Hc H1 eq_refl) as E.
      discriminate.
    + assert (Es : s = s').
      { destruct (Z.lt_total s s') as [Hlt|[E|Hgt]]; [|exact E|]; exfalso.
        - (* the block after [lo .. lo + s] in [bl] is allocated and has
             no place in [bl'] *)
          destruct t as [|[[b2 s2] a2] t2].
          { cbn [chain] in Ht. apply chain_le in Ht'. lia. }
          pose proof Ht as (E2 & Hs2 & _ & Ht2). subst b2.
          destruct Hnt as [Ha2 _]. cbn [negb] in Ha2.
          specialize (Ha2 eq_refl). subst a2.
          assert (H1 : In (lo + s, s2, true) ((lo, s', false) :: t')).
          { apply Hal. right. left. reflexivity. }
          destruct H1 as [E|H1]; [discriminate|].
          pose proof (chain_In _ _ _ _ _ _ Ht' H1). lia.
        - destruct t' as [|[[b2 s2] a2] t2].
          { cbn [chain] in Ht'. apply chain_le in Ht. lia. }
          pose proof Ht' as (E2 & Hs2 & _ & Ht2). subst b2.
          destruct Hnt' as [Ha2 _]. cbn [negb] in Ha2.
          specialize (Ha2 eq_refl). subst a2.
          assert (H1 : In (lo + s', s2, true) ((lo, s, false) :: t)).
          { apply Hal. right. left. reflexivity. }
          destruct H1 as [E|H1]; [discriminate|].
          pose proof (chain_In _ _ _ _ _ _ Ht H1). lia. }
      apply (Htail s false); congruence.
Qed.

Lemma heap_inv_unique (st st' : state) (bl bl' : list block) (fl fl' : table) :
  heap_inv st bl fl -> heap_inv st' bl' fl' ->
  heap_listp st' = heap_listp st -> mem_brk st' = mem_brk st ->
  (forall b s, In (b, s, true) bl <-> In (b, s, true) bl') ->
  bl = bl'.
Proof.
  intros ((_ & Hc & _) & _ & _ & Hn) ((_ & Hc' & _) & _ & _ & Hn') E1 E2 Hal.
  rewrite E1, E2 in Hc'.
  exact (layout_unique _ bl bl' _ false Hc Hc' Hn Hn' Hal).
Qed.

Lemma chain_aligned (l : list block) :
  forall p q b s a, chain p l q -> p mod 16 = 0 -> In (b, s, a) l ->
    b mod 16 = 0.
Proof.
  induction l as [|[[b0 s0] a0] l IH]; intros p q b s a; cbn [chain In].
  - tauto.
  - intros (Hb & Hs & Hm & H) Hp [E|Hin].
    + injection E as <- <- <-. subst b0. exact Hp.
    + apply (IH (p + s0) q b s a H); [|exact Hin].
      rewrite Z.add_mod, Hp, Hm by lia. reflexivity.
Qed.

(** ** Initialisation: when it succeeds and what it leaves *)

Lemma mm_init_fails (st : state) :
  0 <= mem_brk st -> mem_max_addr st < 2 ^ 64 ->
  mem_brk st + 272 > mem_max_addr st -> snd (mm_init st) = false.
Proof.
  intros H0 H2 H1. unfold mm_init, mem_sbrk.
  destruct (clear_seg_fields 11 0 st) as (_ & B & C).
  rewrite B, C. unfold WSIZE.
  change (wrap (2 * 8)) with 16. change (wrap (1 * 8)) with 8.
  change (wrap (3 * 8)) with 24.
  destruct (Z.gtb_spec (mem_brk st + 16) (mem_max_addr st)) as [Hf|Hs].
  - change (wrap (-1) =? wrap (-1)) with true. reflexivity.
  - cbn [heap_listp set_heap_listp PUT set_mem].
    change (wrap (-1)) with (2 ^ 64 - 1).
    destruct (Z.eqb_spec (mem_brk st) (2 ^ 64 - 1)) as [|_]; [lia|].
    change CHUNKSIZE with 32.
    match goal with
    | |- snd (let '(_, _) := extend_heap ?s 32 in _) = _ =>
        rewrite (extend_heap_eval s 32)
    end; try lia; try reflexivity;
      cbn [mem_brk mem_max_addr set_free_list set_heap_listp PUT set_mem set_brk];
      rewrite ?C; try lia.
    destruct (Z.gtb_spec (mem_brk st + 16 + 32 * 8) (mem_max_addr st))
      as [_|]; [|lia].
    reflexivity.
Qed.

(** X4: [mm_init] succeeds exactly when the store can give 272 bytes: 16
    for the call of [mem_sbrk] and 256 for the first block, because
    [extend_heap] is handed [CHUNKSIZE = 32] as a number of words.  On
    success the heap is valid, its one block is free, 256 bytes long, 16
    bytes above the old break and in class 4, and the heap walk shows
    exactly that block; with less room [mm_init] returns [false]. *)
Theorem mm_init_outcome :
  forall st : state,
    0 <= mem_brk st -> mem_max_addr st < 2 ^ 64 ->
    (mem_brk st + 272 <= mem_max_addr st ->
       snd (mm_init st) = true
       /\ heap_inv (fst (mm_init st)) [(mem_brk st + 16, 256, false)]
                   (push empty_table 4 (mem_brk st + 16))
       /\ heap_listp (fst (mm_init st)) = mem_brk st + 16
       /\ mem_brk (fst (mm_init st)) = mem_brk st + 272
       /\ walk 2 (fst (mm_init st)) (heap_listp (fst (mm_init st)))
          = [(mem_brk st + 16, 256, 0)])
    /\ (mem_brk st + 272 > mem_max_addr st -> snd (mm_init st) = false).
Proof.
  intros st H0 H2. split.
  - intros H1. destruct (mm_init_spec st H0 H1 H2) as [A B].
    change (iterate 256) with 4 in B.
    split; [exact A|]. split; [exact B|].
    pose proof B as ((_ & (E1 & _ & _ & E2) & _) & _). cbn [chain] in E2.
    split; [lia|]. split; [lia|].
    destruct (heap_inv_walk _ _ _ 2%nat B ltac:(cbn; lia)) as [W _].
    exact W.
  - apply mm_init_fails; assumption.
Qed.

Lemma mm_init_outcome_witness :
  snd (mm_init (fresh 4096 65536)) = true
  /\ snd (mm_init (fresh 4096 271)) = false.
Proof.
  split.
  - exact (proj1 (proj1 (mm_init_outcome (fresh 4096 65536)
                           ltac:(cbn; lia) ltac:(cbn; lia)) ltac:(cbn; lia))).
  - exact (proj2 (mm_init_outcome (fresh 4096 271)
                    ltac:(cbn; lia) ltac:(cbn; lia)) ltac:(cbn; lia)).
Defined.

(** ** The heap walk of the checker *)

Lemma chain_total (l : list block) :
  forall p q, chain p l q -> total_size (map enc l) = q - p.
Proof.
  induction l as [|[[b s] a] l IH]; intros p q; cbn [chain map enc total_size].
  - lia.
  - intros (_ & _ & _ & H). rewrite (IH _ _ H). lia.
Qed.

(** X5: in a valid heap the loop of [mm_checkheap] (from [heap_listp], by
    the sizes in the headers, until a header of size 0) meets every block
    once, in address order, and stops at the epilogue after as many steps
    as there are blocks; the sizes it meets add up to the distance from
    [heap_listp] to the break, and more steps change nothing. *)
Theorem heap_walk_complete :
  forall (st : state) (bl : list block) (fl : table) (fuel : nat),
    heap_inv st bl fl -> (length bl < fuel)%nat ->
    walk fuel st (heap_listp st) = map enc bl
    /\ walk fuel st (heap_listp st) = walk (S (length bl)) st (heap_listp st)
    /\ total_size (walk fuel st (heap_listp st)) = mem_brk st - heap_listp st.
Proof.
  intros st bl fl fuel Hinv Hf.
  destruct (heap_inv_walk st bl fl fuel Hinv Hf) as [W _].
  destruct (heap_inv_walk st bl fl (S (length bl)) Hinv ltac:(lia)) as [W' _].
  split; [exact W|]. split; [congruence|].
  rewrite W. destruct Hinv as ((_ & Hc & _) & _).
  apply (chain_total _ _ _ Hc).
Qed.

Lemma heap_walk_complete_witness :
  walk 5 booted (heap_listp booted) = map enc [(4112, 256, false)].
Proof.
  exact (proj1 (heap_walk_complete booted _ _ 5%nat booted_inv ltac:(cbn; lia))).
Defined.

(** ** allocate: the two ways to a block *)

Lemma adjust_words (n : Z) :
  0 < n -> n + 31 < 2 ^ 64 ->
  MAX (adjust n) CHUNKSIZE / WSIZE = adjust n / 8
  /\ 4 <= adjust n / 8 /\ (adjust n / 8) mod 2 = 0
  /\ adjust n / 8 * 8 = adjust n.
Proof.
  intros Hn Hov.
  destruct (adjust_small n Hn Hov) as (_ & A1 & A2 & A3 & A4).
  change CHUNKSIZE with 32. unfold MAX, WSIZE.
  replace (if adjust n >? 32 then adjust n else 32) with (adjust n)
    by (destruct (Z.gtb_spec (adjust n) 32); lia).
  pose proof (Z.div_mod (adjust n) 16 ltac:(lia)) as D. rewrite A2 in D.
  assert (E : adjust n / 8 = adjust n / 16 * 2).
  { rewrite D at 1.
    replace (16 * (adjust n / 16) + 0) with ((adjust n / 16 * 2) * 8) by lia.
    apply Z.div_mul. lia. }
  split; [reflexivity|]. split; [lia|]. split; [|lia].
  rewrite E. apply Z.mod_mul. lia.
Qed.

(** [malloc] takes the first fit, or else grows the heap by the adjusted
    size and takes the block that [extend_heap] returns. *)
Lemma malloc_paths (st : state) (bl : list block) (fl : table) (n : Z)
      (fuel : nat) :
  heap_inv st bl fl -> 0 < n -> n + 31 < 2 ^ 64 -> enough fuel fl ->
  (exists l1 l2 r cs,
      bl = l1 ++ (r, cs, false) :: l2 /\ adjust n <= cs
      /\ find_fit fuel st (adjust n) = Some r /\ r <> NULL
      /\ malloc fuel st n = Some (place st r (adjust n), r))
  \/ (find_fit fuel st (adjust n) = Some NULL
      /\ mem_brk st + adjust n > mem_max_addr st
      /\ malloc fuel st n = Some (st, NULL))
  \/ (find_fit fuel st (adjust n) = Some NULL
      /\ mem_brk st + adjust n <= mem_max_addr st
      /\ snd (extend_heap st (adjust n / 8)) <> NULL
      /\ malloc fuel st n
         = Some (place (fst (extend_heap st (adjust n / 8)))
                       (snd (extend_heap st (adjust n / 8))) (adjust n),
                 snd (extend_heap st (adjust n / 8)))).
Proof.
  intros Hinv Hn Hov Hen.
  destruct (adjust_small n Hn Hov) as (_ & A1 & A2 & A3 & A4).
  destruct (adjust_words n Hn Hov) as (W0 & W1 & W2 & W3).
  pose proof Hinv as (Hlay & Hl & Hlk & Hnaf).
  destruct (find_fit_spec st fl (adjust n) fuel Hl
              (fun x => heap_inv_nonnull st bl fl x Hinv) Hen) as [Ef Hfit].
  cbv zeta in Ef, Hfit.
  set (r := first_fit st (adjust n)
              (scan_order (Z.to_nat (11 - iterate (adjust n)))
                          (iterate (adjust n)) fl)) in *.
  unfold malloc. destruct (Z.eqb_spec n 0) as [|_]; [lia|].
  rewrite Ef.
  destruct (Z.eqb_spec r NULL) as [Er|Hr]; cbn [negb].
  - right. rewrite W0. rewrite Er.
    destruct (extend_heap_spec st bl fl (adjust n / 8) Hinv W1 W2 ltac:(lia))
      as [Hfail Hok].
    rewrite W3 in Hfail, Hok.
    destruct (Z_gt_le_dec (mem_brk st + adjust n) (mem_max_addr st)) as [Hg|Hle].
    + left. rewrite (Hfail Hg). change (NULL =? NULL) with true. cbv iota.
      repeat split; [exact Hg].
    + right. destruct (Hok Hle) as (la & lb & s' & fl1 & _ & _ & I3 & _).
      destruct (extend_heap st (adjust n / 8)) as [st1 bp]. cbn [fst snd] in *.
      destruct (Z.eqb_spec bp NULL) as [|_]; [contradiction|].
      repeat split; assumption.
  - left. destruct (Hfit Hr) as [Hreg Hsz].
    destruct Hlk as (_ & _ & K & _). apply K in Hreg.
    destruct Hreg as (cs & Hcs).
    destruct (in_split _ _ Hcs) as (l1 & l2 & El).
    exists l1, l2, r, cs. split; [exact El|].
    rewrite El in Hinv.
    destruct (heap_inv_parts _ _ _ _ _ _ _ Hinv)
      as (Ho & B1 & S1 & S2 & T1 & T2 & B2 & Hch & C1 & C2 & C3 & C4 & _).
    rewrite (HDRP_eq r) in Hsz by lia.
    rewrite (GET_SIZE_tag _ _ _ _ T1 S2) in Hsz.
    repeat split; assumption.
Qed.

Lemma heap_inv_fuel (st : state) (bl : list block) (fl : table) (fuel : nat) :
  heap_inv st bl fl -> (length bl < fuel)%nat -> enough fuel fl.
Proof.
  intros Hinv Hf i Hi. pose proof (heap_inv_enough st bl fl Hinv i Hi). lia.
Qed.

(** What a successful [malloc] leaves, with the block it took. *)
Lemma malloc_detail (st : state) (bl : list block) (fl : table) (n : Z)
      (fuel : nat) (st' : state) (p : Z) :
  heap_inv st bl fl -> 0 < n -> n + 31 < 2 ^ 64 -> (length bl < fuel)%nat ->
  malloc fuel st n = Some (st', p) -> p <> NULL ->
  exists bl' fl' sp,
    heap_inv st' bl' fl' /\ adjust n <= sp
    /\ heap_listp st' = heap_listp st
    /\ mem_brk st <= mem_brk st'
    /\ (mem_brk st' = mem_brk st \/ mem_brk st' = mem_brk st + adjust n)
    /\ ~ (exists s0, In (p, s0, true) bl)
    /\ (forall b sb, In (b, sb, true) bl'
                     <-> In (b, sb, true) bl \/ (b = p /\ sb = sp)).
Proof.
  intros Hinv Hn Hov Hf E Hp.
  pose proof (heap_inv_fuel st bl fl fuel Hinv Hf) as Hen.
  destruct (adjust_small n Hn Hov) as (_ & A1 & A2 & A3 & A4).
  destruct (adjust_words n Hn Hov) as (W0 & W1 & W2 & W3).
  destruct (malloc_paths st bl fl n fuel Hinv Hn Hov Hen)
    as [(l1 & l2 & r & cs & El & Hcs & _ & Hr & Em)
       |[(_ & _ & Em)|(_ & Hle & Hnn & Em)]];
    rewrite Em in E; injection E as <- <-.
  - rewrite El in Hinv.
    destruct (place_any st l1 l2 r cs fl (adjust n) Hinv ltac:(lia) A2)
      as (bl' & fl' & sp & P1 & P2 & (X1 & X2 & X3) & P4).
    exists bl', fl', sp.
    split; [exact P1|]. split; [exact P2|]. split; [exact X1|].
    split; [lia|]. split; [left; exact X2|]. split.
    + intros (s0 & Hs0). rewrite El in Hs0.
      destruct Hinv as ((_ & Hc & _) & _).
      assert (Hfree : In (r, cs, false) (l1 ++ (r, cs, false) :: l2))
        by (rewrite in_app_iff; right; left; reflexivity).
      destruct (chain_size_unique _ _ _ _ _ _ _ _ Hc Hs0 Hfree) as [_ Hd].
      discriminate.
    + intros b sb. rewrite P4, El, !in_app_iff. cbn [In].
      split; [tauto|]. intros [[H|[H|H]]|H]; try tauto. discriminate.
  - contradiction.
  - destruct (extend_heap_spec st bl fl (adjust n / 8) Hinv W1 W2 ltac:(lia))
      as [_ Hok].
    rewrite W3 in Hok.
    destruct (Hok Hle) as (la & lb & s' & fl1 & I1 & I2 & I3 & I4 & I5 & I6 & I7).
    destruct (extend_heap st (adjust n / 8)) as [st1 bp]. cbn [fst snd] in *.
    destruct (place_any st1 la lb bp s' fl1 (adjust n) I1 ltac:(lia) A2)
      as (bl' & fl' & sp & P1 & P2 & (X1 & X2 & X3) & P4).
    exists bl', fl', sp.
    split; [exact P1|]. split; [exact P2|]. split; [congruence|].
    split; [lia|]. split; [right; lia|]. split.
    + intros (s0 & Hs0). apply I7 in Hs0.
      destruct I1 as ((_ & Hc & _) & _).
      assert (Hfree : In (bp, s', false) (la ++ (bp, s', false) :: lb))
        by (rewrite in_app_iff; right; left; reflexivity).
      assert (Hal : In (bp, s0, true) (la ++ (bp, s', false) :: lb)).
      { rewrite in_app_iff in Hs0 |- *. cbn [In]. tauto. }
      destruct (chain_size_unique _ _ _ _ _ _ _ _ Hc Hal Hfree) as [_ Hd].
      discriminate.
    + intros b sb. rewrite P4, I7. tauto.
Qed.

(** X7: a successful [malloc(n)] (with [n + 31 < 2^64]) in a valid heap
    leaves a valid heap and returns the address of an allocated block
    that was not allocated before, that holds at least [n] bytes between
    its header and its footer, that lies inside the heap and that
    overlaps no other allocated block.  The blocks allocated before are
    allocated as before, nothing else is, [heap_listp] stays and the
    break stays or grows by the adjusted size; and when [heap_listp] is a
    multiple of 16 the address passes [aligned]. *)
Theorem malloc_block :
  forall (st : state) (bl : list block) (fl : table) (n : Z) (fuel : nat)
         (st' : state) (p : Z),
    heap_inv st bl fl -> 0 < n -> n + 31 < 2 ^ 64 -> (length bl < fuel)%nat ->
    malloc fuel st n = Some (st', p) -> p <> NULL ->
    exists bl' fl' sp,
      heap_inv st' bl' fl' /\ In (p, sp, true) bl'
      /\ n <= sp - 16
      /\ heap_listp st' <= p /\ p + sp <= mem_brk st'
      /\ ~ (exists s0, In (p, s0, true) bl)
      /\ (forall b sb, In (b, sb, true) bl ->
            In (b, sb, true) bl' /\ (b + sb <= p \/ p + sp <= b))
      /\ (forall b sb, In (b, sb, true) bl' -> In (b, sb, true) bl \/ b = p)
      /\ heap_listp st' = heap_listp st
      /\ (mem_brk st' = mem_brk st \/ mem_brk st' = mem_brk st + adjust n)
      /\ (heap_listp st mod 16 = 0 -> aligned p = true).
Proof.
  intros st bl fl n fuel st' p Hinv Hn Hov Hf E Hp.
  destruct (adjust_small n Hn Hov) as (_ & A1 & A2 & A3 & A4).
  destruct (malloc_detail st bl fl n fuel st' p Hinv Hn Hov Hf E Hp)
    as (bl' & fl' & sp & I1 & I2 & I3 & I4 & I5 & I6 & I7).
  exists bl', fl', sp.
  assert (Hin : In (p, sp, true) bl') by (apply I7; right; tauto).
  pose proof I1 as ((H16 & Hc & Hmax & _) & _).
  pose proof (chain_In _ _ _ _ _ _ Hc Hin) as (C1 & C2 & C3 & C4).
  split; [exact I1|]. split; [exact Hin|]. split; [lia|].
  split; [exact C1|]. split; [exact C2|]. split; [exact I6|].
  split; [|split; [|split; [exact I3|split; [exact I5|]]]].
  - intros b sb Hb.
    assert (Hb' : In (b, sb, true) bl') by (apply I7; left; exact Hb).
    split; [exact Hb'|].
    destruct (chain_order _ _ _ _ _ _ _ _ _ Hc Hb' Hin) as [Eq|Hd]; [|exact Hd].
    exfalso. apply I6. injection Eq as -> ->. exists sp. exact Hb.
  - intros b sb Hb. apply I7 in Hb. tauto.
  - intros Hal. rewrite <- I3 in Hal.
    pose proof (chain_aligned _ _ _ _ _ _ Hc Hal Hin) as Hm.
    apply aligned_spec; [lia|exact Hm].
Qed.

Lemma malloc_block_witness :
  exists bl' fl' sp,
    heap_inv one_block bl' fl' /\ In (4112, sp, true) bl' /\ 16 <= sp - 16.
Proof.
  destruct (malloc_block booted _ _ 16 10 one_block 4112 booted_inv
              ltac:(lia) ltac:(lia) ltac:(cbn; lia)
              (run_eq (malloc 10 booted 16) 4112 booted
                      ltac:(vm_compute; reflexivity))
              ltac:(discriminate))
    as (bl' & fl' & sp & A & B & C & _).
  exists bl', fl', sp. split; [exact A|]. split; [exact B|exact C].
Defined.

(** ** Fusing free neighbours *)

Lemma fuse_chain (l : list block) :
  forall lo hi, chain lo l hi -> chain lo (fuse l) hi.
Proof.
  induction l as [|[[b s] a] tl IH]; intros lo hi; cbn [fuse chain].
  - tauto.
  - intros (Hb & Hs & Hm & Ht). specialize (IH _ _ Ht).
    destruct a; [cbn [chain]; tauto|].
    destruct (fuse tl) as [|[[b2 s2] a2] tl'] eqn:E.
    + cbn [chain] in *. tauto.
    + destruct a2.
      * cbn [chain] in *. tauto.
      * cbn [chain] in *. destruct IH as (Hb2 & Hs2 & Hm2 & Ht').
        repeat split; try lia.
        -- rewrite Z.add_mod, Hm, Hm2 by lia. reflexivity.
        -- replace (lo + (s + s2)) with (lo + s + s2) by lia. exact Ht'.
Qed.

Lemma fuse_naf (l : list block) : naf false (fuse l).
Proof.
  induction l as [|[[b s] a] tl IH]; cbn [fuse naf]; [exact I|].
  destruct a.
  - cbn [naf negb]. split; [discriminate|exact IH].
  - destruct (fuse tl) as [|[[b2 s2] a2] tl'] eqn:E.
    + cbn [naf]. tauto.
    + destruct a2; cbn [naf negb] in *.
      * split; [discriminate|]. split; [reflexivity|tauto].
      * split; [discriminate|tauto].
Qed.

Lemma fuse_alloc (l : list block) (x sx : Z) :
  In (x, sx, true) (fuse l) <-> In (x, sx, true) l.
Proof.
  induction l as [|[[b s] a] tl IH]; cbn [fuse]; [tauto|].
  destruct a.
  - cbn [In]. rewrite IH. tauto.
  - destruct (fuse tl) as [|[[b2 s2] a2] tl'] eqn:E.
    + cbn [In] in *. rewrite <- IH. split; [tauto|].
      intros [H|H]; [discriminate|tauto].
    + destruct a2; cbn [In] in *; rewrite <- IH.
      * split; [tauto|]. intros [H|H]; [discriminate|tauto].
      * split.
        -- intros [H|H]; [discriminate|tauto].
        -- intros [H|[H|H]]; try discriminate; tauto.
Qed.

(** A layout without free neighbours is left as it is. *)
Lemma fuse_fixed (l : list block) :
  forall pf, naf pf l -> fuse l = l.
Proof.
  induction l as [|[[b s] a] tl IH]; intros pf; cbn [fuse naf]; [reflexivity|].
  intros [_ Hn]. rewrite (IH _ Hn). destruct a; [reflexivity|].
  destruct tl as [|[[b2 s2] a2] tl']; [reflexivity|].
  cbn [naf negb] in Hn. destruct Hn as [Ha _]. rewrite (Ha eq_refl). reflexivity.
Qed.

Lemma chain_flag (l1 l2 : list block) (b s : Z) (a a' : bool) (lo hi : Z) :
  chain lo (l1 ++ (b, s, a) :: l2) hi -> chain lo (l1 ++ (b, s, a') :: l2) hi.
Proof.
  rewrite !chain_app. intros (m & H1 & H2). exists m. split; [exact H1|].
  cbn [chain] in *. exact H2.
Qed.

(** The layout of a valid heap is the fused form of any tiling of the same
    region with the same allocated blocks. *)
Lemma heap_inv_fused (st : state) (bl' : list block) (fl' : table)
      (l : list block) :
  heap_inv st bl' fl' -> chain (heap_listp st) l (mem_brk st) ->
  (forall x sx, In (x, sx, true) bl' <-> In (x, sx, true) l) ->
  bl' = fuse l.
Proof.
  intros ((_ & Hc & _) & _ & _ & Hn) Hl Hal.
  apply (layout_unique (mem_brk st) bl' (fuse l) (heap_listp st) false);
    try assumption.
  - apply fuse_chain, Hl.
  - apply fuse_naf.
  - intros x sx. rewrite fuse_alloc. apply Hal.
Qed.

Lemma in_mid_alloc (l1 l2 : list block) (b s : Z) (x sx : Z) :
  In (x, sx, true) (l1 ++ (b, s, false) :: l2) <-> In (x, sx, true) (l1 ++ l2).
Proof.
  rewrite !in_app_iff. cbn [In]. split; [|tauto].
  intros [H|[H|H]]; try tauto. discriminate.
Qed.

(** X8: [coalesce] of a pending free block [bp] of size [s] (tagged free,
    in no list, between the blocks [l1] and [l2] of an otherwise valid
    heap) leaves a valid heap whose layout is the old one with the runs
    of free blocks fused: the block is joined with a free predecessor
    and a free successor and with nothing else, no allocated block moves,
    and the address returned is that of the free block that now holds
    [bp]. *)
Theorem coalesce_fuses :
  forall (st : state) (l1 l2 : list block) (bp s : Z) (fl : table),
    layout st (l1 ++ (bp, s, false) :: l2) ->
    lists st fl ->
    linked (is_free (l1 ++ (bp, s, true) :: l2)) fl ->
    naf false (l1 ++ (bp, s, true) :: l2) ->
    exists fl' s',
      heap_inv (fst (coalesce st bp)) (fuse (l1 ++ (bp, s, false) :: l2)) fl'
      /\ same_bounds st (fst (coalesce st bp))
      /\ In (snd (coalesce st bp), s', false)
            (fuse (l1 ++ (bp, s, false) :: l2))
      /\ snd (coalesce st bp) <= bp
      /\ bp + s <= snd (coalesce st bp) + s'
      /\ registered fl' (snd (coalesce st bp)).
Proof.
  intros st l1 l2 bp s fl Hlay Hl Hlk Hn.
  destruct (coalesce_spec st l1 l2 bp s fl Hlay Hl Hlk Hn)
    as (la & lb & s' & fl' & I1 & I2 & I3 & I4 & I5 & I6 & I7).
  pose proof I2 as (X1 & X2 & X3).
  assert (E : la ++ (snd (coalesce st bp), s', false) :: lb
              = fuse (l1 ++ (bp, s, false) :: l2)).
  { apply (heap_inv_fused _ _ fl' _ I1).
    - rewrite X1, X2. apply Hlay.
    - intros x sx. rewrite !in_mid_alloc. apply I7. }
  exists fl', s'. rewrite <- E.
  split; [exact I1|]. split; [exact I2|].
  split; [rewrite in_app_iff; right; left; reflexivity|].
  split; [exact I5|]. split; [exact I6|exact I3].
Qed.

Lemma freed_parts (st : state) (l1 l2 : list block) (p s : Z) (fl : table) :
  heap_inv st (l1 ++ (p, s, true) :: l2) fl ->
  freed st p = PUT (PUT st (p - 8) (tag s false)) (p + s - 16) (tag s false)
  /\ layout (freed st p) (l1 ++ (p, s, false) :: l2)
  /\ lists (freed st p) fl
  /\ same_bounds st (freed st p).
Proof.
  intros Hinv.
  assert (Hin : In (p, s, true) (l1 ++ (p, s, true) :: l2))
    by (rewrite in_app_iff; right; left; reflexivity).
  destruct (heap_inv_parts _ _ _ _ _ _ _ Hinv)
    as (Ho & B1 & S1 & S2 & T1 & T2 & B2 & Hch & A1 & A2 & A3 & A4 & Hreg).
  destruct Hinv as (Hlay & Hl & Hlk & Hn).
  destruct (words_size _ _ _ _ T1 S2) as [Z1 _].
  assert (E : freed st p
              = PUT (PUT st (p - 8) (tag s false)) (p + s - 16) (tag s false)).
  { unfold freed. rewrite (HDRP_eq p), Z1 by lia.
    change (PACK s 0) with (tag s false).
    rewrite (FTRP_eq _ p s); [reflexivity|lia| |lia|lia].
    eapply GET_SIZE_tag; [apply tag_PUT_read; lia|exact S2]. }
  split; [exact E|]. rewrite E.
  destruct (retag st l1 l2 p s false Ho B1 B2 S1 S2) as (R1 & R2 & R3 & R4).
  split; [|split; [|repeat split]].
  - apply layout_blocks. split; [exact R1|].
    apply blocks_app. exists p. split; [exact R2|].
    change ((p, s, false) :: l2) with ([(p, s, false)] ++ l2).
    apply blocks_app. exists (p + s). tauto.
  - apply (lists_PUT _ _ _ _ _ _ _ (lists_PUT _ _ _ _ _ _ _ Hl Hch A1 A4 Hreg
             (inner_clear _ _ _ Hch A1 A4 p s true _ Hin (or_introl eq_refl)))
             Hch A1 A4 Hreg).
    apply (inner_clear _ _ _ Hch A1 A4 p s true _ Hin). right. lia.
Qed.

(** X6: [free] of an allocated block [p] of size [s] leaves a valid heap
    with the same bounds whose layout is the old one with [p] marked free
    and the runs of free blocks fused; so the bytes of [p] lie in one
    free block, every other allocated block is allocated as before, at
    the same address and with the same size, and [p] is allocated no
    more. *)
Theorem free_releases :
  forall (st : state) (l1 l2 : list block) (p s : Z) (fl : table),
    heap_inv st (l1 ++ (p, s, true) :: l2) fl ->
    exists fl' b s',
      heap_inv (free st p) (fuse (l1 ++ (p, s, false) :: l2)) fl'
      /\ same_bounds st (free st p)
      /\ In (b, s', false) (fuse (l1 ++ (p, s, false) :: l2))
      /\ b <= p /\ p + s <= b + s'
      /\ (forall x sx, In (x, sx, true) (fuse (l1 ++ (p, s, false) :: l2))
                       <-> In (x, sx, true) (l1 ++ (p, s, true) :: l2)
                           /\ x <> p).
Proof.
  intros st l1 l2 p s fl Hinv.
  destruct (freed_parts st l1 l2 p s fl Hinv) as (_ & P1 & P2 & P3).
  pose proof Hinv as (Hlay & _ & Hlk & Hn).
  destruct (coalesce_fuses (freed st p) l1 l2 p s fl P1 P2 Hlk Hn)
    as (fl' & s' & I1 & I2 & I3 & I4 & I5 & _).
  rewrite free_freed.
  exists fl', (snd (coalesce (freed st p) p)), s'.
  split; [exact I1|]. split; [exact (same_bounds_trans _ _ _ P3 I2)|].
  split; [exact I3|]. split; [exact I4|]. split; [exact I5|].
  intros x sx. rewrite fuse_alloc, in_mid_alloc.
  destruct Hlay as (_ & Hc & _).
  assert (Hp : In (p, s, true) (l1 ++ (p, s, true) :: l2))
    by (rewrite in_app_iff; right; left; reflexivity).
  split.
  - intros Hx.
    assert (Hx' : In (x, sx, true) (l1 ++ (p, s, true) :: l2)).
    { rewrite in_app_iff in Hx |- *. cbn [In]. tauto. }
    split; [exact Hx'|]. intros ->.
    destruct (chain_size_unique _ _ _ _ _ _ _ _ Hc Hx' Hp) as [-> _].
    apply chain_app in Hc. destruct Hc as (m & C1 & C2).
    pose proof C2 as (Em & _ & _ & C3). rewrite in_app_iff in Hx.
    destruct Hx as [Hx|Hx].
    + pose proof (chain_In _ _ _ _ _ _ C1 Hx). lia.
    + pose proof (chain_In _ _ _ _ _ _ C3 Hx). lia.
  - intros [Hx Hne]. rewrite in_app_iff in Hx |- *. cbn [In] in Hx.
    destruct Hx as [Hx|[Hx|Hx]]; [tauto| |tauto].
    exfalso. apply Hne. congruence.
Qed.

(** ** A heap with one allocated block, for running the theorems *)

Lemma split_heap :
  heap_inv (place booted 4112 32)
           ([] ++ (4112, 32, true) :: [(4144, 224, false)])
           (push (rm (push empty_table 4 4112) 4112) 3 4144).
Proof.
  exact (proj1 (proj2 (place_split booted [] [] 4112 256 _ 32 booted_inv
                         ltac:(lia) ltac:(reflexivity) ltac:(lia)))).
Qed.

Lemma coalesce_fuses_witness :
  exists fl' s',
    heap_inv (fst (coalesce (freed (place booted 4112 32) 4112) 4112))
             (fuse ([] ++ (4112, 32, false) :: [(4144, 224, false)])) fl'
    /\ In (snd (coalesce (freed (place booted 4112 32) 4112) 4112), s', false)
          (fuse ([] ++ (4112, 32, false) :: [(4144, 224, false)])).
Proof.
  destruct (freed_parts _ _ _ _ _ _ split_heap) as (_ & P1 & P2 & _).
  destruct split_heap as (_ & _ & Hlk & Hn).
  destruct (coalesce_fuses _ _ _ _ _ _ P1 P2 Hlk Hn)
    as (fl' & s' & A & _ & B & _).
  exists fl', s'. split; [exact A|exact B].
Defined.

Lemma free_releases_witness :
  exists fl',
    heap_inv (free (place booted 4112 32) 4112)
             (fuse ([] ++ (4112, 32, false) :: [(4144, 224, false)])) fl'.
Proof.
  destruct (free_releases _ _ _ _ _ _ split_heap) as (fl' & b & s' & A & _).
  exists fl'. exact A.
Defined.

(** ** Growing the heap *)

Lemma extend_heap_odd (st : state) (words : Z) :
  0 <= words -> words + 1 < 2 ^ 64 -> words mod 2 = 1 ->
  extend_heap st words = extend_heap st (words + 1).
Proof.
  intros H0 H1 H2. unfold extend_heap.
  assert (E : (words + 1) mod 2 = 0).
  { rewrite Z.add_mod, H2 by lia. reflexivity. }
  rewrite H2, E. cbn [Z.eqb negb].
  rewrite (wrap_small (words + 1)) by lia. reflexivity.
Qed.

(** X9: [extend_heap] with an even number of words ([>= 4]) in a valid
    heap.  If the store refuses, the result is [NULL] and the state is
    untouched.  Otherwise the break moves up by exactly [8 * words], the
    layout is the old one followed by a free block for the new bytes with
    the runs of free blocks fused (the new space joins a free last
    block), the block returned is free, is the last block of the heap and
    holds the new bytes, and no allocated block has changed.  An odd
    number of words behaves as the next even one. *)
Theorem extend_heap_outcome :
  forall (st : state) (bl : list block) (fl : table) (words : Z),
    heap_inv st bl fl -> 4 <= words -> words * 8 < 2 ^ 64 ->
    (words mod 2 = 1 -> extend_heap st words = extend_heap st (words + 1))
    /\ (words mod 2 = 0 ->
        (mem_brk st + words * 8 > mem_max_addr st ->
           extend_heap st words = (st, NULL))
        /\ (mem_brk st + words * 8 <= mem_max_addr st ->
            exists fl' s',
              heap_inv (fst (extend_heap st words))
                       (fuse (bl ++ [(mem_brk st, words * 8, false)])) fl'
              /\ snd (extend_heap st words) <> NULL
              /\ mem_brk (fst (extend_heap st words)) = mem_brk st + words * 8
              /\ heap_listp (fst (extend_heap st words)) = heap_listp st
              /\ In (snd (extend_heap st words), s', false)
                    (fuse (bl ++ [(mem_brk st, words * 8, false)]))
              /\ snd (extend_heap st words) <= mem_brk st
              /\ snd (extend_heap st words) + s'
                 = mem_brk (fst (extend_heap st words))
              /\ (forall b sb,
                    In (b, sb, true)
                       (fuse (bl ++ [(mem_brk st, words * 8, false)]))
                    <-> In (b, sb, true) bl))).
Proof.
  intros st bl fl words Hinv H1 H3. split.
  - intros Hodd. apply extend_heap_odd; lia.
  - intros H2.
    destruct (heap_inv_bounds _ _ _ Hinv) as [B1 B2].
    rewrite (extend_heap_eval st words) by lia. split.
    + intros Hf.
      destruct (Z.gtb_spec (mem_brk st + words * 8) (mem_max_addr st));
        [reflexivity|lia].
    + intros Hs.
      destruct (Z.gtb_spec (mem_brk st + words * 8) (mem_max_addr st));
        [lia|].
      assert (Zm : (words * 8) mod 16 = 0).
      { pose proof (Z.div_mod words 2 ltac:(lia)) as D. rewrite H2 in D.
        replace (words * 8) with ((words / 2) * 16) by lia.
        apply Z.mod_mul. lia. }
      destruct (grown_parts st bl fl (words * 8) Hinv ltac:(lia) Zm Hs)
        as (P1 & P2 & P3 & P4).
      destruct (coalesce_fuses _ _ _ _ _ _ P1 P2 P3 P4)
        as (fl' & s' & I1 & (X1 & X2 & X3) & I3 & I4 & I5 & _).
      exists fl', s'.
      assert (G1 : heap_listp (grown st (words * 8)) = heap_listp st)
        by reflexivity.
      assert (G2 : mem_brk (grown st (words * 8)) = mem_brk st + words * 8)
        by reflexivity.
      pose proof I1 as ((K1 & Kc & _) & _).
      pose proof (chain_In _ _ _ _ _ _ Kc I3) as (C1 & C2 & C3 & C4).
      split; [exact I1|]. split; [unfold NULL; lia|].
      split; [lia|]. split; [congruence|]. split; [exact I3|].
      split; [exact I4|]. split; [lia|].
      intros b sb. rewrite fuse_alloc, in_mid_alloc, app_nil_r. tauto.
Qed.

Lemma extend_heap_outcome_witness :
  extend_heap booted 5 = extend_heap booted (5 + 1)
  /\ exists fl' s',
       heap_inv (fst (extend_heap booted 4))
                (fuse ([(4112, 256, false)] ++ [(mem_brk booted, 4 * 8, false)]))
                fl'
       /\ snd (extend_heap booted 4) + s' = mem_brk (fst (extend_heap booted 4)).
Proof.
  split.
  - exact (proj1 (extend_heap_outcome booted _ _ 5 booted_inv
                    ltac:(lia) ltac:(lia)) ltac:(reflexivity)).
  - destruct (proj2 (proj2 (extend_heap_outcome booted _ _ 4 booted_inv
                              ltac:(lia) ltac:(lia)) ltac:(reflexivity))
                    ltac:(vm_compute; discriminate))
      as (fl' & s' & A & _ & _ & _ & _ & _ & B & _).
    exists fl', s'. split; [exact A|exact B].
Defined.

(** ** The fit search finds a block whenever one fits *)

Lemma filter_le_mono (l : list Z) (s s' : Z) :
  s <= s' ->
  (length (filter (fun b : Z => (b <=? s)%Z) l)
   <= length (filter (fun b : Z => (b <=? s')%Z) l))%nat.
Proof.
  intros H. induction l as [|b l IH]; cbn [filter]; [lia|].
  destruct (Z.leb_spec b s), (Z.leb_spec b s'); cbn [length]; lia.
Qed.

Lemma iterate_mono (s s' : Z) : s <= s' -> iterate s <= iterate s'.
Proof.
  intros H. rewrite !iterate_classOf. unfold classOf.
  pose proof (filter_le_mono boundaries s s' H). lia.
Qed.

Lemma scan_order_has (fl : table) (x : Z) :
  forall k i j, i <= j < i + Z.of_nat k -> In x (fl j) ->
    In x (scan_order k i fl).
Proof.
  induction k as [|k IH]; intros i j Hj Hx; cbn [scan_order]; [lia|].
  rewrite in_app_iff. destruct (Z.eq_dec j i) as [->|Hne]; [left; exact Hx|].
  right. apply (IH (i + 1) j); [lia|exact Hx].
Qed.

(** X10: in a valid heap the fit search for [asize] returns [NULL] exactly
    when no free block has size [>= asize]; what it returns otherwise is
    a free block of size [>= asize].  A larger size is never in a lower
    class, which is why starting at the class of [asize] misses nothing. *)
Theorem find_fit_complete :
  forall (st : state) (bl : list block) (fl : table) (asize : Z)
         (fuel : nat),
    heap_inv st bl fl -> (length bl < fuel)%nat ->
    (forall s s', s <= s' -> iterate s <= iterate s')
    /\ exists r,
         find_fit fuel st asize = Some r
         /\ (r = NULL <-> forall b s, In (b, s, false) bl -> s < asize)
         /\ (r <> NULL -> exists s, In (r, s, false) bl /\ asize <= s).
Proof.
  intros st bl fl asize fuel Hinv Hf. split; [apply iterate_mono|].
  pose proof (heap_inv_fuel st bl fl fuel Hinv Hf) as Hen.
  pose proof Hinv as ((H16 & Hc & Hmax & Htg & _) & Hl & (K1 & K2 & K3 & K4) & _).
  pose proof (fun x => heap_inv_nonnull st bl fl x Hinv) as Hnz.
  destruct (find_fit_spec st fl asize fuel Hl Hnz Hen) as [Ef Hfit].
  cbv zeta in Ef, Hfit.
  set (order := scan_order (Z.to_nat (11 - iterate asize)) (iterate asize) fl)
    in *.
  set (r := first_fit st asize order) in *.
  assert (Hsz : forall b s, In (b, s, false) bl -> GET_SIZE st (HDRP b) = s).
  { intros b s Hin. pose proof (chain_In _ _ _ _ _ _ Hc Hin) as (C1 & C2 & C3 & C4).
    rewrite Forall_forall in Htg. specialize (Htg _ Hin). cbn [tagged] in Htg.
    rewrite HDRP_eq by lia. apply (GET_SIZE_tag _ _ _ _ (proj1 Htg) C4). }
  assert (Hgood : r <> NULL -> exists s, In (r, s, false) bl /\ asize <= s).
  { intros Hr. destruct (Hfit Hr) as [Hreg Hge].
    apply K3 in Hreg. destruct Hreg as (s & Hs). exists s.
    split; [exact Hs|]. rewrite (Hsz _ _ Hs) in Hge. exact Hge. }
  exists r. split; [exact Ef|]. split; [|exact Hgood]. split.
  - intros Er b s Hin.
    destruct (Z_lt_le_dec s asize) as [Hlt|Hge]; [exact Hlt|exfalso].
    assert (Hreg : registered fl b) by (apply K3; exists s; exact Hin).
    destruct Hreg as (i & Hi & Hbi).
    pose proof (K4 i b s Hi Hbi Hin) as Ei.
    pose proof (iterate_mono asize s Hge) as Hm.
    pose proof (iterate_range asize) as Hr.
    assert (Hord : In b order).
    { unfold order. apply (scan_order_has fl b _ _ i); [lia|exact Hbi]. }
    assert (Hfits : fits st asize b = true).
    { unfold fits. rewrite (Hsz _ _ Hin). apply Z.leb_le. exact Hge. }
    destruct (find (fits st asize) order) as [x|] eqn:Efind.
    + pose proof (find_some _ _ Efind) as [Hx _].
      unfold order in Hx. apply scan_order_in in Hx.
      destruct Hx as (j & Hj & Hxj).
      assert (Hrx : r = x) by (unfold r, first_fit; rewrite Efind; reflexivity).
      apply (Hnz x); [exists j; split; [lia|exact Hxj]|].
      rewrite <- Hrx. exact Er.
    + pose proof (find_none _ _ Efind b Hord) as Hno. congruence.
  - intros Hall. destruct (Z.eq_dec r NULL) as [E|Hne]; [exact E|exfalso].
    destruct (Hgood Hne) as (s & Hs & Hge). specialize (Hall _ _ Hs). lia.
Qed.

Lemma find_fit_complete_witness :
  exists r, find_fit 5 booted 300 = Some r
            /\ (r = NULL <-> forall b s, In (b, s, false) [(4112, 256, false)]
                                         -> s < 300).
Proof.
  destruct (proj2 (find_fit_complete booted _ _ 300 5%nat booted_inv
                     ltac:(cbn; lia))) as (r & A & B & _).
  exists r. split; [exact A|exact B].
Defined.

(** ** [insert] and then [delete] *)

Lemma push_NoDup (fl : table) (c bp : Z) :
  (forall i, 0 <= i < 11 -> NoDup (fl i)) -> ~ registered fl bp ->
  0 <= c < 11 ->
  forall i, 0 <= i < 11 -> NoDup (push fl c bp i).
Proof.
  intros Hnd Hnr Hc i Hi. unfold push.
  destruct (Z.eqb_spec i c) as [->|_]; [|apply Hnd, Hi].
  constructor; [|apply Hnd, Hi]. intros Hin. apply Hnr. exists c. tauto.
Qed.

Lemma push_disjoint (fl : table) (c bp : Z) :
  (forall i j b, 0 <= i < 11 -> 0 <= j < 11 ->
                 In b (fl i) -> In b (fl j) -> i = j) ->
  ~ registered fl bp -> 0 <= c < 11 ->
  forall i j b, 0 <= i < 11 -> 0 <= j < 11 ->
    In b (push fl c bp i) -> In b (push fl c bp j) -> i = j.
Proof.
  intros Hdj Hnr Hc i j b Hi Hj. unfold push.
  destruct (Z.eqb_spec i c) as [Ei|Ni], (Z.eqb_spec j c) as [Ej|Nj];
    cbn [In]; intros H1 H2.
  - congruence.
  - destruct H1 as [<-|H1]; [exfalso; apply Hnr; exists j; tauto|].
    apply (Hdj i j b); assumption.
  - destruct H2 as [<-|H2]; [exfalso; apply Hnr; exists i; tauto|].
    apply (Hdj i j b); assumption.
  - apply (Hdj i j b); assumption.
Qed.

Lemma rm_push (fl : table) (c bp : Z) :
  ~ registered fl bp -> 0 <= c < 11 ->
  forall j, 0 <= j < 11 -> rm (push fl c bp) bp j = fl j.
Proof.
  intros Hnr Hc j Hj. unfold rm, push.
  assert (Hn : ~ In bp (fl j)) by (intros H; apply Hnr; exists j; tauto).
  destruct (Z.eqb_spec j c) as [_|_].
  - cbn [remove]. destruct (Z.eq_dec bp bp) as [_|N]; [|contradiction].
    apply remove_notin, Hn.
  - apply remove_notin, Hn.
Qed.

(** X11: [insert] followed by [delete] of the same block gives back the
    lists as they were: for a table [fl] that describes the lists of the
    state and does not hold [bp], every list is walked after the two
    calls exactly as before, and every word that meets no link word of
    [bp] or of a listed block is unchanged. *)
Theorem delete_undoes_insert :
  forall (st : state) (fl : table) (bp s : Z) (fuel : nat),
    lists st fl -> spaced (fun x => registered fl x \/ x = bp) ->
    (forall i, 0 <= i < 11 -> NoDup (fl i)) ->
    (forall i j b, 0 <= i < 11 -> 0 <= j < 11 ->
                   In b (fl i) -> In b (fl j) -> i = j) ->
    ~ registered fl bp -> GET_SIZE st (HDRP bp) = s -> enough fuel fl ->
    lists (delete (insert st bp) bp) fl
    /\ (forall i, 0 <= i < 11 ->
          seg (delete (insert st bp) bp) i = seg st i
          /\ list_of fuel (delete (insert st bp) bp)
                     (seg (delete (insert st bp) bp) i)
             = list_of fuel st (seg st i))
    /\ (forall q, clear_of (fun x => registered fl x \/ x = bp) q ->
          GET (delete (insert st bp) bp) q = GET st q).
Proof.
  intros st fl bp s fuel Hl Hsp Hnd Hdj Hnr Hs Hen.
  pose proof (iterate_range s) as Hc0.
  assert (Hc : 0 <= iterate s < 11) by lia.
  destruct (insert_spec st fl bp s Hl Hsp Hnd Hdj Hnr Hs) as (I1 & I2 & I3).
  set (st1 := insert st bp) in *. set (fl1 := push fl (iterate s) bp) in *.
  assert (Hreg1 : forall x, registered fl1 x <-> registered fl x \/ x = bp).
  { intros x. apply registered_push, Hc. }
  assert (Hsp1 : spaced (registered fl1)).
  { eapply spaced_mono; [|exact Hsp]. intros x Hx. apply Hreg1, Hx. }
  destruct (delete_spec st1 fl1 bp I1 Hsp1
              (push_NoDup fl _ bp Hnd Hnr Hc)
              (push_disjoint fl _ bp Hdj Hnr Hc)
              (proj2 (Hreg1 bp) (or_intror eq_refl))) as (D1 & D2 & D3).
  set (st2 := delete st1 bp) in *.
  assert (Hl2 : lists st2 fl).
  { intros i Hi. specialize (D1 i Hi). unfold fl1 in D1.
    rewrite (rm_push fl _ bp Hnr Hc i Hi) in D1. exact D1. }
  assert (Hnz : forall x, registered fl x -> x <> 0).
  { intros x Hx. destruct Hsp as [Hb _].
    specialize (Hb x (or_introl Hx)). lia. }
  split; [exact Hl2|]. split.
  - intros i Hi.
    assert (Hw : list_of fuel st2 (seg st2 i) = list_of fuel st (seg st i)).
    { rewrite (lists_list_of st2 fl fuel i Hl2 Hnz Hi (Hen i Hi)).
      rewrite (lists_list_of st fl fuel i Hl Hnz Hi (Hen i Hi)). reflexivity. }
    split; [|exact Hw].
    specialize (Hl i Hi). specialize (Hl2 i Hi).
    destruct (fl i) as [|x t]; cbn [lseg] in Hl, Hl2.
    + congruence.
    + destruct Hl as [E1 _]. destruct Hl2 as [E2 _]. congruence.
  - intros q Hq. rewrite (D2 q).
    + apply I2, Hq.
    + eapply clear_of_mono; [|exact Hq]. intros x Hx. apply Hreg1, Hx.
Qed.

Lemma delete_undoes_insert_witness :
  lists (delete (insert (fresh 4096 65536) 4112) 4112) empty_table.
Proof.
  refine (proj1 (delete_undoes_insert (fresh 4096 65536) empty_table 4112 0
                   1%nat _ _ _ _ _ _ _)).
  - intros i Hi. reflexivity.
  - split.
    + intros b [(i & _ & [])| ->]. lia.
    + intros b b' [(i & _ & [])| ->] [(j & _ & [])| ->]. left. reflexivity.
  - intros i Hi. constructor.
  - intros i j b _ _ [].
  - intros (i & _ & []).
  - reflexivity.
  - intros i Hi. cbn. lia.
Defined.

(** ** allocate and then release *)

(** X12: [free] undoes [malloc].  After a successful [malloc(n)] with
    [n > 0] and [n + 31 < 2^64] in a valid heap, [free] of the block it
    returned leaves a valid heap with exactly the allocated blocks of the
    start.  If [malloc] found its
    block without growing the heap, the whole layout is the one of the
    start (the split remainder is merged back); if it grew the heap, the
    layout is the one of the start followed by the new bytes as free
    space, fused with a free last block. *)
Theorem free_undoes_malloc :
  forall (st : state) (bl : list block) (fl : table) (n : Z) (fuel : nat)
         (st1 : state) (p : Z),
    heap_inv st bl fl -> 0 < n -> n + 31 < 2 ^ 64 -> (length bl < fuel)%nat ->
    malloc fuel st n = Some (st1, p) -> p <> NULL ->
    exists bl2 fl2,
      heap_inv (free st1 p) bl2 fl2
      /\ (forall b sb, In (b, sb, true) bl2 <-> In (b, sb, true) bl)
      /\ heap_listp (free st1 p) = heap_listp st
      /\ (mem_brk st1 = mem_brk st -> bl2 = bl)
      /\ (mem_brk st1 = mem_brk st + adjust n ->
          bl2 = fuse (bl ++ [(mem_brk st, adjust n, false)])).
Proof.
  intros st bl fl n fuel st1 p Hinv Hn Hov Hf E Hp.
  destruct (adjust_small n Hn Hov) as (_ & A1 & A2 & A3 & A4).
  destruct (malloc_detail st bl fl n fuel st1 p Hinv Hn Hov Hf E Hp)
    as (bl1 & fl1 & sp & I1 & I2 & I3 & I4 & I5 & I6 & I7).
  assert (Hin : In (p, sp, true) bl1) by (apply I7; right; tauto).
  destruct (free_spec st1 bl1 fl1 p sp I1 Hin) as (bl2 & fl2 & J1 & J2 & J3).
  destruct J2 as (X1 & X2 & X3).
  assert (Hal : forall b sb, In (b, sb, true) bl2 <-> In (b, sb, true) bl).
  { intros b sb. rewrite J3, I7. split.
    - intros [[H|[H _]] Hne]; [exact H|contradiction].
    - intros H. split; [left; exact H|].
      intros ->. apply I6. exists sb. exact H. }
  exists bl2, fl2.
  split; [exact J1|]. split; [exact Hal|]. split; [congruence|]. split.
  - intros Eb. symmetry.
    apply (heap_inv_unique st (free st1 p) bl bl2 fl fl2 Hinv J1);
      [congruence|congruence|].
    intros b sb. symmetry. apply Hal.
  - intros Eb. apply (heap_inv_fused _ _ fl2 _ J1).
    + rewrite X1, X2, I3, Eb. apply chain_app. exists (mem_brk st).
      split; [apply Hinv|]. cbn [chain]. repeat split; lia || assumption.
    + intros b sb. rewrite Hal, in_app_iff. cbn [In]. split; [tauto|].
      intros [H|[H|[]]]; [exact H|discriminate].
Qed.

Lemma free_undoes_malloc_witness :
  exists fl2, heap_inv (free one_block 4112) [(4112, 256, false)] fl2.
Proof.
  destruct (free_undoes_malloc booted _ _ 16 10 one_block 4112 booted_inv
              ltac:(lia) ltac:(lia) ltac:(cbn; lia)
              (run_eq (malloc 10 booted 16) 4112 booted
                      ltac:(vm_compute; reflexivity))
              ltac:(discriminate))
    as (bl2 & fl2 & A & _ & _ & B & _).
  exists fl2. rewrite <- (B ltac:(vm_compute; reflexivity)). exact A.
Defined.

(** ** The payload of allocated blocks is left alone *)

Lemma live_bounds (ref : list block) (lo hi q : Z) :
  chain lo ref hi -> live ref q -> lo <= q /\ q + 8 <= hi - 16.
Proof.
  intros Hc (b & s & Hin & H1 & H2).
  pose proof (chain_In _ _ _ _ _ _ Hc Hin). lia.
Qed.

Lemma live_clear (ref : list block) (lo hi : Z) (S : Z -> Prop) (q : Z) :
  chain lo ref hi -> 16 <= lo -> hi < 2 ^ 64 ->
  (forall x, S x -> exists sx, In (x, sx, false) ref) ->
  live ref q -> clear_of S q.
Proof.
  intros Hc Hlo Hhi HS (b & s & Hin & H1 & H2).
  pose proof (chain_In _ _ _ _ _ _ Hc Hin) as (C1 & C2 & C3 & C4).
  split; [lia|]. split; [lia|].
  intros x Hx. destruct (HS x Hx) as (sx & Hsx).
  pose proof (chain_In _ _ _ _ _ _ Hc Hsx) as (X1 & X2 & X3 & X4).
  destruct (chain_order _ _ _ _ _ _ _ _ _ Hc Hsx Hin) as [E|[H|H]];
    [discriminate|lia|lia].
Qed.

Lemma live_apart (ref : list block) (lo hi y sy : Z) (ay : bool) (a q : Z) :
  chain lo ref hi -> 16 <= lo -> hi < 2 ^ 64 ->
  In (y, sy, ay) ref -> a = y - 8 \/ a = y + sy - 16 ->
  live ref q -> apart a q.
Proof.
  intros Hc Hlo Hhi Hy Ha (b & s & Hin & H1 & H2).
  pose proof (chain_In _ _ _ _ _ _ Hc Hin) as (C1 & C2 & C3 & C4).
  pose proof (chain_In _ _ _ _ _ _ Hc Hy) as (X1 & X2 & X3 & X4).
  unfold apart.
  destruct (chain_order _ _ _ _ _ _ _ _ _ Hc Hy Hin) as [E|[H|H]].
  - injection E as -> -> ->. lia.
  - lia.
  - lia.
Qed.

Lemma live_apart_free (ref : list block) (lo hi y sy a q : Z) :
  chain lo ref hi -> 16 <= lo -> hi < 2 ^ 64 ->
  In (y, sy, false) ref -> y - 8 <= a <= y + sy - 16 ->
  live ref q -> apart a q.
Proof.
  intros Hc Hlo Hhi Hy Ha (b & s & Hin & H1 & H2).
  pose proof (chain_In _ _ _ _ _ _ Hc Hin) as (C1 & C2 & C3 & C4).
  pose proof (chain_In _ _ _ _ _ _ Hc Hy) as (X1 & X2 & X3 & X4).
  unfold apart.
  destruct (chain_order _ _ _ _ _ _ _ _ _ Hc Hy Hin) as [E|[H|H]];
    [discriminate|lia|lia].
Qed.

Lemma live_apart_beyond (ref : list block) (lo hi a q : Z) :
  chain lo ref hi -> 16 <= lo -> hi - 8 <= a -> a + 8 <= 2 ^ 64 ->
  live ref q -> apart a q.
Proof.
  intros Hc Hlo Ha Ha' (b & s & Hin & H1 & H2).
  pose proof (chain_In _ _ _ _ _ _ Hc Hin) as (C1 & C2 & C3 & C4).
  unfold apart. lia.
Qed.

Lemma free_addr (ref : list block) (x sx : Z) :
  In (x, sx, false) ref -> addr_of ref x.
Proof. intros H. exists sx, false. exact H. Qed.

Lemma delete_live (st : state) (fl : table) (R : Z -> Z -> Prop)
      (ref : list block) (lo hi x q : Z) :
  lists st fl -> linked R fl -> chain lo ref hi -> 16 <= lo -> hi < 2 ^ 64 ->
  (forall y, registered fl y -> exists sy, In (y, sy, false) ref) ->
  registered fl x -> live ref q ->
  GET (delete st x) q = GET st q.
Proof.
  intros Hl Hlk Hc Hlo Hhi Hfree Hx Hq.
  assert (Hsp : spaced (registered fl)).
  { eapply spaced_mono; [|eapply addr_spaced; [exact Hc|lia|lia]].
    intros y Hy. destruct (Hfree y Hy) as (sy & Hsy).
    eapply free_addr, Hsy. }
  destruct (delete_spec st fl x Hl Hsp (proj1 Hlk) (proj1 (proj2 Hlk)) Hx)
    as (_ & D2 & _).
  apply D2. apply (live_clear ref lo hi); assumption.
Qed.

Lemma insert_live (st : state) (fl : table) (R : Z -> Z -> Prop)
      (ref : list block) (lo hi bq sq q : Z) :
  lists st fl -> linked R fl -> chain lo ref hi -> 16 <= lo -> hi < 2 ^ 64 ->
  (forall y, registered fl y -> exists sy, In (y, sy, false) ref) ->
  In (bq, sq, false) ref -> ~ registered fl bq -> live ref q ->
  GET (insert st bq) q = GET st q.
Proof.
  intros Hl Hlk Hc Hlo Hhi Hfree Hbq Hnr Hq.
  assert (HS : forall y, registered fl y \/ y = bq ->
                         exists sy, In (y, sy, false) ref).
  { intros y [Hy| ->]; [apply Hfree, Hy|exists sq; exact Hbq]. }
  assert (Hsp : spaced (fun y => registered fl y \/ y = bq)).
  { eapply spaced_mono; [|eapply addr_spaced; [exact Hc|lia|lia]].
    intros y Hy. destruct (HS y Hy) as (sy & Hsy). eapply free_addr, Hsy. }
  destruct (insert_spec st fl bq _ Hl Hsp (proj1 Hlk) (proj1 (proj2 Hlk))
              Hnr eq_refl) as (_ & I2 & _).
  apply I2. apply (live_clear ref lo hi); assumption.
Qed.

Section CoalesceLive.
Variables (st : state) (l1 l2 : list block) (bp s : Z) (fl : table) (q : Z).
Hypothesis Hlay : layout st (l1 ++ (bp, s, false) :: l2).
Hypothesis Hlists : lists st fl.
Hypothesis Hlk : linked (is_free (l1 ++ (bp, s, true) :: l2)) fl.
Hypothesis Hnaf : naf false (l1 ++ (bp, s, true) :: l2).
Hypothesis Hq : live (l1 ++ (bp, s, false) :: l2) q.

Let old : list block := l1 ++ (bp, s, false) :: l2.
Let hl : Z := heap_listp st.
Let brk : Z := mem_brk st.

Lemma cl_free (y : Z) :
registered fl y -> exists sy, In (y, sy, false) old.
Proof.
intros Hy. apply (co_registered l1 l2 bp s fl Hlk) in Hy.
destruct Hy as (s' & Hs). exists s'. unfold old, is_free in *.
rewrite in_app_iff. cbn [In]. tauto.
Qed.

Lemma cl_unregistered : ~ registered fl bp.
Proof.
intros Hy. apply (co_registered l1 l2 bp s fl Hlk) in Hy.
destruct (co_parts st l1 l2 bp s fl Hlay Hlk Hnaf) as (B1 & S1 & _ & _ & _ & B2 & _).
destruct Hy as (s' & [Hs|Hs]).
- pose proof (is_free_bounds _ _ _ _ _ (proj1 B1) Hs). lia.
- pose proof (is_free_bounds _ _ _ _ _ (proj1 B2) Hs). lia.
Qed.

Lemma cl_self : In (bp, s, false) old.
Proof. unfold old. rewrite in_app_iff. right. left. reflexivity. Qed.

Lemma coalesce_none_live :
last_free false l1 = false -> first_free l2 = false ->
GET (fst (coalesce st bp)) q = GET st q.
Proof.
intros Hp Hn.
destruct (coalesce_none_eq st l1 l2 bp s fl Hlay Hlists Hlk Hnaf Hp Hn)
  as (E & _).
destruct (co_parts st l1 l2 bp s fl Hlay Hlk Hnaf) as (_ & _ & _ & _ & _ & _ & Hch & A1 & A2 & A3 & A4).
rewrite E. cbn [fst].
apply (insert_live st fl _ old hl brk bp s q Hlists Hlk Hch);
  [lia|lia|exact cl_free|exact cl_self|exact cl_unregistered|exact Hq].
Qed.

Lemma coalesce_next_live :
last_free false l1 = false -> first_free l2 = true ->
GET (fst (coalesce st bp)) q = GET st q.
Proof.
intros Hp Hn. unfold coalesce. cbv zeta.
rewrite (prev_alloc_eval st l1 l2 bp s fl Hlay Hlk Hnaf), (next_alloc_eval st l1 l2 bp s fl Hlay Hlk Hnaf), Hp, Hn. cbn [negb andb].
destruct (co_parts st l1 l2 bp s fl Hlay Hlk Hnaf) as (B1 & S1 & S2 & T1 & T2 & B2 & Hch & A1 & A2 & A3 & A4).
destruct (co_naf l1 l2 bp s Hnaf) as [N1 N2].
pose proof (co_outer st l1 l2 bp s Hlay) as Hout. pose proof (co_spaced st l1 l2 bp s fl Hlay Hlk Hnaf) as Hsp.
pose proof (co_reg_old l1 l2 bp s fl Hlk) as Hro. pose proof (co_registered l1 l2 bp s fl Hlk) as Hreg.
destruct (next_word st l1 l2 bp s fl Hlay Hlk Hnaf) as (E1 & E2 & _).
destruct (first_free_true st l1 l2 bp s fl Hlay Hlk Hnaf Hn) as (ns & l2' & El2).
rewrite El2 in B2, N2, Hreg.
apply blocks_cons in B2. destruct B2 as (_ & M1 & M2 & M3 & M4 & B2).
pose proof (blocks_le _ _ _ _ B2) as Le.
destruct (words_size _ _ _ _ T1 S2) as [Z1 _].
destruct (words_size _ _ _ _ M3 M2) as [Z2 _].
rewrite E1, E2, (HDRP_eq bp), Z1, Z2 by lia.
rewrite (wrap_small (s + ns)) by lia.
change (PACK (s + ns) 0) with (tag (s + ns) false).
(* unlink the successor *)
assert (Hrn : registered fl (bp + s)).
{ apply Hreg. exists ns. right. apply is_free_cons. tauto. }
destruct (delete_spec st fl (bp + s) Hlists Hsp (proj1 Hlk)
            (proj1 (proj2 Hlk)) Hrn) as (D1 & D2 & D3).
set (st1 := delete st (bp + s)) in *.
pose proof D3 as (X1 & X2 & X3).

assert (Hin_old : forall y, In y l1 \/ In y l2' -> In y old).
{ intros y Hy. unfold old. rewrite El2, in_app_iff. cbn [In]. tauto. }
pose proof (outer_links st st1 old _ Hout Hch Hro D2 D3) as Hout1.
pose proof (blocks_links st st1 old _ Hout Hch Hro D2 l1 _ _ B1
              (fun y H => Hin_old y (or_introl H))) as B1'.
pose proof (blocks_links st st1 old _ Hout Hch Hro D2 l2' _ _ B2
              (fun y H => Hin_old y (or_intror H))) as B2'.
(* retag the merged span *)
assert (Zm : (s + ns) mod 16 = 0).
{ rewrite Z.add_mod, S2, M2 by lia. reflexivity. }
rewrite (FTRP_eq _ bp (s + ns));
  [|lia|eapply GET_SIZE_tag; [apply tag_PUT_read; lia|exact Zm]|lia|lia].
rewrite <- X1 in B1'. rewrite <- X2 in B2'.
replace (bp + s + ns) with (bp + (s + ns)) in B2' by lia.
destruct (retag st1 l1 l2' bp (s + ns) false Hout1 B1' B2' ltac:(lia) Zm)
  as (R1 & R2 & R3 & R4).
set (st3 := PUT (PUT st1 (bp - 8) (tag (s + ns) false))
                (bp + (s + ns) - 16) (tag (s + ns) false)) in *.
assert (Hl3 : lists st3 (rm fl (bp + s))).
{ assert (Hr' : forall x, registered (rm fl (bp + s)) x -> addr_of old x).
  { intros x Hx. apply registered_rm in Hx. apply Hro. tauto. }
  unfold st3. apply (lists_PUT _ _ old hl brk); try assumption.
  - apply (lists_PUT _ _ old hl brk); try assumption.
    eapply (inner_clear old); [exact Hch|lia|lia| |left; reflexivity].
    unfold old. rewrite in_app_iff. right. left. reflexivity.
  - eapply (inner_clear old _ _ Hch ltac:(lia) ltac:(lia) (bp + s) ns false).
    + unfold old. rewrite El2, in_app_iff. right. right. left. reflexivity.
    + right. lia. }
cbn [fst].
assert (Hin_nb : In (bp + s, ns, false) old).
{ unfold old. rewrite El2, in_app_iff. right. right. left. reflexivity. }
assert (Hf3 : forall y, registered (rm fl (bp + s)) y ->
                        exists sy, In (y, sy, false) old).
{ intros y Hy. apply registered_rm in Hy. apply cl_free. tauto. }
assert (Hnr : ~ registered (rm fl (bp + s)) bp).
{ intros Hy. apply registered_rm in Hy. apply cl_unregistered. tauto. }
rewrite (insert_live st3 (rm fl (bp + s)) _ old hl brk bp s q Hl3
           (linked_rm _ _ (bp + s) Hlk) Hch ltac:(lia) ltac:(lia)
           Hf3 cl_self Hnr Hq).
unfold st3.
rewrite GET_PUT_far
  by (apply (live_apart old hl brk (bp + s) ns false);
      [exact Hch|lia|lia|exact Hin_nb|right; lia|exact Hq]).
rewrite GET_PUT_far
  by (apply (live_apart old hl brk bp s false);
      [exact Hch|lia|lia|exact cl_self|left; reflexivity|exact Hq]).
unfold st1.
apply (delete_live st fl _ old hl brk (bp + s) q Hlists Hlk Hch);
  [lia|lia|exact cl_free|exact Hrn|exact Hq].
Qed.

Lemma coalesce_prev_live :
last_free false l1 = true -> first_free l2 = false ->
GET (fst (coalesce st bp)) q = GET st q.
Proof.
intros Hp Hn. unfold coalesce. cbv zeta.
rewrite (prev_alloc_eval st l1 l2 bp s fl Hlay Hlk Hnaf), (next_alloc_eval st l1 l2 bp s fl Hlay Hlk Hnaf), Hp, Hn. cbn [negb andb].
destruct (co_parts st l1 l2 bp s fl Hlay Hlk Hnaf) as (B1 & S1 & S2 & T1 & T2 & B2 & Hch & A1 & A2 & A3 & A4).
destruct (co_naf l1 l2 bp s Hnaf) as [N1 N2].
pose proof (co_outer st l1 l2 bp s Hlay) as Hout.
pose proof (co_reg_old l1 l2 bp s fl Hlk) as Hro. pose proof (co_registered l1 l2 bp s fl Hlk) as Hreg.
destruct (last_free_true st l1 l2 bp s fl Hlay Hlk Hnaf Hp) as (l1' & pb & ps & El1 & Epb).
rewrite El1 in B1, N1, Hreg.
apply blocks_last in B1. destruct B1 as (B1 & _ & P2 & P3 & P4 & P5).
pose proof (blocks_le _ _ _ _ B1) as Le1.
pose proof (blocks_le _ _ _ _ B2) as Le2.
destruct (words_size _ _ _ _ T1 S2) as [Z1 _].
destruct (words_size _ _ _ _ P4 P3) as [Z2 _].
destruct (words_size _ _ _ _ P5 P3) as [Z3 _].
assert (Epv : forall st', GET st' (bp - 16) = GET st (bp - 16) ->
                          PREV_BLKP st' bp = pb).
{ intros st' E. rewrite (PREV_BLKP_eq st' bp ps); [lia|lia| |lia].
  unfold GET_SIZE in *. rewrite E. exact Z3. }
rewrite (Epv st eq_refl), (HDRP_eq bp), (HDRP_eq pb), Z1, Z2 by lia.
rewrite (wrap_small (s + ps)) by lia.
change (PACK (s + ps) 0) with (tag (s + ps) false).
assert (Hin_pb : In (pb, ps, false) old).
{ unfold old. rewrite El1, !in_app_iff. cbn [In]. tauto. }
assert (Hin_bp : In (bp, s, false) old).
{ unfold old. rewrite in_app_iff. cbn [In]. tauto. }
(* unlink the predecessor *)
assert (Hrp : registered fl pb).
{ apply Hreg. exists ps. left. apply is_free_app. right.
  apply is_free_cons. tauto. }
destruct (delete_step st fl _ old pb Hout Hch Hlists Hlk Hro Hrp)
  as (D1 & D2 & D3 & D4 & D5 & D6 & D7).
set (st1 := delete st pb) in *.
pose proof D3 as (X1 & X2 & X3). 
assert (B1' : blocks st1 (heap_listp st1) l1' pb).
{ rewrite X1. apply D6; [exact B1|].
  intros y Hy. unfold old. rewrite El1, !in_app_iff. tauto. }
assert (B2' : blocks st1 (pb + (s + ps)) l2 (mem_brk st1)).
{ rewrite X2. replace (pb + (s + ps)) with (bp + s) by lia.
  apply D6; [exact B2|].
  intros y Hy. unfold old. rewrite in_app_iff. cbn [In]. tauto. }
assert (W1 : GET st1 (bp - 16) = GET st (bp - 16)).
{ apply (D7 pb ps false); [exact Hin_pb|right; lia]. }
assert (W2 : GET st1 (bp - 8) = GET st (bp - 8)).
{ apply (D7 bp s false); [exact Hin_bp|left; reflexivity]. }
rewrite (Epv st1 W1), (HDRP_eq pb) by lia.
(* retag the merged span *)
assert (Zm : (s + ps) mod 16 = 0).
{ rewrite Z.add_mod, S2, P3 by lia. reflexivity. }
rewrite (FTRP_eq _ bp s); [|lia| |lia|lia].
2:{ eapply GET_SIZE_tag; [|exact S2].
    rewrite GET_PUT_far by (unfold apart; lia). rewrite W2. exact T1. }
replace (bp + s - 16) with (pb + (s + ps) - 16) by lia.
destruct (retag st1 l1' l2 pb (s + ps) false D4 B1' B2' ltac:(lia) Zm)
  as (R1 & R2 & R3 & R4).
set (st3 := PUT (PUT st1 (pb - 8) (tag (s + ps) false))
                (pb + (s + ps) - 16) (tag (s + ps) false)) in *.
rewrite (Epv st3).
2:{ unfold st3. rewrite !GET_PUT_far by (unfold apart; lia). exact W1. }
assert (Hl3 : lists st3 (rm fl pb)).
{ unfold st3. apply (lists_PUT _ _ old hl brk); try assumption.
  - apply (lists_PUT _ _ old hl brk); try assumption.
    eapply (inner_clear old); [exact Hch|lia|lia|exact Hin_pb|left; reflexivity].
  - eapply (inner_clear old _ _ Hch ltac:(lia) ltac:(lia) bp s false);
      [exact Hin_bp|right; lia]. }
cbn [fst].
assert (Hf3 : forall y, registered (rm fl pb) y ->
                        exists sy, In (y, sy, false) old).
{ intros y Hy. apply registered_rm in Hy. apply cl_free. tauto. }
assert (Hnr : ~ registered (rm fl pb) pb).
{ intros Hy. apply registered_rm in Hy. tauto. }
rewrite (insert_live st3 (rm fl pb) _ old hl brk pb ps q Hl3 D2 Hch
           ltac:(lia) ltac:(lia) Hf3 Hin_pb Hnr Hq).
unfold st3.
rewrite GET_PUT_far
  by (apply (live_apart old hl brk bp s false);
      [exact Hch|lia|lia|exact Hin_bp|right; lia|exact Hq]).
rewrite GET_PUT_far
  by (apply (live_apart old hl brk pb ps false);
      [exact Hch|lia|lia|exact Hin_pb|left; reflexivity|exact Hq]).
unfold st1.
apply (delete_live st fl _ old hl brk pb q Hlists Hlk Hch);
  [lia|lia|exact cl_free|exact Hrp|exact Hq].
Qed.

Lemma coalesce_both_live :
last_free false l1 = true -> first_free l2 = true ->
GET (fst (coalesce st bp)) q = GET st q.
Proof.
intros Hp Hn. unfold coalesce. cbv zeta.
rewrite (prev_alloc_eval st l1 l2 bp s fl Hlay Hlk Hnaf), (next_alloc_eval st l1 l2 bp s fl Hlay Hlk Hnaf), Hp, Hn. cbn [negb andb].
destruct (co_parts st l1 l2 bp s fl Hlay Hlk Hnaf) as (B1 & S1 & S2 & T1 & T2 & B2 & Hch & A1 & A2 & A3 & A4).
destruct (co_naf l1 l2 bp s Hnaf) as [N1 N2].
pose proof (co_outer st l1 l2 bp s Hlay) as Hout.
pose proof (co_reg_old l1 l2 bp s fl Hlk) as Hro. pose proof (co_registered l1 l2 bp s fl Hlk) as Hreg.
destruct (next_word st l1 l2 bp s fl Hlay Hlk Hnaf) as (E1 & E2 & _).
destruct (last_free_true st l1 l2 bp s fl Hlay Hlk Hnaf Hp) as (l1' & pb & ps & El1 & Epb).
destruct (first_free_true st l1 l2 bp s fl Hlay Hlk Hnaf Hn) as (ns & l2' & El2).
rewrite El1 in B1, N1, Hreg. rewrite El2 in B2, N2, Hreg.
apply blocks_last in B1. destruct B1 as (B1 & _ & P2 & P3 & P4 & P5).
apply blocks_cons in B2. destruct B2 as (_ & M1 & M2 & M3 & M4 & B2).
pose proof (blocks_le _ _ _ _ B1) as Le1.
pose proof (blocks_le _ _ _ _ B2) as Le2.
destruct (words_size _ _ _ _ T1 S2) as [Z1 _].
destruct (words_size _ _ _ _ P4 P3) as [Z2 _].
destruct (words_size _ _ _ _ P5 P3) as [Z3 _].
destruct (words_size _ _ _ _ M3 M2) as [Z4 _].
destruct (words_size _ _ _ _ M4 M2) as [Z5 _].
assert (Epv : forall st', GET st' (bp - 16) = GET st (bp - 16) ->
                          PREV_BLKP st' bp = pb).
{ intros st' E. rewrite (PREV_BLKP_eq st' bp ps); [lia|lia| |lia].
  unfold GET_SIZE in *. rewrite E. exact Z3. }
assert (Enx : forall st', GET st' (bp - 8) = GET st (bp - 8) ->
                          NEXT_BLKP st' bp = bp + s).
{ intros st' E. apply NEXT_BLKP_eq; try lia.
  unfold GET_SIZE in *. rewrite E. exact Z1. }
rewrite (Epv st eq_refl), E1, (HDRP_eq bp), (HDRP_eq pb), Z1, Z2 by lia.
rewrite (FTRP_eq st (bp + s) ns) by (assumption || lia).
rewrite Z5.
rewrite (wrap_small (ps + ns)), (wrap_small (s + (ps + ns))) by lia.
change (PACK (s + (ps + ns)) 0) with (tag (s + (ps + ns)) false).
assert (Hin_pb : In (pb, ps, false) old).
{ unfold old. rewrite El1, !in_app_iff. cbn [In]. tauto. }
assert (Hin_bp : In (bp, s, false) old).
{ unfold old. rewrite in_app_iff. cbn [In]. tauto. }
assert (Hin_nb : In (bp + s, ns, false) old).
{ unfold old. rewrite El2, in_app_iff. cbn [In]. tauto. }
(* unlink the predecessor *)
assert (Hrp : registered fl pb).
{ apply Hreg. exists ps. left. apply is_free_app. right.
  apply is_free_cons. tauto. }
destruct (delete_step st fl _ old pb Hout Hch Hlists Hlk Hro Hrp)
  as (D1 & D2 & D3 & D4 & D5 & D6 & D7).
set (st1 := delete st pb) in *.
pose proof D3 as (X1 & X2 & X3). 
assert (W1 : GET st1 (bp - 16) = GET st (bp - 16)).
{ apply (D7 pb ps false); [exact Hin_pb|right; lia]. }
assert (W2 : GET st1 (bp - 8) = GET st (bp - 8)).
{ apply (D7 bp s false); [exact Hin_bp|left; reflexivity]. }
assert (W3 : GET st1 (bp + s - 8) = GET st (bp + s - 8)).
{ apply (D7 (bp + s) ns false); [exact Hin_nb|left; reflexivity]. }
rewrite (Enx st1 W2).
(* unlink the successor *)
assert (Hrn : registered (rm fl pb) (bp + s)).
{ apply registered_rm. split; [|lia].
  apply Hreg. exists ns. right. apply is_free_cons. tauto. }
assert (Hch1 : chain (heap_listp st1) old (mem_brk st1))
  by (rewrite X1, X2; exact Hch).
destruct (delete_step st1 (rm fl pb) _ old (bp + s) D4 Hch1 D1 D2 D5 Hrn)
  as (F1 & F2 & F3 & F4 & F5 & F6 & F7).
set (st2 := delete st1 (bp + s)) in *.
pose proof F3 as (Y1 & Y2 & Y3).
assert (B1' : blocks st2 (heap_listp st2) l1' pb).
{ rewrite Y1, X1. apply F6; [apply D6; [exact B1|]|];
    intros y Hy; unfold old; rewrite El1, !in_app_iff; tauto. }
assert (B2' : blocks st2 (pb + (s + (ps + ns))) l2' (mem_brk st2)).
{ rewrite Y2, X2. replace (pb + (s + (ps + ns))) with (bp + s + ns) by lia.
  apply F6; [apply D6; [exact B2|]|];
    intros y Hy; unfold old; rewrite El2, in_app_iff; cbn [In]; tauto. }
assert (V1 : GET st2 (bp - 16) = GET st (bp - 16)).
{ rewrite <- W1. apply (F7 pb ps false); [exact Hin_pb|right; lia]. }
assert (V2 : GET st2 (bp - 8) = GET st (bp - 8)).
{ rewrite <- W2. apply (F7 bp s false); [exact Hin_bp|left; reflexivity]. }
assert (V3 : GET st2 (bp + s - 8) = GET st (bp + s - 8)).
{ rewrite <- W3. apply (F7 (bp + s) ns false); [exact Hin_nb|left; reflexivity]. }
rewrite (Epv st2 V1), (HDRP_eq pb) by lia.
(* retag the merged span *)
assert (Zm : (s + (ps + ns)) mod 16 = 0).
{ rewrite Z.add_mod, (Z.add_mod ps), S2, P3, M2 by lia. reflexivity. }
rewrite (Enx (PUT st2 (pb - 8) _)).
2:{ rewrite GET_PUT_far by (unfold apart; lia). exact V2. }
rewrite (FTRP_eq _ (bp + s) ns); [|lia| |lia|lia].
2:{ eapply GET_SIZE_tag; [|exact M2].
    rewrite GET_PUT_far by (unfold apart; lia).
    replace (bp + s - 8) with (bp + s - 8) by lia. rewrite V3. exact M3. }
replace (bp + s + ns - 16) with (pb + (s + (ps + ns)) - 16) by lia.
destruct (retag st2 l1' l2' pb (s + (ps + ns)) false F4 B1' B2'
            ltac:(lia) Zm) as (R1 & R2 & R3 & R4).
set (st4 := PUT (PUT st2 (pb - 8) (tag (s + (ps + ns)) false))
                (pb + (s + (ps + ns)) - 16)
                (tag (s + (ps + ns)) false)) in *.
rewrite (Epv st4).
2:{ unfold st4. rewrite !GET_PUT_far by (unfold apart; lia). exact V1. }
assert (Hl4 : lists st4 (rm (rm fl pb) (bp + s))).
{ unfold st4. apply (lists_PUT _ _ old hl brk); try assumption.
  - apply (lists_PUT _ _ old hl brk); try assumption.
    eapply (inner_clear old); [exact Hch|lia|lia|exact Hin_pb|left; reflexivity].
  - eapply (inner_clear old _ _ Hch ltac:(lia) ltac:(lia) (bp + s) ns false);
      [exact Hin_nb|right; lia]. }
cbn [fst].
assert (Hf1 : forall y, registered (rm fl pb) y ->
                        exists sy, In (y, sy, false) old).
{ intros y Hy. apply registered_rm in Hy. apply cl_free. tauto. }
assert (Hf4 : forall y, registered (rm (rm fl pb) (bp + s)) y ->
                        exists sy, In (y, sy, false) old).
{ intros y Hy. apply registered_rm in Hy. apply Hf1. tauto. }
assert (Hnr : ~ registered (rm (rm fl pb) (bp + s)) pb).
{ intros Hy. apply registered_rm in Hy. destruct Hy as [Hy _].
  apply registered_rm in Hy. tauto. }
rewrite (insert_live st4 (rm (rm fl pb) (bp + s)) _ old hl brk pb ps q
           Hl4 F2 Hch ltac:(lia) ltac:(lia) Hf4 Hin_pb Hnr Hq).
unfold st4.
rewrite GET_PUT_far
  by (apply (live_apart old hl brk (bp + s) ns false);
      [exact Hch|lia|lia|exact Hin_nb|right; lia|exact Hq]).
rewrite GET_PUT_far
  by (apply (live_apart old hl brk pb ps false);
      [exact Hch|lia|lia|exact Hin_pb|left; reflexivity|exact Hq]).
unfold st2.
rewrite (delete_live st1 (rm fl pb) _ old hl brk (bp + s) q D1 D2 Hch
           ltac:(lia) ltac:(lia) Hf1 Hrn Hq).
unfold st1.
apply (delete_live st fl _ old hl brk pb q Hlists Hlk Hch);
  [lia|lia|exact cl_free|exact Hrp|exact Hq].
Qed.

Lemma coalesce_live : GET (fst (coalesce st bp)) q = GET st q.
Proof.
destruct (last_free false l1) eqn:Hp; destruct (first_free l2) eqn:Hn.
- apply coalesce_both_live; assumption.
- apply coalesce_prev_live; assumption.
- apply coalesce_next_live; assumption.
- apply coalesce_none_live; assumption.
Qed.
End CoalesceLive.

Section PlaceLive.
Variables (st : state) (l1 l2 : list block) (bp cs : Z) (fl : table)
        (asize : Z) (q : Z).
Hypothesis Hinv : heap_inv st (l1 ++ (bp, cs, false) :: l2) fl.
Hypothesis Hsz : 32 <= asize <= cs.
Hypothesis Hmod : asize mod 16 = 0.
Hypothesis Hq : live (l1 ++ (bp, cs, false) :: l2) q.

Let old : list block := l1 ++ (bp, cs, false) :: l2.

Lemma pl_free (y : Z) :
registered fl y -> exists sy, In (y, sy, false) old.
Proof.
intros Hy. destruct Hinv as (_ & _ & (_ & _ & K & _) & _).
apply K in Hy. exact Hy.
Qed.

Lemma place_split_live :
32 <= cs - asize -> GET (place st bp asize) q = GET st q.
Proof.
intros Hrem.
destruct (heap_inv_parts _ _ _ _ _ _ _ Hinv)
  as (Ho & B1 & S1 & S2 & T1 & T2 & B2 & Hch & A1 & A2 & A3 & A4 & Hreg).
pose proof (place_registered st l1 l2 bp cs fl Hinv) as Hrb. pose proof (place_linked_rest st l1 l2 bp cs fl asize Hinv Hsz) as Hlr.
destruct Hinv as (Hlay & Hl & Hlk & Hn).
destruct (words_size _ _ _ _ T1 S2) as [Z1 _].
assert (Hin : In (bp, cs, false) old).
{ unfold old. rewrite in_app_iff. right. left. reflexivity. }
assert (Zr : (cs - asize) mod 16 = 0).
{ rewrite Zminus_mod, S2, Hmod. reflexivity. }
unfold place. rewrite (HDRP_eq bp), Z1 by lia.
rewrite (wrap_small (cs - asize)) by lia.
change (wrap (2 * DSIZE)) with 32.
destruct (Z.geb_spec (cs - asize) 32) as [_|]; [|lia].
change (PACK asize 1) with (tag asize true).
change (PACK (cs - asize) 0) with (tag (cs - asize) false).
cbv zeta.
rewrite (FTRP_eq _ bp asize); [|lia| |lia|lia].
2:{ eapply GET_SIZE_tag; [apply tag_PUT_read; lia|exact Hmod]. }
(* the allocated part *)
destruct (retag_upto st l1 l2 bp asize (bp + cs) true Ho B1 B2
            ltac:(lia) Hmod ltac:(lia)) as (R1 & R2 & R3 & R4).
set (st2 := PUT (PUT st (bp - 8) (tag asize true))
                (bp + asize - 16) (tag asize true)) in *.
assert (Hl2 : lists st2 fl).
{ unfold st2.
  apply (lists_PUT _ _ _ _ _ _ _ (lists_PUT _ _ _ _ _ _ _ Hl Hch A1 A4 Hreg
           (inner_clear _ _ _ Hch A1 A4 bp cs false _ Hin (or_introl eq_refl)))
           Hch A1 A4 Hreg).
  apply (inner_clear _ _ _ Hch A1 A4 bp cs false _ Hin). right. lia. }
(* unlink the block *)
destruct (delete_step st2 fl _ old bp R1 Hch Hl2 Hlk Hreg Hrb)
  as (D1 & D2 & D3 & D4 & D5 & D6 & D7).
set (st3 := delete st2 bp) in *.
pose proof D3 as (X1 & X2 & X3).
assert (W1 : GET st3 (bp - 8) = tag asize true).
{ rewrite (D7 bp cs false); [|exact Hin|left; reflexivity].
  apply blocks_cons in R3. tauto. }
assert (W2 : GET st3 (bp + asize - 16) = tag asize true).
{ rewrite (D7 bp cs false); [|exact Hin|right; lia].
  apply blocks_cons in R3. tauto. }
rewrite (NEXT_BLKP_eq st3 bp asize); [|lia| |lia|lia].
2:{ eapply GET_SIZE_tag; eassumption. }
rewrite (HDRP_eq (bp + asize)) by lia.
rewrite (FTRP_eq _ (bp + asize) (cs - asize)); [|lia| |lia|lia].
2:{ eapply GET_SIZE_tag; [|exact Zr].
    replace (bp + asize - 8) with (bp + asize - 8) by lia.
    apply tag_PUT_read; lia. }
replace (bp + asize + (cs - asize) - 16) with (bp + cs - 16) by lia.
(* the remainder *)
assert (B1' : blocks st3 (heap_listp st3) (l1 ++ [(bp, asize, true)]) (bp + asize)).
{ apply blocks_app. exists bp. split.
  - rewrite X1. apply D6; [exact R2|].
    intros y Hy. unfold old. rewrite in_app_iff. tauto.
  - apply blocks_cons. repeat split; try assumption; try lia. constructor. }
assert (B2' : blocks st3 (bp + asize + (cs - asize)) l2 (mem_brk st3)).
{ rewrite X2. replace (bp + asize + (cs - asize)) with (bp + cs) by lia.
  apply D6; [exact R4|].
  intros y Hy. unfold old. rewrite in_app_iff. cbn [In]. tauto. }
destruct (retag st3 _ l2 (bp + asize) (cs - asize) false D4 B1' B2'
            Hrem Zr) as (Q1 & Q2 & Q3 & Q4).
replace (bp + asize + (cs - asize) - 16) with (bp + cs - 16) in * by lia.
set (st5 := PUT (PUT st3 (bp + asize - 8) (tag (cs - asize) false))
                (bp + cs - 16) (tag (cs - asize) false)) in *.
assert (Hl5 : lists st5 (rm fl bp)).
{ unfold st5.
  apply (lists_PUT _ _ old (heap_listp st) (mem_brk st)); try assumption.
  - apply (lists_PUT _ _ old (heap_listp st) (mem_brk st)); try assumption.
    apply (inner_clear _ _ _ Hch A1 A4 bp cs false _ Hin). right. lia.
  - apply (inner_clear _ _ _ Hch A1 A4 bp cs false _ Hin). right. lia. }
assert (Hlay5 : layout st5 ((l1 ++ [(bp, asize, true)])
                              ++ (bp + asize, cs - asize, false) :: l2)).
{ apply layout_blocks. split; [exact Q1|].
  apply blocks_app. exists (bp + asize). split; [exact Q2|].
  change ((bp + asize, cs - asize, false) :: l2)
    with ([(bp + asize, cs - asize, false)] ++ l2).
  apply blocks_app. exists (bp + asize + (cs - asize)). tauto. }
assert (Hlk5 : linked (is_free ((l1 ++ [(bp, asize, true)])
                                  ++ (bp + asize, cs - asize, true) :: l2))
                      (rm fl bp)).
{ eapply linked_equiv; [|exact Hlr].
  intros x s'. cbv beta.
  rewrite !is_free_app, !is_free_cons, is_free_nil. intuition congruence. }
apply naf_app in Hn. cbn [naf negb] in Hn. destruct Hn as (N1 & N2 & N3).
assert (Hlf : last_free false l1 = false).
{ destruct (last_free false l1); [|reflexivity].
  specialize (N2 eq_refl). discriminate. }
assert (Hn5 : naf false ((l1 ++ [(bp, asize, true)])
                           ++ (bp + asize, cs - asize, true) :: l2)).
{ rewrite !naf_app. cbn [naf negb].
  repeat split; try assumption; try reflexivity. apply naf_weaken, N3. }
assert (Hff : first_free l2 = false).
{ clear -N3. destruct l2 as [|[[nb ns] na] l2']; [reflexivity|].
  cbn [naf first_free] in *. destruct na; [reflexivity|].
  destruct N3 as [N3 _]. specialize (N3 eq_refl). discriminate. }
assert (Hq5 : live ((l1 ++ [(bp, asize, true)])
                      ++ (bp + asize, cs - asize, false) :: l2) q).
{ destruct Hq as (b & sb & Hb & H1 & H2). exists b, sb. split; [|lia].
  rewrite !in_app_iff in *. cbn [In] in *.
  destruct Hb as [Hb|[Hb|Hb]]; [tauto|discriminate|tauto]. }
rewrite (coalesce_live st5 _ l2 (bp + asize) (cs - asize) (rm fl bp) q
           Hlay5 Hl5 Hlk5 Hn5 Hq5).
unfold st5.
rewrite GET_PUT_far
  by (apply (live_apart_free old (heap_listp st) (mem_brk st) bp cs);
      [exact Hch|lia|lia|exact Hin|lia|exact Hq]).
rewrite GET_PUT_far
  by (apply (live_apart_free old (heap_listp st) (mem_brk st) bp cs);
      [exact Hch|lia|lia|exact Hin|lia|exact Hq]).
unfold st3.
rewrite (delete_live st2 fl _ old (heap_listp st) (mem_brk st) bp q Hl2 Hlk Hch A1 A4 pl_free Hrb Hq).
unfold st2.
rewrite GET_PUT_far
  by (apply (live_apart_free old (heap_listp st) (mem_brk st) bp cs);
      [exact Hch|lia|lia|exact Hin|lia|exact Hq]).
rewrite GET_PUT_far
  by (apply (live_apart_free old (heap_listp st) (mem_brk st) bp cs);
      [exact Hch|lia|lia|exact Hin|lia|exact Hq]).
reflexivity.
Qed.

Lemma place_whole_live :
cs - asize < 32 -> GET (place st bp asize) q = GET st q.
Proof.
intros Hrem.
destruct (heap_inv_parts _ _ _ _ _ _ _ Hinv)
  as (Ho & B1 & S1 & S2 & T1 & T2 & B2 & Hch & A1 & A2 & A3 & A4 & Hreg).
pose proof (place_registered st l1 l2 bp cs fl Hinv) as Hrb. pose proof (place_linked_rest st l1 l2 bp cs fl asize Hinv Hsz) as Hlr.
destruct Hinv as (Hlay & Hl & Hlk & Hn).
destruct (words_size _ _ _ _ T1 S2) as [Z1 _].
assert (Hin : In (bp, cs, false) old).
{ unfold old. rewrite in_app_iff. right. left. reflexivity. }
unfold place. rewrite (HDRP_eq bp), Z1 by lia.
rewrite (wrap_small (cs - asize)) by lia.
change (wrap (2 * DSIZE)) with 32.
destruct (Z.geb_spec (cs - asize) 32) as [|_]; [lia|].
change (PACK cs 1) with (tag cs true). cbv zeta.
rewrite (FTRP_eq _ bp cs); [|lia| |lia|lia].
2:{ eapply GET_SIZE_tag; [apply tag_PUT_read; lia|exact S2]. }
destruct (retag st l1 l2 bp cs true Ho B1 B2 S1 S2) as (R1 & R2 & R3 & R4).
set (st2 := PUT (PUT st (bp - 8) (tag cs true)) (bp + cs - 16) (tag cs true)) in *.
assert (Hl2 : lists st2 fl).
{ unfold st2.
  apply (lists_PUT _ _ _ _ _ _ _ (lists_PUT _ _ _ _ _ _ _ Hl Hch A1 A4 Hreg
           (inner_clear _ _ _ Hch A1 A4 bp cs false _ Hin (or_introl eq_refl)))
           Hch A1 A4 Hreg).
  apply (inner_clear _ _ _ Hch A1 A4 bp cs false _ Hin). right. lia. }
rewrite (delete_live st2 fl _ old (heap_listp st) (mem_brk st) bp q Hl2 Hlk Hch A1 A4 pl_free Hrb Hq).
unfold st2.
rewrite GET_PUT_far
  by (apply (live_apart_free old (heap_listp st) (mem_brk st) bp cs);
      [exact Hch|lia|lia|exact Hin|lia|exact Hq]).
rewrite GET_PUT_far
  by (apply (live_apart_free old (heap_listp st) (mem_brk st) bp cs);
      [exact Hch|lia|lia|exact Hin|lia|exact Hq]).
reflexivity.
Qed.

Lemma place_live : GET (place st bp asize) q = GET st q.
Proof.
destruct (Z_lt_le_dec (cs - asize) 32) as [Hw|Hs].
- apply place_whole_live, Hw.
- apply place_split_live, Hs.
Qed.
End PlaceLive.

Lemma live_mono (l l' : list block) (q : Z) :
  (forall b s, In (b, s, true) l -> In (b, s, true) l') ->
  live l q -> live l' q.
Proof.
  intros H (b & s & Hin & H1 & H2). exists b, s. split; [apply H, Hin|lia].
Qed.

Lemma free_live (st : state) (l1 l2 : list block) (p s : Z) (fl : table)
      (q : Z) :
  heap_inv st (l1 ++ (p, s, true) :: l2) fl -> live (l1 ++ l2) q ->
  GET (free st p) q = GET st q.
Proof.
  intros Hinv Hq.
  destruct (freed_parts st l1 l2 p s fl Hinv) as (E & P1 & P2 & _).
  pose proof Hinv as ((H16 & Hc & Hmax & _) & _ & Hlk & Hn).
  rewrite free_freed.
  rewrite (coalesce_live (freed st p) l1 l2 p s fl q P1 P2 Hlk Hn).
  - rewrite E.
    assert (Hq' : live (l1 ++ (p, s, true) :: l2) q).
    { apply (live_mono (l1 ++ l2)); [|exact Hq].
      intros b sb. rewrite !in_app_iff. cbn [In]. tauto. }
    assert (Hp : In (p, s, true) (l1 ++ (p, s, true) :: l2))
      by (rewrite in_app_iff; right; left; reflexivity).
    rewrite GET_PUT_far
      by (apply (live_apart _ _ _ p s true _ _ Hc H16 ltac:(lia) Hp);
          [right; reflexivity|exact Hq']).
    rewrite GET_PUT_far
      by (apply (live_apart _ _ _ p s true _ _ Hc H16 ltac:(lia) Hp);
          [left; reflexivity|exact Hq']).
    reflexivity.
  - apply (live_mono (l1 ++ l2)); [|exact Hq].
    intros b sb. rewrite !in_app_iff. cbn [In]. tauto.
Qed.

Lemma extend_live (st : state) (bl : list block) (fl : table) (words q : Z) :
  heap_inv st bl fl -> 4 <= words -> words mod 2 = 0 -> words * 8 < 2 ^ 64 ->
  live bl q -> GET (fst (extend_heap st words)) q = GET st q.
Proof.
  intros Hinv H1 H2 H3 Hq.
  destruct (heap_inv_bounds _ _ _ Hinv) as [B1 B2].
  pose proof Hinv as ((H16 & Hc & _) & _).
  rewrite (extend_heap_eval st words) by lia.
  destruct (Z.gtb_spec (mem_brk st + words * 8) (mem_max_addr st)) as [Hf|Hs];
    [reflexivity|].
  assert (Zm : (words * 8) mod 16 = 0).
  { pose proof (Z.div_mod words 2 ltac:(lia)) as D. rewrite H2 in D.
    replace (words * 8) with ((words / 2) * 16) by lia.
    apply Z.mod_mul. lia. }
  destruct (grown_parts st bl fl (words * 8) Hinv ltac:(lia) Zm Hs)
    as (P1 & P2 & P3 & P4).
  rewrite (coalesce_live _ bl [] (mem_brk st) (words * 8) fl q P1 P2 P3 P4).
  - unfold grown.
    rewrite !GET_PUT_far
      by (apply (live_apart_beyond bl (heap_listp st) (mem_brk st));
          [exact Hc|exact H16|lia|lia|exact Hq]).
    reflexivity.
  - apply (live_mono bl); [|exact Hq].
    intros b sb Hb. rewrite in_app_iff. tauto.
Qed.

Lemma malloc_live (st : state) (bl : list block) (fl : table) (n : Z)
      (fuel : nat) (st' : state) (p q : Z) :
  heap_inv st bl fl -> 0 < n -> n + 31 < 2 ^ 64 -> (length bl < fuel)%nat ->
  malloc fuel st n = Some (st', p) -> live bl q ->
  GET st' q = GET st q.
Proof.
  intros Hinv Hn Hov Hf E Hq.
  pose proof (heap_inv_fuel st bl fl fuel Hinv Hf) as Hen.
  destruct (adjust_small n Hn Hov) as (_ & A1 & A2 & A3 & A4).
  destruct (adjust_words n Hn Hov) as (W0 & W1 & W2 & W3).
  destruct (malloc_paths st bl fl n fuel Hinv Hn Hov Hen)
    as [(l1 & l2 & r & cs & El & Hcs & _ & Hr & Em)
       |[(_ & _ & Em)|(_ & Hle & Hnn & Em)]];
    rewrite Em in E; injection E as <- <-.
  - rewrite El in Hinv, Hq.
    apply (place_live st l1 l2 r cs fl (adjust n) q Hinv ltac:(lia) A2 Hq).
  - reflexivity.
  - destruct (extend_heap_spec st bl fl (adjust n / 8) Hinv W1 W2 ltac:(lia))
      as [_ Hok].
    rewrite W3 in Hok.
    destruct (Hok Hle) as (la & lb & s' & fl1 & I1 & I2 & _ & _ & _ & _ & I7).
    rewrite <- (extend_live st bl fl (adjust n / 8) q Hinv W1 W2 ltac:(lia) Hq).
    apply (place_live _ la lb _ s' fl1 (adjust n) q I1 ltac:(lia) A2).
    apply (live_mono bl); [|exact Hq].
    intros b sb Hb. apply I7 in Hb. rewrite in_app_iff in Hb |- *.
    cbn [In]. tauto.
Qed.

(** ** From words to bytes *)

Lemma load_byte (m : Z -> Z) :
  forall (k n : nat) (p : Z), (k < n)%nat ->
    (load_bytes m p n / 256 ^ Z.of_nat k) mod 256
    = m (wrap (p + Z.of_nat k)) mod 256.
Proof.
  induction k as [|k IH]; intros n p Hk;
    (destruct n as [|n]; [lia|]); cbn [load_bytes];
    replace (m (wrap p) mod 256 + 256 * load_bytes m (p + 1) n)
      with (m (wrap p) mod 256 + load_bytes m (p + 1) n * 256) by lia.
  - change (Z.of_nat 0) with 0. rewrite Z.pow_0_r, Z.div_1_r, Z.add_0_r.
    rewrite Z.mod_add by lia. apply Z.mod_mod. lia.
  - replace (Z.of_nat (S k)) with (1 + Z.of_nat k) by lia.
    rewrite Z.pow_add_r by lia. change (256 ^ 1) with 256.
    rewrite <- Z.div_div by lia.
    assert (B : 0 <= m (wrap p) mod 256 < 256) by (apply Z.mod_pos_bound; lia).
    rewrite Z.div_add by lia.
    rewrite (Z.div_small (m (wrap p) mod 256)) by lia. rewrite Z.add_0_l.
    rewrite (IH n (p + 1)) by lia.
    replace (p + (1 + Z.of_nat k)) with (p + 1 + Z.of_nat k) by lia. reflexivity.
Qed.

Lemma bytes_of_words (st st' : state) (lo hi : Z) :
  (forall q, lo <= q -> q + 8 <= hi -> GET st' q = GET st q) ->
  0 <= lo -> lo + 8 <= hi -> hi <= 2 ^ 64 ->
  forall a, lo <= a < hi -> mem st' a mod 256 = mem st a mod 256.
Proof.
  intros Hw H0 H1 H2 a Ha.
  set (q := Z.min a (hi - 8)).
  assert (Hq : lo <= q /\ q + 8 <= hi /\ 0 <= a - q < 8) by (unfold q; lia).
  pose proof (Hw q ltac:(lia) ltac:(lia)) as E. unfold GET in E.
  pose proof (load_byte (mem st') (Z.to_nat (a - q)) 8 q ltac:(lia)) as L'.
  pose proof (load_byte (mem st) (Z.to_nat (a - q)) 8 q ltac:(lia)) as L.
  rewrite Z2Nat.id in L, L' by lia.
  replace (q + (a - q)) with a in L, L' by lia.
  rewrite (wrap_small a) in L, L' by lia.
  rewrite <- L, <- L', E. reflexivity.
Qed.

Lemma free_payload (st : state) (bl : list block) (fl : table)
      (p s b sb : Z) :
  heap_inv st bl fl -> In (p, s, true) bl ->
  In (b, sb, true) bl -> b <> p ->
  (forall q, b <= q -> q + 8 <= b + sb - 16 ->
             GET (free st p) q = GET st q)
  /\ (forall a, b <= a < b + sb - 16 ->
                mem (free st p) a mod 256 = mem st a mod 256).
Proof.
  intros Hinv Hp Hb Hne.
  assert (Hw : forall q, b <= q -> q + 8 <= b + sb - 16 ->
                         GET (free st p) q = GET st q).
  { intros q Q1 Q2.
    destruct (in_split _ _ Hp) as (l1 & l2 & El). rewrite El in Hinv, Hb.
    apply (free_live st l1 l2 p s fl q Hinv).
    exists b, sb. split; [|lia].
    rewrite in_app_iff in Hb |- *. cbn [In] in Hb.
    destruct Hb as [Hb|[Hb|Hb]]; [tauto| |tauto].
    exfalso. apply Hne. congruence. }
  split; [exact Hw|].
  pose proof Hinv as ((H16 & Hc & Hmax & _) & _).
  pose proof (chain_In _ _ _ _ _ _ Hc Hb) as (C1 & C2 & C3 & C4).
  apply (bytes_of_words st (free st p) b (b + sb - 16) Hw); lia.
Qed.

Lemma malloc_payload (st : state) (bl : list block) (fl : table) (n : Z)
      (fuel : nat) (st' : state) (p b sb : Z) :
  heap_inv st bl fl -> 0 < n -> n + 31 < 2 ^ 64 -> (length bl < fuel)%nat ->
  malloc fuel st n = Some (st', p) ->
  In (b, sb, true) bl ->
  (forall q, b <= q -> q + 8 <= b + sb - 16 -> GET st' q = GET st q)
  /\ (forall a, b <= a < b + sb - 16 -> mem st' a mod 256 = mem st a mod 256).
Proof.
  intros Hinv Hn Hov Hf E Hb.
  assert (Hw : forall q, b <= q -> q + 8 <= b + sb - 16 ->
                         GET st' q = GET st q).
  { intros q Q1 Q2.
    apply (malloc_live st bl fl n fuel st' p q Hinv Hn Hov Hf E).
    exists b, sb. split; [exact Hb|lia]. }
  split; [exact Hw|].
  pose proof Hinv as ((H16 & Hc & Hmax & _) & _).
  pose proof (chain_In _ _ _ _ _ _ Hc Hb) as (C1 & C2 & C3 & C4).
  apply (bytes_of_words st st' b (b + sb - 16) Hw); lia.
Qed.

(** X13: [free] of an allocated block changes no byte in the payload of
    any other allocated block: every eight-byte word, at any alignment,
    and every byte between the header and the footer of such a block
    reads after the call as it did before. *)
Theorem free_keeps_payloads :
  forall (st : state) (bl : list block) (fl : table) (p s b sb : Z),
    heap_inv st bl fl -> In (p, s, true) bl ->
    In (b, sb, true) bl -> b <> p ->
    (forall q, b <= q -> q + 8 <= b + sb - 16 ->
               GET (free st p) q = GET st q)
    /\ (forall a, b <= a < b + sb - 16 ->
                  mem (free st p) a mod 256 = mem st a mod 256).
Proof. exact free_payload. Qed.

(** X14: [malloc] changes no byte in the payload of any block that is
    allocated when it is called, whether it takes a block from a list,
    splits one or grows the heap. *)
Theorem malloc_keeps_payloads :
  forall (st : state) (bl : list block) (fl : table) (n : Z) (fuel : nat)
         (st' : state) (p b sb : Z),
    heap_inv st bl fl -> 0 < n -> n + 31 < 2 ^ 64 -> (length bl < fuel)%nat ->
    malloc fuel st n = Some (st', p) ->
    In (b, sb, true) bl ->
    (forall q, b <= q -> q + 8 <= b + sb - 16 -> GET st' q = GET st q)
    /\ (forall a, b <= a < b + sb - 16 -> mem st' a mod 256 = mem st a mod 256).
Proof. exact malloc_payload. Qed.

(** A heap with two allocated blocks. *)
Lemma two_blocks :
  heap_inv (place (place booted 4112 32) 4144 48)
           ([(4112, 32, true)] ++ (4144, 48, true) :: [(4192, 176, false)])
           (push (rm (push (rm (push empty_table 4 4112) 4112) 3 4144) 4144)
                 3 4192).
Proof.
  exact (proj1 (proj2 (place_split (place booted 4112 32) [(4112, 32, true)] []
                         4144 224 _ 48 split_heap
                         ltac:(lia) ltac:(reflexivity) ltac:(lia)))).
Qed.

Lemma free_keeps_payloads_witness :
  mem (free (place (place booted 4112 32) 4144 48) 4112) 4150 mod 256
  = mem (place (place booted 4112 32) 4144 48) 4150 mod 256.
Proof.
  exact (proj2 (free_keeps_payloads _ _ _ 4112 32 4144 48 two_blocks
                  ltac:(cbn; tauto) ltac:(cbn; tauto) ltac:(lia))
               4150 ltac:(lia)).
Defined.

Lemma malloc_keeps_payloads_witness :
  mem (after (malloc 10 (place booted 4112 32) 24) (place booted 4112 32)) 4120
    mod 256
  = mem (place booted 4112 32) 4120 mod 256.
Proof.
  exact (proj2 (malloc_keeps_payloads (place booted 4112 32) _ _ 24 10 _ 4144
                  4112 32 split_heap ltac:(lia) ltac:(lia) ltac:(cbn; lia)
                  (run_eq (malloc 10 (place booted 4112 32) 24) 4144
                          (place booted 4112 32)
                          ltac:(vm_compute; reflexivity))
                  ltac:(cbn; tauto))
               4120 ltac:(lia)).
Defined.

(** ** Writing into a payload: [memcpy] and [memset] *)

Lemma load_bytes_ext (m m' : Z -> Z) (n : nat) :
  forall p,
    (forall i, 0 <= i < Z.of_nat n -> m' (wrap (p + i)) = m (wrap (p + i))) ->
    load_bytes m' p n = load_bytes m p n.
Proof.
  induction n as [|n IH]; intros p H; cbn [load_bytes]; [reflexivity|].
  rewrite IH.
  - specialize (H 0 ltac:(lia)). rewrite Z.add_0_r in H. rewrite H. reflexivity.
  - intros i Hi. replace (p + 1 + i) with (p + (i + 1)) by lia. apply H. lia.
Qed.

(** A change of memory inside the bytes [lo .. hi) is not seen by a word
    that lies outside them. *)
Lemma GET_outside (st : state) (m' : Z -> Z) (lo hi q : Z) :
  (forall a, 0 <= a < 2 ^ 64 -> ~ (lo <= a < hi) -> m' a = mem st a) ->
  0 <= q -> q + 8 <= 2 ^ 64 -> q + 8 <= lo \/ hi <= q ->
  GET (set_mem st m') q = GET st q.
Proof.
  intros Hm H0 H1 Hq. unfold GET. cbn [mem set_mem].
  apply load_bytes_ext. intros i Hi. change (Z.of_nat 8) with 8 in Hi.
  rewrite (wrap_small (q + i)) by lia. apply Hm; lia.
Qed.

(** Writing between the header and the footer of an allocated block keeps
    the heap valid. *)
Lemma heap_inv_write (st : state) (bl : list block) (fl : table)
      (u su : Z) (m' : Z -> Z) :
  heap_inv st bl fl -> In (u, su, true) bl ->
  (forall a, 0 <= a < 2 ^ 64 -> ~ (u <= a < u + su - 16) -> m' a = mem st a) ->
  heap_inv (set_mem st m') bl fl.
Proof.
  intros Hinv Hu Hm.
  pose proof Hinv as (Hlay & Hl & Hlk & Hn).
  pose proof Hlay as (H16 & Hc & Hmax & _).
  pose proof (chain_In _ _ _ _ _ _ Hc Hu) as (U1 & U2 & U3 & U4).
  set (P := fun q => 0 <= q /\ q + 8 <= 2 ^ 64
                     /\ (q + 8 <= u \/ u + su - 16 <= q)).
  assert (Hp : preserves P st (set_mem st m')).
  { intros q (Q1 & Q2 & Q3). apply (GET_outside st m' u (u + su - 16)); assumption. }
  split; [|split; [|split; [exact Hlk|exact Hn]]].
  - apply (layout_frame P st); [exact Hlay|repeat split|exact Hp| | |].
    + intros b s a Hb.
      pose proof (chain_In _ _ _ _ _ _ Hc Hb) as (B1 & B2 & B3 & B4).
      unfold P.
      destruct (chain_order _ _ _ _ _ _ _ _ _ Hc Hb Hu) as [E|[H|H]].
      * injection E as -> -> ->. lia.
      * lia.
      * lia.
    + unfold P. lia.
    + unfold P. lia.
  - apply (lists_frame P st); [exact Hl|reflexivity|exact Hp|].
    intros b Hb. destruct Hlk as (_ & _ & K & _). apply K in Hb.
    destruct Hb as (s & Hs). unfold is_free in Hs.
    pose proof (chain_In _ _ _ _ _ _ Hc Hs) as (B1 & B2 & B3 & B4).
    unfold P.
    destruct (chain_order _ _ _ _ _ _ _ _ _ Hc Hs Hu) as [E|[H|H]];
      [discriminate|lia|lia].
Qed.

(** [memcpy] between ranges that do not meet. *)
Lemma copy_bytes_spec (n : nat) :
  forall (m : Z -> Z) (dst src a : Z),
    0 <= dst -> dst + Z.of_nat n <= 2 ^ 64 ->
    0 <= src -> src + Z.of_nat n <= 2 ^ 64 ->
    src + Z.of_nat n <= dst \/ dst + Z.of_nat n <= src ->
    0 <= a < 2 ^ 64 ->
    copy_bytes n m dst src a
    = if (dst <=? a) && (a <? dst + Z.of_nat n) then m (src + (a - dst))
      else m a.
Proof.
  induction n as [|n IH]; intros m dst src a D0 D1 S0 S1 Hd Ha;
    cbn [copy_bytes].
  - destruct (Z.leb_spec dst a), (Z.ltb_spec a (dst + Z.of_nat 0));
      cbn [andb]; try reflexivity; lia.
  - rewrite IH by lia.
    rewrite (wrap_small dst), (wrap_small src) by lia.
    destruct (Z.leb_spec (dst + 1) a), (Z.ltb_spec a (dst + 1 + Z.of_nat n)),
      (Z.leb_spec dst a), (Z.ltb_spec a (dst + Z.of_nat (S n)));
      cbn [andb]; try lia.
    + destruct (Z.eqb_spec (src + 1 + (a - (dst + 1))) dst); [lia|].
      f_equal. lia.
    + destruct (Z.eqb_spec a dst); [lia|reflexivity].
    + destruct (Z.eqb_spec a dst) as [->|]; [|lia]. f_equal. lia.
    + destruct (Z.eqb_spec a dst); [lia|reflexivity].
Qed.

Lemma MIN_spec (x y : Z) : MIN x y = Z.min x y.
Proof. unfold MIN. destruct (Z.ltb_spec x y); lia. Qed.

Lemma alloc_size (st : state) (bl : list block) (fl : table) (p s : Z)
      (a : bool) :
  heap_inv st bl fl -> In (p, s, a) bl -> GET_SIZE st (HDRP p) = s.
Proof.
  intros ((H16 & Hc & Hmax & Htg & _) & _) Hin.
  pose proof (chain_In _ _ _ _ _ _ Hc Hin) as (C1 & C2 & C3 & C4).
  rewrite Forall_forall in Htg. specialize (Htg _ Hin). cbn [tagged] in Htg.
  rewrite HDRP_eq by lia. apply (GET_SIZE_tag _ _ _ _ (proj1 Htg) C4).
Qed.

(** What [realloc] of an allocated block leaves when its [malloc] succeeds. *)
Lemma realloc_detail :
  forall (st : state) (bl : list block) (fl : table) (p s n : Z)
         (fuel : nat) (st' : state) (u : Z),
    heap_inv st bl fl -> In (p, s, true) bl ->
    0 < n -> n + 31 < 2 ^ 64 -> (length bl < fuel)%nat ->
    realloc fuel st p n = Some (st', u) -> u <> NULL ->
    exists bl' fl' su,
      heap_inv st' bl' fl'
      /\ In (u, su, true) bl' /\ n <= su - 16 /\ u <> p
      /\ ~ (exists s0, In (u, s0, true) bl)
      /\ (forall b sb, In (b, sb, true) bl'
                       <-> (In (b, sb, true) bl /\ b <> p)
                           \/ (b = u /\ sb = su))
      /\ (forall i, 0 <= i < Z.min n (s - 16) ->
                    mem st' (u + i) mod 256 = mem st (p + i) mod 256)
      /\ (forall b sb a, In (b, sb, true) bl -> b <> p ->
                         b <= a < b + sb - 16 ->
                         mem st' a mod 256 = mem st a mod 256).
Proof.
  intros st bl fl p s n fuel st' u Hinv Hp Hn Hov Hf E Hu.
  destruct (adjust_small n Hn Hov) as (_ & A1 & A2 & A3 & A4).
  pose proof Hinv as ((H16 & Hc & Hmax & _) & _).
  pose proof (chain_In _ _ _ _ _ _ Hc Hp) as (P1 & P2 & P3 & P4).
  destruct (malloc_total fuel st bl fl n Hinv
              (heap_inv_fuel st bl fl fuel Hinv Hf)) as (st1 & u1 & Em).
  rewrite (realloc_copy fuel st st1 p n u1 ltac:(unfold NULL; lia) ltac:(lia) Em)
    in E.
  injection E as <- <-.
  destruct (malloc_detail st bl fl n fuel st1 u1 Hinv Hn Hov Hf Em Hu)
    as (bl1 & fl1 & su & I1 & I2 & I3 & I4 & I5 & I6 & I7).
  assert (Hu1 : In (u1, su, true) bl1) by (apply I7; right; tauto).
  assert (Hp1 : In (p, s, true) bl1) by (apply I7; left; exact Hp).
  assert (Hne : u1 <> p).
  { intros ->. apply I6. exists s. exact Hp. }
  pose proof I1 as ((K16 & Kc & Kmax & _) & _).
  pose proof (chain_In _ _ _ _ _ _ Kc Hu1) as (U1 & U2 & U3 & U4).
  assert (Hdis : u1 + su <= p \/ p + s <= u1).
  { destruct (chain_order _ _ _ _ _ _ _ _ _ Kc Hu1 Hp1) as [Eq|H]; [|exact H].
    exfalso. apply Hne. congruence. }
  rewrite (alloc_size st1 bl1 fl1 p s true I1 Hp1).
  unfold WSIZE. rewrite (wrap_small (s - 8)) by lia. rewrite MIN_spec.
  set (cnt := Z.min (s - 8) n).
  assert (Hcnt : 0 <= cnt /\ cnt <= n /\ cnt <= s - 8 /\ Z.min n (s - 16) <= cnt)
    by (unfold cnt; lia).
  set (m2 := copy_bytes (Z.to_nat cnt) (mem st1) u1 p).
  assert (Hcopy : forall a, 0 <= a < 2 ^ 64 ->
            m2 a = if (u1 <=? a) && (a <? u1 + cnt) then mem st1 (p + (a - u1))
                   else mem st1 a).
  { intros a Ha. unfold m2.
    rewrite copy_bytes_spec by (rewrite ?Z2Nat.id; lia).
    rewrite Z2Nat.id by lia. reflexivity. }
  change (memcpy st1 u1 p cnt) with (set_mem st1 m2).
  assert (Hout : forall a, 0 <= a < 2 ^ 64 -> ~ (u1 <= a < u1 + su - 16) ->
                           m2 a = mem st1 a).
  { intros a Ha Hna. rewrite (Hcopy a Ha).
    destruct (Z.leb_spec u1 a), (Z.ltb_spec a (u1 + cnt)); cbn [andb];
      try reflexivity; lia. }
  pose proof (heap_inv_write st1 bl1 fl1 u1 su m2 I1 Hu1 Hout) as I2'.
  set (st2 := set_mem st1 m2) in *.
  destruct (free_spec st2 bl1 fl1 p s I2' Hp1) as (bl' & fl' & J1 & J2 & J3).
  exists bl', fl', su.
  split; [exact J1|]. split; [apply J3; tauto|]. split; [lia|].
  split; [exact Hne|]. split; [exact I6|]. split; [|split].
  - intros b sb. rewrite J3, I7. split.
    + intros [[H|[-> ->]] Hb]; [left; tauto|right; tauto].
    + intros [[H Hb]|[-> ->]]; [tauto|]. split; [right; tauto|exact Hne].
  - intros i Hi.
    destruct (free_payload st2 bl1 fl1 p s u1 su I2' Hp1 Hu1 Hne) as [_ F].
    rewrite (F (u1 + i)) by lia.
    change (mem st2) with m2. rewrite (Hcopy (u1 + i)) by lia.
    destruct (Z.leb_spec u1 (u1 + i)), (Z.ltb_spec (u1 + i) (u1 + cnt));
      cbn [andb]; try lia.
    replace (p + (u1 + i - u1)) with (p + i) by lia.
    destruct (malloc_payload st bl fl n fuel st1 u1 p s Hinv Hn Hov Hf Em Hp)
      as [_ M].
    apply M. lia.
  - intros b sb a Hb Hbp Ha.
    assert (Hb1 : In (b, sb, true) bl1) by (apply I7; left; exact Hb).
    pose proof (chain_In _ _ _ _ _ _ Kc Hb1) as (B1 & B2 & B3 & B4).
    assert (Hbu : b <> u1).
    { intros ->. apply I6. exists sb. exact Hb. }
    destruct (free_payload st2 bl1 fl1 p s b sb I2' Hp1 Hb1 Hbp) as [_ F].
    rewrite (F a Ha).
    change (mem st2) with m2. rewrite Hout.
    + destruct (malloc_payload st bl fl n fuel st1 u1 b sb Hinv Hn Hov Hf Em Hb)
        as [_ M].
      apply M, Ha.
    + lia.
    + destruct (chain_order _ _ _ _ _ _ _ _ _ Kc Hb1 Hu1) as [Eq|H];
        [exfalso; apply Hbu; congruence|lia].
Qed.

(** X15: [realloc(p, n)] of an allocated block [p] of size [s] with
    [n > 0] and [n + 31 < 2^64], when its [malloc] returns a block [u]
    (the result is not [NULL]): the heap is valid
    afterwards, [u] is allocated with room for [n] bytes and differs from
    [p], [p] is allocated no more, the other allocated blocks are
    allocated as before, the first [min(n, s - 16)] bytes of [u] are the
    bytes that [p] held before the call (its whole payload when [n] is
    larger), and no payload byte of another allocated block has changed. *)
Theorem realloc_moves_payload :
  forall (st : state) (bl : list block) (fl : table) (p s n : Z)
         (fuel : nat) (st' : state) (u : Z),
    heap_inv st bl fl -> In (p, s, true) bl ->
    0 < n -> n + 31 < 2 ^ 64 -> (length bl < fuel)%nat ->
    realloc fuel st p n = Some (st', u) -> u <> NULL ->
    exists bl' fl' su,
      heap_inv st' bl' fl'
      /\ In (u, su, true) bl' /\ n <= su - 16 /\ u <> p
      /\ (forall b sb, In (b, sb, true) bl'
                       <-> (In (b, sb, true) bl /\ b <> p)
                           \/ (b = u /\ sb = su))
      /\ (forall i, 0 <= i < Z.min n (s - 16) ->
                    mem st' (u + i) mod 256 = mem st (p + i) mod 256)
      /\ (forall b sb a, In (b, sb, true) bl -> b <> p ->
                         b <= a < b + sb - 16 ->
                         mem st' a mod 256 = mem st a mod 256).
Proof.
  intros st bl fl p s n fuel st' u Hinv Hp Hn Hov Hf E Hu.
  destruct (realloc_detail st bl fl p s n fuel st' u Hinv Hp Hn Hov Hf E Hu)
    as (bl' & fl' & su & R1 & R2 & R3 & R4 & _ & R5 & R6 & R7).
  exists bl', fl', su. tauto.
Qed.

Lemma realloc_moves_payload_witness :
  exists bl' fl' su,
    heap_inv (after (realloc 10 (place booted 4112 32) 4112 24)
                    (place booted 4112 32)) bl' fl'
    /\ In (4144, su, true) bl' /\ 24 <= su - 16.
Proof.
  destruct (realloc_moves_payload (place booted 4112 32) _ _ 4112 32 24 10
              _ 4144 split_heap ltac:(cbn; tauto) ltac:(lia) ltac:(lia)
              ltac:(cbn; lia)
              (run_eq (realloc 10 (place booted 4112 32) 4112 24) 4144
                      (place booted 4112 32) ltac:(vm_compute; reflexivity))
              ltac:(discriminate))
    as (bl' & fl' & su & A & B & C & _).
  exists bl', fl', su. split; [exact A|]. split; [exact B|exact C].
Defined.

(** What [calloc] leaves when the product does not wrap. *)
Lemma calloc_detail :
  forall (st : state) (bl : list block) (fl : table) (nmemb size : Z)
         (fuel : nat) (st' : state) (p : Z),
    heap_inv st bl fl -> 0 <= nmemb -> 0 <= size ->
    0 < size * nmemb -> size * nmemb + 31 < 2 ^ 64 ->
    (length bl < fuel)%nat ->
    calloc fuel st nmemb size = Some (st', p) ->
    (p = NULL -> st' = st)
    /\ (p <> NULL ->
        exists bl' fl' sp,
          heap_inv st' bl' fl'
          /\ In (p, sp, true) bl' /\ size * nmemb <= sp - 16
          /\ ~ (exists s0, In (p, s0, true) bl)
          /\ (forall a, p <= a < p + size * nmemb -> mem st' a = 0)
          /\ (forall b sb, In (b, sb, true) bl'
                           <-> In (b, sb, true) bl \/ (b = p /\ sb = sp))
          /\ (forall b sb a, In (b, sb, true) bl -> b <= a < b + sb - 16 ->
                             mem st' a mod 256 = mem st a mod 256)).
Proof.
  intros st bl fl nmemb size fuel st' p Hinv Hm Hs Hn Hov Hf E.
  set (N := size * nmemb) in *.
  destruct (adjust_small N Hn Hov) as (_ & A1 & A2 & A3 & A4).
  unfold calloc in E. fold N in E. rewrite (wrap_small N) in E by lia.
  destruct (malloc fuel st N) as [[st1 p1]|] eqn:Em; [|discriminate].
  destruct (Z.eqb_spec p1 NULL) as [Ep|Hp]; cbn [negb] in E;
    injection E as <- <-.
  - split; [|contradiction]. intros _.
    apply (malloc_null_cases fuel st st1 bl fl N p1 Hinv Em). exact Ep.
  - split; [contradiction|]. intros _.
    destruct (malloc_detail st bl fl N fuel st1 p1 Hinv Hn Hov Hf Em Hp)
      as (bl1 & fl1 & sp & I1 & I2 & I3 & I4 & I5 & I6 & I7).
    assert (Hp1 : In (p1, sp, true) bl1) by (apply I7; right; tauto).
    pose proof I1 as ((K16 & Kc & Kmax & _) & _).
    pose proof (chain_In _ _ _ _ _ _ Kc Hp1) as (U1 & U2 & U3 & U4).
    set (m2 := fill_bytes (Z.to_nat N) (mem st1) p1 0).
    assert (Hfill : forall a, 0 <= a < 2 ^ 64 ->
              m2 a = if (p1 <=? a) && (a <? p1 + N) then 0 else mem st1 a).
    { intros a Ha. unfold m2.
      rewrite fill_bytes_spec by (rewrite ?Z2Nat.id; lia).
      rewrite Z2Nat.id by lia. change (0 mod 256) with 0.
      destruct (Z.leb_spec p1 a).
      - rewrite (wrap_small (a - p1)) by lia.
        destruct (Z.ltb_spec (a - p1) N), (Z.ltb_spec a (p1 + N));
          cbn [andb]; try reflexivity; lia.
      - cbn [andb]. unfold wrap.
        replace (a - p1) with (a - p1 + 2 ^ 64 + (-1) * 2 ^ 64) by lia.
        rewrite Z.mod_add, Z.mod_small by lia.
        destruct (Z.ltb_spec (a - p1 + 2 ^ 64) N); [lia|reflexivity]. }
    change (memset st1 p1 0 N) with (set_mem st1 m2).
    assert (Hout : forall a, 0 <= a < 2 ^ 64 -> ~ (p1 <= a < p1 + sp - 16) ->
                             m2 a = mem st1 a).
    { intros a Ha Hna. rewrite (Hfill a Ha).
      destruct (Z.leb_spec p1 a), (Z.ltb_spec a (p1 + N)); cbn [andb];
        try reflexivity; lia. }
    exists bl1, fl1, sp.
    split; [exact (heap_inv_write st1 bl1 fl1 p1 sp m2 I1 Hp1 Hout)|].
    split; [exact Hp1|]. split; [lia|]. split; [exact I6|].
    split; [|split; [exact I7|]].
    + intros a Ha. cbn [mem set_mem]. rewrite Hfill by lia.
      destruct (Z.leb_spec p1 a), (Z.ltb_spec a (p1 + N)); cbn [andb];
        try reflexivity; lia.
    + intros b sb a Hb Ha.
      assert (Hb1 : In (b, sb, true) bl1) by (apply I7; left; exact Hb).
      pose proof (chain_In _ _ _ _ _ _ Kc Hb1) as (B1 & B2 & B3 & B4).
      assert (Hbp : b <> p1).
      { intros ->. apply I6. exists sb. exact Hb. }
      cbn [mem set_mem]. rewrite Hout.
      * destruct (malloc_payload st bl fl N fuel st1 p1 b sb Hinv Hn Hov Hf
                                 Em Hb) as [_ M].
        apply M, Ha.
      * lia.
      * destruct (chain_order _ _ _ _ _ _ _ _ _ Kc Hb1 Hp1) as [Eq|H];
          [exfalso; apply Hbp; congruence|lia].
Qed.



(** ** Walking from block to block *)

(** X17: in a valid heap the boundary tags take one from a block to its
    neighbours and back: for two blocks in a row, [NEXT_BLKP] of the first
    is the second and [PREV_BLKP] of the second is the first, and the
    footer of a block repeats its header.  At the ends, [NEXT_BLKP] of
    the last block is the break, where the epilogue header (size 0,
    allocated) sits, and [PREV_BLKP] of the first block is that block
    itself, because the word it reads is the padding word 0: the case
    [PREV_BLKP(bp) == bp] that [coalesce] tests for. *)
Theorem neighbours_by_tags :
  forall (st : state) (bl : list block) (fl : table),
    heap_inv st bl fl ->
    (forall l1 l2 b1 s1 a1 b2 s2 a2,
        bl = l1 ++ (b1, s1, a1) :: (b2, s2, a2) :: l2 ->
        NEXT_BLKP st b1 = b2 /\ PREV_BLKP st b2 = b1
        /\ PREV_BLKP st (NEXT_BLKP st b1) = b1)
    /\ (forall b s a, In (b, s, a) bl ->
          FTRP st b = b + s - 16
          /\ GET st (FTRP st b) = GET st (HDRP b)
          /\ GET_SIZE st (HDRP b) = s
          /\ GET_ALLOC st (HDRP b) = (if a then 1 else 0))
    /\ (forall l b s a, bl = l ++ [(b, s, a)] ->
          NEXT_BLKP st b = mem_brk st
          /\ GET_SIZE st (HDRP (NEXT_BLKP st b)) = 0
          /\ GET_ALLOC st (HDRP (NEXT_BLKP st b)) = 1)
    /\ (forall l b s a, bl = (b, s, a) :: l ->
          b = heap_listp st /\ PREV_BLKP st b = b).
Proof.
  intros st bl fl Hinv.
  pose proof Hinv as ((H16 & Hc & Hmax & Htg & Hep & Hpad) & _).
  rewrite Forall_forall in Htg.
  assert (Hblk : forall b s a, In (b, s, a) bl ->
            16 <= b /\ b + s <= mem_brk st /\ 32 <= s /\ s mod 16 = 0
            /\ GET st (b - 8) = tag s a /\ GET st (b + s - 16) = tag s a).
  { intros b s a Hin.
    pose proof (chain_In _ _ _ _ _ _ Hc Hin) as (C1 & C2 & C3 & C4).
    pose proof (Htg _ Hin) as Ht. cbn [tagged] in Ht.
    repeat split; try lia; tauto. }
  split; [|split; [|split]].
  - intros l1 l2 b1 s1 a1 b2 s2 a2 El.
    assert (H1 : In (b1, s1, a1) bl)
      by (rewrite El, in_app_iff; right; left; reflexivity).
    assert (H2 : In (b2, s2, a2) bl)
      by (rewrite El, in_app_iff; right; right; left; reflexivity).
    destruct (Hblk _ _ _ H1) as (X1 & X2 & X3 & X4 & X5 & X6).
    destruct (Hblk _ _ _ H2) as (Y1 & Y2 & Y3 & Y4 & Y5 & Y6).
    assert (E2 : b2 = b1 + s1).
    { rewrite El in Hc. apply chain_app in Hc. destruct Hc as (m & _ & Hc2).
      cbn [chain] in Hc2. lia. }
    assert (N : NEXT_BLKP st b1 = b2).
    { rewrite E2. apply NEXT_BLKP_eq; try lia.
      apply (GET_SIZE_tag _ _ _ _ X5 X4). }
    assert (P : PREV_BLKP st b2 = b1).
    { rewrite (PREV_BLKP_eq st b2 s1); try lia.
      rewrite E2. replace (b1 + s1 - 16) with (b1 + s1 - 16) by lia.
      apply (GET_SIZE_tag _ _ _ _ X6 X4). }
    split; [exact N|]. split; [exact P|]. rewrite N. exact P.
  - intros b s a Hin.
    destruct (Hblk _ _ _ Hin) as (X1 & X2 & X3 & X4 & X5 & X6).
    assert (Es : GET_SIZE st (b - 8) = s) by apply (GET_SIZE_tag _ _ _ _ X5 X4).
    assert (F : FTRP st b = b + s - 16) by (apply FTRP_eq; lia || exact Es).
    split; [exact F|]. rewrite F, (HDRP_eq b) by lia.
    split; [congruence|]. split; [exact Es|].
    apply (GET_ALLOC_tag _ _ _ _ X5 X4).
  - intros l b s a El.
    assert (H1 : In (b, s, a) bl)
      by (rewrite El, in_app_iff; right; left; reflexivity).
    destruct (Hblk _ _ _ H1) as (X1 & X2 & X3 & X4 & X5 & X6).
    assert (Ee : b + s = mem_brk st).
    { rewrite El in Hc. apply chain_app in Hc. destruct Hc as (m & _ & Hc2).
      cbn [chain] in Hc2. lia. }
    assert (N : NEXT_BLKP st b = mem_brk st).
    { rewrite <- Ee. apply NEXT_BLKP_eq; try lia.
      apply (GET_SIZE_tag _ _ _ _ X5 X4). }
    rewrite N, (HDRP_eq (mem_brk st)) by lia.
    split; [reflexivity|]. split.
    + apply (GET_SIZE_tag _ _ _ _ Hep). reflexivity.
    + apply (GET_ALLOC_tag _ _ _ _ Hep). reflexivity.
  - intros l b s a El. rewrite El in Hc.
    assert (Eb : b = heap_listp st) by (cbn [chain] in Hc; tauto).
    split; [exact Eb|].
    assert (Hb : 16 <= b < 2 ^ 64).
    { pose proof (chain_In _ _ _ _ _ _ Hc (or_introl eq_refl)). lia. }
    rewrite (PREV_BLKP_eq st b 0 Hb); [lia| |lia].
    rewrite Eb. exact Hpad.
Qed.

Lemma neighbours_by_tags_witness :
  NEXT_BLKP (place booted 4112 32) 4112 = 4144
  /\ PREV_BLKP (place booted 4112 32) 4144 = 4112
  /\ PREV_BLKP (place booted 4112 32) (NEXT_BLKP (place booted 4112 32) 4112)
     = 4112.
Proof.
  exact (proj1 (neighbours_by_tags _ _ _ split_heap) [] [] 4112 32 true
               4144 224 false eq_refl).
Defined.

(** ** The fuel of the model does not matter *)

Lemma scan_list_mono (st : state) (asize : Z) :
  forall f f' bp r, scan_list f st asize bp = Some r -> (f <= f')%nat ->
                    scan_list f' st asize bp = Some r.
Proof.
  induction f as [|f IH]; intros f' bp r E Hle; [discriminate|].
  destruct f' as [|f']; [lia|]. cbn [scan_list] in *.
  destruct (bp =? 0); [exact E|].
  destruct (asize <=? GET_SIZE st (HDRP bp)); [exact E|].
  apply IH; [exact E|lia].
Qed.

Lemma scan_classes_mono (st : state) (asize : Z) (f f' : nat) :
  (f <= f')%nat ->
  forall k i r, scan_classes k f st asize i = Some r ->
                scan_classes k f' st asize i = Some r.
Proof.
  intros Hle. induction k as [|k IH]; intros i r E; [exact E|].
  cbn [scan_classes] in *.
  destruct (scan_list f st asize (seg st i)) as [z|] eqn:Es; [|discriminate].
  rewrite (scan_list_mono st asize f f' _ z Es Hle).
  destruct z; [apply IH; exact E|exact E|exact E].
Qed.

Lemma malloc_mono (f f' : nat) (st : state) (n : Z) (r : state * Z) :
  (f <= f')%nat -> malloc f st n = Some r -> malloc f' st n = Some r.
Proof.
  intros Hle. unfold malloc, find_fit.
  destruct (n =? 0); [tauto|].
  destruct (scan_classes _ f st (adjust n) _) as [bp|] eqn:E; [|discriminate].
  rewrite (scan_classes_mono st (adjust n) f f' Hle _ _ bp E). tauto.
Qed.

Lemma realloc_mono (f f' : nat) (st : state) (p n : Z) (r : state * Z) :
  (f <= f')%nat -> realloc f st p n = Some r -> realloc f' st p n = Some r.
Proof.
  intros Hle. unfold realloc.
  destruct (malloc f st n) as [[st1 u]|] eqn:E; [|discriminate].
  rewrite (malloc_mono f f' st n _ Hle E).
  destruct (p =? NULL); [apply malloc_mono; exact Hle|tauto].
Qed.

Lemma calloc_mono (f f' : nat) (st : state) (nmemb size : Z) (r : state * Z) :
  (f <= f')%nat -> calloc f st nmemb size = Some r ->
  calloc f' st nmemb size = Some r.
Proof.
  intros Hle. unfold calloc.
  destruct (malloc f st _) as [[st1 u]|] eqn:E; [|discriminate].
  rewrite (malloc_mono f f' st _ _ Hle E). tauto.
Qed.

(** ** Programs that use the allocator *)

Lemma NoDup_remove_Z (x : Z) (l : list Z) :
  NoDup l -> NoDup (remove Z.eq_dec x l).
Proof.
  induction 1 as [|y l Hy Hl IH]; cbn [remove]; [constructor|].
  destruct (Z.eq_dec x y); [exact IH|].
  constructor; [|exact IH]. intros H. apply in_remove in H. tauto.
Qed.

Lemma In_remove_Z (x y : Z) (l : list Z) :
  In y (remove Z.eq_dec x l) <-> In y l /\ y <> x.
Proof.
  split; [apply in_remove|]. intros [H1 H2]. apply in_in_remove; assumption.
Qed.

Lemma held_ok_add (st st' : state) (held : list Z) (bl bl' : list block)
      (fl fl' : table) (p sp : Z) :
  heap_inv st' bl' fl' -> NoDup held ->
  (forall x, In x held <-> exists s, In (x, s, true) bl) ->
  ~ (exists s0, In (p, s0, true) bl) ->
  (forall b sb, In (b, sb, true) bl'
                <-> In (b, sb, true) bl \/ (b = p /\ sb = sp)) ->
  held_ok st' (p :: held).
Proof.
  intros I1 Hnd Hh Hfresh I7. exists bl', fl'.
  split; [exact I1|]. split.
  - constructor; [|exact Hnd]. intros H. apply Hfresh, Hh, H.
  - intros x. cbn [In]. rewrite Hh. split.
    + intros [<-|(s & Hs)]; [exists sp|exists s]; apply I7; tauto.
    + intros (s & Hs). apply I7 in Hs. destruct Hs as [Hs|[-> _]];
        [right; exists s; exact Hs|left; reflexivity].
Qed.

Lemma held_ok_drop (st' : state) (held : list Z) (bl bl' : list block)
      (fl' : table) (p : Z) :
  heap_inv st' bl' fl' -> NoDup held ->
  (forall x, In x held <-> exists s, In (x, s, true) bl) ->
  (forall b sb, In (b, sb, true) bl' <-> In (b, sb, true) bl /\ b <> p) ->
  held_ok st' (remove Z.eq_dec p held).
Proof.
  intros I1 Hnd Hh J3. exists bl', fl'.
  split; [exact I1|]. split; [apply NoDup_remove_Z, Hnd|].
  intros x. rewrite In_remove_Z, Hh. split.
  - intros [(s & Hs) Hx]. exists s. apply J3. tauto.
  - intros (s & Hs). apply J3 in Hs. split; [exists s|]; tauto.
Qed.

Lemma malloc_held (st : state) (held : list Z) (fuel : nat) (n : Z)
      (st' : state) (p : Z) :
  held_ok st held -> 0 <= n -> n + 31 < 2 ^ 64 ->
  malloc fuel st n = Some (st', p) ->
  held_ok st' (if p =? NULL then held else p :: held).
Proof.
  intros (bl & fl & Hinv & Hnd & Hh) Hn Hov E.
  destruct (Z.eqb_spec p NULL) as [Ep|Hp].
  - rewrite (proj2 (malloc_null_cases fuel st st' bl fl n p Hinv E) Ep).
    exists bl, fl. tauto.
  - assert (Hn0 : 0 < n).
    { destruct (Z.eq_dec n 0) as [->|]; [|lia].
      rewrite malloc_zero in E. injection E as <- <-. contradiction. }
    pose proof (malloc_mono fuel (Nat.max fuel (S (length bl))) st n _
                            ltac:(lia) E) as E'.
    destruct (malloc_detail st bl fl n (Nat.max fuel (S (length bl))) st' p
                            Hinv Hn0 Hov ltac:(lia) E' Hp)
      as (bl' & fl' & sp & I1 & _ & _ & _ & _ & I6 & I7).
    exact (held_ok_add st st' held bl bl' fl fl' p sp I1 Hnd Hh I6 I7).
Qed.

Lemma calloc_held (st : state) (held : list Z) (fuel : nat) (nmemb size : Z)
      (st' : state) (p : Z) :
  held_ok st held -> 0 <= nmemb -> 0 <= size -> size * nmemb + 31 < 2 ^ 64 ->
  calloc fuel st nmemb size = Some (st', p) ->
  held_ok st' (if p =? NULL then held else p :: held).
Proof.
  intros (bl & fl & Hinv & Hnd & Hh) Hm Hs Hov E.
  destruct (Z.eq_dec (size * nmemb) 0) as [E0|Hn0].
  - unfold calloc in E. rewrite E0 in E. change (wrap 0) with 0 in E.
    rewrite malloc_zero in E. change (negb (NULL =? NULL)) with false in E.
    injection E as <- <-. exists bl, fl. tauto.
  - pose proof (calloc_mono fuel (Nat.max fuel (S (length bl))) st nmemb size _
                            ltac:(lia) E) as E'.
    destruct (calloc_detail st bl fl nmemb size
                            (Nat.max fuel (S (length bl))) st' p Hinv Hm Hs
                            ltac:(nia) Hov ltac:(lia) E') as [C1 C2].
    destruct (Z.eqb_spec p NULL) as [Ep|Hp].
    + rewrite (C1 Ep). exists bl, fl. tauto.
    + destruct (C2 Hp) as (bl' & fl' & sp & I1 & _ & _ & I6 & _ & I7 & _).
      exact (held_ok_add st st' held bl bl' fl fl' p sp I1 Hnd Hh I6 I7).
Qed.

Lemma free_held (st : state) (held : list Z) (p : Z) :
  held_ok st held -> In p held ->
  held_ok (free st p) (remove Z.eq_dec p held).
Proof.
  intros (bl & fl & Hinv & Hnd & Hh) Hp.
  destruct (proj1 (Hh p) Hp) as (s & Hs).
  destruct (free_spec st bl fl p s Hinv Hs) as (bl' & fl' & J1 & _ & J3).
  exact (held_ok_drop (free st p) held bl bl' fl' p J1 Hnd Hh J3).
Qed.

Lemma realloc_held (st : state) (held : list Z) (fuel : nat) (p n : Z)
      (st' : state) (u : Z) :
  held_ok st held -> In p held -> 0 < n -> n + 31 < 2 ^ 64 ->
  realloc fuel st p n = Some (st', u) -> u <> NULL ->
  held_ok st' (u :: remove Z.eq_dec p held).
Proof.
  intros (bl & fl & Hinv & Hnd & Hh) Hp Hn Hov E Hu.
  destruct (proj1 (Hh p) Hp) as (s & Hs).
  pose proof (realloc_mono fuel (Nat.max fuel (S (length bl))) st p n _
                           ltac:(lia) E) as E'.
  destruct (realloc_detail st bl fl p s n (Nat.max fuel (S (length bl)))
                           st' u Hinv Hs Hn Hov ltac:(lia) E' Hu)
    as (bl' & fl' & su & R1 & R2 & R3 & R4 & R5 & R6 & _).
  exists bl', fl'. split; [exact R1|]. split.
  - constructor; [|apply NoDup_remove_Z, Hnd].
    rewrite In_remove_Z, Hh. tauto.
  - intros x. cbn [In]. rewrite In_remove_Z, Hh. split.
    + intros [<-|[(sx & Hx) Hne]]; [exists su; exact R2|].
      exists sx. apply R6. tauto.
    + intros (sx & Hx). apply R6 in Hx.
      destruct Hx as [[Hx Hne]|[-> _]]; [right|left; reflexivity].
      split; [exists sx; exact Hx|exact Hne].
Qed.

Lemma realloc_zero_held (st : state) (held : list Z) (fuel : nat) (p : Z)
      (st' : state) (u : Z) :
  held_ok st held -> In p held -> realloc fuel st p 0 = Some (st', u) ->
  held_ok st' (remove Z.eq_dec p held).
Proof.
  intros Hok Hp E.
  assert (Hnz : p <> NULL).
  { destruct Hok as (bl & fl & ((H16 & Hc & _) & _) & _ & Hh).
    destruct (proj1 (Hh p) Hp) as (s & Hs).
    pose proof (chain_In _ _ _ _ _ _ Hc Hs). unfold NULL. lia. }
  rewrite (realloc_zero_releases fuel st p Hnz) in E. injection E as <- <-.
  apply free_held; assumption.
Qed.

(** X18: whatever the caller does within the rules ([mm_init] first and
    successful; [malloc], [calloc] and [realloc] with a byte count [n]
    such that [n + 31 < 2^64]; [free] and [realloc] only of pointers
    obtained earlier and not given up since, [realloc] with size 0 or
    returning a pointer other than [NULL]), the heap stays valid, and the pointers the caller
    holds are exactly the allocated blocks of the heap, each once: no
    block is handed out twice, none is lost, and the blocks held lie
    inside the heap and do not overlap. *)
Theorem api_keeps_heap :
  forall (st : state) (held : list Z),
    reachable st held ->
    exists bl fl,
      heap_inv st bl fl /\ NoDup held
      /\ (forall p, In p held <-> exists s, In (p, s, true) bl)
      /\ (forall p s, In (p, s, true) bl ->
                      heap_listp st <= p /\ p + s <= mem_brk st /\ 32 <= s)
      /\ (forall p s q t, In (p, s, true) bl -> In (q, t, true) bl ->
                          p <> q -> p + s <= q \/ q + t <= p).
Proof.
  intros st held H.
  assert (Hok : held_ok st held).
  { induction H as [st0 H0 H2 Hs|st held fuel n st' p _ IH Hn Hov E
                   |st held fuel nmemb size st' p _ IH Hm Hs Hov E
                   |st held p _ IH Hp
                   |st held fuel p n st' u _ IH Hp Hn Hov E Hu
                   |st held fuel p st' u _ IH Hp E].
    - destruct (Z_le_gt_dec (mem_brk st0 + 272) (mem_max_addr st0)) as [Hle|Hgt].
      + destruct (mm_init_spec st0 H0 Hle H2) as [_ Hinv].
        eexists _, _. split; [exact Hinv|]. split; [constructor|].
        intros p. cbn [In]. split; [tauto|].
        intros (s & [Hs'|[]]). discriminate.
      + rewrite (mm_init_fails st0 H0 H2 Hgt) in Hs. discriminate.
    - exact (malloc_held st held fuel n st' p IH Hn Hov E).
    - exact (calloc_held st held fuel nmemb size st' p IH Hm Hs Hov E).
    - exact (free_held st held p IH Hp).
    - exact (realloc_held st held fuel p n st' u IH Hp Hn Hov E Hu).
    - exact (realloc_zero_held st held fuel p st' u IH Hp E). }
  destruct Hok as (bl & fl & Hinv & Hnd & Hh).
  exists bl, fl. split; [exact Hinv|]. split; [exact Hnd|].
  split; [exact Hh|].
  pose proof Hinv as ((H16 & Hc & _) & _). split.
  - intros p s Hp. pose proof (chain_In _ _ _ _ _ _ Hc Hp). lia.
  - intros p s q t Hp Hq Hne.
    destruct (chain_order _ _ _ _ _ _ _ _ _ Hc Hp Hq) as [Eq|Hd]; [|exact Hd].
    exfalso. apply Hne. congruence.
Qed.

Lemma api_keeps_heap_witness :
  exists bl fl,
    heap_inv (free one_block 4112) bl fl
    /\ NoDup (remove Z.eq_dec 4112 [4112]).
Proof.
  assert (R : reachable (free one_block 4112) (remove Z.eq_dec 4112 [4112])).
  { apply reach_free; [|left; reflexivity].
    apply (reach_malloc booted [] 10 16 one_block 4112);
      [|lia|lia|exact (run_eq (malloc 10 booted 16) 4112 booted
                               ltac:(vm_compute; reflexivity))].
    apply (reach_init (fresh 4096 65536)); [cbn; lia|cbn; lia|].
    exact (proj1 (mm_init_spec (fresh 4096 65536) ltac:(cbn; lia)
                               ltac:(cbn; lia) ltac:(cbn; lia))). }
  destruct (api_keeps_heap _ _ R) as (bl & fl & A & B & _).
  exists bl, fl. split; [exact A|exact B].
Defined.

(** ** Removing a block from its list *)

(** [free] of a block whose two neighbours are allocated: the block is
    put at the head of the list of its class, nothing is merged. *)
Lemma free_isolated (st : state) (l1 l2 : list block) (p s : Z) (fl : table) :
  heap_inv st (l1 ++ (p, s, true) :: l2) fl ->
  last_free false l1 = false -> first_free l2 = false ->
  heap_inv (free st p) (l1 ++ (p, s, false) :: l2) (push fl (iterate s) p).
Proof.
  intros Hinv Hp Hn.
  destruct (freed_parts st l1 l2 p s fl Hinv) as (_ & Hlay & Hl & _).
  destruct Hinv as (_ & _ & Hlk & Hnaf).
  destruct (coalesce_none_eq (freed st p) l1 l2 p s fl Hlay Hl Hlk Hnaf Hp Hn)
    as (Ec & I & _).
  rewrite free_freed, Ec. exact I.
Qed.

Lemma three_free_inv :
  heap_inv three_free
           [(4112, 32, false); (4144, 32, true); (4176, 32, false);
            (4208, 32, true); (4240, 32, false); (4272, 32, true);
            (4304, 64, false)]
           three_free_table.
Proof.
  pose proof (proj1 (proj2 (place_split _ [(4112, 32, true)] [] 4144 224 _ 32
                              split_heap ltac:(lia) eq_refl ltac:(lia))))
    as H2.
  pose proof (proj1 (proj2 (place_split _ [(4112, 32, true); (4144, 32, true)]
                              [] 4176 192 _ 32 H2
                              ltac:(lia) eq_refl ltac:(lia)))) as H3.
  pose proof (proj1 (proj2 (place_split _ [(4112, 32, true); (4144, 32, true);
                                           (4176, 32, true)]
                              [] 4208 160 _ 32 H3
                              ltac:(lia) eq_refl ltac:(lia)))) as H4.
  pose proof (proj1 (proj2 (place_split _ [(4112, 32, true); (4144, 32, true);
                                           (4176, 32, true); (4208, 32, true)]
                              [] 4240 128 _ 32 H4
                              ltac:(lia) eq_refl ltac:(lia)))) as H5.
  pose proof (proj1 (proj2 (place_split _ [(4112, 32, true); (4144, 32, true);
                                           (4176, 32, true); (4208, 32, true);
                                           (4240, 32, true)]
                              [] 4272 96 _ 32 H5
                              ltac:(lia) eq_refl ltac:(lia)))) as H6.
  pose proof (free_isolated _ [] [(4144, 32, true); (4176, 32, true);
                                  (4208, 32, true); (4240, 32, true);
                                  (4272, 32, true); (4304, 64, false)]
                            4112 32 _ H6 eq_refl eq_refl) as H7.
  pose proof (free_isolated _ [(4112, 32, false); (4144, 32, true)]
                            [(4208, 32, true); (4240, 32, true);
                             (4272, 32, true); (4304, 64, false)]
                            4176 32 _ H7 eq_refl eq_refl) as H8.
  exact (free_isolated _ [(4112, 32, false); (4144, 32, true);
                          (4176, 32, false); (4208, 32, true)]
                         [(4272, 32, true); (4304, 64, false)]
                         4240 32 _ H8 eq_refl eq_refl).
Qed.

Lemma head_in_class (st : state) (fl : table) (bp i : Z) :
  lists st fl -> 0 <= i < 11 -> seg st i = bp -> bp <> 0 -> In bp (fl i).
Proof.
  intros Hl Hi Es Hnz. pose proof (Hl i Hi) as H. rewrite Es in H.
  destruct (fl i) as [|x r]; cbn [lseg] in H; [contradiction|].
  destruct H as (-> & _). left. reflexivity.
Qed.

(** C8: [delete] of a block [bp] that is registered in the table [fl]
    which the lists of [st] hold: every class a doubly linked list from
    its head, no address twice, the link words of the registered blocks
    apart.  Nothing is asked of the tags, so the statement holds where
    [coalesce] and [place] call [delete], with the block already
    retagged.  The table is left with [bp] removed.  If [bp] is the head
    of a class, the head of that class becomes the block's next link, and
    the prev link of that new head, when there is one, is cleared.  If it
    heads no class it is spliced out through its own links: its
    predecessor's next link becomes the block's next, the prev link of
    that next block, when there is one, becomes the block's prev, and no
    head changes. *)
Theorem delete_registered :
  forall (st : state) (fl : table) (bp : Z),
    lists st fl -> spaced (registered fl) ->
    (forall i, 0 <= i < 11 -> NoDup (fl i)) ->
    (forall i j b, 0 <= i < 11 -> 0 <= j < 11 ->
                   In b (fl i) -> In b (fl j) -> i = j) ->
    registered fl bp ->
    lists (delete st bp) (rm fl bp)
    /\ (forall i, 0 <= i < 11 -> seg st i = bp ->
          seg (delete st bp) i = NEXTF st bp
          /\ (NEXTF st bp <> 0 -> PREVF (delete st bp) (NEXTF st bp) = 0))
    /\ ((forall i, 0 <= i < 11 -> seg st i <> bp) ->
          NEXTF (delete st bp) (PREVF st bp) = NEXTF st bp
          /\ (NEXTF st bp <> 0 ->
              PREVF (delete st bp) (NEXTF st bp) = PREVF st bp)
          /\ (forall i, seg (delete st bp) i = seg st i)).
Proof.
  intros st fl bp Hl Hsp Hnd Hdj Hr.
  assert (Hnz : bp <> 0) by (pose proof (proj1 Hsp bp Hr); lia).
  split; [apply (delete_spec st fl bp Hl Hsp Hnd Hdj Hr)|]. split.
  - intros i Hi Hs.
    assert (E : delete st bp
                = if (PREVF st bp =? 0) && negb (NEXTF st bp =? 0) then
                    let st1 := PUT st (NEXTF st bp) 0 in
                    set_seg st1 i (NEXTF st1 bp)
                  else set_seg st i 0).
    { unfold delete. apply delete_scan_head; [lia| |exact Hs].
      intros j Hj Hsj.
      assert (j = i); [|lia].
      apply (Hdj j i bp); try lia; apply (head_in_class st); auto; lia. }
    destruct (delete_head st fl bp Hl Hsp Hnd Hdj i Hi Hs Hr _ E)
      as (_ & A & B & _).
    split; assumption.
  - intros Hnh.
    assert (E : delete st bp = delete_splice st bp).
    { unfold delete. apply delete_scan_splice. intros j Hj. apply Hnh. lia. }
    rewrite E.
    destruct (delete_interior st fl bp Hl Hsp Hnd Hdj Hr Hnh)
      as (_ & _ & A & B & C).
    split; [exact A|]. split; [exact B|exact C].
Qed.

(** The table of [three_free] as the lists hold it where [coalesce],
    called by [free] of the allocated block [p], calls [delete]. *)
Lemma three_free_call (l1 l2 : list block) (p s : Z) :
  [(4112, 32, false); (4144, 32, true); (4176, 32, false);
   (4208, 32, true); (4240, 32, false); (4272, 32, true);
   (4304, 64, false)] = l1 ++ (p, s, true) :: l2 ->
  lists (freed three_free p) three_free_table.
Proof.
  intros E. pose proof three_free_inv as H. rewrite E in H.
  exact (proj1 (proj2 (proj2 (freed_parts _ l1 l2 p s _ H)))).
Qed.

Lemma no_head (st : state) (bp : Z) :
  forallb (fun i => negb (seg st i =? bp)) [0; 1; 2; 3; 4; 5; 6; 7; 8; 9; 10]
  = true ->
  forall i, 0 <= i < 11 -> seg st i <> bp.
Proof.
  intros H i Hi. rewrite forallb_forall in H.
  assert (Hin : In i [0; 1; 2; 3; 4; 5; 6; 7; 8; 9; 10]) by (cbn [In]; lia).
  specialize (H i Hin). destruct (Z.eqb_spec (seg st i) bp); [discriminate|assumption].
Qed.

Lemma delete_registered_witness :
  (seg (freed three_free 4272) 1 = 4240
   /\ NEXTF (freed three_free 4272) 4240 = 4176
   /\ seg (delete (freed three_free 4272) 4240) 1 = 4176
   /\ PREVF (delete (freed three_free 4272) 4240) 4176 = 0)
  /\ (PREVF (freed three_free 4208) 4176 = 4240
      /\ NEXTF (freed three_free 4208) 4176 = 4112
      /\ NEXTF (delete (freed three_free 4208) 4176) 4240 = 4112
      /\ PREVF (delete (freed three_free 4208) 4176) 4112 = 4240)
  /\ (PREVF (freed three_free 4144) 4112 = 4176
      /\ NEXTF (freed three_free 4144) 4112 = 0
      /\ NEXTF (delete (freed three_free 4144) 4112) 4176 = 0
      /\ lists (delete (freed three_free 4144) 4112)
               (rm three_free_table 4112)).
Proof.
  destruct (heap_inv_table _ _ _ three_free_inv) as (_ & Hsp & Hnd & Hdj).
  assert (Hreg : forall b, In b [4112; 4176; 4240] ->
                           registered three_free_table b).
  { intros b Hb. exists 1. split; [lia|].
    change (In b [4240; 4176; 4112]). cbn [In] in *. tauto. }
  split; [|split].
  - assert (Hs : seg (freed three_free 4272) 1 = 4240)
      by (vm_compute; reflexivity).
    assert (Hn : NEXTF (freed three_free 4272) 4240 = 4176)
      by (vm_compute; reflexivity).
    destruct (proj1 (proj2 (delete_registered (freed three_free 4272)
                              three_free_table 4240
                              (three_free_call
                                 [(4112, 32, false); (4144, 32, true);
                                  (4176, 32, false); (4208, 32, true);
                                  (4240, 32, false)]
                                 [(4304, 64, false)] 4272 32 eq_refl)
                              Hsp Hnd Hdj
                              (Hreg 4240 ltac:(cbn [In]; tauto))))
                    1 ltac:(lia) Hs) as [A B].
    rewrite Hn in A, B.
    split; [exact Hs|]. split; [exact Hn|]. split; [exact A|].
    apply B. lia.
  - assert (Hp : PREVF (freed three_free 4208) 4176 = 4240)
      by (vm_compute; reflexivity).
    assert (Hn : NEXTF (freed three_free 4208) 4176 = 4112)
      by (vm_compute; reflexivity).
    destruct (proj2 (proj2 (delete_registered (freed three_free 4208)
                              three_free_table 4176
                              (three_free_call
                                 [(4112, 32, false); (4144, 32, true);
                                  (4176, 32, false)]
                                 [(4240, 32, false); (4272, 32, true);
                                  (4304, 64, false)] 4208 32 eq_refl)
                              Hsp Hnd Hdj
                              (Hreg 4176 ltac:(cbn [In]; tauto))))
                    (no_head (freed three_free 4208) 4176
                             ltac:(vm_compute; reflexivity)))
      as (A & B & _).
    rewrite Hp, Hn in A. rewrite Hp, Hn in B.
    split; [exact Hp|]. split; [exact Hn|]. split; [exact A|].
    apply B. lia.
  - assert (Hp : PREVF (freed three_free 4144) 4112 = 4176)
      by (vm_compute; reflexivity).
    assert (Hn : NEXTF (freed three_free 4144) 4112 = 0)
      by (vm_compute; reflexivity).
    pose proof (delete_registered (freed three_free 4144)
                  three_free_table 4112
                  (three_free_call
                     [(4112, 32, false)]
                     [(4176, 32, false); (4208, 32, true); (4240, 32, false);
                      (4272, 32, true); (4304, 64, false)] 4144 32 eq_refl)
                  Hsp Hnd Hdj (Hreg 4112 ltac:(cbn [In]; tauto)))
      as (L & _ & S).
    destruct (S (no_head (freed three_free 4144) 4112
                         ltac:(vm_compute; reflexivity))) as (A & _).
    rewrite Hp, Hn in A.
    split; [exact Hp|]. split; [exact Hn|]. split; [exact A|exact L].
Defined.

(** ** The product of [calloc] *)

(** C9 as stated fails: the wrapped count can be 0, and then nothing is
    allocated.  [calloc(2^32, 2^32)] has the product 2^64, which wraps to
    0; [malloc(0)] returns [NULL] and the heap is left as it was.  The
    wrapped count can also be so large that [malloc] itself wraps:
    [calloc(2, 2^64 - 8)] asks [malloc] for 2^64 - 16 bytes, the adjusted
    size is 0, and [malloc] hands out 4112 while the block there stays
    free with all its 256 bytes: no block is allocated for the count. *)
Lemma calloc_wrapped_to_nothing :
  (2 ^ 64 - 1 < 2 ^ 32 * 2 ^ 32
   /\ wrap (2 ^ 32 * 2 ^ 32) = 0
   /\ calloc 10 booted (2 ^ 32) (2 ^ 32) = Some (booted, NULL))
  /\ (2 ^ 64 - 1 < (2 ^ 64 - 8) * 2
      /\ wrap ((2 ^ 64 - 8) * 2) = 2 ^ 64 - 16
      /\ adjust (2 ^ 64 - 16) = 0
      /\ outcome (malloc 10 booted (2 ^ 64 - 16))
         = Some (4112, [(4112, 256, 0)])).
Proof.
  split.
  - split; [lia|]. split; [reflexivity|].
    unfold calloc.
    replace (wrap (2 ^ 32 * 2 ^ 32)) with 0 by reflexivity.
    rewrite malloc_zero. reflexivity.
  - split; [lia|]. split; [reflexivity|]. split; [reflexivity|].
    vm_compute. reflexivity.
Qed.

(** C9, amended: [calloc] multiplies in [size_t], so the byte count is
    the product modulo 2^64, and nothing checks for overflow: when the
    true product exceeds 2^64 - 1, [calloc(nmemb, size)] is
    [calloc(1, w)] for the wrapped count [w], which is less than the
    product.  With [w = 0] it returns [NULL] and changes nothing.  With
    [0 < w] and [w + 31 < 2^64], in a valid heap, it returns; it returns
    [NULL], with the state unchanged, exactly when the fit search for [w]
    finds nothing and the store refuses to grow; otherwise the block it
    returns was not allocated before, is allocated now and has room for
    [w] bytes, the other allocated blocks are the ones there were, and
    the fill writes 0 to the [w] bytes from the pointer on and to no
    other byte of what [malloc] left. *)
Theorem calloc_wraps_product :
  forall (fuel : nat) (st : state) (nmemb size : Z),
    0 <= nmemb < 2 ^ 64 -> 0 <= size < 2 ^ 64 ->
    2 ^ 64 <= size * nmemb ->
    wrap (size * nmemb) < size * nmemb
    /\ calloc fuel st nmemb size = calloc fuel st 1 (wrap (size * nmemb))
    /\ (wrap (size * nmemb) = 0 ->
        calloc fuel st nmemb size = Some (st, NULL))
    /\ (forall (bl : list block) (fl : table),
          heap_inv st bl fl ->
          0 < wrap (size * nmemb) -> wrap (size * nmemb) + 31 < 2 ^ 64 ->
          (length bl < fuel)%nat ->
          exists st1 st' p,
            malloc fuel st (wrap (size * nmemb)) = Some (st1, p)
            /\ calloc fuel st nmemb size = Some (st', p)
            /\ (p = NULL <->
                find_fit fuel st (adjust (wrap (size * nmemb))) = Some NULL
                /\ snd (mem_sbrk st (grow_size (wrap (size * nmemb))))
                   = wrap (-1))
            /\ (p = NULL -> st' = st)
            /\ (p <> NULL ->
                (exists bl' fl' sp,
                    heap_inv st' bl' fl'
                    /\ In (p, sp, true) bl'
                    /\ wrap (size * nmemb) <= sp - 16
                    /\ ~ (exists s0, In (p, s0, true) bl)
                    /\ (forall b sb, In (b, sb, true) bl'
                                     <-> In (b, sb, true) bl
                                         \/ (b = p /\ sb = sp)))
                /\ seg st' = seg st1 /\ mem_brk st' = mem_brk st1
                /\ (forall a, 0 <= a < 2 ^ 64 ->
                      mem st' a
                      = if (p <=? a) && (a <? p + wrap (size * nmemb))
                        then 0 else mem st1 a))).
Proof.
  intros fuel st nmemb size Hn Hs Hov.
  pose proof (wrap_range (size * nmemb)) as Hw.
  set (w := wrap (size * nmemb)) in *.
  assert (Ec : calloc fuel st nmemb size = calloc fuel st 1 w).
  { unfold calloc. rewrite Z.mul_1_r. fold w. rewrite (wrap_small w Hw).
    reflexivity. }
  split; [lia|]. split; [exact Ec|]. split.
  - intros E0. unfold calloc. fold w. rewrite E0, malloc_zero. reflexivity.
  - intros bl fl Hinv Hpos Hsm Hf.
    destruct (malloc_total fuel st bl fl w Hinv
                (heap_inv_fuel st bl fl fuel Hinv Hf)) as (st1 & p & Em).
    assert (Ec' : calloc fuel st nmemb size
                  = if negb (p =? NULL) then Some (memset st1 p 0 w, p)
                    else Some (st1, p)).
    { unfold calloc. fold w. rewrite Em. reflexivity. }
    destruct (malloc_null_cases fuel st st1 bl fl w p Hinv Em) as [N1 N2].
    destruct (Z.eqb_spec p NULL) as [Ep|Hp]; cbn [negb] in Ec'.
    + exists st1, st1, p. split; [exact Em|]. split; [exact Ec'|].
      split; [|split; [exact N2|contradiction]].
      rewrite N1. split; [intros [H|H]; [lia|exact H]|tauto].
    + exists st1, (memset st1 p 0 w), p.
      split; [exact Em|]. split; [exact Ec'|].
      split; [|split; [contradiction|]].
      { rewrite N1. split; [intros [H|H]; [lia|exact H]|tauto]. }
      intros _.
      assert (E1 : calloc fuel st 1 w = Some (memset st1 p 0 w, p))
        by (rewrite <- Ec; exact Ec').
      destruct (calloc_detail st bl fl 1 w fuel _ p Hinv ltac:(lia) ltac:(lia)
                              ltac:(lia) ltac:(lia) Hf E1) as [_ C2].
      destruct (C2 Hp) as (bl' & fl' & sp & I1 & I2 & I3 & I4 & _ & I5 & _).
      split; [exists bl', fl', sp|].
      { split; [exact I1|]. split; [exact I2|]. split; [lia|].
        split; [exact I4|exact I5]. }
      split; [reflexivity|]. split; [reflexivity|].
      intros a Ha. unfold memset. cbn [mem set_mem].
      rewrite fill_bytes_spec by (rewrite ?Z2Nat.id; lia).
      rewrite Z2Nat.id by lia. change (0 mod 256) with 0.
      pose proof I1 as ((K16 & Kc & Kmax & _) & _).
      pose proof (chain_In _ _ _ _ _ _ Kc I2) as (U1 & U2 & U3 & U4).
      assert (Hpw : 16 <= p /\ p + w <= 2 ^ 64) by lia.
      clear - Ha Hpw Hw.
      destruct (Z.leb_spec p a).
      * rewrite (wrap_small (a - p)) by lia.
        destruct (Z.ltb_spec (a - p) w), (Z.ltb_spec a (p + w));
          cbn [andb]; try reflexivity; lia.
      * cbn [andb]. unfold wrap.
        replace (a - p) with (a - p + 2 ^ 64 + (-1) * 2 ^ 64) by lia.
        rewrite Z.mod_add, Z.mod_small by lia.
        destruct (Z.ltb_spec (a - p + 2 ^ 64) w); [lia|reflexivity].
Qed.

Lemma calloc_wraps_product_witness :
  wrap ((2 ^ 63 + 8) * 2) = 16
  /\ exists st',
       calloc 10 booted 2 (2 ^ 63 + 8) = Some (st', 4112)
       /\ mem st' 4112 = 0 /\ mem st' 4127 = 0
       /\ exists bl' fl' sp, heap_inv st' bl' fl' /\ In (4112, sp, true) bl'.
Proof.
  split; [reflexivity|].
  destruct (proj2 (proj2 (proj2 (calloc_wraps_product 10 booted 2 (2 ^ 63 + 8)
                                   ltac:(lia) ltac:(lia) ltac:(lia))))
                  _ _ booted_inv ltac:(vm_compute; reflexivity)
                  ltac:(vm_compute; reflexivity) ltac:(cbn; lia))
    as (st1 & st' & p & Em & Ec & _ & _ & Hnn).
  assert (E0 : option_map snd (malloc 10 booted (wrap ((2 ^ 63 + 8) * 2)))
               = Some 4112) by (vm_compute; reflexivity).
  rewrite Em in E0. cbn [option_map snd] in E0. injection E0 as ->.
  destruct (Hnn ltac:(discriminate))
    as ((bl' & fl' & sp & I1 & I2 & _) & _ & _ & Hm).
  exists st'. split; [exact Ec|].
  split; [exact (Hm 4112 ltac:(lia))|]. split; [exact (Hm 4127 ltac:(lia))|].
  exists bl', fl', sp. split; [exact I1|exact I2].
Defined.

(** ** Requests that wrap break the heap *)

(** The heap walk is done once it has stopped for a reason other than
    the fuel: more fuel gives the same walk. *)
Lemma walk_stable (st : state) :
  forall (f : nat) (bp : Z),
    (length (walk f st bp) < f)%nat ->
    forall f', (f <= f')%nat -> walk f' st bp = walk f st bp.
Proof.
  induction f as [|f IH]; intros bp Hlen f' Hle; [cbn in Hlen; lia|].
  destruct f' as [|f']; [lia|]. cbn [walk] in *.
  destruct (GET_SIZE st (HDRP bp) =? 0); [reflexivity|].
  cbn [length] in Hlen. f_equal. apply IH; lia.
Qed.

(** C3 as stated fails once a request wraps.  [malloc(2^64 - 15)] works
    with the adjusted size 16 and carves blocks of 16 bytes, too small
    for the two link words of a free block; after the four requests the
    two releases leave a walk in which the free block at 4112 is followed
    by a free block at 4128. *)
Lemma adjacent_free_after_wrap :
  walk 10 wrapped_run (heap_listp wrapped_run)
  = [(4112, 16, 0); (4128, 4160, 0)]
  /\ adjacent_free (walk 10 wrapped_run (heap_listp wrapped_run)) = true
  /\ ~ no_adjacent_free wrapped_run.
Proof.
  assert (E : walk 10 wrapped_run (heap_listp wrapped_run)
              = [(4112, 16, 0); (4128, 4160, 0)]) by (vm_compute; reflexivity).
  split; [exact E|]. split; [rewrite E; reflexivity|].
  intros [k H]. specialize (H (Nat.max k 10) ltac:(lia)).
  rewrite (walk_stable wrapped_run 10 (heap_listp wrapped_run)) in H;
    [|rewrite E; cbn [length]; lia|lia].
  rewrite E in H. discriminate H.
Qed.
